(* ===== verification/_CoqProject ===== *)
-Q . S2P
Prelude.v
JsTime.v
Errors.v
Schema.v
JsonValue.v
Unicode.v
Contracts.v
WorkOrder.v
Authorization.v
Authority.v
Effects.v
Run.v
Events.v
EventsFacts.v
RunStreams.v
StoreInternal.v
LeaseStore.v
EventStore.v
EventStoreFacts.v
Canonicalization.v
CanonicalizationFacts.v
Policy.v
PolicyFacts.v
PolicyExamples.v
Grants.v
AuthorizationReservations.v
ReservationFacts.v
JsNumber.v
JsNumberFacts.v
JsonText.v
JsonFacts.v
JsonRoundTrip.v
Digest.v
Sha256Facts.v
DigestFacts.v
EffectLedger.v
EffectLedgerFacts.v
JsMap.v
JsArithmetic.v
Commands.v
Admission.v
ModelCalls.v
ModelCallFacts.v
Quota.v
ActiveExecution.v
ActiveExecutionFacts.v
QuotaFacts.v
Decisions.v
DecisionFacts.v
AuthorityStores.v
AuthorityStoreFacts.v
WorkOrderStore.v
RecordStores.v
AcknowledgedResults.v
UnitOfWork.v
UnitOfWorkFacts.v
TenantIsolation.v
EffectServices.v
Checkpoints.v
ModelRecords.v
EvidenceRecords.v
HostPorts.v
RuntimeProgram.v
WriteEffect.v
RunChecks.v
RunResume.v
ModelInvocation.v
RunCompletion.v
ExecuteRun.v
Execution.v
RuntimeSessions.v
WriteEffectFacts.v
ExecutionParts.v
ExecutionTermination.v
ExecutionSafety.v
Histories.v
WriteEffectExamples.v
ExecutionExamples.v
