(* ===== verification/Prelude.v ===== *)
(** * Pactmark: a verification library

    Pactmark (TypeScript, packages/*/src) runs agents under explicit authority.
    A validated work order starts a run; the run is an append-only stream of
    events, folded into a projection by a reducer; a lease with a fencing token
    names the one worker that may append; the runtime executes the run turn by
    turn, asking a model what to do and a policy whether a proposed tool call is
    permitted; where an approval is required the decision's owner is asked;
    external effects move through a fixed lifecycle kept in a ledger, and each
    transition of a run is one transaction over all the stores.  Every
    comparison and digest of records goes through canonical JSON.

    This library is a shallow embedding of that core: the records and their
    schemas (packages/core), the policy (packages/policy), the in-memory stores
    and their transactions (packages/store-memory) and the execution of runs
    (packages/runtime).

    ** How the code is modelled

    A function of the source is a function here.  A synchronous method of a
    store is a function from the state to an outcome and a state ([method]
    below): a throw keeps the assignments made before it, and is a value of
    [js_error].  Asynchronous methods of the in-memory stores await once and
    then run synchronously to the end, so one call is one atomic step, and an
    execution of a store is any sequence of calls of any of its methods.  A
    transaction takes a callback, a program over the calls of a transaction
    ([UnitOfWork.tx_program]).  A method of the runtime is a program over the
    calls it makes to its ports ([RuntimeProgram.rt]): what a port answers, a
    value or a throw, is not fixed, so a theorem about a program holds for every
    host, every store and every interleaving the answers may come from.  Where
    the stores matter, a program runs in a session on a world
    ([RuntimeSessions]): transactions and ledger reads are those of the modelled
    unit of work, all else stays arbitrary, and the session may stop anywhere.

    Identifiers are [string]s; values whose text the code inspects (resources,
    JSON strings) are [jsstring], the list of UTF-16 code units; numbers of
    records are [Z] where a schema forces an integer, IEEE doubles
    ([spec_float]) in JSON and in sums of amounts; instants are strings read by
    [Date_parse], NaN being [None].  Maps are [gmap]s, or [JsMap]s where the
    order of insertion shows; a map the source keys by the canonical text of a
    tuple is keyed by the tuple (JsonRoundTrip.canonical_text_determines is what
    makes that faithful).  Records the source compares by canonical text are
    compared by equality, absent optional fields being [None].

    ** Files

    The language and the base.
    - Prelude: outcomes, the state monad of methods, tactics, list lemmas.
    - JsTime, JsNumber, JsMap, JsArithmetic, Unicode: the parts of the host
      language the code uses (dates; number text; insertion-ordered maps; sums
      of doubles; UTF-16 and percent-decoding).  JsNumberFacts: the shortest
      text of a number reads back.
    - Errors: core/errors.ts.  Schema: the field checks of the schemas, with
      [Zod] for the grammars of the schema library.
    - JsonValue, JsonText, Digest: core/serialization.ts.  JsonFacts,
      JsonRoundTrip, Sha256Facts, DigestFacts: their theorems.

    Records of packages/core.
    - Contracts, WorkOrder, Authorization: work orders, tools, grants, approvals
      and reservations.  Effects, Run, Events: effect records, the status
      automaton, the events and their reducer; EventsFacts, RunStreams: one
      reduction inverted, whole streams.
    - Commands, Admission: command identifiers and scopes, quota records.
      ModelRecords, EvidenceRecords, HostPorts: agents, model profiles and
      credentials, evidence, what the ports of a host answer.

    Authority and policy.
    - Authority: core/authority.ts and policy/kill-switch.ts, with the module's
      WeakMap as an explicit store of objects.
    - Canonicalization, Policy, Grants, AuthorizationReservations: the files of
      packages/policy/src of those names.  CanonicalizationFacts, PolicyFacts,
      PolicyExamples, ReservationFacts: their theorems.

    Stores of packages/store-memory.
    - StoreInternal, LeaseStore, EventStore, EffectLedger, ModelCalls, Quota,
      ActiveExecution, Decisions, AuthorityStores, WorkOrderStore, RecordStores,
      AcknowledgedResults: one store each.  EventStoreFacts, EffectLedgerFacts,
      ModelCallFacts, QuotaFacts, ActiveExecutionFacts, DecisionFacts,
      AuthorityStoreFacts: their theorems.
    - UnitOfWork: command-unit-of-work.ts, a suite of all the stores and its
      command and transition transactions.  UnitOfWorkFacts, TenantIsolation.

    The runtime (packages/runtime/src/runtime.ts unless said).
    - EffectServices, Checkpoints, RuntimeProgram: effects.ts; the checkpoint of
      a run; the calls of the runtime, [#append], the heartbeat of a lease and
      [#withActiveExecution].
    - WriteEffect: [#approvedToolCall], [#executeWriteEffect] and what it calls.
    - RunChecks, RunResume: authority, budgets, tool-authority.ts, failures;
      checkpoints, submitted inputs and retries.
    - ModelInvocation, RunCompletion, ExecuteRun, Execution: [#invokeModelCall];
      [#finalize] and [#fail]; the body of the loop of [execute]; [execute] and
      [#executeCompensation].
    - RuntimeSessions: programs on a world.  WriteEffectFacts, ExecutionParts,
      ExecutionTermination, ExecutionSafety, Histories: the theorems;
      WriteEffectExamples, ExecutionExamples: concrete runs.

    ** What the theorems show

    - Executions: in any history of executions of runs, each stopped anywhere and
      interleaved with other transactions, the dispatch of a write effect is on
      record before it is made; it is made again only after a lookup answered
      that the effect was not applied, so at most once where there is no lookup.
      Every tool executed and every effect dispatched was permitted by the policy
      for exactly this call, and approved by the owner where required.  The loop
      of turns ends.
    - Transactions: a transaction of one tenant leaves every other tenant's
      records alone; a failed command changes nothing; commands and transitions
      run once and answer their replays from the record.
    - Runs: which events a projection accepts, exactly; completion needs a
      recorded pass or exception for every required verifier; terminal runs stay
      terminal.
    - Event store and leases: the store refines "projection = fold of the stored
      stream"; at most one append per expected sequence number; appends are
      idempotent; a superseded holder is refused for ever; two leases are never
      active together.
    - Canonical JSON and digests: the strict parser terminates and reads canonical
      text back; canonical texts are equal exactly when the values are; the digest
      is SHA-256 of FIPS 180-4 and determines the value unless SHA-256 collides.
    - Policy, authority, grants: allow is characterised by an equivalence;
      contexts cannot be forged; uses and claims never exceed limits; rejections
      leave no trace; revocation is final; the two grant stores agree.
    - Ledger, quotas, active execution, model calls, decisions: histories follow
      the transition table; sums of reservations stay within limits; records are
      well typed; abandoned reservations are reclaimed; a challenge is consumed
      once, an approval claimed under one key.

    ** Bounds and fuel

    Recursion of the source that is not structural takes fuel, and the fuel is
    proved enough: the JSON parser takes two units per character
    (JsonFacts.parseJsonStrict_terminates); the loop of turns takes 302 iterations
    for each turn of the budget and 302 more (ExecutionTermination.turns_end): a
    turn is retried at most a hundred times for its model and a hundred for its
    tool, each retry being one iteration to fail and one to resume.  Polling of a
    lease's heartbeat while a port works is one arbitrary answer.

    ** Parameters

    Code outside the repository is a class or an argument: [Schema.Zod] (the
    schema library's date-time and URL grammars; law: an accepted date-time is one
    Date.parse reads) and [pick_keeps_strict] (whether its [pick] keeps
    strictness), [Unicode.Unicode] (normalisation and lower-casing tables),
    [Canonicalization.WebUrl] (the URL class), data protectors with the values
    their texts decode to, the strategies of a host, and the ports of the runtime.
    Each property that assumes a law is applied to a concrete instance.

    ** Assumptions of the model

    Amounts of admission and of model calls are integers small enough to add up
    exactly where a theorem speaks of their sum ([whole], [counted]: below 2^52).
    The monotonic clock counts whole milliseconds.  A callback of a transaction
    makes its calls one after the other.  The transaction that records a dispatch
    is not answered from the record of an earlier one: its key carries a fresh
    event identifier.

    ** Not modelled

    - The commands of a run (start, submitInput, approve, reject, reconcileEffect,
      requestCompensation, cancel, resume) and its stream of events to a client;
      the stores and transactions they use are modelled.
    - Identities of schemas and registrations, secrets, strategies and admission
      of packages/policy; the assembly of evidence (packages/evidence).
    - packages/agent, http, mcp, node, cloudflare, vercel, otel, ai-sdk, the
      executors, the command line and the testing kit: adapters to platforms,
      protocols and third-party packages.
    - packages/store-postgres and driver-postgres-worker: their behaviour is SQL
      run by a database. *)

From Stdlib Require Export ZArith Lia SpecFloat.
From stdpp Require Export base list strings gmap option.

#[export] Set Default Goal Selector "!".

Declare Scope js_scope.
Delimit Scope js_scope with js.

(** ** Outcomes

    A synchronous JavaScript call either returns a value or throws; [outcome]
    is that alternative, with stdpp's monad notations for sequencing. *)

Inductive outcome (E A : Type) : Type :=
| Return (a : A)
| Throw (e : E).
Arguments Return {E A} a.
Arguments Throw {E A} e.

#[export] Instance outcome_ret E : MRet (outcome E) := fun A a => Return a.
#[export] Instance outcome_bind E : MBind (outcome E) :=
  fun A B f m => match m with Return a => f a | Throw e => Throw e end.
#[export] Instance outcome_fmap E : FMap (outcome E) :=
  fun A B f m => match m with Return a => Return (f a) | Throw e => Throw e end.
#[export] Instance outcome_eq_dec {E A} `{EqDecision E, EqDecision A} :
  EqDecision (outcome E A).
Proof. solve_decision. Defined.

#[export] Instance Return_inj E A : Inj (=) (=) (@Return E A).
Proof. by intros a b [=]. Qed.

(** [require b e] is the guard [if (!b) throw e]. *)
Definition require {E} (b : bool) (e : E) : outcome E unit :=
  if b then Return tt else Throw e.

(** [orThrow o e] unwraps an optional value or throws. *)
Definition orThrow {E A} (o : option A) (e : E) : outcome E A :=
  match o with Some a => Return a | None => Throw e end.

Definition isReturn {E A} (m : outcome E A) : bool :=
  match m with Return _ => true | Throw _ => false end.

(** ** Stateful operations

    A method of a class with private mutable fields.  The state survives a
    throw: writes made before the exception stay visible, as they do in the
    source, unless the caller restores a snapshot. *)

Definition method (S E A : Type) : Type := S -> outcome E A * S.

Section Method.
Context {S E : Type}.

Definition mreturn {A} (a : A) : method S E A := fun s => (Return a, s).
Definition mthrow {A} (e : E) : method S E A := fun s => (Throw e, s).
Definition mget : method S E S := fun s => (Return s, s).
Definition mput (s' : S) : method S E unit := fun _ => (Return tt, s').
Definition mlift {A} (o : outcome E A) : method S E A := fun s => (o, s).
Definition mthen {A B} (m : method S E A) (k : A -> method S E B) : method S E B :=
  fun s => match m s with
           | (Return a, s') => k a s'
           | (Throw e, s') => (Throw e, s')
           end.

(** A [for] loop over the items of a list that carries a variable. *)
Fixpoint mfold {A B} (body : B -> A -> method S E B) (b : B) (items : list A) : method S E B :=
  match items with
  | [] => mreturn b
  | a :: rest => mthen (body b a) (fun b' => mfold body b' rest)
  end.
End Method.

Notation "'let!' x := m 'in' k" := (mthen m (fun x => k))
  (at level 10, x pattern, m at level 100, k at level 200) : js_scope.
Notation "m ;;! k" := (mthen m (fun _ => k))
  (at level 100, right associativity) : js_scope.

Lemma mthen_assoc {S E A B C} (m : method S E A) (f : A -> method S E B)
    (g : B -> method S E C) s :
  mthen (mthen m f) g s = mthen m (fun a => mthen (f a) g) s.
Proof. unfold mthen. by destruct (m s) as [[a | e] s']. Qed.

Lemma mthen_mlift {S E A B} (o : outcome E A) (k : A -> method S E B) s :
  mthen (mlift o) k s = match o with Return a => k a s | Throw e => (Throw e, s) end.
Proof. by destruct o. Qed.

Lemma mthen_mget {S E B} (k : S -> method S E B) s : mthen mget k s = k s s.
Proof. done. Qed.

(** ** Automation *)

(** Case analysis on the scrutinees of a hypothesis until its outcome is
    known, discarding the branches whose constructor clashes. *)
Ltac unwrap_step H :=
  match type of H with
  | context [match ?x with _ => _ end] =>
      lazymatch x with
      | context [match _ with _ => _ end] => fail
      | _ => let E := fresh "Hc" in destruct x eqn:E
      end
  end; cbn in H; try discriminate H.
Ltac unwrap H := cbn in H; repeat unwrap_step H.

(** Turns boolean tests in the context into propositions. *)
Ltac bools :=
  repeat match goal with
  | H : _ && _ = true |- _ => apply andb_true_iff in H as [? ?]
  | H : _ || _ = false |- _ => apply orb_false_iff in H as [? ?]
  | H : negb _ = true |- _ => apply negb_true_iff in H
  | H : negb _ = false |- _ => apply negb_false_iff in H
  | H : bool_decide _ = true |- _ => apply bool_decide_eq_true in H
  | H : bool_decide _ = false |- _ => apply bool_decide_eq_false in H
  | H : (_ <? _)%Z = true |- _ => apply Z.ltb_lt in H
  | H : (_ <? _)%Z = false |- _ => apply Z.ltb_ge in H
  | H : (_ <=? _)%Z = true |- _ => apply Z.leb_le in H
  | H : (_ <=? _)%Z = false |- _ => apply Z.leb_gt in H
  | H : (_ =? _)%Z = true |- _ => apply Z.eqb_eq in H
  | H : (_ =? _)%Z = false |- _ => apply Z.eqb_neq in H
  end.

Create HintDb pactmark.

(** ** Reachability *)

Section Sequences.
Context {S : Type} (step : S -> S -> Prop).

(** States connected by finitely many steps. *)
Inductive steps : S -> S -> Prop :=
| steps_refl s : steps s s
| steps_cons s1 s2 s3 : step s1 s2 -> steps s2 s3 -> steps s1 s3.

Lemma steps_snoc s1 s2 s3 : steps s1 s2 -> step s2 s3 -> steps s1 s3.
Proof. induction 1; eauto using steps. Qed.

Lemma steps_trans s1 s2 s3 : steps s1 s2 -> steps s2 s3 -> steps s1 s3.
Proof. induction 1; eauto using steps. Qed.

Lemma steps_invariant (P : S -> Prop) s1 s2 :
  (forall s s', P s -> step s s' -> P s') ->
  P s1 -> steps s1 s2 -> P s2.
Proof. intros Hstep HP Hs. induction Hs; eauto. Qed.
End Sequences.

#[export] Hint Constructors steps : pactmark.
#[export] Hint Resolve steps_snoc steps_trans : pactmark.

(** ** Strings of the identifiers *)

(** JavaScript's [String.prototype.trim] on strings of code units below 256:
    TAB, LF, VT, FF, CR, SP and NBSP are white space. *)
Definition is_js_space (c : Ascii.ascii) : bool :=
  let n := Ascii.N_of_ascii c in
  (9 <=? n)%N && (n <=? 13)%N || (n =? 32)%N || (n =? 160)%N.

Fixpoint trim_start (s : string) : string :=
  match s with
  | EmptyString => EmptyString
  | String c s' => if is_js_space c then trim_start s' else s
  end.

Fixpoint trim_end (s : string) : string :=
  match s with
  | EmptyString => EmptyString
  | String c s' =>
      match trim_end s' with
      | EmptyString => if is_js_space c then EmptyString else String c EmptyString
      | t => String c t
      end
  end.

Definition js_trim (s : string) : string := trim_end (trim_start s).

Lemma trim_end_idem s : trim_end (trim_end s) = trim_end s.
Proof.
  induction s as [| c s IH]; [done |]. cbn.
  destruct (trim_end s) as [| d t] eqn:Hs.
  - destruct (is_js_space c) eqn:Hc; [done |]. cbn. by rewrite Hc.
  - cbn [trim_end] in IH |- *. by rewrite IH.
Qed.

Lemma trim_start_trim_end s : trim_start s = s -> trim_start (trim_end s) = trim_end s.
Proof.
  destruct s as [| c s]; cbn; [done |].
  destruct (is_js_space c) eqn:Hc.
  - intros Heq. exfalso. assert (forall u, String.length (trim_start u) <= String.length u)%nat as Hlen.
    { induction u as [| d u IH]; cbn; [lia |]. destruct (is_js_space d); cbn; lia. }
    specialize (Hlen s). rewrite Heq in Hlen. cbn in Hlen. lia.
  - intros _. destruct (trim_end s); cbn; by rewrite Hc.
Qed.

Lemma trim_start_idem s : trim_start (trim_start s) = trim_start s.
Proof. induction s as [| c s IH]; cbn; [done |]. destruct (is_js_space c) eqn:Hc; [done |]. cbn. by rewrite Hc. Qed.

Lemma js_trim_idem s : js_trim (js_trim s) = js_trim s.
Proof. unfold js_trim. rewrite (trim_start_trim_end _ (trim_start_idem s)). apply trim_end_idem. Qed.

Definition js_length (s : string) : Z := Z.of_nat (String.length s).

(** ** Optional maps *)

Lemma mapM_app {A B} (f : A -> option B) l k :
  mapM f (l ++ k) = (x ← mapM f l; y ← mapM f k; Some (x ++ y)).
Proof.
  induction l as [| a l IH]; cbn; [by destruct (mapM f k) |].
  destruct (f a); cbn; [| done]. rewrite IH.
  destruct (mapM f l); cbn; [| done]. by destruct (mapM f k).
Qed.

(** ** Sums over lists of integers *)

Fixpoint sum_of {A} (f : A -> Z) (l : list A) : Z :=
  match l with [] => 0%Z | a :: l' => (f a + sum_of f l')%Z end.

Lemma sum_of_app {A} (f : A -> Z) l k : sum_of f (l ++ k) = (sum_of f l + sum_of f k)%Z.
Proof. induction l as [| a l IH]; cbn; [done | rewrite IH; lia]. Qed.

Lemma sum_of_Permutation {A} (f : A -> Z) l k : l ≡ₚ k -> sum_of f l = sum_of f k.
Proof. induction 1; cbn; lia. Qed.

Lemma sum_of_nonneg {A} (f : A -> Z) l :
  (forall a, a ∈ l -> 0 <= f a)%Z -> (0 <= sum_of f l)%Z.
Proof.
  induction l as [| a l IH]; cbn; intros Hf; [lia |].
  assert (0 <= f a)%Z by (apply Hf; left).
  assert (0 <= sum_of f l)%Z by (apply IH; intros b Hb; apply Hf; by right). lia.
Qed.

Lemma sum_of_filter {A} (f : A -> Z) (p : A -> bool) l :
  sum_of f (filter (fun a => p a = true) l) = sum_of (fun a => if p a then f a else 0%Z) l.
Proof.
  induction l as [| a l IH]; [done |]. rewrite filter_cons. cbn [sum_of].
  destruct (p a) eqn:Hp; case_decide; cbn; rewrite ?IH; done.
Qed.

Lemma sum_of_ext {A} (f g : A -> Z) l : (forall a, a ∈ l -> f a = g a) -> sum_of f l = sum_of g l.
Proof.
  induction l as [| a l IH]; intros Hfg; [done |]. cbn [sum_of]. rewrite (Hfg a) by (by left).
  f_equal. apply IH. intros b Hb. apply Hfg. by right.
Qed.

Lemma sum_of_fmap_eq {A} (f : A -> Z) (g : A -> A) l :
  (forall a, a ∈ l -> f (g a) = f a) -> sum_of f (g <$> l) = sum_of f l.
Proof.
  induction l as [| a l IH]; intros Hg; [done |]. cbn [fmap list_fmap sum_of].
  rewrite (Hg a) by (by left). f_equal. apply IH. intros b Hb. apply Hg. by right.
Qed.

Lemma sum_of_submseteq {A} (f : A -> Z) l k :
  (forall a, a ∈ k -> 0 <= f a)%Z -> l ⊆+ k -> (sum_of f l <= sum_of f k)%Z.
Proof.
  intros Hf Hl. apply submseteq_Permutation in Hl as [m Hm].
  rewrite (sum_of_Permutation _ _ _ Hm), sum_of_app.
  assert (0 <= sum_of f m)%Z; [| lia]. apply sum_of_nonneg. intros a Ha. apply Hf. rewrite Hm. set_solver.
Qed.

Section SumOfMap.
Context `{Countable K} {V : Type} (f : V -> Z).

Lemma sum_of_insert_new (m : gmap K V) k v :
  m !! k = None ->
  sum_of f (map_to_list (<[k := v]> m)).*2 = (f v + sum_of f (map_to_list m).*2)%Z.
Proof. intros Hk. by rewrite (sum_of_Permutation _ _ _ (fmap_Permutation _ _ _ (map_to_list_insert m k v Hk))). Qed.

Lemma sum_of_insert_old (m : gmap K V) k v w :
  m !! k = Some w ->
  sum_of f (map_to_list (<[k := v]> m)).*2 = (sum_of f (map_to_list m).*2 + f v - f w)%Z.
Proof.
  intros Hk. rewrite <- insert_delete_eq, sum_of_insert_new by apply lookup_delete_eq.
  rewrite <- (sum_of_Permutation _ _ _ (fmap_Permutation _ _ _ (map_to_list_delete m k w Hk))).
  cbn. lia.
Qed.
End SumOfMap.
