(* ===== verification/JsTime.v ===== *)
(** * JavaScript instants

    [Date.parse] on the ISO 8601 date-times with an offset that the schemas of
    the source accept, [Date.prototype.toISOString], and the comparisons of the
    resulting numbers, where an unparsable string is NaN and every comparison
    with NaN is false.  Strings outside that grammar parse to NaN. *)

From Stdlib Require Import Ascii.
From S2P Require Import Prelude.

Local Open Scope Z_scope.

(** ** Decimal fields *)

Definition digit_char (d : Z) : Ascii.ascii := Ascii.ascii_of_N (Z.to_N (48 + d)).

Definition digit_value (c : Ascii.ascii) : option Z :=
  let n := Z.of_N (Ascii.N_of_ascii c) in
  if (48 <=? n) && (n <=? 57) then Some (n - 48) else None.

(** [pad n z] prints [z] in exactly [n] decimal digits. *)
Fixpoint pad (n : nat) (z : Z) : string :=
  match n with
  | O => EmptyString
  | S n' => String (digit_char ((z / 10 ^ Z.of_nat n') mod 10)) (pad n' z)
  end.

(** [digits n acc s] reads exactly [n] decimal digits. *)
Fixpoint digits (n : nat) (acc : Z) (s : string) : option (Z * string) :=
  match n with
  | O => Some (acc, s)
  | S n' =>
      match s with
      | String c s' => match digit_value c with
                       | Some d => digits n' (acc * 10 + d) s'
                       | None => None
                       end
      | EmptyString => None
      end
  end.

(** The digits of a fraction: at least one; the first three count. *)
Fixpoint fraction (k : nat) (acc : Z) (s : string) : Z * string :=
  match s with
  | String c s' =>
      match digit_value c with
      | Some d => match k with
                  | S k' => fraction k' (acc * 10 + d) s'
                  | O => fraction O acc s'
                  end
      | None => (acc * 10 ^ Z.of_nat k, s)
      end
  | EmptyString => (acc * 10 ^ Z.of_nat k, s)
  end.

Definition expect (c : Ascii.ascii) (s : string) : option string :=
  match s with
  | String c' s' => if Ascii.eqb c c' then Some s' else None
  | EmptyString => None
  end.

(** ** The proleptic Gregorian calendar *)

Definition days_from_civil (y m d : Z) : Z :=
  let y' := if m <=? 2 then y - 1 else y in
  let era := y' / 400 in
  let yoe := y' mod 400 in
  let mp := if m <=? 2 then m + 9 else m - 3 in
  let doy := (153 * mp + 2) / 5 + d - 1 in
  era * 146097 + (yoe * 365 + yoe / 4 - yoe / 100 + doy) - 719468.

Definition civil_from_days (days : Z) : Z * Z * Z :=
  let z := days + 719468 in
  let era := z / 146097 in
  let doe := z mod 146097 in
  let yoe := (doe - doe / 1460 + doe / 36524 - doe / 146096) / 365 in
  let doy := doe - (365 * yoe + yoe / 4 - yoe / 100) in
  let mp := (5 * doy + 2) / 153 in
  let d := doy - (153 * mp + 2) / 5 + 1 in
  let m := if mp <? 10 then mp + 3 else mp - 9 in
  let y := yoe + era * 400 in
  (if m <=? 2 then y + 1 else y, m, d).

(** ** Printing and parsing *)

Definition MAX_TIME : Z := 8640000000000000.
Definition MS_PER_DAY : Z := 86400000.

Definition year_string (y : Z) : string :=
  if (0 <=? y) && (y <=? 9999) then pad 4 y
  else if y <? 0 then String "-"%char (pad 6 (- y)) else String "+"%char (pad 6 y).

(** [new Date(ms).toISOString()]; [None] is the RangeError of an invalid date. *)
Definition toISOString (ms : Z) : option string :=
  if Z.abs ms <=? MAX_TIME then
    let '(y, m, d) := civil_from_days (ms / MS_PER_DAY) in
    let t := ms mod MS_PER_DAY in
    Some (year_string y ++ String "-"%char (pad 2 m ++ String "-"%char (pad 2 d ++ String "T"%char
      (pad 2 (t / 3600000) ++ String ":"%char (pad 2 (t / 60000 mod 60) ++ String ":"%char
      (pad 2 (t / 1000 mod 60) ++ String "."%char (pad 3 (t mod 1000) ++ "Z")))))))%string
  else None.

Definition parse_year (s : string) : option (Z * string) :=
  match s with
  | String "+"%char s' => digits 6 0 s'
  | String "-"%char s' => '(y, r) ← digits 6 0 s'; if y =? 0 then None else Some (- y, r)
  | _ => digits 4 0 s
  end.

(** The optional seconds and fraction, in milliseconds. *)
Definition parse_seconds (s : string) : option (Z * string) :=
  match s with
  | String ":"%char s1 =>
      '(sec, s2) ← digits 2 0 s1;
      if 60 <=? sec then None else
      match s2 with
      | String "."%char s3 =>
          '(_, _) ← digits 1 0 s3;
          let '(frac, s4) := fraction 3 0 s3 in Some (sec * 1000 + frac, s4)
      | _ => Some (sec * 1000, s2)
      end
  | _ => Some (0, s)
  end.

(** The offset in minutes east of UTC. *)
Definition parse_offset (s : string) : option Z :=
  match s with
  | String "Z"%char EmptyString => Some 0
  | String c s1 =>
      sign ← (if Ascii.eqb c "+"%char then Some 1 else if Ascii.eqb c "-"%char then Some (-1) else None);
      '(h, s2) ← digits 2 0 s1;
      s3 ← expect ":"%char s2;
      '(m, s4) ← digits 2 0 s3;
      match s4 with
      | EmptyString => if (h <=? 23) && (m <=? 59) then Some (sign * (h * 60 + m)) else None
      | String _ _ => None
      end
  | EmptyString => None
  end.

Definition Date_parse (s : string) : option Z :=
  '(y, s) ← parse_year s;
  s ← expect "-"%char s;
  '(mo, s) ← digits 2 0 s;
  s ← expect "-"%char s;
  '(d, s) ← digits 2 0 s;
  s ← expect "T"%char s;
  '(h, s) ← digits 2 0 s;
  s ← expect ":"%char s;
  '(mi, s) ← digits 2 0 s;
  '(sms, s) ← parse_seconds s;
  off ← parse_offset s;
  let t := h * 3600000 + mi * 60000 + sms in
  let ms := days_from_civil y mo d * MS_PER_DAY + t - off * 60000 in
  if (1 <=? mo) && (mo <=? 12) && (1 <=? d) && (d <=? 31) && (mi <=? 59)
     && ((h <=? 23) || (t =? MS_PER_DAY)) && (Z.abs ms <=? MAX_TIME)
  then Some ms else None.

(** ** Comparisons of possibly-NaN instants *)

Definition nan_compare (test : Z -> Z -> bool) (a b : option Z) : bool :=
  match a, b with Some x, Some y => test x y | _, _ => false end.

Definition nan_le := nan_compare Z.leb.
Definition nan_lt := nan_compare Z.ltb.
Definition nan_ge (a b : option Z) := nan_le b a.
Definition nan_gt (a b : option Z) := nan_lt b a.

(** [Date.parse(a) <= Date.parse(b)] and its variants. *)
Definition date_le (a b : string) : bool := nan_le (Date_parse a) (Date_parse b).
Definition date_lt (a b : string) : bool := nan_lt (Date_parse a) (Date_parse b).

(** ** Round trip *)

Lemma string_app_cons c s r : String c s +:+ r = String c (s +:+ r).
Proof. reflexivity. Qed.

Lemma expect_cons c s : expect c (String c s) = Some s.
Proof. unfold expect. by rewrite Ascii.eqb_refl. Qed.

Lemma digit_value_char d : 0 <= d < 10 -> digit_value (digit_char d) = Some d.
Proof.
  intros Hd. assert (d ∈ [0;1;2;3;4;5;6;7;8;9]) as Hin.
  { rewrite !elem_of_cons. lia. }
  repeat (apply elem_of_cons in Hin as [-> | Hin]; [reflexivity |]).
  by apply not_elem_of_nil in Hin.
Qed.

Lemma pad_digits n z acc rest :
  0 <= z < 10 ^ Z.of_nat n ->
  digits n acc (pad n z ++ rest) = Some (acc * 10 ^ Z.of_nat n + z, rest).
Proof.
  assert (forall z, digits n acc (pad n z ++ rest) =
    Some (acc * 10 ^ Z.of_nat n + z mod 10 ^ Z.of_nat n, rest)) as H.
  { clear z. revert acc. induction n as [| n IH]; intros acc z.
    { cbn. by rewrite Z.mod_1_r, Z.add_0_r, Z.mul_1_r. }
    cbn [pad]. rewrite string_app_cons. cbn [digits].
    rewrite digit_value_char by (apply Z.mod_pos_bound; lia).
    rewrite IH. do 2 f_equal.
    rewrite Nat2Z.inj_succ, Z.pow_succ_r by lia.
    rewrite (Z.mul_comm 10 (10 ^ Z.of_nat n)).
    rewrite (Z.rem_mul_r z (10 ^ Z.of_nat n) 10) by lia. nia. }
  intros Hz. rewrite H. by rewrite Z.mod_small.
Qed.

Section Calendar.
Context (days : Z).
Local Abbreviation doe := ((days + 719468) mod 146097).
Local Abbreviation yoe := ((doe - doe / 1460 + doe / 36524 - doe / 146096) / 365).
Local Abbreviation doy := (doe - (365 * yoe + yoe / 4 - yoe / 100)).

Lemma doe_bound : 0 <= doe <= 146096.
Proof. pose proof (Z.mod_pos_bound (days + 719468) 146097). lia. Qed.

Lemma yoe_bound : 0 <= yoe <= 399.
Proof.
  pose proof doe_bound. generalize dependent doe. intros e He.
  Z.to_euclidean_division_equations. lia.
Qed.

Lemma doy_bound : 0 <= doy <= 365.
Proof.
  pose proof doe_bound. generalize dependent doe. intros e He.
  Z.to_euclidean_division_equations. lia.
Qed.
End Calendar.

(** The calendar conversion inverts [days_from_civil] and yields a month and a
    day of month in range. *)
Lemma civil_round_trip days :
  let '(y, m, d) := civil_from_days days in
  days_from_civil y m d = days /\ 1 <= m <= 12 /\ 1 <= d <= 31.
Proof.
  pose proof (doe_bound days) as Hdoe. pose proof (yoe_bound days) as Hyoe.
  pose proof (doy_bound days) as Hdoy.
  pose proof (Z.div_mod (days + 719468) 146097 ltac:(lia)) as Hdays.
  unfold civil_from_days, days_from_civil. cbv zeta.
  set (era := (days + 719468) / 146097) in *.
  set (doe := (days + 719468) mod 146097) in *.
  set (yoe := (doe - doe / 1460 + doe / 36524 - doe / 146096) / 365) in *.
  remember (doe - (365 * yoe + yoe / 4 - yoe / 100)) as doy eqn:Edoy.
  clearbody era doe yoe.
  assert (Hmp : 0 <= (5 * doy + 2) / 153 <= 11) by (Z.to_euclidean_division_equations; lia).
  assert (Hd : 1 <= doy - (153 * ((5 * doy + 2) / 153) + 2) / 5 + 1 <= 31)
    by (Z.to_euclidean_division_equations; lia).
  set (mp := (5 * doy + 2) / 153) in *. clearbody mp.
  assert (Hera : (yoe + era * 400) / 400 = era) by (rewrite Z.div_add, Z.div_small by lia; lia).
  assert (Hymod : (yoe + era * 400) mod 400 = yoe) by (rewrite Z.mod_add, Z.mod_small by lia; lia).
  destruct (mp <? 10) eqn:E10; bools;
    [ replace (mp + 3 <=? 2) with false by (symmetry; apply Z.leb_gt; lia)
    | replace (mp - 9 <=? 2) with true by (symmetry; apply Z.leb_le; lia);
      replace (yoe + era * 400 + 1 - 1) with (yoe + era * 400) by lia ];
    rewrite Hera, Hymod; (split; [| lia]).
  - replace (mp + 3 - 3) with mp by lia. lia.
  - replace (mp - 9 + 9) with mp by lia. lia.
Qed.

Lemma civil_year_bound ms y m d :
  Z.abs ms <= MAX_TIME -> civil_from_days (ms / MS_PER_DAY) = (y, m, d) ->
  - 272000 <= y <= 276000.
Proof.
  intros Hms. unfold civil_from_days. cbv zeta.
  set (days := ms / MS_PER_DAY).
  assert (- 100000000 <= days <= 100000000) as Hdays.
  { unfold days, MS_PER_DAY, MAX_TIME in *. Z.to_euclidean_division_equations; lia. }
  pose proof (yoe_bound days) as Hyoe.
  set (yoe := (_ - _ + _ - _) / 365) in *. clearbody yoe. clearbody days.
  set (m' := if _ <? 10 then _ else _). clearbody m'.
  intros [= <- _ _]. destruct (m' <=? 2); Z.to_euclidean_division_equations; lia.
Qed.

Lemma parse_year_string y rest :
  - 272000 <= y <= 276000 ->
  parse_year (year_string y +:+ rest) = Some (y, rest).
Proof.
  intros Hy. unfold year_string.
  destruct ((0 <=? y) && (y <=? 9999)) eqn:E4; bools.
  - assert (exists c s, pad 4 y = String c s /\ digit_value c <> None) as (c & s & Hp & Hc).
    { eexists _, _; split; [reflexivity |].
      rewrite digit_value_char by (apply Z.mod_pos_bound; lia). done. }
    assert (parse_year (pad 4 y +:+ rest) = digits 4 0 (pad 4 y +:+ rest)) as ->.
    { rewrite Hp, string_app_cons.
      destruct c as [[] [] [] [] [] [] [] []]; try reflexivity; exfalso; by apply Hc. }
    rewrite pad_digits by lia. f_equal.
  - destruct (y <? 0) eqn:Eneg; bools.
    + rewrite string_app_cons. cbn [parse_year]. rewrite pad_digits by lia. cbn [mbind option_bind].
      destruct (0 * _ + - y =? 0) eqn:E0; bools; [lia |]. do 2 f_equal. lia.
    + rewrite string_app_cons. cbn [parse_year]. rewrite pad_digits; [f_equal |].
      destruct (decide (0 <= y <= 9999)) as [Hin |]; [| lia].
      by rewrite (proj2 (Z.leb_le 0 y)), (proj2 (Z.leb_le y 9999)) in E4 by lia.
Qed.

Lemma fraction_pad t rest :
  0 <= t < 1000 -> digit_value (default " "%char (String.get 0 rest)) = None ->
  fraction 3 0 (pad 3 t +:+ rest) = (t, rest).
Proof.
  intros Ht Hrest. cbn [pad]. rewrite !string_app_cons. cbn [fraction].
  rewrite !digit_value_char by (apply Z.mod_pos_bound; lia). cbn [fraction].
  assert (fraction 0 t rest = (t, rest)) as <-.
  { destruct rest as [| c r]; cbn [fraction].
    - f_equal. lia.
    - cbn in Hrest. rewrite Hrest. f_equal. lia. }
  f_equal. cbn. Z.to_euclidean_division_equations; lia.
Qed.

#[local] Arguments pad : simpl never.

(** [Date.parse(new Date(ms).toISOString()) === ms] for every valid time. *)
Lemma Date_parse_toISOString ms s :
  toISOString ms = Some s -> Date_parse s = Some ms.
Proof.
  unfold toISOString. destruct (Z.abs ms <=? MAX_TIME) eqn:Habs; [| done]. bools.
  pose proof (civil_round_trip (ms / MS_PER_DAY)) as Hciv.
  destruct (civil_from_days (ms / MS_PER_DAY)) as [[y m] d] eqn:Ec.
  destruct Hciv as (Hdays & Hm & Hd).
  pose proof (civil_year_bound ms y m d Habs Ec) as Hy.
  assert (0 <= ms mod MS_PER_DAY < MS_PER_DAY) as Ht by (apply Z.mod_pos_bound; done).
  pose proof (Z.div_mod ms MS_PER_DAY ltac:(done)) as Hdm.
  set (t := ms mod MS_PER_DAY) in *. clearbody t. unfold MS_PER_DAY in Ht.
  intros [= <-]. unfold Date_parse.
  rewrite parse_year_string by done. cbn [mbind option_bind]. rewrite expect_cons. cbn [mbind option_bind].
  rewrite pad_digits by lia. cbn [mbind option_bind]. rewrite expect_cons. cbn [mbind option_bind].
  rewrite pad_digits by lia. cbn [mbind option_bind]. rewrite expect_cons. cbn [mbind option_bind].
  rewrite pad_digits by (Z.to_euclidean_division_equations; lia).
  cbn [mbind option_bind]. rewrite expect_cons. cbn [mbind option_bind].
  rewrite pad_digits by (Z.to_euclidean_division_equations; lia).
  cbn [mbind option_bind parse_seconds].
  rewrite pad_digits by (Z.to_euclidean_division_equations; lia). cbn [mbind option_bind].
  rewrite !Z.mul_0_l, !Z.add_0_l.
  rewrite (proj2 (Z.leb_gt 60 (t / 1000 mod 60))) by (Z.to_euclidean_division_equations; lia).
  assert (exists p, digits 1 0 (pad 3 (t mod 1000) +:+ "Z") = Some p) as [[p1 p2] ->].
  { unfold pad. rewrite !string_app_cons. cbn [digits].
    rewrite digit_value_char by (apply Z.mod_pos_bound; lia). eauto. }
  cbn [mbind option_bind].
  rewrite fraction_pad by (done || (Z.to_euclidean_division_equations; lia)).
  cbn [mbind option_bind parse_offset]. cbv zeta.
  rewrite ?Z.mul_0_l, ?Z.add_0_l, Hdays, Z.sub_0_r.
  assert (t / 3600000 * 3600000 + t / 60000 mod 60 * 60000
          + (t / 1000 mod 60 * 1000 + t mod 1000) = t) as ->
    by (Z.to_euclidean_division_equations; lia).
  replace (ms / MS_PER_DAY * MS_PER_DAY + t) with ms by lia.
  assert (t / 60000 mod 60 <=? 59 = true) as -> by
    (apply Z.leb_le; Z.to_euclidean_division_equations; lia).
  assert (t / 3600000 <=? 23 = true) as -> by
    (apply Z.leb_le; Z.to_euclidean_division_equations; lia).
  rewrite !(proj2 (Z.leb_le _ _)) by lia. done.
Qed.

Lemma toISOString_total ms : Z.abs ms <= MAX_TIME -> is_Some (toISOString ms).
Proof.
  intros H. unfold toISOString. rewrite (proj2 (Z.leb_le _ _)) by done.
  destruct (civil_from_days _) as [[??]?]. eauto.
Qed.

Example toISOString_epoch : toISOString 1754222400123 = Some "2025-08-03T12:00:00.123Z".
Proof. reflexivity. Qed.

Example Date_parse_offset : Date_parse "2025-08-03T14:00:00+02:00" = Some 1754222400000.
Proof. reflexivity. Qed.

#[export] Hint Resolve Date_parse_toISOString : pactmark.
#[global] Opaque Date_parse toISOString.
