(* ===== verification/Errors.v ===== *)
(** * The error registry (packages/core/src/errors.ts) and thrown values

    [KafErrorCode] is the closed set of public codes, [KAF_ERROR_REGISTRY]
    their descriptors, [js_error] everything the modelled code throws. *)

From S2P Require Import Prelude.

Inductive KafErrorCode :=
| KAF_SCHEMA_INVALID
| KAF_SERIALIZATION_INVALID_JSON
| KAF_SERIALIZATION_DUPLICATE_KEY
| KAF_SERIALIZATION_INVALID_UNICODE
| KAF_SERIALIZATION_NON_I_JSON_NUMBER
| KAF_SERIALIZATION_UNSUPPORTED_VALUE
| KAF_SERIALIZATION_CYCLIC_VALUE
| KAF_RUNTIME_INVALID_TRANSITION
| KAF_RUNTIME_TERMINAL
| KAF_RUNTIME_EVENT_SEQUENCE
| KAF_RUNTIME_EVENT_BINDING
| KAF_RUNTIME_AGENT_DEFINITION_MISMATCH
| KAF_RUNTIME_MODEL_EMPTY
| KAF_EFFECT_INVALID_TRANSITION
| KAF_EFFECT_ABANDONED_UNCERTAIN
| KAF_AUTHORIZATION_BINDING_MISMATCH
| KAF_AUTHORIZATION_EXPIRED
| KAF_POLICY_DENIED
| KAF_ADMISSION_DENIED
| KAF_STORAGE_CONCURRENCY_CONFLICT
| KAF_STORAGE_NOT_FOUND
| KAF_STORAGE_SECURITY_PROFILE
| KAF_RUNTIME_CAPABILITY_MISSING
| KAF_RUNTIME_NOT_READY
| KAF_MODEL_RESOURCE_LIMIT_EXCEEDED
| KAF_MODEL_CREDENTIAL_REQUIRED
| KAF_MODEL_ADAPTER_MISMATCH
| KAF_TOOL_EXECUTION_FAILED
| KAF_VERIFICATION_REQUIRED
| KAF_EVIDENCE_INVALID_REFERENCE
| KAF_PATTERN_INSUFFICIENT_EVIDENCE
| KAF_COMMAND_IDEMPOTENCY_EXPIRED
| KAF_HTTP_IDEMPOTENCY_CONFLICT.

#[export] Instance KafErrorCode_eq_dec : EqDecision KafErrorCode.
Proof. solve_decision. Defined.

Record ErrorDescriptor := {
  retryable : bool;
  httpStatus : Z;
  message : string;
  documentationSlug : string;
}.

Definition KAF_ERROR_REGISTRY (code : KafErrorCode) : ErrorDescriptor :=
  match code with
  | KAF_SCHEMA_INVALID => Build_ErrorDescriptor false 400%Z
      "The value does not match the required schema." "schema-invalid"
  | KAF_SERIALIZATION_INVALID_JSON => Build_ErrorDescriptor false 400%Z
      "The JSON representation is invalid." "serialization-invalid-json"
  | KAF_SERIALIZATION_DUPLICATE_KEY => Build_ErrorDescriptor false 400%Z
      "The JSON representation contains a duplicate key." "serialization-duplicate-key"
  | KAF_SERIALIZATION_INVALID_UNICODE => Build_ErrorDescriptor false 400%Z
      "The value contains invalid Unicode." "serialization-invalid-unicode"
  | KAF_SERIALIZATION_NON_I_JSON_NUMBER => Build_ErrorDescriptor false 400%Z
      "The value contains a non-I-JSON number." "serialization-number"
  | KAF_SERIALIZATION_UNSUPPORTED_VALUE => Build_ErrorDescriptor false 400%Z
      "The value cannot be represented as canonical JSON." "serialization-unsupported-value"
  | KAF_SERIALIZATION_CYCLIC_VALUE => Build_ErrorDescriptor false 400%Z
      "The value contains a cycle." "serialization-cycle"
  | KAF_RUNTIME_INVALID_TRANSITION => Build_ErrorDescriptor false 409%Z
      "The run event is not valid in the current state." "runtime-invalid-transition"
  | KAF_RUNTIME_TERMINAL => Build_ErrorDescriptor false 409%Z
      "The run is already terminal." "runtime-terminal"
  | KAF_RUNTIME_EVENT_SEQUENCE => Build_ErrorDescriptor true 409%Z
      "The run event sequence conflicts with stored state." "runtime-event-sequence"
  | KAF_RUNTIME_EVENT_BINDING => Build_ErrorDescriptor false 409%Z
      "The event does not belong to this run definition." "runtime-event-binding"
  | KAF_RUNTIME_AGENT_DEFINITION_MISMATCH => Build_ErrorDescriptor false 409%Z
      "The registered agent definition does not match the accepted run." "runtime-agent-definition-mismatch"
  | KAF_RUNTIME_MODEL_EMPTY => Build_ErrorDescriptor false 422%Z
      "The model completed without a runtime emission." "runtime-model-empty"
  | KAF_EFFECT_INVALID_TRANSITION => Build_ErrorDescriptor false 409%Z
      "The effect event is not valid in the current state." "effect-invalid-transition"
  | KAF_EFFECT_ABANDONED_UNCERTAIN => Build_ErrorDescriptor false 409%Z
      "The uncertain effect was abandoned and may have occurred." "effect-abandoned-uncertain"
  | KAF_AUTHORIZATION_BINDING_MISMATCH => Build_ErrorDescriptor false 403%Z
      "The authorization does not match the requested operation." "authorization-binding-mismatch"
  | KAF_AUTHORIZATION_EXPIRED => Build_ErrorDescriptor false 403%Z
      "The authorization has expired." "authorization-expired"
  | KAF_POLICY_DENIED => Build_ErrorDescriptor false 403%Z
      "Policy denied the operation." "policy-denied"
  | KAF_ADMISSION_DENIED => Build_ErrorDescriptor true 429%Z
      "The configured admission or quota limit was reached." "admission-denied"
  | KAF_STORAGE_CONCURRENCY_CONFLICT => Build_ErrorDescriptor true 409%Z
      "Stored state changed concurrently." "storage-concurrency-conflict"
  | KAF_STORAGE_NOT_FOUND => Build_ErrorDescriptor false 404%Z
      "The requested resource was not found." "storage-not-found"
  | KAF_STORAGE_SECURITY_PROFILE => Build_ErrorDescriptor false 503%Z
      "The storage security profile cannot accept this operation." "storage-security-profile"
  | KAF_RUNTIME_CAPABILITY_MISSING => Build_ErrorDescriptor false 503%Z
      "A required runtime capability is unavailable." "runtime-capability-missing"
  | KAF_RUNTIME_NOT_READY => Build_ErrorDescriptor false 503%Z
      "The runtime is not ready for the requested profile." "runtime-not-ready"
  | KAF_MODEL_RESOURCE_LIMIT_EXCEEDED => Build_ErrorDescriptor false 422%Z
      "The model call exceeded its registered resource profile." "model-resource-limit-exceeded"
  | KAF_MODEL_CREDENTIAL_REQUIRED => Build_ErrorDescriptor false 503%Z
      "The model credential boundary is unavailable." "model-credential-required"
  | KAF_MODEL_ADAPTER_MISMATCH => Build_ErrorDescriptor false 409%Z
      "The model adapter does not match the registered model profile." "model-adapter-mismatch"
  | KAF_TOOL_EXECUTION_FAILED => Build_ErrorDescriptor false 422%Z
      "The registered tool execution failed." "tool-execution-failed"
  | KAF_VERIFICATION_REQUIRED => Build_ErrorDescriptor false 409%Z
      "Required verification has not passed." "verification-required"
  | KAF_EVIDENCE_INVALID_REFERENCE => Build_ErrorDescriptor false 409%Z
      "Evidence refers to a missing or incompatible record." "evidence-invalid-reference"
  | KAF_PATTERN_INSUFFICIENT_EVIDENCE => Build_ErrorDescriptor false 409%Z
      "The evidence does not support the requested pattern maturity." "pattern-insufficient-evidence"
  | KAF_COMMAND_IDEMPOTENCY_EXPIRED => Build_ErrorDescriptor false 409%Z
      "The command idempotency horizon has elapsed." "command-idempotency-expired"
  | KAF_HTTP_IDEMPOTENCY_CONFLICT => Build_ErrorDescriptor false 409%Z
      "The idempotency key was already used for different content." "http-idempotency-conflict"
  end.

(** A value of the [details] record of an error. *)
Inductive detail := DStr (s : string) | DNum (n : Z) | DBool (b : bool) | DNull.

#[export] Instance detail_eq_dec : EqDecision detail.
Proof. solve_decision. Defined.

(** What the modelled code throws: a [KafError] with its details, the
    [ZodError] of a failed schema parse, the other error classes (those of the
    policy package, CanonicalJsonError) with their code or reason, a host
    [TypeError], [RangeError] or [DOMException] named AbortError, and the wrapper
    the runtime puts around what a model or a tool throws. *)
Inductive js_error :=
| KafError (code : KafErrorCode) (details : list (string * detail))
| ZodError
| PolicyError (class code : string)
| TypeError (message : string)
| RangeError (message : string)
| AbortError
| BoundaryInvocationError (boundaryError : js_error).

#[export] Instance js_error_eq_dec : EqDecision js_error.
Proof. solve_decision. Defined.

(** [new KafError(code, { details: { reason } })]. *)
Definition KafReason (code : KafErrorCode) (reason : string) : js_error :=
  KafError code [("reason", DStr reason)].

(** The HTTP status the error carries, when it is a [KafError]. *)
Definition error_status (e : js_error) : option Z :=
  match e with KafError code _ => Some (httpStatus (KAF_ERROR_REGISTRY code)) | _ => None end.

Definition error_code (e : js_error) : option KafErrorCode :=
  match e with KafError code _ => Some code | _ => None end.
