(* ===== verification/Schema.v ===== *)
(** * Schema vocabulary

    The field checks the source's schemas are written with.  The schema
    library is not part of the repository: the grammars of its ISO date-time
    check and of its URL check are parameters ([Zod]), and [ZodLaws] is what the stores rely on, that
    a string it accepts is one [Date.parse] understands. *)

From S2P Require Import Prelude JsTime Errors.

Local Open Scope Z_scope.

Class Zod := { zod_datetime : string -> bool; zod_url : string -> bool }.

Class ZodLaws `{Zod} : Prop := {
  zod_datetime_parses s : zod_datetime s = true -> is_Some (Date_parse s);
  zod_datetime_iso ms s :
    toISOString ms = Some s -> 0 <= ms < 253402300800000 -> zod_datetime s = true;
}.

(** [z.string().min(1)] *)
Definition min1 (s : string) : bool := negb (String.eqb s EmptyString).

(** [z.string().min(1).max(n)] *)
Definition min1max (n : Z) (s : string) : bool := min1 s && (js_length s <=? n).

(** [z.string().trim().min(1).max(n)], which returns the trimmed string. *)
Definition trimmed (n : Z) (s : string) : option string :=
  let t := js_trim s in if min1max n t then Some t else None.

Lemma trimmed_idem n s t : trimmed n s = Some t -> trimmed n t = Some t.
Proof.
  unfold trimmed. destruct (min1max n (js_trim s)) eqn:Hm; [| done]. intros [= <-].
  by rewrite js_trim_idem, Hm.
Qed.

Definition MAX_SAFE_INTEGER : Z := 9007199254740991.

Definition is_safe_integer (n : Z) : bool := Z.abs n <=? MAX_SAFE_INTEGER.

(** [z.number().int().positive()] and [z.number().int().nonnegative()] *)
Definition int_positive (n : Z) : bool := is_safe_integer n && (0 <? n).
Definition int_nonnegative (n : Z) : bool := is_safe_integer n && (0 <=? n).

(** An optional field: absent, or present and valid. *)
Definition optional {A} (p : A -> bool) (o : option A) : bool :=
  match o with Some a => p a | None => true end.

Definition all_of {A} (p : A -> bool) (l : list A) : bool := forallb p l.

Definition is_hex_digit (c : Ascii.ascii) : bool :=
  let n := Ascii.N_of_ascii c in
  ((48 <=? n)%N && (n <=? 57)%N) || ((97 <=? n)%N && (n <=? 102)%N).

Fixpoint all_chars (p : Ascii.ascii -> bool) (s : string) : bool :=
  match s with EmptyString => true | String c s' => p c && all_chars p s' end.

Fixpoint strip_prefix (p s : string) : option string :=
  match p, s with
  | EmptyString, _ => Some s
  | String a p', String b s' => if Ascii.eqb a b then strip_prefix p' s' else None
  | String _ _, EmptyString => None
  end.

(** [DigestSchema]: [/^sha256:[0-9a-f]{64}$/] *)
Definition DigestSchema (s : string) : bool :=
  match strip_prefix "sha256:" s with
  | Some h => (js_length h =? 64) && all_chars is_hex_digit h
  | None => false
  end.

(** [Schema.parse] for a schema that only checks. *)
Definition parse {A} (ok : A -> bool) (a : A) : outcome js_error A :=
  if ok a then Return a else Throw ZodError.

Lemma parse_Return {A} (ok : A -> bool) a b :
  parse ok a = Return b <-> ok a = true /\ b = a.
Proof. unfold parse. destruct (ok a); naive_solver. Qed.

Lemma is_safe_integer_spec n :
  is_safe_integer n = true <-> - MAX_SAFE_INTEGER <= n <= MAX_SAFE_INTEGER.
Proof. unfold is_safe_integer. rewrite Z.leb_le. lia. Qed.

Lemma all_of_spec {A} (p : A -> bool) l :
  all_of p l = true <-> forall a, a ∈ l -> p a = true.
Proof.
  unfold all_of. rewrite forallb_forall. setoid_rewrite list_elem_of_In. done.
Qed.

(** The reference instance: date-times are the strings [Date.parse] reads, URLs
    the strings with an https scheme. *)
Definition zod_reference : Zod :=
  {| zod_datetime s := match Date_parse s with Some _ => true | None => false end;
     zod_url s := match strip_prefix "https://" s with Some rest => min1 rest | None => false end |}.

Lemma zod_reference_laws : @ZodLaws zod_reference.
Proof.
  split; cbn.
  - intros s. destruct (Date_parse s); [eauto | done].
  - intros ms s Hs _. by rewrite (Date_parse_toISOString ms s Hs).
Qed.

#[export] Hint Rewrite @parse_Return : pactmark.
