(* ===== verification/JsonValue.v ===== *)
(** * JSON values (JsonValue of packages/core/src/serialization.ts)

    A JavaScript string is its list of UTF-16 code units, a number an IEEE
    binary64 datum in the standard library's [spec_float] form; an object is the
    list of its own enumerable properties in property order. *)

From S2P Require Import Prelude.

Definition jsstring : Type := list N.

#[export] Instance jsstring_eq_dec : EqDecision jsstring := _.
#[export] Instance jsstring_countable : Countable jsstring := _.

(** The code units of an identifier. *)
Fixpoint js (s : string) : jsstring :=
  match s with
  | EmptyString => []
  | String c s' => Ascii.N_of_ascii c :: js s'
  end.

#[export] Instance js_inj : Inj (=) (=) js.
Proof.
  intros s. induction s as [| c s IH]; intros [| c' s'] Heq; cbn in Heq; try done.
  injection Heq as Hc Hs. f_equal; [| by apply IH].
  by rewrite <-(Ascii.ascii_N_embedding c), <-(Ascii.ascii_N_embedding c'), Hc.
Qed.

#[export] Instance spec_float_eq_dec : EqDecision spec_float.
Proof. solve_decision. Defined.

Inductive JsonValue :=
| Jnull
| Jbool (b : bool)
| Jnum (x : spec_float)
| Jstr (s : jsstring)
| Jarr (l : list JsonValue)
| Jobj (fields : list (jsstring * JsonValue)).

Section Induction.
Context (P : JsonValue -> Prop).
Context (Hnull : P Jnull) (Hbool : forall b, P (Jbool b)) (Hnum : forall x, P (Jnum x))
  (Hstr : forall s, P (Jstr s)) (Harr : forall l, Forall P l -> P (Jarr l))
  (Hobj : forall f, Forall (fun kv => P kv.2) f -> P (Jobj f)).

Definition json_ind_nested : forall v, P v :=
  fix go v :=
    match v with
    | Jnull => Hnull
    | Jbool b => Hbool b
    | Jnum x => Hnum x
    | Jstr s => Hstr s
    | Jarr l => Harr l ((fix all l := match l return Forall P l with
        | [] => Forall_nil_2 P
        | v :: l' => Forall_cons_2 P v l' (go v) (all l')
        end) l)
    | Jobj f => Hobj f ((fix all f := match f return Forall (fun kv => P kv.2) f with
        | [] => Forall_nil_2 _
        | kv :: f' => Forall_cons_2 (fun kv => P kv.2) kv f' (go kv.2) (all f')
        end) f)
    end.
End Induction.

#[export] Instance JsonValue_eq_dec : EqDecision JsonValue.
Proof.
  unfold EqDecision. fix go 1. intros v w.
  destruct v as [| b | x | s | l | f], w as [| b' | x' | s' | l' | f'];
    try (right; discriminate).
  - by left.
  - destruct (decide (b = b')); [left | right]; congruence.
  - destruct (decide (x = x')); [left | right]; congruence.
  - destruct (decide (s = s')); [left | right]; congruence.
  - destruct (list_eq_dec go l l'); [left | right]; congruence.
  - assert (EqDecision (jsstring * JsonValue)) as Hkv.
    { intros [k v] [k' v']. destruct (decide (k = k')) as [-> |]; [| right; congruence].
      destruct (go v v'); [left | right]; congruence. }
    destruct (list_eq_dec Hkv f f'); [left | right]; congruence.
Defined.

(** A number JSON can carry. *)
Definition is_finite (x : spec_float) : bool :=
  match x with S754_zero _ | S754_finite _ _ _ => true | _ => false end.

(** [JsonValueSchema]: every number is finite. *)
Fixpoint JsonValueSchema (v : JsonValue) : bool :=
  match v with
  | Jnum x => is_finite x
  | Jarr l => forallb JsonValueSchema l
  | Jobj f => forallb (fun kv => JsonValueSchema kv.2) f
  | _ => true
  end.

(** ** The value a canonical text stands for

    [canonicalJsonStringify] sorts the keys of every object by UTF-16 code units
    and prints both zeros alike; two values have the same canonical text exactly
    when their normal forms are equal, which is how [sameJson] is modelled. *)

Fixpoint key_lt (a b : jsstring) : bool :=
  match a, b with
  | [], [] => false
  | [], _ => true
  | _, [] => false
  | x :: a', y :: b' => (x <? y)%N || ((x =? y)%N && key_lt a' b')
  end.

Section Fields.
Context {V : Type}.

Fixpoint insert_field (k : jsstring) (v : V) (fields : list (jsstring * V))
  : list (jsstring * V) :=
  match fields with
  | [] => [(k, v)]
  | (k', v') :: rest =>
      if key_lt k k' then (k, v) :: fields else (k', v') :: insert_field k v rest
  end.

Definition sort_fields (fields : list (jsstring * V)) : list (jsstring * V) :=
  foldr (fun kv acc => insert_field kv.1 kv.2 acc) [] fields.
End Fields.

Definition number_normal (x : spec_float) : spec_float :=
  match x with S754_zero _ => S754_zero false | _ => x end.

Fixpoint json_normal (v : JsonValue) : JsonValue :=
  match v with
  | Jnum x => Jnum (number_normal x)
  | Jarr l => Jarr (map json_normal l)
  | Jobj f => Jobj (sort_fields (map (fun kv => (kv.1, json_normal kv.2)) f))
  | _ => v
  end.

Definition sameJson (v w : JsonValue) : bool := bool_decide (json_normal v = json_normal w).
