(* ===== verification/Unicode.v ===== *)
(** * Strings of the host language

    Code points, white space, the control and format categories, percent
    decoding, splitting and joining, on strings of UTF-16 code units.  The
    Unicode tables of the engine that the source reaches through
    [String.prototype.normalize] and [toLowerCase] are the class [Unicode];
    [UnicodeLaws] states what the Unicode standard fixes for them. *)

From S2P Require Import Prelude Errors JsonValue.

Local Open Scope N_scope.

Class Unicode := {
  nfc : jsstring -> jsstring;
  toLowerCase : jsstring -> jsstring;
}.

Definition ascii_lower (c : N) : N := if (65 <=? c) && (c <=? 90) then c + 32 else c.

Class UnicodeLaws `{Unicode} : Prop := {
  (** Below U+0300 no character is changed or combines. *)
  nfc_inert s : Forall (fun c => c < 768) s -> nfc s = s;
  toLowerCase_ascii s : Forall (fun c => c < 128) s -> toLowerCase s = map ascii_lower s;
}.

(** The reference instance, exact on strings of code units below U+0080, where
    it is only used in examples. *)
Definition unicode_ascii : Unicode := {| nfc s := s; toLowerCase := map ascii_lower |}.

Lemma unicode_ascii_laws : @UnicodeLaws unicode_ascii.
Proof. by split. Qed.

(** ** Code points and their categories *)

Definition in_range (lo hi c : N) : bool := (lo <=? c) && (c <=? hi).

Definition is_high_surrogate : N -> bool := in_range 55296 56319.
Definition is_low_surrogate : N -> bool := in_range 56320 57343.

(** The code points a regular expression with the [u] flag sees. *)
Fixpoint code_points (s : jsstring) : list N :=
  match s with
  | [] => []
  | c :: s' =>
      match s' with
      | d :: s'' =>
          if is_high_surrogate c && is_low_surrogate d
          then (65536 + (c - 55296) * 1024 + (d - 56320)) :: code_points s''
          else c :: code_points s'
      | [] => [c]
      end
  end.

(** [\p{Cc}] *)
Definition is_control (c : N) : bool := (c <=? 31) || in_range 127 159 c.

(** [\p{Cf}] *)
Definition is_format (c : N) : bool :=
  (c =? 173) || in_range 1536 1541 c || (c =? 1564) || (c =? 1757) || (c =? 1807)
  || in_range 2192 2193 c || (c =? 2274) || (c =? 6158) || in_range 8203 8207 c
  || in_range 8234 8238 c || in_range 8288 8292 c || in_range 8294 8303 c || (c =? 65279)
  || in_range 65529 65531 c || (c =? 69821) || (c =? 69837) || in_range 78896 78911 c
  || in_range 113824 113827 c || in_range 119155 119162 c || (c =? 917505)
  || in_range 917536 917631 c.

(** White space of [String.prototype.trim]. *)
Definition is_white (c : N) : bool :=
  in_range 9 13 c || (c =? 32) || (c =? 160) || (c =? 5760) || in_range 8192 8202 c
  || in_range 8232 8233 c || (c =? 8239) || (c =? 8287) || (c =? 12288) || (c =? 65279).

Fixpoint drop_while {A} (p : A -> bool) (l : list A) : list A :=
  match l with
  | a :: l' => if p a then drop_while p l' else l
  | [] => []
  end.

Definition trim (s : jsstring) : jsstring :=
  reverse (drop_while is_white (reverse (drop_while is_white s))).

Lemma drop_while_idem {A} (p : A -> bool) l : drop_while p (drop_while p l) = drop_while p l.
Proof. induction l as [| a l IH]; cbn; [done |]. destruct (p a) eqn:Ha; [done |]. cbn. by rewrite Ha. Qed.

Lemma drop_while_prefix {A} (p : A -> bool) l k :
  drop_while p l = l -> k `prefix_of` l -> drop_while p k = k.
Proof.
  intros Hl Hp. destruct k as [| a k]; [done |]. destruct Hp as [r ->]. cbn in Hl |- *.
  destruct (p a) eqn:Ha; [| done]. exfalso.
  assert (forall m, length (drop_while p m) <= length m)%nat as Hlen.
  { induction m as [| b m IH]; cbn; [lia |]. destruct (p b); cbn; lia. }
  specialize (Hlen (k ++ r)). rewrite Hl in Hlen. cbn in Hlen. lia.
Qed.

Lemma drop_while_suffix {A} (p : A -> bool) l : drop_while p l `suffix_of` l.
Proof. induction l as [| a l IH]; cbn; [done |]. destruct (p a); [by apply suffix_cons_r | done]. Qed.

Lemma trim_idem s : trim (trim s) = trim s.
Proof.
  unfold trim. set (x := drop_while is_white s).
  rewrite (drop_while_prefix is_white x (reverse (drop_while is_white (reverse x)))).
  - by rewrite reverse_involutive, drop_while_idem.
  - apply drop_while_idem.
  - destruct (drop_while_suffix is_white (reverse x)) as [r Hr]. exists (reverse r).
    rewrite <- reverse_app, <- Hr. by rewrite reverse_involutive.
Qed.

(** ** Searching, splitting and joining *)

Definition starts_with (p s : jsstring) : bool := bool_decide (p `prefix_of` s).

Definition ends_with (p s : jsstring) : bool := bool_decide (p `suffix_of` s).

Definition includes_char (c : N) (s : jsstring) : bool := bool_decide (c ∈ s).

Fixpoint includes (p s : jsstring) : bool :=
  starts_with p s || match s with [] => false | _ :: s' => includes p s' end.

(** [s.split(String.fromCharCode(sep))] *)
Fixpoint split (sep : N) (s : jsstring) : list jsstring :=
  match s with
  | [] => [[]]
  | c :: s' =>
      if c =? sep then [] :: split sep s'
      else match split sep s' with
           | seg :: segs => (c :: seg) :: segs
           | [] => [[c]]
           end
  end.

(** [segments.join(String.fromCharCode(sep))] *)
Fixpoint join (sep : N) (segments : list jsstring) : jsstring :=
  match segments with
  | [] => []
  | [seg] => seg
  | seg :: segs => seg ++ sep :: join sep segs
  end.

(** ** Percent decoding *)

Definition hex_value (c : N) : option N :=
  if in_range 48 57 c then Some (c - 48)
  else if in_range 65 70 c then Some (c - 55)
  else if in_range 97 102 c then Some (c - 87)
  else None.

Inductive decode_token := Unit (c : N) | Byte (b : N).

Definition percent : N := 37.

(** The escapes [%XX] as bytes; [None] is a [%] without two hex digits. *)
Fixpoint percent_tokens (s : jsstring) : option (list decode_token) :=
  match s with
  | [] => Some []
  | c :: s' =>
      if c =? percent then
        match s' with
        | a :: b :: s'' =>
            hi ← hex_value a; lo ← hex_value b; rest ← percent_tokens s'';
            Some (Byte (hi * 16 + lo) :: rest)
        | _ => None
        end
      else rest ← percent_tokens s'; Some (Unit c :: rest)
  end.

Definition is_continuation : N -> bool := in_range 128 191.

Definition utf16 (cp : N) : jsstring :=
  if cp <? 65536 then [cp]
  else [55296 + (cp - 65536) / 1024; 56320 + (cp - 65536) mod 1024].

(** UTF-8: shortest forms only, no surrogates, at most U+10FFFF. *)
Definition cp2 (b b1 : N) : option N :=
  if in_range 194 223 b && is_continuation b1 then Some ((b - 192) * 64 + (b1 - 128)) else None.
Definition cp3 (b b1 b2 : N) : option N :=
  let cp := (b - 224) * 4096 + (b1 - 128) * 64 + (b2 - 128) in
  if in_range 224 239 b && is_continuation b1 && is_continuation b2
     && (2048 <=? cp) && negb (in_range 55296 57343 cp)
  then Some cp else None.
Definition cp4 (b b1 b2 b3 : N) : option N :=
  let cp := (b - 240) * 262144 + (b1 - 128) * 4096 + (b2 - 128) * 64 + (b3 - 128) in
  if in_range 240 244 b && is_continuation b1 && is_continuation b2 && is_continuation b3
     && in_range 65536 1114111 cp
  then Some cp else None.

Fixpoint assemble (l : list decode_token) : option jsstring :=
  match l with
  | [] => Some []
  | Unit c :: l' => s ← assemble l'; Some (c :: s)
  | Byte b :: l' =>
      if b <? 128 then s ← assemble l'; Some (b :: s)
      else
        match l' with
        | Byte b1 :: l1 =>
            match cp2 b b1 with
            | Some cp => s ← assemble l1; Some (utf16 cp ++ s)
            | None =>
                match l1 with
                | Byte b2 :: l2 =>
                    match cp3 b b1 b2 with
                    | Some cp => s ← assemble l2; Some (utf16 cp ++ s)
                    | None =>
                        match l2 with
                        | Byte b3 :: l3 =>
                            cp ← cp4 b b1 b2 b3; s ← assemble l3; Some (utf16 cp ++ s)
                        | _ => None
                        end
                    end
                | _ => None
                end
            end
        | _ => None
        end
  end.

(** [decodeURIComponent]; [None] is the URIError. *)
Definition decodeURIComponent (s : jsstring) : option jsstring :=
  tokens ← percent_tokens s; assemble tokens.

(** ** Lemmas *)

Lemma split_nonempty sep s : split sep s <> [].
Proof. destruct s as [| c s]; cbn; [done |]. destruct (c =? sep); [done |]. by destruct (split sep s). Qed.

Lemma join_split sep s : join sep (split sep s) = s.
Proof.
  induction s as [| c s IH]; cbn; [done |].
  destruct (c =? sep) eqn:Hc.
  - apply N.eqb_eq in Hc as ->. cbn.
    destruct (split sep s) eqn:Hs; [by destruct (split_nonempty sep s) |].
    by rewrite IH.
  - destruct (split sep s) as [| seg segs] eqn:Hs; [by destruct (split_nonempty sep s) |].
    rewrite <-IH. by destruct segs.
Qed.

Lemma split_no_sep sep s seg : seg ∈ split sep s -> sep ∉ seg.
Proof.
  revert seg. induction s as [| c s IH]; cbn; intros seg.
  - rewrite list_elem_of_singleton. intros ->. apply not_elem_of_nil.
  - destruct (c =? sep) eqn:Hc.
    + rewrite elem_of_cons. intros [-> | Hin]; [apply not_elem_of_nil | auto].
    + apply N.eqb_neq in Hc. destruct (split sep s) as [| seg0 segs] eqn:Hs.
      * rewrite list_elem_of_singleton. intros ->. rewrite list_elem_of_singleton. congruence.
      * rewrite elem_of_cons. intros [-> | Hin]; [| apply IH; by right].
        rewrite elem_of_cons. intros [? | Hin]; [congruence |].
        apply (IH seg0); [left | done].
Qed.

Lemma split_app_nosep sep seg : sep ∉ seg -> split sep seg = [seg].
Proof.
  induction seg as [| c seg IH]; cbn; [done |]. rewrite not_elem_of_cons. intros [Hc Hin].
  rewrite (proj2 (N.eqb_neq c sep)) by congruence. by rewrite IH.
Qed.

Lemma split_cons_sep sep seg s : sep ∉ seg -> split sep (seg ++ sep :: s) = seg :: split sep s.
Proof.
  induction seg as [| c seg IH]; cbn; [by rewrite N.eqb_refl |].
  rewrite not_elem_of_cons. intros [Hc Hin].
  rewrite (proj2 (N.eqb_neq c sep)) by congruence. by rewrite IH.
Qed.

Lemma split_join sep segs :
  segs <> [] -> Forall (fun seg => sep ∉ seg) segs -> split sep (join sep segs) = segs.
Proof.
  intros Hne Hall. induction Hall as [| seg segs Hseg Hall IH]; [done |].
  destruct segs as [| seg' segs]; [by apply split_app_nosep |].
  change (join sep (seg :: seg' :: segs)) with (seg ++ sep :: join sep (seg' :: segs)).
  rewrite split_cons_sep by done. by rewrite IH.
Qed.

(** Extending a path by a separator and more text appends segments. *)
Lemma split_app_sep sep s t : split sep (s ++ sep :: t) = split sep s ++ split sep t.
Proof.
  induction s as [| c s IH]; cbn; [by rewrite N.eqb_refl |].
  destruct (c =? sep); [by rewrite IH |]. rewrite IH.
  destruct (split sep s) eqn:Hs; [by destruct (split_nonempty sep s) |]. done.
Qed.

Lemma join_app sep l k : l <> [] -> k <> [] -> join sep (l ++ k) = join sep l ++ sep :: join sep k.
Proof.
  intros Hl Hk. induction l as [| seg l IH]; [done |].
  destruct l as [| seg' l]; [by destruct k |].
  cbn [join app] in *. rewrite IH by done. by rewrite <-app_assoc.
Qed.

(** Path containment as text (equal, or a prefix followed by the separator) is
    containment of segment lists. *)
Lemma text_prefix_iff_segments sep p c :
  c = p \/ (p ++ [sep]) `prefix_of` c <-> split sep p `prefix_of` split sep c.
Proof.
  split.
  - intros [-> | [t ->]]; [done |]. rewrite <-app_assoc. cbn. rewrite split_app_sep.
    by apply prefix_app_r.
  - intros [k Hk]. assert (c = join sep (split sep p ++ k)) as Hc by (by rewrite <-Hk, join_split).
    destruct k as [| seg k].
    + left. by rewrite app_nil_r, join_split in Hc.
    + right. rewrite join_app, join_split in Hc by (done || apply split_nonempty).
      exists (join sep (seg :: k)). by rewrite Hc, <-app_assoc.
Qed.

(** An escape is three code units and becomes one byte. *)
Lemma percent_tokens_length s l :
  percent_tokens s = Some l ->
  (length l <= length s)%nat /\ (percent ∈ s -> length l < length s)%nat
  /\ (percent ∉ s -> l = map Unit s).
Proof.
  revert l. induction s as [s IH] using (induction_ltof1 _ (@length N)); unfold ltof in IH.
  destruct s as [| c s]; cbn; intros l.
  { intros [= <-]. split_and!; [done | by intros ?%not_elem_of_nil | done]. }
  destruct (c =? percent) eqn:Hc.
  - apply N.eqb_eq in Hc as ->. destruct s as [| a [| b s]]; try done.
    destruct (hex_value a) as [hi |]; cbn; [| done]. destruct (hex_value b) as [lo |]; cbn; [| done].
    destruct (percent_tokens s) as [rest |] eqn:Hr; cbn; [| done]. intros [= <-].
    apply IH in Hr as (Hle & _); [| cbn; lia]. cbn. split_and!; [lia | lia |].
    intros Hno. destruct Hno. left.
  - apply N.eqb_neq in Hc. destruct (percent_tokens s) as [rest |] eqn:Hr; cbn; [| done].
    intros [= <-]. apply IH in Hr as (Hle & Hlt & Heq); [| cbn; lia]. cbn. split_and!; [lia | |].
    + intros [? | Hin]%elem_of_cons; [congruence |]. apply Hlt in Hin. lia.
    + rewrite not_elem_of_cons. intros [_ Hin]. by rewrite Heq.
Qed.

Lemma assemble_length l s : assemble l = Some s -> (length s <= length l)%nat.
Proof.
  revert s. induction l as [l IH] using (induction_ltof1 _ (@length decode_token)); unfold ltof in IH.
  destruct l as [| [c | b] l]; cbn; intros s.
  { by intros [= <-]. }
  { destruct (assemble l) as [t |] eqn:Ht; cbn; [| done]. intros [= <-].
    apply IH in Ht; cbn in *; lia. }
  destruct (b <? 128).
  { destruct (assemble l) as [t |] eqn:Ht; cbn; [| done]. intros [= <-].
    apply IH in Ht; cbn in *; lia. }
  assert (forall cp, length (utf16 cp) <= 2)%nat as Hu.
  { intros cp. unfold utf16. destruct (_ <? _); cbn; lia. }
  destruct l as [| [c1 | b1] l1]; try done.
  destruct (cp2 b b1) as [cp |].
  { destruct (assemble l1) as [t |] eqn:Ht; cbn; [| done]. intros [= <-].
    apply IH in Ht; [| cbn; lia]. rewrite length_app. specialize (Hu cp). cbn. lia. }
  destruct l1 as [| [c2 | b2] l2]; try done.
  destruct (cp3 b b1 b2) as [cp |] eqn:Hcp.
  { destruct (assemble l2) as [t |] eqn:Ht; cbn; [| done]. intros [= <-].
    apply IH in Ht; [| cbn; lia]. rewrite length_app. specialize (Hu cp). cbn. lia. }
  destruct l2 as [| [c3 | b3] l3]; try done.
  destruct (cp4 b b1 b2 b3) as [cp |]; cbn; [| done].
  destruct (assemble l3) as [t |] eqn:Ht; cbn; [| done]. intros [= <-].
  apply IH in Ht; [| cbn; lia]. rewrite length_app. specialize (Hu cp). cbn. lia.
Qed.

Lemma assemble_units s : assemble (map Unit s) = Some s.
Proof. induction s as [| c s IH]; cbn; [done |]. by rewrite IH. Qed.

(** The fixed points of percent decoding are the strings without a percent sign. *)
Lemma decode_fixed s : decodeURIComponent s = Some s <-> percent ∉ s.
Proof.
  unfold decodeURIComponent. split.
  - destruct (percent_tokens s) as [l |] eqn:Hl; cbn; [| done]. intros Ha%assemble_length Hin.
    apply percent_tokens_length in Hl as (_ & Hlt & _). specialize (Hlt Hin). lia.
  - intros Hno. assert (percent_tokens s = Some (map Unit s)) as ->; [| apply assemble_units].
    induction s as [| c s IH]; cbn; [done |]. apply not_elem_of_cons in Hno as [Hc Hs].
    rewrite (proj2 (N.eqb_neq c percent)) by congruence. by rewrite IH.
Qed.
