(* ===== verification/Contracts.v ===== *)
(** * Shared contracts of packages/core/src

    The vocabulary the components exchange: principals and tenants
    (authority.ts), the classifications, purposes, resource scopes of a work
    order (work-order.ts) and the references to execution definitions
    (agent.ts, model.ts). *)

From S2P Require Import Prelude JsTime Errors Schema JsonValue Unicode.

Local Open Scope Z_scope.

(** ** authority.ts *)

Inductive PrincipalType := user | service | system_worker.

Record Principal := { principal_type : PrincipalType; principal_id : string }.
Record Tenant := { tenant_id : string }.

Inductive AuthenticationStrength :=
| single_factor | multi_factor | phishing_resistant | user_presence.

(** ** work-order.ts *)

Inductive RiskClass := risk_low | risk_medium | risk_high | risk_critical.

Inductive DataClass :=
| data_public | data_internal | data_confidential | data_restricted | data_highly_restricted.

Record Purpose := { purpose_code : string; purpose_registryVersion : string }.

Inductive ResourceScopeKind :=
| scope_path | scope_url | scope_host | scope_identifier | scope_tenant | scope_urn
| scope_dataset | scope_run | scope_record | scope_artifact | scope_opaque.

Record ResourceScope := {
  scope_kind : ResourceScopeKind;
  scope_value : jsstring;
  scope_normalizationVersion : string;
}.

(** ** agent.ts, model.ts: references to execution definitions *)

Record AgentExecutionDefinitionRef := {
  ad_id : string;
  ad_version : string;
  ad_agentDefinitionDigest : string;
}.

Record CompensationExecutionDefinitionRef := {
  cd_id : string;
  cd_version : string;
  cd_compensationRunDefinitionDigest : string;
  cd_originalAgentDefinitionDigest : string;
  cd_originalEffectDigest : string;
  cd_compensationStrategyRegistrationDigest : string;
  cd_compensationToolRegistrationDigest : string;
}.

Inductive ExecutionDefinitionRef :=
| agent_definition (d : AgentExecutionDefinitionRef)
| compensation_definition (d : CompensationExecutionDefinitionRef).

#[export] Instance PrincipalType_eq_dec : EqDecision PrincipalType.
Proof. solve_decision. Defined.
#[export] Instance Principal_eq_dec : EqDecision Principal.
Proof. solve_decision. Defined.
#[export] Instance Tenant_eq_dec : EqDecision Tenant.
Proof. solve_decision. Defined.
#[export] Instance AuthenticationStrength_eq_dec : EqDecision AuthenticationStrength.
Proof. solve_decision. Defined.
#[export] Instance RiskClass_eq_dec : EqDecision RiskClass.
Proof. solve_decision. Defined.
#[export] Instance DataClass_eq_dec : EqDecision DataClass.
Proof. solve_decision. Defined.
#[export] Instance Purpose_eq_dec : EqDecision Purpose.
Proof. solve_decision. Defined.
#[export] Instance ResourceScopeKind_eq_dec : EqDecision ResourceScopeKind.
Proof. solve_decision. Defined.
#[export] Instance ResourceScope_eq_dec : EqDecision ResourceScope.
Proof. solve_decision. Defined.
#[export] Instance AgentExecutionDefinitionRef_eq_dec : EqDecision AgentExecutionDefinitionRef.
Proof. solve_decision. Defined.
#[export] Instance CompensationExecutionDefinitionRef_eq_dec :
  EqDecision CompensationExecutionDefinitionRef.
Proof. solve_decision. Defined.
#[export] Instance ExecutionDefinitionRef_eq_dec : EqDecision ExecutionDefinitionRef.
Proof. solve_decision. Defined.

(** ** Schemas *)

Definition is_alnum (c : Ascii.ascii) : bool :=
  let n := Ascii.N_of_ascii c in
  ((48 <=? n)%N && (n <=? 57)%N) || ((65 <=? n)%N && (n <=? 90)%N)
  || ((97 <=? n)%N && (n <=? 122)%N).

(** The character class of the tail of an identifier: letters, digits and [._:-]. *)
Definition is_identifier_char (c : Ascii.ascii) : bool :=
  let n := Ascii.N_of_ascii c in
  is_alnum c || (n =? 46)%N || (n =? 95)%N || (n =? 58)%N || (n =? 45)%N.

(** [IdentifierSchema] of agent.ts: [/^[a-zA-Z0-9][a-zA-Z0-9._:-]*$/], at most 200. *)
Definition IdentifierSchema (s : string) : bool :=
  min1max 200 s &&
  match s with
  | String c s' => is_alnum c && all_chars is_identifier_char s'
  | EmptyString => false
  end.

Definition is_digit (c : Ascii.ascii) : bool :=
  match digit_value c with Some _ => true | None => false end.

(** One or more digits, then the rest. *)
Fixpoint skip_digits (s : string) : string :=
  match s with
  | String c s' => if is_digit c then skip_digits s' else s
  | EmptyString => EmptyString
  end.

Definition digits1 (s : string) : option string :=
  match s with
  | String c s' => if is_digit c then Some (skip_digits s') else None
  | EmptyString => None
  end.

Definition is_semver_char (c : Ascii.ascii) : bool :=
  let n := Ascii.N_of_ascii c in is_alnum c || (n =? 46)%N || (n =? 45)%N.

(** [SemverSchema]: digits "." digits "." digits, then an optional "-" suffix. *)
Definition SemverSchema (s : string) : bool :=
  match s1 ← digits1 s; s2 ← strip_prefix "." s1; s3 ← digits1 s2;
        s4 ← strip_prefix "." s3; digits1 s4 with
  | Some EmptyString => true
  | Some s5 => match strip_prefix "-" s5 with
               | Some t => min1 t && all_chars is_semver_char t
               | None => false
               end
  | None => false
  end.

Definition ExecutionDefinitionRefSchema (d : ExecutionDefinitionRef) : bool :=
  match d with
  | agent_definition a =>
      min1max 200 (ad_id a) && min1max 500 (ad_version a)
      && DigestSchema (ad_agentDefinitionDigest a)
  | compensation_definition c =>
      IdentifierSchema (cd_id c) && SemverSchema (cd_version c)
      && DigestSchema (cd_compensationRunDefinitionDigest c)
      && DigestSchema (cd_originalAgentDefinitionDigest c)
      && DigestSchema (cd_originalEffectDigest c)
      && DigestSchema (cd_compensationStrategyRegistrationDigest c)
      && DigestSchema (cd_compensationToolRegistrationDigest c)
  end.

Definition PrincipalSchema (p : Principal) : option Principal :=
  i ← trimmed 256 (principal_id p);
  Some {| principal_type := principal_type p; principal_id := i |}.

Definition TenantSchema (t : Tenant) : option Tenant :=
  i ← trimmed 256 (tenant_id t); Some {| tenant_id := i |}.

(** A parsed value parses to itself. *)
Lemma PrincipalSchema_idem p p' : PrincipalSchema p = Some p' -> PrincipalSchema p' = Some p'.
Proof.
  unfold PrincipalSchema. destruct (trimmed 256 (principal_id p)) as [i |] eqn:Hp; cbn; [| done].
  intros [= <-]. cbn. by rewrite (trimmed_idem _ _ _ Hp).
Qed.

Lemma TenantSchema_idem t t' : TenantSchema t = Some t' -> TenantSchema t' = Some t'.
Proof.
  unfold TenantSchema. destruct (trimmed 256 (tenant_id t)) as [i |] eqn:Ht; cbn; [| done].
  intros [= <-]. cbn. by rewrite (trimmed_idem _ _ _ Ht).
Qed.

Definition PurposeSchema (p : Purpose) : option Purpose :=
  c ← trimmed 128 (purpose_code p);
  v ← trimmed 128 (purpose_registryVersion p);
  Some {| purpose_code := c; purpose_registryVersion := v |}.

Lemma PurposeSchema_idem p p' : PurposeSchema p = Some p' -> PurposeSchema p' = Some p'.
Proof.
  unfold PurposeSchema. destruct (trimmed 128 (purpose_code p)) as [c |] eqn:Hc; cbn; [| done].
  destruct (trimmed 128 (purpose_registryVersion p)) as [v |] eqn:Hv; cbn; [| done].
  intros [= <-]. cbn. by rewrite (trimmed_idem _ _ _ Hc), (trimmed_idem _ _ _ Hv).
Qed.

(** [z.string().trim().min(1).max(n)] on a string of code units *)
Definition trimmed_units (n : Z) (s : jsstring) : option jsstring :=
  let t := trim s in
  if (1 <=? Z.of_nat (length t)) && (Z.of_nat (length t) <=? n) then Some t else None.

Definition ResourceScopeSchema (r : ResourceScope) : option ResourceScope :=
  v ← trimmed_units 2048 (scope_value r);
  n ← trimmed 64 (scope_normalizationVersion r);
  Some {| scope_kind := scope_kind r; scope_value := v; scope_normalizationVersion := n |}.

(** [z.array(schema).min(lo).max(hi)] *)
Definition array_of {A} (lo hi : Z) (p : A -> option A) (l : list A) : option (list A) :=
  if (lo <=? Z.of_nat (length l)) && (Z.of_nat (length l) <=? hi) then mapM p l else None.

Lemma trimmed_units_idem n s t : trimmed_units n s = Some t -> trimmed_units n t = Some t.
Proof.
  unfold trimmed_units. destruct (_ && _) eqn:Hv; [| done]. intros [= <-]. by rewrite trim_idem, Hv.
Qed.

Lemma ResourceScopeSchema_idem r r' : ResourceScopeSchema r = Some r' -> ResourceScopeSchema r' = Some r'.
Proof.
  unfold ResourceScopeSchema. destruct (trimmed_units 2048 _) as [v |] eqn:Hv; cbn; [| done].
  destruct (trimmed 64 _) as [n |] eqn:Hn; cbn; [| done]. intros [= <-]. cbn.
  by rewrite (trimmed_units_idem _ _ _ Hv), (trimmed_idem _ _ _ Hn).
Qed.

Lemma array_of_idem {A} lo hi (p : A -> option A) l l' :
  (forall a a', p a = Some a' -> p a' = Some a') -> array_of lo hi p l = Some l' -> array_of lo hi p l' = Some l'.
Proof.
  intros Hp. unfold array_of. destruct (_ && _) eqn:Hl; [| done]. intros Hm.
  rewrite <- (length_mapM _ _ _ Hm), Hl. apply mapM_Some in Hm. apply mapM_Some.
  clear Hl. induction Hm; constructor; eauto.
Qed.

(** The digest and agent of the examples. *)
Definition example_digest : string :=
  "sha256:0000000000000000000000000000000000000000000000000000000000000000".

Definition example_agent : ExecutionDefinitionRef :=
  agent_definition {| ad_id := "agent"; ad_version := "1.0.0";
                      ad_agentDefinitionDigest := example_digest |}.
