(* ===== verification/WorkOrder.v ===== *)
(** * Accepted work orders and tool registrations
    (packages/core/src/work-order.ts, tool.ts)

    The two records every policy decision reads, with their schemas.  A schema
    that trims returns the trimmed record. *)

From S2P Require Import Prelude JsTime Errors Schema JsonValue Unicode Contracts.

Local Open Scope Z_scope.

(** ** Numbers *)

(** [z.number().nonnegative()] *)
Definition number_nonnegative (x : spec_float) : bool :=
  is_finite x && negb (SFltb x (S754_zero false)).

(** [z.array(z.string().trim().min(1).max(n)).max(k)] *)
Definition trimmed_array (n k : Z) (l : list string) : option (list string) :=
  array_of 0 k (trimmed n) l.

Definition optional_trimmed (n : Z) (o : option string) : option (option string) :=
  match o with None => Some None | Some s => Some <$> trimmed n s end.

Definition checked {A} (b : bool) (a : A) : option A := if b then Some a else None.

(** ** Work orders *)

Inductive WorkMode :=
| mode_assist | mode_augment | mode_automate | mode_apprenticeship_protected
| mode_critical_human_decision.

Inductive AutonomyMode :=
| autonomy_assist | autonomy_co_produce | autonomy_delegate_review | autonomy_exception_based
| autonomy_closed_loop.

Record WorkContext := {
  wc_roleFamily : string;
  wc_workflowId : string;
  wc_riskClass : RiskClass;
}.

Inductive AcceptedDecisionOwner :=
| owner_principal (principal : Principal)
| owner_registered_role (role : string).

Inductive RetentionPolicy :=
| retain_session
| retain_until (expiresAt : string)
| retain_host_policy (policyId : string).

Record MonetaryCeiling := {
  mc_amount : spec_float;
  mc_currency : string;
  mc_maximumPriceBoundVersion : string;
  mc_maximumPriceBoundExpiresAt : string;
}.

Record WorkBudget := {
  wb_maxTurns : Z;
  wb_maxModelCalls : Z;
  wb_maxToolCalls : Z;
  wb_maxActiveExecutionMs : Z;
  wb_maxModelInputBytesPerCall : option Z;
  wb_maxModelInputTokensPerCall : option Z;
  wb_maxModelOutputTokensPerCall : option Z;
  wb_maxStreamedOutputBytesPerCall : option Z;
  wb_maxStreamedOutputEventsPerCall : option Z;
  wb_maxToolResultContextBytesPerCall : option Z;
  wb_maxContextSnapshotBytes : option Z;
  wb_maxRunModelInputBytes : option Z;
  wb_maxRunModelOutputBytes : option Z;
  wb_maxRunModelInputTokens : option Z;
  wb_maxRunModelOutputTokens : option Z;
  wb_maxRunToolResultContextBytes : option Z;
  wb_monetaryCeiling : option MonetaryCeiling;
}.

(** [AcceptedWorkOrderCommonShape] *)
Record WorkOrderCommon := {
  wo_id : string;
  wo_createdAt : string;
  wo_goal : string;
  wo_input : JsonValue;
  wo_context : WorkContext;
  wo_workMode : WorkMode;
  wo_autonomyMode : AutonomyMode;
  wo_decisionOwner : AcceptedDecisionOwner;
  wo_purpose : Purpose;
  wo_dataClass : DataClass;
  wo_retention : RetentionPolicy;
  wo_principal : Principal;
  wo_tenant : Tenant;
  wo_requestedCapabilities : list string;
  wo_resourceScopeCeiling : list ResourceScope;
  wo_budget : WorkBudget;
  wo_workflowContext : option (list (jsstring * JsonValue));
  wo_correlationId : option string;
  wo_deadline : option string;
  wo_region : option string;
  wo_jurisdiction : option string;
  wo_workOrderBindingDigest : string;
}.

Inductive WorkOrderKind :=
| agent_work_order (executionDefinition : AgentExecutionDefinitionRef)
    (modelSecurityProfileDigest modelResourceProfileDigest
     modelAdapterRegistrationDigest : string)
| compensation_work_order (executionDefinition : CompensationExecutionDefinitionRef)
    (originalRunId originalEffectId originalEffectDigest originalEffectResultDigest
     originalEffectAcknowledgementDigest compensationStrategyRegistrationDigest
     compensationToolId compensationToolVersion compensationToolRegistrationDigest : string).

Record AcceptedWorkOrder := {
  wo_common : WorkOrderCommon;
  wo_executionDefinitionDigest : string;
  wo_kind : WorkOrderKind;
}.

Section WorkOrderSchemas.
Context `{Zod}.

Definition WorkContextSchema (c : WorkContext) : option WorkContext :=
  role ← trimmed 128 (wc_roleFamily c);
  workflow ← trimmed 256 (wc_workflowId c);
  Some {| wc_roleFamily := role; wc_workflowId := workflow; wc_riskClass := wc_riskClass c |}.

Definition AcceptedDecisionOwnerSchema (o : AcceptedDecisionOwner) : option AcceptedDecisionOwner :=
  match o with
  | owner_principal p => owner_principal <$> PrincipalSchema p
  | owner_registered_role r => owner_registered_role <$> trimmed 128 r
  end.

Definition RetentionPolicySchema (r : RetentionPolicy) : option RetentionPolicy :=
  match r with
  | retain_session => Some retain_session
  | retain_until at_ => checked (zod_datetime at_) (retain_until at_)
  | retain_host_policy p => retain_host_policy <$> trimmed 256 p
  end.

Definition is_upper_letter (c : Ascii.ascii) : bool :=
  let n := Ascii.N_of_ascii c in (65 <=? n)%N && (n <=? 90)%N.

Definition MonetaryCeilingSchema (m : MonetaryCeiling) : option MonetaryCeiling :=
  version ← trimmed 128 (mc_maximumPriceBoundVersion m);
  checked (number_nonnegative (mc_amount m)
           && (js_length (mc_currency m) =? 3) && all_chars is_upper_letter (mc_currency m)
           && zod_datetime (mc_maximumPriceBoundExpiresAt m))
    {| mc_amount := mc_amount m; mc_currency := mc_currency m;
       mc_maximumPriceBoundVersion := version;
       mc_maximumPriceBoundExpiresAt := mc_maximumPriceBoundExpiresAt m |}.

Definition WorkBudgetSchema (b : WorkBudget) : option WorkBudget :=
  ceiling ← match wb_monetaryCeiling b with
            | None => Some None
            | Some m => Some <$> MonetaryCeilingSchema m
            end;
  let '(Build_WorkBudget turns calls tools ms o1 o2 o3 o4 o5 o6 o7 o8 o9 o10 o11 o12 _) := b in
  checked (forallb int_positive [turns; calls; tools; ms]
           && forallb (optional int_positive) [o1; o2; o3; o4; o5; o6; o7; o8; o9; o10; o11; o12])
    (Build_WorkBudget turns calls tools ms o1 o2 o3 o4 o5 o6 o7 o8 o9 o10 o11 o12 ceiling).

Definition WorkOrderCommonSchema (w : WorkOrderCommon) : option WorkOrderCommon :=
  id ← trimmed 256 (wo_id w);
  context ← WorkContextSchema (wo_context w);
  owner ← AcceptedDecisionOwnerSchema (wo_decisionOwner w);
  purpose ← PurposeSchema (wo_purpose w);
  retention ← RetentionPolicySchema (wo_retention w);
  principal ← PrincipalSchema (wo_principal w);
  tenant ← TenantSchema (wo_tenant w);
  capabilities ← trimmed_array 256 256 (wo_requestedCapabilities w);
  ceiling ← array_of 0 256 ResourceScopeSchema (wo_resourceScopeCeiling w);
  budget ← WorkBudgetSchema (wo_budget w);
  correlation ← optional_trimmed 256 (wo_correlationId w);
  region ← optional_trimmed 128 (wo_region w);
  jurisdiction ← optional_trimmed 128 (wo_jurisdiction w);
  checked (zod_datetime (wo_createdAt w) && min1max 32768 (wo_goal w)
           && JsonValueSchema (wo_input w)
           && optional (forallb (fun kv => JsonValueSchema kv.2)) (wo_workflowContext w)
           && optional zod_datetime (wo_deadline w)
           && DigestSchema (wo_workOrderBindingDigest w))
    {| wo_id := id; wo_createdAt := wo_createdAt w; wo_goal := wo_goal w; wo_input := wo_input w;
       wo_context := context; wo_workMode := wo_workMode w; wo_autonomyMode := wo_autonomyMode w;
       wo_decisionOwner := owner; wo_purpose := purpose; wo_dataClass := wo_dataClass w;
       wo_retention := retention; wo_principal := principal; wo_tenant := tenant;
       wo_requestedCapabilities := capabilities; wo_resourceScopeCeiling := ceiling;
       wo_budget := budget; wo_workflowContext := wo_workflowContext w;
       wo_correlationId := correlation; wo_deadline := wo_deadline w; wo_region := region;
       wo_jurisdiction := jurisdiction;
       wo_workOrderBindingDigest := wo_workOrderBindingDigest w |}.

Definition WorkOrderKindSchema (k : WorkOrderKind) : option WorkOrderKind :=
  match k with
  | agent_work_order def security resource adapter =>
      checked (ExecutionDefinitionRefSchema (agent_definition def) && DigestSchema security
               && DigestSchema resource && DigestSchema adapter) k
  | compensation_work_order def run effect effectDigest result ack strategy tool version reg =>
      run ← trimmed 256 run; effect ← trimmed 256 effect;
      tool ← trimmed 256 tool; version ← trimmed 128 version;
      checked (ExecutionDefinitionRefSchema (compensation_definition def)
               && DigestSchema effectDigest && DigestSchema result && DigestSchema ack
               && DigestSchema strategy && DigestSchema reg)
        (compensation_work_order def run effect effectDigest result ack strategy tool version reg)
  end.

Definition AcceptedWorkOrderSchema (w : AcceptedWorkOrder) : option AcceptedWorkOrder :=
  common ← WorkOrderCommonSchema (wo_common w);
  kind ← WorkOrderKindSchema (wo_kind w);
  checked (DigestSchema (wo_executionDefinitionDigest w))
    {| wo_common := common; wo_executionDefinitionDigest := wo_executionDefinitionDigest w;
       wo_kind := kind |}.
End WorkOrderSchemas.

(** ** Tools *)

Inductive ToolRiskClass := R0 | R1 | R2 | R3 | R4 | R5.
Inductive HttpMethod := GET | HEAD | POST | PUT | PATCH | DELETE.

Inductive ToolEgress :=
| egress_none
| egress_allowlist (destinations : list string) (methods : list HttpMethod)
    (credentialSlots : list string).

Inductive Reversibility := not_applicable | compensatable | irreversible.
Inductive NetworkEnforcement := network_required | network_declared_ok.

Record ToolSecurity := {
  ts_riskClass : ToolRiskClass;
  ts_dataClasses : list DataClass;
  ts_reversibility : Reversibility;
  ts_requiredScopes : list string;
  ts_egress : ToolEgress;
  ts_networkEnforcement : NetworkEnforcement;
  ts_maxCallsPerRun : Z;
  ts_timeoutMs : Z;
  ts_costCeiling : option spec_float;
}.

Inductive ToolEffectStrategyKind :=
| tool_read | tool_native | tool_transactional | tool_reconcilable | tool_none.

Record ToolRegistrationContract := {
  tool_id : string;
  tool_implementationVersion : string;
  tool_description : string;
  tool_inputSchemaDigest : string;
  tool_outputSchemaDigest : string;
  tool_security : ToolSecurity;
  tool_previewStrategyRegistrationDigest : option string;
  tool_effectStrategyKind : ToolEffectStrategyKind;
  tool_effectStrategyRegistrationDigest : string;
  tool_compensationStrategyRegistrationDigest : option string;
  tool_executorKind : string;
  tool_executorVersion : string;
  tool_toolRegistrationDigest : string;
}.

#[export] Instance ToolRiskClass_eq_dec : EqDecision ToolRiskClass.
Proof. solve_decision. Defined.
#[export] Instance Reversibility_eq_dec : EqDecision Reversibility.
Proof. solve_decision. Defined.
#[export] Instance NetworkEnforcement_eq_dec : EqDecision NetworkEnforcement.
Proof. solve_decision. Defined.
#[export] Instance ToolEffectStrategyKind_eq_dec : EqDecision ToolEffectStrategyKind.
Proof. solve_decision. Defined.
#[export] Instance HttpMethod_eq_dec : EqDecision HttpMethod.
Proof. solve_decision. Defined.
#[export] Instance ToolEgress_eq_dec : EqDecision ToolEgress.
Proof. solve_decision. Defined.
#[export] Instance ToolSecurity_eq_dec : EqDecision ToolSecurity.
Proof. solve_decision. Defined.
#[export] Instance ToolRegistrationContract_eq_dec : EqDecision ToolRegistrationContract.
Proof. solve_decision. Defined.

Definition is_lower_alnum (c : Ascii.ascii) : bool :=
  let n := Ascii.N_of_ascii c in
  ((48 <=? n)%N && (n <=? 57)%N) || ((97 <=? n)%N && (n <=? 122)%N).

(** [[a-z0-9._-]] *)
Definition is_tool_char (c : Ascii.ascii) : bool :=
  is_lower_alnum c || bool_decide (Ascii.N_of_ascii c ∈ [46; 95; 45]%N).

(** After the first character: some dot is followed by [[a-z0-9]], the text up
    to the at sign is in the class, and digits follow it. *)
Fixpoint tool_id_tail (dotted : bool) (s : string) : bool :=
  match s with
  | EmptyString => false
  | String c s' =>
      if (Ascii.N_of_ascii c =? 64)%N then dotted && min1 s' && all_chars is_digit s'
      else is_tool_char c &&
           tool_id_tail (dotted || ((Ascii.N_of_ascii c =? 46)%N &&
             match s' with String d _ => is_lower_alnum d | EmptyString => false end)) s'
  end.

(** [/^[a-z0-9][a-z0-9._-]*\.[a-z0-9][a-z0-9._-]*@\d+$/] *)
Definition ToolIdSchema (s : string) : bool :=
  match s with String c s' => is_lower_alnum c && tool_id_tail false s' | EmptyString => false end.

Section ToolSchemas.
Context `{Zod}.

Definition ToolEgressSchema (e : ToolEgress) : bool :=
  match e with
  | egress_none => true
  | egress_allowlist destinations methods slots =>
      negb (bool_decide (destinations = [])) && all_of zod_url destinations
      && negb (Nat.eqb (length methods) 0) && all_of min1 slots
  end.

Definition ToolSecuritySchema (t : ToolSecurity) : bool :=
  negb (bool_decide (ts_dataClasses t = [])) && all_of min1 (ts_requiredScopes t)
  && ToolEgressSchema (ts_egress t) && int_positive (ts_maxCallsPerRun t)
  && int_positive (ts_timeoutMs t) && optional number_nonnegative (ts_costCeiling t).

Definition ToolRegistrationContractSchema (t : ToolRegistrationContract) : bool :=
  ToolIdSchema (tool_id t) && min1 (tool_implementationVersion t) && min1 (tool_description t)
  && DigestSchema (tool_inputSchemaDigest t) && DigestSchema (tool_outputSchemaDigest t)
  && ToolSecuritySchema (tool_security t)
  && optional DigestSchema (tool_previewStrategyRegistrationDigest t)
  && DigestSchema (tool_effectStrategyRegistrationDigest t)
  && optional DigestSchema (tool_compensationStrategyRegistrationDigest t)
  && min1 (tool_executorKind t) && min1 (tool_executorVersion t)
  && DigestSchema (tool_toolRegistrationDigest t).
End ToolSchemas.

Example tool_id_ok : ToolIdSchema "mail.send@1" = true.
Proof. reflexivity. Qed.
Example tool_id_no_dot : ToolIdSchema "mail@1" = false.
Proof. reflexivity. Qed.
Example tool_id_end_dot : ToolIdSchema "mail.@1" = false.
Proof. reflexivity. Qed.
