(* ===== verification/Authorization.v ===== *)
(** * Grants, approvals and reservations (packages/core/src/capability.ts,
    decision.ts, authorization-reservation.ts)

    The records that carry authority, with their schemas. *)

From S2P Require Import Prelude JsTime Errors Schema JsonValue Unicode Contracts WorkOrder.

Local Open Scope Z_scope.

(** ** Capability grants *)

(** [CapabilityGrantBindingSchema]: what a grant is bound to. *)
Record CapabilityGrantBinding := {
  gb_issuerId : string;
  gb_principal : Principal;
  gb_tenant : Tenant;
  gb_workOrderId : string;
  gb_workOrderBindingDigest : string;
  gb_executionDefinition : ExecutionDefinitionRef;
  gb_executionDefinitionDigest : string;
  gb_capability : string;
  gb_action : string;
  gb_toolId : string;
  gb_toolVersion : string;
  gb_toolRegistrationDigest : string;
  gb_normalizedResources : list ResourceScope;
  gb_purpose : Purpose;
  gb_policyRegistrationDigest : string;
}.

Record CapabilityGrant := {
  gr_id : string;
  gr_binding : CapabilityGrantBinding;
  gr_maximumUses : Z;
  gr_issuedAt : string;
  gr_expiresAt : string;
  gr_revokedAt : option string;
}.

Record CapabilityGrantUseClaim := {
  uc_grantId : string;
  uc_authorizationKey : string;
  uc_useNumber : Z;
  uc_claimedAt : string;
}.

Inductive CapabilityGrantResolution :=
| resolution_active (grant : CapabilityGrant) (usesRemaining : Z)
| resolution_missing | resolution_expired | resolution_revoked | resolution_exhausted
| resolution_binding_mismatch.

(** ** Approvals *)

Record ProposedEffectBinding := {
  pe_tenant : Tenant;
  pe_principal : Principal;
  pe_runId : string;
  pe_stepId : string;
  pe_decisionId : string;
  pe_workOrderBindingDigest : string;
  pe_executionDefinition : ExecutionDefinitionRef;
  pe_executionDefinitionDigest : string;
  pe_toolId : string;
  pe_toolVersion : string;
  pe_toolRegistrationDigest : string;
  pe_argumentsDigest : string;
  pe_targetDigest : string;
  pe_contentDigest : option string;
  pe_previewDigest : string;
  pe_purpose : Purpose;
  pe_policyRegistrationDigest : string;
}.

(** [maximumUses] is the literal 1. *)
Record Approval := {
  ap_id : string;
  ap_issuerId : string;
  ap_challengeId : string;
  ap_challengeProofDigest : string;
  ap_binding : ProposedEffectBinding;
  ap_approvedBy : Principal;
  ap_authenticationStrength : AuthenticationStrength;
  ap_createdAt : string;
  ap_expiresAt : string;
}.

(** ** Authorization reservations *)

Inductive ReservationState :=
| reservation_reserved | reservation_consumed | reservation_expired | reservation_revoked.

Record AuthorizationReservation := {
  res_authorizationReservationId : string;
  res_authorizationKey : string;
  res_tenantId : string;
  res_runId : string;
  res_stepId : string;
  res_toolCallId : string;
  res_effectKey : option string;
  res_workOrderBindingDigest : string;
  res_executionDefinition : ExecutionDefinitionRef;
  res_executionDefinitionDigest : string;
  res_toolId : string;
  res_toolVersion : string;
  res_toolRegistrationDigest : string;
  res_policyRegistrationDigest : string;
  res_argumentsDigest : string;
  res_normalizedTargetDigest : string;
  res_grantId : string;
  res_approvalId : option string;
  res_secretRefIds : list string;
  res_purposeCode : string;
  res_purposeRegistryVersion : string;
  res_state : ReservationState;
  res_createdAt : string;
  res_expiresAt : string;
  res_consumedAt : option string;
}.

#[export] Instance CapabilityGrantBinding_eq_dec : EqDecision CapabilityGrantBinding.
Proof. solve_decision. Defined.
#[export] Instance CapabilityGrant_eq_dec : EqDecision CapabilityGrant.
Proof. solve_decision. Defined.
#[export] Instance CapabilityGrantUseClaim_eq_dec : EqDecision CapabilityGrantUseClaim.
Proof. solve_decision. Defined.
#[export] Instance ProposedEffectBinding_eq_dec : EqDecision ProposedEffectBinding.
Proof. solve_decision. Defined.
#[export] Instance Approval_eq_dec : EqDecision Approval.
Proof. solve_decision. Defined.
#[export] Instance ReservationState_eq_dec : EqDecision ReservationState.
Proof. solve_decision. Defined.
#[export] Instance AuthorizationReservation_eq_dec : EqDecision AuthorizationReservation.
Proof. solve_decision. Defined.

(** ** Schemas *)

Section Schemas.
Context `{Zod}.

Definition CapabilityGrantBindingSchema (b : CapabilityGrantBinding)
  : option CapabilityGrantBinding :=
  issuer ← trimmed 256 (gb_issuerId b);
  principal ← PrincipalSchema (gb_principal b);
  tenant ← TenantSchema (gb_tenant b);
  workOrder ← trimmed 256 (gb_workOrderId b);
  capability ← trimmed 256 (gb_capability b);
  action ← trimmed 256 (gb_action b);
  tool ← trimmed 256 (gb_toolId b);
  version ← trimmed 128 (gb_toolVersion b);
  resources ← array_of 1 256 ResourceScopeSchema (gb_normalizedResources b);
  purpose ← PurposeSchema (gb_purpose b);
  checked (DigestSchema (gb_workOrderBindingDigest b)
           && ExecutionDefinitionRefSchema (gb_executionDefinition b)
           && DigestSchema (gb_executionDefinitionDigest b)
           && DigestSchema (gb_toolRegistrationDigest b)
           && DigestSchema (gb_policyRegistrationDigest b))
    {| gb_issuerId := issuer; gb_principal := principal; gb_tenant := tenant;
       gb_workOrderId := workOrder; gb_workOrderBindingDigest := gb_workOrderBindingDigest b;
       gb_executionDefinition := gb_executionDefinition b;
       gb_executionDefinitionDigest := gb_executionDefinitionDigest b;
       gb_capability := capability; gb_action := action; gb_toolId := tool;
       gb_toolVersion := version; gb_toolRegistrationDigest := gb_toolRegistrationDigest b;
       gb_normalizedResources := resources; gb_purpose := purpose;
       gb_policyRegistrationDigest := gb_policyRegistrationDigest b |}.

Definition CapabilityGrantSchema (g : CapabilityGrant) : option CapabilityGrant :=
  id ← trimmed 256 (gr_id g);
  binding ← CapabilityGrantBindingSchema (gr_binding g);
  checked (int_positive (gr_maximumUses g) && zod_datetime (gr_issuedAt g)
           && zod_datetime (gr_expiresAt g) && optional zod_datetime (gr_revokedAt g))
    {| gr_id := id; gr_binding := binding; gr_maximumUses := gr_maximumUses g;
       gr_issuedAt := gr_issuedAt g; gr_expiresAt := gr_expiresAt g;
       gr_revokedAt := gr_revokedAt g |}.

Definition ProposedEffectBindingSchema (b : ProposedEffectBinding)
  : option ProposedEffectBinding :=
  tenant ← TenantSchema (pe_tenant b);
  principal ← PrincipalSchema (pe_principal b);
  run ← trimmed 256 (pe_runId b);
  step ← trimmed 256 (pe_stepId b);
  decision ← trimmed 256 (pe_decisionId b);
  tool ← trimmed 256 (pe_toolId b);
  version ← trimmed 128 (pe_toolVersion b);
  purpose ← PurposeSchema (pe_purpose b);
  checked (DigestSchema (pe_workOrderBindingDigest b)
           && ExecutionDefinitionRefSchema (pe_executionDefinition b)
           && DigestSchema (pe_executionDefinitionDigest b)
           && DigestSchema (pe_toolRegistrationDigest b) && DigestSchema (pe_argumentsDigest b)
           && DigestSchema (pe_targetDigest b) && optional DigestSchema (pe_contentDigest b)
           && DigestSchema (pe_previewDigest b) && DigestSchema (pe_policyRegistrationDigest b))
    {| pe_tenant := tenant; pe_principal := principal; pe_runId := run; pe_stepId := step;
       pe_decisionId := decision; pe_workOrderBindingDigest := pe_workOrderBindingDigest b;
       pe_executionDefinition := pe_executionDefinition b;
       pe_executionDefinitionDigest := pe_executionDefinitionDigest b;
       pe_toolId := tool; pe_toolVersion := version;
       pe_toolRegistrationDigest := pe_toolRegistrationDigest b;
       pe_argumentsDigest := pe_argumentsDigest b; pe_targetDigest := pe_targetDigest b;
       pe_contentDigest := pe_contentDigest b; pe_previewDigest := pe_previewDigest b;
       pe_purpose := purpose; pe_policyRegistrationDigest := pe_policyRegistrationDigest b |}.

Definition ApprovalSchema (a : Approval) : option Approval :=
  id ← trimmed 256 (ap_id a);
  issuer ← trimmed 256 (ap_issuerId a);
  challenge ← trimmed 256 (ap_challengeId a);
  binding ← ProposedEffectBindingSchema (ap_binding a);
  approver ← PrincipalSchema (ap_approvedBy a);
  checked (DigestSchema (ap_challengeProofDigest a) && zod_datetime (ap_createdAt a)
           && zod_datetime (ap_expiresAt a))
    {| ap_id := id; ap_issuerId := issuer; ap_challengeId := challenge;
       ap_challengeProofDigest := ap_challengeProofDigest a; ap_binding := binding;
       ap_approvedBy := approver; ap_authenticationStrength := ap_authenticationStrength a;
       ap_createdAt := ap_createdAt a; ap_expiresAt := ap_expiresAt a |}.

Definition AuthorizationReservationSchema (r : AuthorizationReservation) : bool :=
  min1 (res_authorizationReservationId r) && min1 (res_authorizationKey r)
  && min1 (res_tenantId r) && min1 (res_runId r) && min1 (res_stepId r)
  && min1 (res_toolCallId r) && optional min1 (res_effectKey r)
  && DigestSchema (res_workOrderBindingDigest r)
  && ExecutionDefinitionRefSchema (res_executionDefinition r)
  && DigestSchema (res_executionDefinitionDigest r)
  && min1 (res_toolId r) && min1 (res_toolVersion r)
  && DigestSchema (res_toolRegistrationDigest r) && DigestSchema (res_policyRegistrationDigest r)
  && DigestSchema (res_argumentsDigest r) && DigestSchema (res_normalizedTargetDigest r)
  && min1 (res_grantId r) && optional min1 (res_approvalId r)
  && all_of min1 (res_secretRefIds r) && min1 (res_purposeCode r)
  && min1 (res_purposeRegistryVersion r) && zod_datetime (res_createdAt r)
  && zod_datetime (res_expiresAt r) && optional zod_datetime (res_consumedAt r).

(** A parsed binding parses to itself, and so does a parsed grant. *)
Lemma CapabilityGrantBindingSchema_idem b b' :
  CapabilityGrantBindingSchema b = Some b' -> CapabilityGrantBindingSchema b' = Some b'.
Proof.
  unfold CapabilityGrantBindingSchema.
  destruct (trimmed 256 (gb_issuerId b)) as [iss |] eqn:Hi; cbn; [| done].
  destruct (PrincipalSchema _) as [pr |] eqn:Hp; cbn; [| done].
  destruct (TenantSchema _) as [tn |] eqn:Ht; cbn; [| done].
  destruct (trimmed 256 (gb_workOrderId b)) as [wo |] eqn:Hw; cbn; [| done].
  destruct (trimmed 256 (gb_capability b)) as [cap |] eqn:Hc; cbn; [| done].
  destruct (trimmed 256 (gb_action b)) as [act |] eqn:Ha; cbn; [| done].
  destruct (trimmed 256 (gb_toolId b)) as [tool |] eqn:Hto; cbn; [| done].
  destruct (trimmed 128 (gb_toolVersion b)) as [ver |] eqn:Hv; cbn; [| done].
  destruct (array_of _ _ _ _) as [res |] eqn:Hr; cbn; [| done].
  destruct (PurposeSchema _) as [pu |] eqn:Hpu; cbn; [| done].
  unfold checked. destruct (_ && _) eqn:Hok; [| done]. intros [= <-]. cbn.
  rewrite (trimmed_idem _ _ _ Hi), (PrincipalSchema_idem _ _ Hp), (TenantSchema_idem _ _ Ht),
    (trimmed_idem _ _ _ Hw), (trimmed_idem _ _ _ Hc), (trimmed_idem _ _ _ Ha), (trimmed_idem _ _ _ Hto),
    (trimmed_idem _ _ _ Hv), (array_of_idem _ _ _ _ _ ResourceScopeSchema_idem Hr), (PurposeSchema_idem _ _ Hpu).
  cbn. by rewrite Hok.
Qed.

Lemma CapabilityGrantSchema_idem g g' : CapabilityGrantSchema g = Some g' -> CapabilityGrantSchema g' = Some g'.
Proof.
  unfold CapabilityGrantSchema. destruct (trimmed 256 (gr_id g)) as [i |] eqn:Hi; cbn; [| done].
  destruct (CapabilityGrantBindingSchema _) as [b |] eqn:Hb; cbn; [| done].
  unfold checked. destruct (_ && _) eqn:Hok; [| done]. intros [= <-]. cbn.
  rewrite (trimmed_idem _ _ _ Hi), (CapabilityGrantBindingSchema_idem _ _ Hb). cbn. by rewrite Hok.
Qed.

Lemma ProposedEffectBindingSchema_idem b b' :
  ProposedEffectBindingSchema b = Some b' -> ProposedEffectBindingSchema b' = Some b'.
Proof.
  unfold ProposedEffectBindingSchema.
  destruct (TenantSchema _) as [tn |] eqn:Ht; cbn; [| done].
  destruct (PrincipalSchema _) as [pr |] eqn:Hp; cbn; [| done].
  destruct (trimmed 256 (pe_runId b)) as [run |] eqn:Hr; cbn; [| done].
  destruct (trimmed 256 (pe_stepId b)) as [stp |] eqn:Hs; cbn; [| done].
  destruct (trimmed 256 (pe_decisionId b)) as [dec |] eqn:Hd; cbn; [| done].
  destruct (trimmed 256 (pe_toolId b)) as [tool |] eqn:Hto; cbn; [| done].
  destruct (trimmed 128 (pe_toolVersion b)) as [ver |] eqn:Hv; cbn; [| done].
  destruct (PurposeSchema _) as [pu |] eqn:Hpu; cbn; [| done].
  unfold checked. destruct (_ && _) eqn:Hok; [| done]. intros [= <-]. cbn.
  rewrite (TenantSchema_idem _ _ Ht), (PrincipalSchema_idem _ _ Hp), (PurposeSchema_idem _ _ Hpu).
  rewrite (trimmed_idem _ _ _ Hr), (trimmed_idem _ _ _ Hs), (trimmed_idem _ _ _ Hd),
    (trimmed_idem _ _ _ Hto), (trimmed_idem _ _ _ Hv). cbn. by rewrite Hok.
Qed.
End Schemas.
