(* ===== verification/Authority.v ===== *)
(** * Authority contexts and kill switches (packages/core/src/authority.ts,
    packages/policy/src/kill-switch.ts)

    An authority context is an object with no readable fields; what it grants is
    kept in a [WeakMap] that only the issuing module reads.  Objects are
    identities: the model numbers them in the order they are created. *)

From S2P Require Import Prelude JsTime Errors Schema JsonValue Unicode Contracts WorkOrder.

Local Open Scope Z_scope.
Local Open Scope js_scope.

Definition object : Type := nat.

Record RunScope := { rs_runId : string; rs_workOrderId : string }.

Record AuthorityClaims := {
  cl_issuerId : string;
  cl_actor : Principal;
  cl_subject : option Principal;
  cl_tenant : Tenant;
  cl_authenticatedAt : string;
  cl_authenticationStrength : AuthenticationStrength;
  cl_decisionRoles : list string;
  cl_requestCorrelationId : string;
  cl_issuedAt : string;
  cl_expiresAt : string;
  cl_runScope : option RunScope;
}.

Inductive VerificationFailure := not_issued | other_issuer | expired | not_yet_valid.

Inductive AuthorityVerification :=
| verification_valid (claims : AuthorityClaims)
| verification_invalid (reason : VerificationFailure).

Record AuthorityState := { as_issuerProof : object; as_claims : AuthorityClaims }.

(** The module's [authorityStates], and the next object to be created. *)
Record AuthorityModule := {
  am_states : gmap object AuthorityState;
  am_next : object;
}.

(** The two constants of an issuer's closure. *)
Record AuthorityIssuer := { ai_issuerId : string; ai_issuerProof : object }.

(** A value offered for verification: an object, or anything else. *)
Inductive js_value := js_object (o : object) | js_other.

Section Authority.
Context `{Zod}.

Definition RunScopeSchema (r : RunScope) : option RunScope :=
  run ← trimmed 256 (rs_runId r); wo ← trimmed 256 (rs_workOrderId r);
  Some {| rs_runId := run; rs_workOrderId := wo |}.

Definition AuthorityClaimsSchema (c : AuthorityClaims) : option AuthorityClaims :=
  issuer ← trimmed 256 (cl_issuerId c);
  actor ← PrincipalSchema (cl_actor c);
  subject ← match cl_subject c with None => Some None | Some s => Some <$> PrincipalSchema s end;
  tenant ← TenantSchema (cl_tenant c);
  roles ← trimmed_array 128 64 (cl_decisionRoles c);
  correlation ← trimmed 256 (cl_requestCorrelationId c);
  scope ← match cl_runScope c with None => Some None | Some r => Some <$> RunScopeSchema r end;
  checked (zod_datetime (cl_authenticatedAt c) && zod_datetime (cl_issuedAt c)
           && zod_datetime (cl_expiresAt c))
    {| cl_issuerId := issuer; cl_actor := actor; cl_subject := subject; cl_tenant := tenant;
       cl_authenticatedAt := cl_authenticatedAt c;
       cl_authenticationStrength := cl_authenticationStrength c; cl_decisionRoles := roles;
       cl_requestCorrelationId := correlation; cl_issuedAt := cl_issuedAt c;
       cl_expiresAt := cl_expiresAt c; cl_runScope := scope |}.

Definition with_issuer (issuerId : string) (c : AuthorityClaims) : AuthorityClaims :=
  {| cl_issuerId := issuerId; cl_actor := cl_actor c; cl_subject := cl_subject c;
     cl_tenant := cl_tenant c; cl_authenticatedAt := cl_authenticatedAt c;
     cl_authenticationStrength := cl_authenticationStrength c;
     cl_decisionRoles := cl_decisionRoles c;
     cl_requestCorrelationId := cl_requestCorrelationId c; cl_issuedAt := cl_issuedAt c;
     cl_expiresAt := cl_expiresAt c; cl_runScope := cl_runScope c |}.

(** [Object.create], [Object.freeze({})]: a fresh identity. *)
Definition create_object : method AuthorityModule js_error object :=
  let! m := mget in
  mput {| am_states := am_states m; am_next := S (am_next m) |} ;;!
  mreturn (am_next m).

Definition createAuthorityIssuer (issuerId : string)
  : method AuthorityModule js_error AuthorityIssuer :=
  let! validatedIssuerId := mlift (orThrow (trimmed 256 issuerId) ZodError) in
  let! issuerProof := create_object in
  mreturn {| ai_issuerId := validatedIssuerId; ai_issuerProof := issuerProof |}.

Definition issue (issuer : AuthorityIssuer) (claimsInput : AuthorityClaims)
  : method AuthorityModule js_error object :=
  let! claims := mlift (orThrow
    (AuthorityClaimsSchema (with_issuer (ai_issuerId issuer) claimsInput)) ZodError) in
  let! context := create_object in
  let! m := mget in
  mput {| am_states := <[context := {| as_issuerProof := ai_issuerProof issuer;
                                       as_claims := claims |}]> (am_states m);
          am_next := am_next m |} ;;!
  mreturn context.

(** [at] is the instant of the [Date], [None] when it is invalid. *)
Definition verify (issuer : AuthorityIssuer) (authority : js_value) (at_ : option Z)
    (m : AuthorityModule) : AuthorityVerification :=
  match authority with
  | js_other => verification_invalid not_issued
  | js_object o =>
      match am_states m !! o with
      | None => verification_invalid not_issued
      | Some state =>
          if negb (bool_decide (as_issuerProof state = ai_issuerProof issuer))
          then verification_invalid other_issuer
          else if nan_lt at_ (Date_parse (cl_issuedAt (as_claims state)))
          then verification_invalid not_yet_valid
          else if nan_le (Date_parse (cl_expiresAt (as_claims state))) at_
          then verification_invalid expired
          else verification_valid (as_claims state)
      end
  end.
End Authority.

(** ** Unforgeability *)

Section Facts.
Context `{Zod}.

Inductive am_step (m m' : AuthorityModule) : Prop :=
| step_createIssuer id o : createAuthorityIssuer id m = (o, m') -> am_step m m'
| step_issue issuer c o : issue issuer c m = (o, m') -> am_step m m'
| step_create o : create_object m = (o, m') -> am_step m m'.

Definition empty_module : AuthorityModule := {| am_states := ∅; am_next := O |}.

(** Recorded contexts and proofs are objects that exist. *)
Definition am_wf (m : AuthorityModule) : Prop :=
  forall o s, am_states m !! o = Some s -> (o < am_next m)%nat.

Lemma issue_effect issuer c m o m' :
  issue issuer c m = (o, m') ->
  (m' = m /\ exists err, o = Throw err) \/
  exists claims, AuthorityClaimsSchema (with_issuer (ai_issuerId issuer) c) = Some claims
    /\ o = Return (am_next m)
    /\ m' = {| am_states := <[am_next m := {| as_issuerProof := ai_issuerProof issuer;
                                              as_claims := claims |}]> (am_states m);
               am_next := S (am_next m) |}.
Proof.
  unfold issue, create_object, mthen, mlift, mget, mput, mreturn.
  destruct (AuthorityClaimsSchema _) as [claims |]; cbn; intros [= <- <-]; [right | left; eauto].
  by exists claims.
Qed.

Lemma createAuthorityIssuer_effect id m o m' :
  createAuthorityIssuer id m = (o, m') ->
  (m' = m /\ exists err, o = Throw err) \/
  exists issuer, o = Return issuer /\ ai_issuerProof issuer = am_next m
    /\ m' = {| am_states := am_states m; am_next := S (am_next m) |}.
Proof.
  unfold createAuthorityIssuer, create_object, mthen, mlift, mget, mput, mreturn.
  destruct (trimmed 256 id); cbn; intros [= <- <-]; [right; eauto | left; eauto].
Qed.

Lemma am_step_wf m m' : am_wf m -> am_step m m' -> am_wf m'.
Proof.
  intros Hwf [id o Hc%createAuthorityIssuer_effect | issuer c o Hi%issue_effect | o Ho].
  - destruct Hc as [[-> _] | (? & _ & _ & ->)]; [done |]. intros y s Hy. cbn in *. apply Hwf in Hy. lia.
  - destruct Hi as [[-> _] | (? & _ & _ & ->)]; [done |]. intros y s. cbn.
    rewrite lookup_insert_Some. intros [[<- _] | [_ Hy%Hwf]]; lia.
  - injection Ho as _ <-. intros y s Hy%Hwf. cbn. lia.
Qed.

(** What is recorded of an object never changes. *)
Lemma am_steps_keep m m' o s :
  am_wf m -> steps am_step m m' -> am_states m !! o = Some s -> am_states m' !! o = Some s.
Proof.
  intros Hwf Hs Ho.
  assert (am_wf m' /\ am_states m' !! o = Some s) as [_ ?]; [| done].
  revert Hs. apply (steps_invariant _ (fun m => am_wf m /\ am_states m !! o = Some s)); [| done].
  clear.
  intros m m' [Hwf Ho] Hs. split; [by eapply am_step_wf |].
  destruct Hs as [id r Hc%createAuthorityIssuer_effect | issuer c r Hi%issue_effect | r Hr].
  - by destruct Hc as [[-> _] | (? & _ & _ & ->)].
  - destruct Hi as [[-> _] | (? & _ & _ & ->)]; [done |]. cbn.
    rewrite lookup_insert_ne; [done |]. apply Hwf in Ho. lia.
  - by injection Hr as _ <-.
Qed.

(** C19: authority cannot be forged or borrowed.  A context an issuer handed out
    verifies, at any later time within its validity, to exactly the claims that
    were issued; another issuer's verification of it fails as [other_issuer];
    and a value verifies for an issuer only if that issuer recorded it, with the
    claims that are returned. *)
Theorem authority_unforgeable m0 m m' issuer claimsInput context :
  steps am_step empty_module m0 ->
  issue issuer claimsInput m0 = (Return context, m) -> steps am_step m m' ->
  exists claims, AuthorityClaimsSchema (with_issuer (ai_issuerId issuer) claimsInput) = Some claims /\
  (forall at_, verify issuer (js_object context) (Some at_) m' =
     if nan_lt (Some at_) (Date_parse (cl_issuedAt claims)) then verification_invalid not_yet_valid
     else if nan_le (Date_parse (cl_expiresAt claims)) (Some at_) then verification_invalid expired
     else verification_valid claims) /\
  (forall other at_, ai_issuerProof other <> ai_issuerProof issuer ->
     verify other (js_object context) at_ m' = verification_invalid other_issuer) /\
  (forall other v at_ c, verify other v at_ m' = verification_valid c ->
     exists o, v = js_object o
       /\ am_states m' !! o = Some {| as_issuerProof := ai_issuerProof other; as_claims := c |}).
Proof.
  intros Hr Hi Hs. assert (am_wf m0) as Hwf0.
  { revert Hr. apply steps_invariant; [apply am_step_wf |]. intros o s. cbn. by rewrite lookup_empty. }
  assert (am_wf m) as Hwf by (eapply am_step_wf; [done | by eapply step_issue]).
  apply issue_effect in Hi as [[_ [? ?]] | (claims & Hc & Ho & ->)]; [done |].
  injection Ho as ->. exists claims. split; [done |].
  assert (am_states m' !! am_next m0
    = Some {| as_issuerProof := ai_issuerProof issuer; as_claims := claims |}) as Hl.
  { eapply am_steps_keep; [apply Hwf | done |]. cbn. by rewrite lookup_insert_eq. }
  unfold verify. split_and!.
  - intros at_. rewrite Hl. cbn. by rewrite bool_decide_eq_true_2.
  - intros other at_ Hne. rewrite Hl. cbn. by rewrite bool_decide_eq_false_2 by congruence.
  - intros other [o |] at_ c; [| done]. intros Hv. exists o. split; [done |].
    destruct (am_states m' !! o) as [[proof cl] |]; [| done]. cbn in Hv.
    destruct (bool_decide _) eqn:Hp; [| done]. bools. cbn in Hv.
    destruct (nan_lt _ _); [done |]. destruct (nan_le _ _); [done |]. by injection Hv as ->; subst.
Qed.
End Facts.

(** ** The kill-switch registry (packages/policy/src/kill-switch.ts)

    A versioned set of killed registrations; every change raises the version. *)

Inductive KillSwitchTargetKind :=
| target_tool_registration | target_mcp_server | target_model_adapter | target_model_profile
| target_policy_registration | target_compensation_definition | target_compensation_strategy.

#[export] Instance KillSwitchTargetKind_eq_dec : EqDecision KillSwitchTargetKind.
Proof. solve_decision. Defined.

Definition target_kind_name (k : KillSwitchTargetKind) : string :=
  match k with
  | target_tool_registration => "tool_registration"
  | target_mcp_server => "mcp_server"
  | target_model_adapter => "model_adapter"
  | target_model_profile => "model_profile"
  | target_policy_registration => "policy_registration"
  | target_compensation_definition => "compensation_definition"
  | target_compensation_strategy => "compensation_strategy"
  end.

Record KillSwitchEntry := {
  ks_targetKind : KillSwitchTargetKind;
  ks_targetDigest : string;
  ks_reasonCode : string;
  ks_activatedAt : string;
  ks_activatedBy : string;
  ks_registryVersion : Z;
}.

Record KillSwitchSnapshot := { kss_version : Z; kss_entries : list KillSwitchEntry }.

(** The closure's variables; [active] is keyed by [`${kind}:${digest}`]. *)
Record KillSwitchRegistry := { kr_version : Z; kr_active : gmap string KillSwitchEntry }.

Definition key (kind : KillSwitchTargetKind) (digest : string) : string :=
  target_kind_name kind +:+ ":" +:+ digest.

(** [[A-Z0-9_]] *)
Definition is_reason_char (c : Ascii.ascii) : bool :=
  let n := Ascii.N_of_ascii c in
  ((48 <=? n)%N && (n <=? 57)%N) || ((65 <=? n)%N && (n <=? 90)%N) || (n =? 95)%N.

(** [/^KAF_[A-Z0-9_]+$/u] *)
Definition ReasonCodeSchema (s : string) : bool :=
  match strip_prefix "KAF_" s with
  | Some rest => min1 rest && all_chars is_reason_char rest
  | None => false
  end.

Section Registry.
Context `{Zod}.

Definition KillSwitchEntrySchema (e : KillSwitchEntry) : bool :=
  DigestSchema (ks_targetDigest e) && ReasonCodeSchema (ks_reasonCode e)
  && zod_datetime (ks_activatedAt e) && min1max 256 (ks_activatedBy e)
  && int_positive (ks_registryVersion e).

Definition KillSwitchSnapshotSchema (s : KillSwitchSnapshot) : bool :=
  int_nonnegative (kss_version s) && all_of KillSwitchEntrySchema (kss_entries s).

Definition set_entry (e : KillSwitchEntry) (m : gmap string KillSwitchEntry) :=
  <[key (ks_targetKind e) (ks_targetDigest e) := e]> m.

Definition createKillSwitchRegistry (initial : option KillSwitchSnapshot)
  : outcome js_error KillSwitchRegistry :=
  match initial with
  | None => Return {| kr_version := 0; kr_active := ∅ |}
  | Some snapshot =>
      parsed ← parse KillSwitchSnapshotSchema snapshot;
      Return {| kr_version := kss_version parsed;
                kr_active := fold_left (fun m e => set_entry e m) (kss_entries parsed) ∅ |}
  end.

Definition activate (targetKind : KillSwitchTargetKind)
    (targetDigest reasonCode activatedBy activatedAt : string)
  : method KillSwitchRegistry js_error KillSwitchEntry :=
  let! r := mget in
  let nextVersion := kr_version r + 1 in
  let! entry := mlift (parse KillSwitchEntrySchema
    {| ks_targetKind := targetKind; ks_targetDigest := targetDigest; ks_reasonCode := reasonCode;
       ks_activatedAt := activatedAt; ks_activatedBy := activatedBy;
       ks_registryVersion := nextVersion |}) in
  mput {| kr_version := nextVersion; kr_active := set_entry entry (kr_active r) |} ;;!
  mreturn entry.

Definition deactivate (targetKind : KillSwitchTargetKind) (targetDigest : string)
  : method KillSwitchRegistry js_error bool :=
  let! r := mget in
  let k := key targetKind targetDigest in
  match kr_active r !! k with
  | Some _ => mput {| kr_version := kr_version r + 1; kr_active := delete k (kr_active r) |} ;;!
              mreturn true
  | None => mreturn false
  end.

Definition isKilled (targetKind : KillSwitchTargetKind) (targetDigest : string)
    (r : KillSwitchRegistry) : bool :=
  bool_decide (is_Some (kr_active r !! key targetKind targetDigest)).

(** Ordered by the code units of the key. *)
Fixpoint insert_entry (e : KillSwitchEntry) (l : list KillSwitchEntry) : list KillSwitchEntry :=
  match l with
  | [] => [e]
  | x :: l' =>
      match String.compare (key (ks_targetKind e) (ks_targetDigest e))
              (key (ks_targetKind x) (ks_targetDigest x)) with
      | Gt => x :: insert_entry e l'
      | _ => e :: l
      end
  end.

Definition snapshot (r : KillSwitchRegistry) : KillSwitchSnapshot :=
  {| kss_version := kr_version r;
     kss_entries := foldr insert_entry [] (map snd (map_to_list (kr_active r))) |}.
End Registry.
