(* ===== verification/Effects.v ===== *)
(** * Effects (packages/core/src/effects.ts)

    The strategies and lifecycle states of an external effect, the
    acknowledgement and the ledger record, the transition table and the guard
    every store applies before it replaces a record. *)

From S2P Require Import Prelude JsTime Errors Schema JsonValue Contracts.

Local Open Scope Z_scope.

Inductive EffectStrategyKind :=
| strategy_native | strategy_transactional | strategy_reconcilable | strategy_none.

Inductive EffectState :=
| prepared | dispatched | unknown | needs_reconciliation | acknowledged | abandoned | compensated.

Inductive ProofKind :=
| receiver_receipt | transaction_commit | successful_response | lookup_recovery.

(** A value of [safeReceiptMetadata]: a string, a number or a boolean. *)
Inductive ReceiptValue :=
| receipt_string (s : jsstring) | receipt_number (x : spec_float) | receipt_boolean (b : bool).

Record EffectAcknowledgement := {
  ack_acknowledgementId : string;
  ack_proofKind : ProofKind;
  ack_effectKey : string;
  ack_operationKey : option string;
  ack_toolRegistrationDigest : string;
  ack_strategyRegistrationDigest : string;
  ack_normalizedTargetDigest : string;
  ack_resultSchemaDigest : string;
  ack_resultDigest : string;
  ack_proofDigest : string;
  ack_safeReceiptMetadata : option (list (jsstring * ReceiptValue));
  ack_acknowledgedAt : string;
}.

(** The state-specific fields of [EffectRecordSchema]. *)
Inductive EffectVariant :=
| effect_prepared
| effect_dispatched (dispatchedAt : string)
| effect_unknown (dispatchedAt uncertaintyCode : string)
| effect_needs_reconciliation (uncertaintyCode : string)
| effect_acknowledged (resultDigest : string) (acknowledgement : EffectAcknowledgement)
| effect_abandoned (reason : string) (evidenceRefs : list string)
| effect_compensated (resultDigest : string) (acknowledgement : EffectAcknowledgement)
    (compensationRunId compensationEffectDigest : string).

(** The identity of an effect: every field of the record but its digest, its
    state and its last update. *)
Record EffectIdentity := {
  eff_effectId : string;
  eff_tenantId : string;
  eff_runId : string;
  eff_stepId : string;
  eff_toolCallId : string;
  eff_effectKey : string;
  eff_operationKey : option string;
  eff_executionDefinition : ExecutionDefinitionRef;
  eff_executionDefinitionDigest : string;
  eff_workOrderBindingDigest : string;
  eff_toolId : string;
  eff_toolVersion : string;
  eff_toolRegistrationDigest : string;
  eff_strategy : EffectStrategyKind;
  eff_strategyRegistrationDigest : string;
  eff_authorizationReservationId : string;
  eff_argumentsDigest : string;
  eff_normalizedTargetDigest : string;
  eff_createdAt : string;
}.

Record EffectRecord := {
  eff_identity : EffectIdentity;
  eff_effectDigest : string;
  eff_updatedAt : string;
  eff_variant : EffectVariant;
}.

Definition eff_state (r : EffectRecord) : EffectState :=
  match eff_variant r with
  | effect_prepared => prepared
  | effect_dispatched _ => dispatched
  | effect_unknown _ _ => unknown
  | effect_needs_reconciliation _ => needs_reconciliation
  | effect_acknowledged _ _ => acknowledged
  | effect_abandoned _ _ => abandoned
  | effect_compensated _ _ _ _ => compensated
  end.

#[export] Instance EffectStrategyKind_eq_dec : EqDecision EffectStrategyKind.
Proof. solve_decision. Defined.
#[export] Instance EffectState_eq_dec : EqDecision EffectState.
Proof. solve_decision. Defined.
#[export] Instance ProofKind_eq_dec : EqDecision ProofKind.
Proof. solve_decision. Defined.
#[export] Instance ReceiptValue_eq_dec : EqDecision ReceiptValue.
Proof. solve_decision. Defined.
#[export] Instance EffectAcknowledgement_eq_dec : EqDecision EffectAcknowledgement.
Proof. solve_decision. Defined.
#[export] Instance EffectVariant_eq_dec : EqDecision EffectVariant.
Proof. solve_decision. Defined.
#[export] Instance EffectIdentity_eq_dec : EqDecision EffectIdentity.
Proof. solve_decision. Defined.
#[export] Instance EffectRecord_eq_dec : EqDecision EffectRecord.
Proof. solve_decision. Defined.

Section Schemas.
Context `{Zod}.

Definition EffectAcknowledgementSchema (a : EffectAcknowledgement) : bool :=
  min1 (ack_acknowledgementId a) && min1 (ack_effectKey a)
  && optional min1 (ack_operationKey a)
  && DigestSchema (ack_toolRegistrationDigest a)
  && DigestSchema (ack_strategyRegistrationDigest a)
  && DigestSchema (ack_normalizedTargetDigest a)
  && DigestSchema (ack_resultSchemaDigest a)
  && DigestSchema (ack_resultDigest a)
  && DigestSchema (ack_proofDigest a)
  && optional (forallb (fun kv : jsstring * ReceiptValue =>
       match kv.2 with receipt_number x => is_finite x | _ => true end))
       (ack_safeReceiptMetadata a)
  && zod_datetime (ack_acknowledgedAt a).

Definition EffectVariantSchema (v : EffectVariant) : bool :=
  match v with
  | effect_prepared => true
  | effect_dispatched at_ => zod_datetime at_
  | effect_unknown at_ code => zod_datetime at_ && min1 code
  | effect_needs_reconciliation code => min1 code
  | effect_acknowledged d a => DigestSchema d && EffectAcknowledgementSchema a
  | effect_abandoned reason refs => min1 reason && all_of min1 refs
  | effect_compensated d a run digest =>
      DigestSchema d && EffectAcknowledgementSchema a && min1 run && DigestSchema digest
  end.

Definition EffectRecordSchema (r : EffectRecord) : bool :=
  let i := eff_identity r in
  min1 (eff_effectId i) && DigestSchema (eff_effectDigest r) && min1 (eff_tenantId i)
  && min1 (eff_runId i) && min1 (eff_stepId i) && min1 (eff_toolCallId i)
  && min1 (eff_effectKey i) && optional min1 (eff_operationKey i)
  && ExecutionDefinitionRefSchema (eff_executionDefinition i)
  && DigestSchema (eff_executionDefinitionDigest i)
  && DigestSchema (eff_workOrderBindingDigest i)
  && min1 (eff_toolId i) && min1 (eff_toolVersion i)
  && DigestSchema (eff_toolRegistrationDigest i)
  && DigestSchema (eff_strategyRegistrationDigest i)
  && min1 (eff_authorizationReservationId i)
  && DigestSchema (eff_argumentsDigest i) && DigestSchema (eff_normalizedTargetDigest i)
  && zod_datetime (eff_createdAt i) && zod_datetime (eff_updatedAt r)
  && EffectVariantSchema (eff_variant r).
End Schemas.

(** The normal form of an acknowledgement: its receipt metadata is a JSON object. *)
Definition receipt_normal (v : ReceiptValue) : ReceiptValue :=
  match v with receipt_number x => receipt_number (number_normal x) | _ => v end.

Definition acknowledgement_normal (a : EffectAcknowledgement) : EffectAcknowledgement :=
  {| ack_acknowledgementId := ack_acknowledgementId a; ack_proofKind := ack_proofKind a;
     ack_effectKey := ack_effectKey a; ack_operationKey := ack_operationKey a;
     ack_toolRegistrationDigest := ack_toolRegistrationDigest a;
     ack_strategyRegistrationDigest := ack_strategyRegistrationDigest a;
     ack_normalizedTargetDigest := ack_normalizedTargetDigest a;
     ack_resultSchemaDigest := ack_resultSchemaDigest a; ack_resultDigest := ack_resultDigest a;
     ack_proofDigest := ack_proofDigest a;
     ack_safeReceiptMetadata :=
       (fun l => sort_fields (map (fun kv : jsstring * ReceiptValue =>
          (kv.1, receipt_normal kv.2)) l)) <$> ack_safeReceiptMetadata a;
     ack_acknowledgedAt := ack_acknowledgedAt a |}.

(** ** Transitions *)

Definition EFFECT_TRANSITIONS (from : EffectState) : list EffectState :=
  match from with
  | prepared => [dispatched]
  | dispatched => [acknowledged; unknown]
  | unknown => [needs_reconciliation]
  | needs_reconciliation => [acknowledged; abandoned]
  | acknowledged => [compensated]
  | abandoned => []
  | compensated => []
  end.

Definition isEffectTransitionAllowed (from to : EffectState) (strategy : EffectStrategyKind)
  : bool :=
  if decide (strategy = strategy_transactional) then
    bool_decide (to = acknowledged) && bool_decide (from = prepared)
  else bool_decide (to ∈ EFFECT_TRANSITIONS from).

(** ** Lifecycles

    The successive states of one ledger record: every replacement passes the
    guard. *)
Inductive lifecycle (strategy : EffectStrategyKind) : list EffectState -> Prop :=
| lifecycle_start s : lifecycle strategy [s]
| lifecycle_step s t trace :
    isEffectTransitionAllowed s t strategy = true ->
    lifecycle strategy (t :: trace) -> lifecycle strategy (s :: t :: trace).

(** How far a state is from the end of the longest lifecycle. *)
Definition remaining (s : EffectState) : nat :=
  match s with
  | prepared => 5 | dispatched => 4 | unknown => 3 | needs_reconciliation => 2
  | acknowledged => 1 | abandoned => 0 | compensated => 0
  end.

Lemma transition_decreases strategy s t :
  isEffectTransitionAllowed s t strategy = true -> (remaining t < remaining s)%nat.
Proof. destruct strategy, s, t; try discriminate; cbn; lia. Qed.

(** An effect is replaced at most five times, whatever the strategy: a
    lifecycle has at most six states. *)
Theorem lifecycle_bounded strategy trace s :
  lifecycle strategy (s :: trace) -> (length trace <= remaining s)%nat.
Proof.
  remember (s :: trace) as l eqn:El. intros Hl. revert s trace El.
  induction Hl as [s' | s' t trace' Hst Hl IH]; intros s trace [= -> <-]; [cbn; lia |].
  apply transition_decreases in Hst. specialize (IH t trace' eq_refl). cbn. lia.
Qed.

#[local] Ltac next Hinv Hl := apply Hinv in Hl as [?Hg Hl]; try discriminate.

(** An effect that is abandoned passed through dispatch, uncertainty and
    reconciliation, in that order, and nothing else; one that is acknowledged
    was dispatched, unless the strategy is transactional, whose only transition
    is from prepared to acknowledged. *)
Theorem lifecycle_from_prepared strategy trace last_state :
  lifecycle strategy (prepared :: trace) ->
  list.last (prepared :: trace) = Some last_state ->
  (last_state = abandoned ->
     trace = [dispatched; unknown; needs_reconciliation; abandoned]) /\
  (last_state = acknowledged ->
     if decide (strategy = strategy_transactional) then trace = [acknowledged]
     else trace = [dispatched; acknowledged]
          \/ trace = [dispatched; unknown; needs_reconciliation; acknowledged]) /\
  (last_state = compensated -> strategy <> strategy_transactional /\ acknowledged ∈ trace).
Proof.
  intros Hl Hlast.
  assert (forall s u t, lifecycle strategy (s :: u :: t) ->
    isEffectTransitionAllowed s u strategy = true /\ lifecycle strategy (u :: t)) as Hinv.
  { intros s u t Hs. by inversion Hs; subst. }
  destruct trace as [| s1 trace]; [naive_solver |]; next Hinv Hl.
  destruct trace as [| s2 trace];
    [destruct strategy, s1; try discriminate Hg; cbn in *; naive_solver set_solver |];
    next Hinv Hl.
  destruct strategy, s1; try discriminate Hg; destruct s2; try discriminate Hg0;
  (destruct trace as [| s3 trace]; [cbn in *; naive_solver set_solver |]; next Hinv Hl);
  destruct s3; try discriminate Hg1;
  (destruct trace as [| s4 trace]; [cbn in *; naive_solver set_solver |]; next Hinv Hl);
  destruct s4; try discriminate Hg2;
  (destruct trace as [| s5 trace]; [cbn in *; naive_solver set_solver |]; next Hinv Hl);
  destruct s5; try discriminate Hg3;
  (destruct trace as [| s6 trace]; [cbn in *; naive_solver set_solver |]; next Hinv Hl);
  destruct s6; discriminate.
Qed.
