(* ===== verification/Run.v ===== *)
(** * Runs (packages/core/src/run.ts)

    The status automaton of a run, the run header and its projection, which is
    the state the event reducer keeps. *)

From S2P Require Import Prelude JsTime Errors Schema Contracts.

Local Open Scope Z_scope.

Inductive RunStatus :=
| created | accepted | planning | running | waiting_for_input | waiting_for_approval
| suspended | verifying | completed | failed | cancelled.

#[export] Instance RunStatus_eq_dec : EqDecision RunStatus.
Proof. solve_decision. Defined.

(** [TerminalRunStatusSchema.safeParse(status).success] *)
Definition TerminalRunStatus (s : RunStatus) : bool :=
  match s with completed | failed | cancelled => true | _ => false end.

Inductive ResumeTarget := resume_planning | resume_running | resume_verifying.

#[export] Instance ResumeTarget_eq_dec : EqDecision ResumeTarget.
Proof. solve_decision. Defined.

Definition RUN_TRANSITIONS (s : RunStatus) : list RunStatus :=
  match s with
  | created => [accepted; failed]
  | accepted => [planning; running; waiting_for_approval; failed; cancelled]
  | planning =>
      [running; waiting_for_input; waiting_for_approval; suspended; failed; cancelled]
  | running =>
      [planning; waiting_for_input; waiting_for_approval; verifying; suspended; failed; cancelled]
  | waiting_for_input => [planning; failed; cancelled]
  | waiting_for_approval => [running; planning; failed; cancelled]
  | suspended => [planning; running; verifying; failed; cancelled]
  | verifying =>
      [completed; planning; waiting_for_input; waiting_for_approval; suspended; failed; cancelled]
  | completed => []
  | failed => []
  | cancelled => []
  end.

Record Run := {
  run_runId : string;
  run_tenantId : string;
  run_workOrderId : string;
  run_workOrderBindingDigest : string;
  run_executionDefinition : ExecutionDefinitionRef;
  run_executionDefinitionDigest : string;
  run_status : RunStatus;
  run_createdAt : string;
  run_updatedAt : string;
  run_dataClass : DataClass;
  run_correlationId : string;
}.

(** [RunProjectionSchema] extends the run header. *)
Record RunProjection := {
  p_run : Run;
  p_lastSequence : Z;
  p_lastEventId : option string;
  p_currentStepId : option string;
  p_resumeTarget : option ResumeTarget;
  p_waitingRequestId : option string;
  p_waitingDecisionId : option string;
  p_activeEffectId : option string;
  p_artifactIds : list string;
  p_verificationIds : list string;
  p_requiredVerifierIds : list string;
  p_passedVerifierIds : list string;
  p_verificationExceptionIds : list string;
  p_terminalErrorCode : option string;
}.

#[export] Instance Run_eq_dec : EqDecision Run.
Proof. solve_decision. Defined.
#[export] Instance RunProjection_eq_dec : EqDecision RunProjection.
Proof. solve_decision. Defined.

Definition p_status (p : RunProjection) : RunStatus := run_status (p_run p).

Section Schemas.
Context `{Zod}.

Definition RunSchema (r : Run) : bool :=
  min1 (run_runId r) && min1 (run_tenantId r) && min1 (run_workOrderId r)
  && DigestSchema (run_workOrderBindingDigest r)
  && ExecutionDefinitionRefSchema (run_executionDefinition r)
  && DigestSchema (run_executionDefinitionDigest r)
  && zod_datetime (run_createdAt r) && zod_datetime (run_updatedAt r)
  && min1 (run_correlationId r).

Definition RunProjectionSchema (p : RunProjection) : bool :=
  RunSchema (p_run p) && int_nonnegative (p_lastSequence p)
  && optional min1 (p_lastEventId p) && optional min1 (p_currentStepId p)
  && optional min1 (p_waitingRequestId p) && optional min1 (p_waitingDecisionId p)
  && optional min1 (p_activeEffectId p)
  && all_of min1 (p_artifactIds p) && all_of min1 (p_verificationIds p)
  && all_of min1 (p_requiredVerifierIds p) && all_of min1 (p_passedVerifierIds p)
  && all_of min1 (p_verificationExceptionIds p) && optional min1 (p_terminalErrorCode p).
End Schemas.

Definition createRunProjection (run : Run) : RunProjection := {|
  p_run := run;
  p_lastSequence := 0;
  p_lastEventId := None;
  p_currentStepId := None;
  p_resumeTarget := None;
  p_waitingRequestId := None;
  p_waitingDecisionId := None;
  p_activeEffectId := None;
  p_artifactIds := [];
  p_verificationIds := [];
  p_requiredVerifierIds := [];
  p_passedVerifierIds := [];
  p_verificationExceptionIds := [];
  p_terminalErrorCode := None;
|}.

(** A terminal status has no successor, and only a terminal status has none. *)
Lemma RUN_TRANSITIONS_terminal s : RUN_TRANSITIONS s = [] <-> TerminalRunStatus s = true.
Proof. by destruct s. Qed.

Lemma RUN_TRANSITIONS_completed s : completed ∈ RUN_TRANSITIONS s -> s = verifying.
Proof. destruct s; cbn; set_solver. Qed.

Lemma RUN_TRANSITIONS_created s : created ∉ RUN_TRANSITIONS s.
Proof. destruct s; cbn; set_solver. Qed.

(** Every live status can fail, and every one but [created] can be cancelled. *)
Lemma RUN_TRANSITIONS_failed s : failed ∈ RUN_TRANSITIONS s <-> TerminalRunStatus s = false.
Proof. destruct s; cbn; set_solver. Qed.
