(* ===== verification/Events.v ===== *)
(** * Run events and their reducer (packages/core/src/events.ts)

    A run is its event stream; the projection is the left fold of
    [reduceRunEvent] over it. *)

From S2P Require Import Prelude JsTime Errors Schema JsonValue Contracts Effects Run.

Local Open Scope Z_scope.

(** ** Data *)

Inductive RetryBoundary := boundary_model | boundary_tool.
Inductive RetryClassification := timed_out | retryable_failure | uncertain_outcome.
Inductive ReconciliationResolution := recovered_acknowledgement | abandon_uncertain.
Inductive VerificationStatus := verification_pass | verification_fail | verification_needs_review.
(** The [resumeTarget] of a recorded approval and the [nextStatus] of a rejection. *)
Inductive ApprovalResume := approve_planning | approve_running.
Inductive RejectionStatus := reject_planning | reject_failed | reject_cancelled.
Inductive PreviewReversibility := preview_compensatable | preview_irreversible.

(** [ApprovalPreviewDisplaySchema] of tool.ts. *)
Record ApprovalPreviewDisplay := {
  apd_title : string;
  apd_summary : string;
  apd_materialConsequence : string;
  apd_reversibility : PreviewReversibility;
  apd_fields : option (list (string * string));
}.

Inductive RunEventPayload :=
| RunAccepted (workOrderId workOrderBindingDigest : string) (requiredVerifierIds : list string)
| PlanningStarted (stepId : string)
| ModelCallStarted (stepId modelCallReservationId requestDigest : string)
| ModelCallCompleted (stepId modelCallReservationId responseDigest finishReason : string)
| ExecutionStarted (stepId : string) (toolCallId : option string)
| ToolCallRequested (stepId toolCallId toolRegistrationDigest argumentsDigest : string)
| ToolCallCompleted (stepId toolCallId resultDigest : string)
| RetryScheduled (stepId : string) (boundary : RetryBoundary) (boundaryKey : string)
    (attempt nextAttempt : Z) (classification : RetryClassification)
    (delayMs : Z) (notBefore : string)
| RetryResumed (stepId : string) (boundary : RetryBoundary) (boundaryKey : string) (attempt : Z)
| InputRequested (stepId requestId inputSchemaDigest safePrompt : string)
| InputSubmitted (stepId requestId inputSubmissionRecordId inputSchemaDigest valueDigest : string)
| ApprovalRequested (stepId decisionId decisionGateDigest proposedEffectDigest : string)
    (approvalDisplay : option ApprovalPreviewDisplay)
| ApprovalRecorded (stepId decisionId approvalId : string) (resumeTarget : ApprovalResume)
| ApprovalRejected (stepId decisionId : string) (nextStatus : RejectionStatus)
    (reasonCode : string)
| EffectPrepared (stepId effectId effectDigest effectKey : string) (strategy : EffectStrategyKind)
| EffectDispatched (stepId effectId : string) (attempt : Z)
| EffectAcknowledged (stepId effectId resultDigest : string)
    (acknowledgement : EffectAcknowledgement)
| EffectUncertain (stepId effectId uncertaintyCode : string)
| EffectNeedsReconciliation (stepId effectId : string)
| EffectReconciliationRecorded (stepId effectId : string)
    (resolution : ReconciliationResolution) (commandId : string)
| EffectAbandoned (stepId effectId reason : string)
| CompensationRequested (stepId originalRunId originalEffectDigest compensationRunId : string)
| EffectCompensated
    (stepId originalEffectDigest compensationEffectDigest acknowledgementDigest : string)
| ArtifactProduced (stepId artifactId artifactDigest : string)
| VerificationStarted (stepId artifactDigest : string)
| VerificationRecorded (stepId verificationId verifierId : string)
    (status : VerificationStatus) (verificationDigest : string)
| VerificationExceptionRecorded
    (stepId exceptionId exceptionDigest verifierId verifierRegistrationDigest artifactDigest
     rubricVersion rubricDigest reviewerRole expiresAt reason : string)
    (compensatingControls : list string)
| RunSuspended (stepId : string) (resumeTarget : ResumeTarget) (reasonCode : string)
    (effectId : option string)
| RunCompleted (stepId evidenceRecordId outputDigest : string)
| RunFailed (stepId : option string) (errorCode : KafErrorCode)
    (safeDetails : option (list (jsstring * JsonValue)))
| RunCancelled (stepId : option string) (reasonCode actorId : string).

Record RunEvent := {
  e_eventId : string;
  e_runId : string;
  e_sequence : Z;
  e_occurredAt : string;
  e_correlationId : string;
  e_causationId : option string;
  e_tenantId : string;
  e_dataClass : DataClass;
  e_executionDefinition : ExecutionDefinitionRef;
  e_executionDefinitionDigest : string;
  e_prevHash : option string;
  e_payload : RunEventPayload;
}.

(** The discriminants ([RunEventType]). *)
Inductive RunEventType :=
| TRunAccepted | TPlanningStarted | TModelCallStarted | TModelCallCompleted | TExecutionStarted
| TToolCallRequested | TToolCallCompleted | TRetryScheduled | TRetryResumed | TInputRequested
| TInputSubmitted | TApprovalRequested | TApprovalRecorded | TApprovalRejected | TEffectPrepared
| TEffectDispatched | TEffectAcknowledged | TEffectUncertain | TEffectNeedsReconciliation
| TEffectReconciliationRecorded | TEffectAbandoned | TCompensationRequested | TEffectCompensated
| TArtifactProduced | TVerificationStarted | TVerificationRecorded
| TVerificationExceptionRecorded | TRunSuspended | TRunCompleted | TRunFailed | TRunCancelled.

Definition payload_type (p : RunEventPayload) : RunEventType :=
  match p with
  | RunAccepted _ _ _ => TRunAccepted
  | PlanningStarted _ => TPlanningStarted
  | ModelCallStarted _ _ _ => TModelCallStarted
  | ModelCallCompleted _ _ _ _ => TModelCallCompleted
  | ExecutionStarted _ _ => TExecutionStarted
  | ToolCallRequested _ _ _ _ => TToolCallRequested
  | ToolCallCompleted _ _ _ => TToolCallCompleted
  | RetryScheduled _ _ _ _ _ _ _ _ => TRetryScheduled
  | RetryResumed _ _ _ _ => TRetryResumed
  | InputRequested _ _ _ _ => TInputRequested
  | InputSubmitted _ _ _ _ _ => TInputSubmitted
  | ApprovalRequested _ _ _ _ _ => TApprovalRequested
  | ApprovalRecorded _ _ _ _ => TApprovalRecorded
  | ApprovalRejected _ _ _ _ => TApprovalRejected
  | EffectPrepared _ _ _ _ _ => TEffectPrepared
  | EffectDispatched _ _ _ => TEffectDispatched
  | EffectAcknowledged _ _ _ _ => TEffectAcknowledged
  | EffectUncertain _ _ _ => TEffectUncertain
  | EffectNeedsReconciliation _ _ => TEffectNeedsReconciliation
  | EffectReconciliationRecorded _ _ _ _ => TEffectReconciliationRecorded
  | EffectAbandoned _ _ _ => TEffectAbandoned
  | CompensationRequested _ _ _ _ => TCompensationRequested
  | EffectCompensated _ _ _ _ => TEffectCompensated
  | ArtifactProduced _ _ _ => TArtifactProduced
  | VerificationStarted _ _ => TVerificationStarted
  | VerificationRecorded _ _ _ _ _ => TVerificationRecorded
  | VerificationExceptionRecorded _ _ _ _ _ _ _ _ _ _ _ _ => TVerificationExceptionRecorded
  | RunSuspended _ _ _ _ => TRunSuspended
  | RunCompleted _ _ _ => TRunCompleted
  | RunFailed _ _ _ => TRunFailed
  | RunCancelled _ _ _ => TRunCancelled
  end.

Definition eventType (e : RunEvent) : RunEventType := payload_type (e_payload e).

#[export] Instance RetryBoundary_eq_dec : EqDecision RetryBoundary.
Proof. solve_decision. Defined.
#[export] Instance RetryClassification_eq_dec : EqDecision RetryClassification.
Proof. solve_decision. Defined.
#[export] Instance ReconciliationResolution_eq_dec : EqDecision ReconciliationResolution.
Proof. solve_decision. Defined.
#[export] Instance VerificationStatus_eq_dec : EqDecision VerificationStatus.
Proof. solve_decision. Defined.
#[export] Instance ApprovalResume_eq_dec : EqDecision ApprovalResume.
Proof. solve_decision. Defined.
#[export] Instance RejectionStatus_eq_dec : EqDecision RejectionStatus.
Proof. solve_decision. Defined.
#[export] Instance PreviewReversibility_eq_dec : EqDecision PreviewReversibility.
Proof. solve_decision. Defined.
#[export] Instance ApprovalPreviewDisplay_eq_dec : EqDecision ApprovalPreviewDisplay.
Proof. solve_decision. Defined.
#[export] Instance RunEventPayload_eq_dec : EqDecision RunEventPayload.
Proof. solve_decision. Defined.
#[export] Instance RunEvent_eq_dec : EqDecision RunEvent.
Proof. solve_decision. Defined.
#[export] Instance RunEventType_eq_dec : EqDecision RunEventType.
Proof. solve_decision. Defined.

(** ** Schemas *)

Section Schemas.
Context `{Zod}.

Definition ApprovalPreviewFieldSchema (f : string * string) : option (string * string) :=
  label ← trimmed 80 f.1; value ← trimmed 500 f.2; Some (label, value).

(** Trims every text of the display and bounds its length. *)
Definition ApprovalPreviewDisplaySchema (d : ApprovalPreviewDisplay)
  : option ApprovalPreviewDisplay :=
  title ← trimmed 160 (apd_title d);
  summary ← trimmed 1000 (apd_summary d);
  consequence ← trimmed 1000 (apd_materialConsequence d);
  fields ← match apd_fields d with
           | None => Some None
           | Some fs => Some <$> array_of 0 16 ApprovalPreviewFieldSchema fs
           end;
  Some {| apd_title := title; apd_summary := summary; apd_materialConsequence := consequence;
          apd_reversibility := apd_reversibility d; apd_fields := fields |}.

(** The checks of each payload; none of them changes the value.  First the
    events of planning, execution, input and approval. *)
Definition run_payload_checks (p : RunEventPayload) : bool :=
  match p with
  | RunAccepted wo binding required =>
      min1 wo && DigestSchema binding && all_of min1 required
  | PlanningStarted step => min1 step
  | ModelCallStarted step res req => min1 step && min1 res && DigestSchema req
  | ModelCallCompleted step res resp finish =>
      min1 step && min1 res && DigestSchema resp && min1 finish
  | ExecutionStarted step call => min1 step && optional min1 call
  | ToolCallRequested step call reg args =>
      min1 step && min1 call && DigestSchema reg && DigestSchema args
  | ToolCallCompleted step call res => min1 step && min1 call && DigestSchema res
  | RetryScheduled step _ key attempt next _ delay notBefore =>
      min1 step && min1 key && int_positive attempt && int_positive next
      && int_nonnegative delay && zod_datetime notBefore
  | RetryResumed step _ key attempt => min1 step && min1 key && int_positive attempt
  | InputRequested step req schema prompt =>
      min1 step && min1 req && DigestSchema schema && min1 prompt
  | InputSubmitted step req rec schema value =>
      min1 step && min1 req && min1 rec && DigestSchema schema && DigestSchema value
  | ApprovalRequested step decision gate effect _ =>
      min1 step && min1 decision && DigestSchema gate && DigestSchema effect
  | ApprovalRecorded step decision approval _ => min1 step && min1 decision && min1 approval
  | ApprovalRejected step decision _ reason => min1 step && min1 decision && min1 reason
  | _ => true
  end.

(** The events of effects and compensation. *)
Definition effect_payload_checks (p : RunEventPayload) : bool :=
  match p with
  | EffectPrepared step effect digest key _ =>
      min1 step && min1 effect && DigestSchema digest && min1 key
  | EffectDispatched step effect attempt => min1 step && min1 effect && int_positive attempt
  | EffectAcknowledged step effect result ack =>
      min1 step && min1 effect && DigestSchema result && EffectAcknowledgementSchema ack
  | EffectUncertain step effect code => min1 step && min1 effect && min1 code
  | EffectNeedsReconciliation step effect => min1 step && min1 effect
  | EffectReconciliationRecorded step effect _ command =>
      min1 step && min1 effect && min1 command
  | EffectAbandoned step effect reason => min1 step && min1 effect && min1 reason
  | CompensationRequested step orig digest comp =>
      min1 step && min1 orig && DigestSchema digest && min1 comp
  | EffectCompensated step orig comp ack =>
      min1 step && DigestSchema orig && DigestSchema comp && DigestSchema ack
  | _ => true
  end.

(** The events of artifacts, verification and the end of a run. *)
Definition outcome_payload_checks (p : RunEventPayload) : bool :=
  match p with
  | ArtifactProduced step artifact digest => min1 step && min1 artifact && DigestSchema digest
  | VerificationStarted step digest => min1 step && DigestSchema digest
  | VerificationRecorded step verification verifier _ digest =>
      min1 step && min1 verification && min1 verifier && DigestSchema digest
  | VerificationExceptionRecorded step exc excDigest verifier regDigest artifact rubric
      rubricDigest role expires reason controls =>
      min1 step && min1 exc && DigestSchema excDigest && min1 verifier
      && DigestSchema regDigest && DigestSchema artifact && min1 rubric
      && DigestSchema rubricDigest && min1 role && zod_datetime expires && min1 reason
      && all_of min1 controls && (1 <=? Z.of_nat (length controls))
  | RunSuspended step _ reason effect => min1 step && min1 reason && optional min1 effect
  | RunCompleted step evidence output => min1 step && min1 evidence && DigestSchema output
  | RunFailed step _ details =>
      optional min1 step && optional (forallb (fun kv => JsonValueSchema kv.2)) details
  | RunCancelled step reason actor => optional min1 step && min1 reason && min1 actor
  | _ => true
  end.

Definition payload_checks (p : RunEventPayload) : bool :=
  run_payload_checks p && effect_payload_checks p && outcome_payload_checks p.

Definition payload_parse (p : RunEventPayload) : option RunEventPayload :=
  if payload_checks p then
    match p with
    | ApprovalRequested step decision gate effect (Some display) =>
        d ← ApprovalPreviewDisplaySchema display;
        Some (ApprovalRequested step decision gate effect (Some d))
    | _ => Some p
    end
  else None.

Definition EventBaseSchema (e : RunEvent) : bool :=
  min1 (e_eventId e) && min1 (e_runId e) && int_positive (e_sequence e)
  && zod_datetime (e_occurredAt e) && min1 (e_correlationId e)
  && optional min1 (e_causationId e) && min1 (e_tenantId e)
  && ExecutionDefinitionRefSchema (e_executionDefinition e)
  && DigestSchema (e_executionDefinitionDigest e) && optional DigestSchema (e_prevHash e).

(** [RunEventSchema.safeParse] *)
Definition RunEventSchema (e : RunEvent) : option RunEvent :=
  if EventBaseSchema e then
    payload ← payload_parse (e_payload e);
    Some {| e_eventId := e_eventId e; e_runId := e_runId e; e_sequence := e_sequence e;
            e_occurredAt := e_occurredAt e; e_correlationId := e_correlationId e;
            e_causationId := e_causationId e; e_tenantId := e_tenantId e;
            e_dataClass := e_dataClass e; e_executionDefinition := e_executionDefinition e;
            e_executionDefinitionDigest := e_executionDefinitionDigest e;
            e_prevHash := e_prevHash e; e_payload := payload |}
  else None.
End Schemas.

(** ** The transition table *)

Definition STATE_PRESERVING_EVENTS (s : RunStatus) : list RunEventType :=
  match s with
  | planning => [TModelCallStarted; TModelCallCompleted; TRetryScheduled; TRetryResumed]
  | running =>
      [TToolCallRequested; TToolCallCompleted; TRetryScheduled; TRetryResumed; TEffectPrepared;
       TEffectDispatched; TEffectAcknowledged; TEffectUncertain; TArtifactProduced;
       TCompensationRequested; TEffectCompensated]
  | suspended =>
      [TEffectNeedsReconciliation; TEffectReconciliationRecorded; TEffectAcknowledged]
  | verifying => [TVerificationRecorded; TVerificationExceptionRecorded]
  | _ => []
  end.

Definition nextStatusFor (p : RunEventPayload) : option RunStatus :=
  match p with
  | RunAccepted _ _ _ => Some accepted
  | PlanningStarted _ => Some planning
  | ExecutionStarted _ _ => Some running
  | InputRequested _ _ _ _ => Some waiting_for_input
  | InputSubmitted _ _ _ _ _ => Some planning
  | ApprovalRequested _ _ _ _ _ => Some waiting_for_approval
  | ApprovalRecorded _ _ _ approve_planning => Some planning
  | ApprovalRecorded _ _ _ approve_running => Some running
  | ApprovalRejected _ _ reject_planning _ => Some planning
  | ApprovalRejected _ _ reject_failed _ => Some failed
  | ApprovalRejected _ _ reject_cancelled _ => Some cancelled
  | VerificationStarted _ _ => Some verifying
  | RunSuspended _ _ _ _ => Some suspended
  | RunCompleted _ _ _ => Some completed
  | RunFailed _ _ _ => Some failed
  | RunCancelled _ _ _ => Some cancelled
  | _ => None
  end.

Definition status_name (s : RunStatus) : string :=
  match s with
  | created => "created" | accepted => "accepted" | planning => "planning"
  | running => "running" | waiting_for_input => "waiting_for_input"
  | waiting_for_approval => "waiting_for_approval" | suspended => "suspended"
  | verifying => "verifying" | completed => "completed" | failed => "failed"
  | cancelled => "cancelled"
  end.

Definition event_name (t : RunEventType) : string :=
  match t with
  | TRunAccepted => "RunAccepted" | TPlanningStarted => "PlanningStarted"
  | TModelCallStarted => "ModelCallStarted" | TModelCallCompleted => "ModelCallCompleted"
  | TExecutionStarted => "ExecutionStarted" | TToolCallRequested => "ToolCallRequested"
  | TToolCallCompleted => "ToolCallCompleted" | TRetryScheduled => "RetryScheduled"
  | TRetryResumed => "RetryResumed" | TInputRequested => "InputRequested"
  | TInputSubmitted => "InputSubmitted" | TApprovalRequested => "ApprovalRequested"
  | TApprovalRecorded => "ApprovalRecorded" | TApprovalRejected => "ApprovalRejected"
  | TEffectPrepared => "EffectPrepared" | TEffectDispatched => "EffectDispatched"
  | TEffectAcknowledged => "EffectAcknowledged" | TEffectUncertain => "EffectUncertain"
  | TEffectNeedsReconciliation => "EffectNeedsReconciliation"
  | TEffectReconciliationRecorded => "EffectReconciliationRecorded"
  | TEffectAbandoned => "EffectAbandoned" | TCompensationRequested => "CompensationRequested"
  | TEffectCompensated => "EffectCompensated" | TArtifactProduced => "ArtifactProduced"
  | TVerificationStarted => "VerificationStarted"
  | TVerificationRecorded => "VerificationRecorded"
  | TVerificationExceptionRecorded => "VerificationExceptionRecorded"
  | TRunSuspended => "RunSuspended" | TRunCompleted => "RunCompleted"
  | TRunFailed => "RunFailed" | TRunCancelled => "RunCancelled"
  end.

Definition is_compensation (d : ExecutionDefinitionRef) : bool :=
  match d with compensation_definition _ => true | agent_definition _ => false end.

Definition assertKindAllowed (projection : RunProjection) (payload : RunEventPayload)
    (next : option RunStatus) : outcome js_error unit :=
  let compensation := is_compensation (run_executionDefinition (p_run projection)) in
  let t := payload_type payload in
  let forbidden :=
    bool_decide (t ∈ [TPlanningStarted; TModelCallStarted; TModelCallCompleted;
                      TInputRequested; TInputSubmitted])
    || bool_decide (next = Some planning) in
  if compensation && forbidden then
    Throw (KafError KAF_RUNTIME_INVALID_TRANSITION
      [("reason", DStr "compensation_has_no_model_or_input"); ("eventType", DStr (event_name t))])
  else if bool_decide (t = TCompensationRequested) && negb compensation then
    Throw (KafReason KAF_RUNTIME_INVALID_TRANSITION "compensation_event_requires_compensation_run")
  else Return tt.

(** ** The reducer *)

Definition set_currentStepId (v : option string) (p : RunProjection) : RunProjection :=
  let '(Build_RunProjection r n l _ rt w d a ar ve rq pa ex te) := p in
  Build_RunProjection r n l v rt w d a ar ve rq pa ex te.
Definition set_resumeTarget (v : option ResumeTarget) (p : RunProjection) : RunProjection :=
  let '(Build_RunProjection r n l s _ w d a ar ve rq pa ex te) := p in
  Build_RunProjection r n l s v w d a ar ve rq pa ex te.
Definition set_waitingRequestId (v : option string) (p : RunProjection) : RunProjection :=
  let '(Build_RunProjection r n l s rt _ d a ar ve rq pa ex te) := p in
  Build_RunProjection r n l s rt v d a ar ve rq pa ex te.
Definition set_waitingDecisionId (v : option string) (p : RunProjection) : RunProjection :=
  let '(Build_RunProjection r n l s rt w _ a ar ve rq pa ex te) := p in
  Build_RunProjection r n l s rt w v a ar ve rq pa ex te.
Definition set_activeEffectId (v : option string) (p : RunProjection) : RunProjection :=
  let '(Build_RunProjection r n l s rt w d _ ar ve rq pa ex te) := p in
  Build_RunProjection r n l s rt w d v ar ve rq pa ex te.
Definition set_artifactIds (v : list string) (p : RunProjection) : RunProjection :=
  let '(Build_RunProjection r n l s rt w d a _ ve rq pa ex te) := p in
  Build_RunProjection r n l s rt w d a v ve rq pa ex te.
Definition set_verificationIds (v : list string) (p : RunProjection) : RunProjection :=
  let '(Build_RunProjection r n l s rt w d a ar _ rq pa ex te) := p in
  Build_RunProjection r n l s rt w d a ar v rq pa ex te.
Definition set_requiredVerifierIds (v : list string) (p : RunProjection) : RunProjection :=
  let '(Build_RunProjection r n l s rt w d a ar ve _ pa ex te) := p in
  Build_RunProjection r n l s rt w d a ar ve v pa ex te.
Definition set_passedVerifierIds (v : list string) (p : RunProjection) : RunProjection :=
  let '(Build_RunProjection r n l s rt w d a ar ve rq _ ex te) := p in
  Build_RunProjection r n l s rt w d a ar ve rq v ex te.
Definition set_verificationExceptionIds (v : list string) (p : RunProjection) : RunProjection :=
  let '(Build_RunProjection r n l s rt w d a ar ve rq pa _ te) := p in
  Build_RunProjection r n l s rt w d a ar ve rq pa v te.
Definition set_terminalErrorCode (v : option string) (p : RunProjection) : RunProjection :=
  let '(Build_RunProjection r n l s rt w d a ar ve rq pa ex _) := p in
  Build_RunProjection r n l s rt w d a ar ve rq pa ex v.

(** [[...new Set(l)]]: the first occurrence of each element, in order. *)
Fixpoint new_set_from (seen l : list string) : list string :=
  match l with
  | [] => []
  | x :: l' => if decide (x ∈ seen) then new_set_from seen l'
               else x :: new_set_from (x :: seen) l'
  end.
Definition new_set (l : list string) : list string := new_set_from [] l.

(** [{ ...projection, status, lastSequence, lastEventId, updatedAt }] *)
Definition advance (projection : RunProjection) (e : RunEvent) (next : option RunStatus)
  : RunProjection :=
  let r := p_run projection in
  {| p_run := {| run_runId := run_runId r; run_tenantId := run_tenantId r;
                 run_workOrderId := run_workOrderId r;
                 run_workOrderBindingDigest := run_workOrderBindingDigest r;
                 run_executionDefinition := run_executionDefinition r;
                 run_executionDefinitionDigest := run_executionDefinitionDigest r;
                 run_status := default (run_status r) next;
                 run_createdAt := run_createdAt r; run_updatedAt := e_occurredAt e;
                 run_dataClass := run_dataClass r; run_correlationId := run_correlationId r |};
     p_lastSequence := e_sequence e;
     p_lastEventId := Some (e_eventId e);
     p_currentStepId := p_currentStepId projection;
     p_resumeTarget := p_resumeTarget projection;
     p_waitingRequestId := p_waitingRequestId projection;
     p_waitingDecisionId := p_waitingDecisionId projection;
     p_activeEffectId := p_activeEffectId projection;
     p_artifactIds := p_artifactIds projection;
     p_verificationIds := p_verificationIds projection;
     p_requiredVerifierIds := p_requiredVerifierIds projection;
     p_passedVerifierIds := p_passedVerifierIds projection;
     p_verificationExceptionIds := p_verificationExceptionIds projection;
     p_terminalErrorCode := p_terminalErrorCode projection |}.

(** The first switch of the reducer: events that carry the current step. *)
Definition apply_step (p : RunEventPayload) (base : RunProjection) : RunProjection :=
  match p with
  | PlanningStarted step | ExecutionStarted step _ | InputRequested step _ _ _
  | InputSubmitted step _ _ _ _ | ApprovalRequested step _ _ _ _ | ApprovalRecorded step _ _ _
  | ApprovalRejected step _ _ _ | VerificationStarted step _ | RunSuspended step _ _ _
  | RunCompleted step _ _ => set_currentStepId (Some step) base
  | _ => base
  end.

Definition error_code_name (c : KafErrorCode) : string :=
  match c with
  | KAF_SCHEMA_INVALID => "KAF_SCHEMA_INVALID"
  | KAF_SERIALIZATION_INVALID_JSON => "KAF_SERIALIZATION_INVALID_JSON"
  | KAF_SERIALIZATION_DUPLICATE_KEY => "KAF_SERIALIZATION_DUPLICATE_KEY"
  | KAF_SERIALIZATION_INVALID_UNICODE => "KAF_SERIALIZATION_INVALID_UNICODE"
  | KAF_SERIALIZATION_NON_I_JSON_NUMBER => "KAF_SERIALIZATION_NON_I_JSON_NUMBER"
  | KAF_SERIALIZATION_UNSUPPORTED_VALUE => "KAF_SERIALIZATION_UNSUPPORTED_VALUE"
  | KAF_SERIALIZATION_CYCLIC_VALUE => "KAF_SERIALIZATION_CYCLIC_VALUE"
  | KAF_RUNTIME_INVALID_TRANSITION => "KAF_RUNTIME_INVALID_TRANSITION"
  | KAF_RUNTIME_TERMINAL => "KAF_RUNTIME_TERMINAL"
  | KAF_RUNTIME_EVENT_SEQUENCE => "KAF_RUNTIME_EVENT_SEQUENCE"
  | KAF_RUNTIME_EVENT_BINDING => "KAF_RUNTIME_EVENT_BINDING"
  | KAF_RUNTIME_AGENT_DEFINITION_MISMATCH => "KAF_RUNTIME_AGENT_DEFINITION_MISMATCH"
  | KAF_RUNTIME_MODEL_EMPTY => "KAF_RUNTIME_MODEL_EMPTY"
  | KAF_EFFECT_INVALID_TRANSITION => "KAF_EFFECT_INVALID_TRANSITION"
  | KAF_EFFECT_ABANDONED_UNCERTAIN => "KAF_EFFECT_ABANDONED_UNCERTAIN"
  | KAF_AUTHORIZATION_BINDING_MISMATCH => "KAF_AUTHORIZATION_BINDING_MISMATCH"
  | KAF_AUTHORIZATION_EXPIRED => "KAF_AUTHORIZATION_EXPIRED"
  | KAF_POLICY_DENIED => "KAF_POLICY_DENIED"
  | KAF_ADMISSION_DENIED => "KAF_ADMISSION_DENIED"
  | KAF_STORAGE_CONCURRENCY_CONFLICT => "KAF_STORAGE_CONCURRENCY_CONFLICT"
  | KAF_STORAGE_NOT_FOUND => "KAF_STORAGE_NOT_FOUND"
  | KAF_STORAGE_SECURITY_PROFILE => "KAF_STORAGE_SECURITY_PROFILE"
  | KAF_RUNTIME_CAPABILITY_MISSING => "KAF_RUNTIME_CAPABILITY_MISSING"
  | KAF_RUNTIME_NOT_READY => "KAF_RUNTIME_NOT_READY"
  | KAF_MODEL_RESOURCE_LIMIT_EXCEEDED => "KAF_MODEL_RESOURCE_LIMIT_EXCEEDED"
  | KAF_MODEL_CREDENTIAL_REQUIRED => "KAF_MODEL_CREDENTIAL_REQUIRED"
  | KAF_MODEL_ADAPTER_MISMATCH => "KAF_MODEL_ADAPTER_MISMATCH"
  | KAF_TOOL_EXECUTION_FAILED => "KAF_TOOL_EXECUTION_FAILED"
  | KAF_VERIFICATION_REQUIRED => "KAF_VERIFICATION_REQUIRED"
  | KAF_EVIDENCE_INVALID_REFERENCE => "KAF_EVIDENCE_INVALID_REFERENCE"
  | KAF_PATTERN_INSUFFICIENT_EVIDENCE => "KAF_PATTERN_INSUFFICIENT_EVIDENCE"
  | KAF_COMMAND_IDEMPOTENCY_EXPIRED => "KAF_COMMAND_IDEMPOTENCY_EXPIRED"
  | KAF_HTTP_IDEMPOTENCY_CONFLICT => "KAF_HTTP_IDEMPOTENCY_CONFLICT"
  end.

(** The second switch of the reducer. *)
Definition apply_payload (p : RunEventPayload) (base : RunProjection) : RunProjection :=
  match p with
  | RunAccepted _ _ required => set_requiredVerifierIds required base
  | InputRequested _ request _ _ => set_waitingRequestId (Some request) base
  | InputSubmitted _ _ _ _ _ => set_waitingRequestId None base
  | ApprovalRequested _ decision _ _ _ => set_waitingDecisionId (Some decision) base
  | ApprovalRecorded _ _ _ _ | ApprovalRejected _ _ _ _ => set_waitingDecisionId None base
  | RunSuspended _ target _ effect => set_activeEffectId effect (set_resumeTarget (Some target) base)
  | PlanningStarted _ | ExecutionStarted _ _ | VerificationStarted _ _ =>
      set_resumeTarget None base
  | EffectPrepared _ effect _ _ _ => set_activeEffectId (Some effect) base
  | EffectAcknowledged _ _ _ _ | EffectAbandoned _ _ _ => set_activeEffectId None base
  | ArtifactProduced _ artifact _ => set_artifactIds (p_artifactIds base ++ [artifact]) base
  | VerificationRecorded _ verification verifier status _ =>
      let base := set_verificationIds (p_verificationIds base ++ [verification]) base in
      if decide (status = verification_pass) then
        set_passedVerifierIds (new_set (p_passedVerifierIds base ++ [verifier])) base
      else base
  | VerificationExceptionRecorded _ _ _ verifier _ _ _ _ _ _ _ _ =>
      set_verificationExceptionIds (new_set (p_verificationExceptionIds base ++ [verifier])) base
  | RunFailed _ code _ => set_terminalErrorCode (Some (error_code_name code)) base
  | _ => base
  end.

(** Every required verifier passed or was excepted. *)
Definition verifiers_satisfied (p : RunProjection) : bool :=
  all_of (fun id => bool_decide (id ∈ p_passedVerifierIds p)
                    || bool_decide (id ∈ p_verificationExceptionIds p))
         (p_requiredVerifierIds p).

(** The event belongs to the run of the projection. *)
Definition event_bound (p : RunProjection) (e : RunEvent) : bool :=
  bool_decide (e_runId e = run_runId (p_run p))
  && bool_decide (e_tenantId e = run_tenantId (p_run p))
  && bool_decide (e_executionDefinitionDigest e = run_executionDefinitionDigest (p_run p))
  && bool_decide (e_executionDefinition e = run_executionDefinition (p_run p)).

Definition assertTransition (projection : RunProjection) (e : RunEvent)
    (next : option RunStatus) : outcome js_error unit :=
  match next with
  | None =>
      require (bool_decide (eventType e ∈ STATE_PRESERVING_EVENTS (p_status projection)))
        (KafError KAF_RUNTIME_INVALID_TRANSITION
           [("state", DStr (status_name (p_status projection)));
            ("eventType", DStr (event_name (eventType e)))])
  | Some target =>
      require (bool_decide (target ∈ RUN_TRANSITIONS (p_status projection)))
        (KafError KAF_RUNTIME_INVALID_TRANSITION
           [("from", DStr (status_name (p_status projection)));
            ("to", DStr (status_name target));
            ("eventType", DStr (event_name (eventType e)))])
  end.

Section Reducer.
Context `{Zod}.

Definition reduceRunEvent (previous : RunProjection) (input : RunEvent)
  : outcome js_error RunProjection :=
  projection ← parse RunProjectionSchema previous;
  e ← orThrow (RunEventSchema input) ZodError;
  if TerminalRunStatus (p_status projection) then Throw (KafError KAF_RUNTIME_TERMINAL [])
  else if negb (event_bound projection e) then Throw (KafError KAF_RUNTIME_EVENT_BINDING [])
  else if negb (e_sequence e =? p_lastSequence projection + 1) then
    Throw (KafError KAF_RUNTIME_EVENT_SEQUENCE
      [("expected", DNum (p_lastSequence projection + 1)); ("received", DNum (e_sequence e))])
  else
    let next := nextStatusFor (e_payload e) in
    _ ← assertKindAllowed projection (e_payload e) next;
    _ ← assertTransition projection e next;
    _ ← require (negb (bool_decide (eventType e = TRunCompleted))
                 || verifiers_satisfied projection)
                (KafError KAF_VERIFICATION_REQUIRED []);
    let base := advance projection e next in
    parse RunProjectionSchema (apply_payload (e_payload e) (apply_step (e_payload e) base)).

Fixpoint rebuildRunProjection (initial : RunProjection) (events : list RunEvent)
  : outcome js_error RunProjection :=
  match events with
  | [] => Return initial
  | e :: events' => next ← reduceRunEvent initial e; rebuildRunProjection next events'
  end.
End Reducer.
