(* ===== verification/EventsFacts.v ===== *)
(** * Properties of the run reducer

    The inversion of one reduction, the invariants of reachable projections and
    the properties of whole event streams. *)

From S2P Require Import Prelude JsTime Errors Schema JsonValue Contracts Effects Run Events.

Local Open Scope Z_scope.

(** ** Field lemmas of the two switches *)

Lemma apply_step_run p b : p_run (apply_step p b) = p_run b.
Proof. by destruct b, p. Qed.
Lemma apply_payload_run p b : p_run (apply_payload p b) = p_run b.
Proof. destruct b, p; try done. cbn. by case_decide. Qed.
Lemma apply_step_sequence p b : p_lastSequence (apply_step p b) = p_lastSequence b.
Proof. by destruct b, p. Qed.
Lemma apply_payload_sequence p b : p_lastSequence (apply_payload p b) = p_lastSequence b.
Proof. destruct b, p; try done. cbn. by case_decide. Qed.
Lemma apply_step_eventId p b : p_lastEventId (apply_step p b) = p_lastEventId b.
Proof. by destruct b, p. Qed.
Lemma apply_payload_eventId p b : p_lastEventId (apply_payload p b) = p_lastEventId b.
Proof. destruct b, p; try done. cbn. by case_decide. Qed.

#[export] Hint Rewrite apply_step_run apply_payload_run apply_step_sequence
  apply_payload_sequence apply_step_eventId apply_payload_eventId : reducer.

(** The new projection: the source builds it before the final parse. *)
Definition reduced (p : RunProjection) (e : RunEvent) : RunProjection :=
  apply_payload (e_payload e) (apply_step (e_payload e) (advance p e (nextStatusFor (e_payload e)))).

Lemma reduced_status p e :
  p_status (reduced p e) = default (p_status p) (nextStatusFor (e_payload e)).
Proof. unfold reduced, p_status. by autorewrite with reducer. Qed.

Lemma new_set_from_elem seen l x : x ∈ new_set_from seen l <-> x ∈ l /\ x ∉ seen.
Proof.
  revert seen. induction l as [| y l IH]; intros seen; cbn; [set_solver |].
  case_decide as Hy; rewrite ?elem_of_cons, IH; [set_solver |].
  destruct (decide (x = y)); set_solver.
Qed.

#[global] Arguments new_set : simpl never.

Lemma new_set_elem l x : x ∈ new_set l <-> x ∈ l.
Proof. unfold new_set. rewrite new_set_from_elem. set_solver. Qed.

Lemma new_set_NoDup l : NoDup (new_set l).
Proof.
  unfold new_set. generalize (@nil string) as seen.
  induction l as [| y l IH]; intros seen; cbn; [constructor |].
  case_decide; [done |]. constructor; [| done]. rewrite new_set_from_elem. set_solver.
Qed.

(** ** One reduction *)

(** The conditions under which the reducer accepts a parsed event. *)
Record acceptable `{Zod} (p : RunProjection) (e : RunEvent) : Prop := {
  acc_projection : RunProjectionSchema p = true;
  acc_live : TerminalRunStatus (p_status p) = false;
  acc_bound : event_bound p e = true;
  acc_sequence : e_sequence e = p_lastSequence p + 1;
  acc_kind : assertKindAllowed p (e_payload e) (nextStatusFor (e_payload e)) = Return tt;
  acc_transition :
    match nextStatusFor (e_payload e) with
    | Some next => next ∈ RUN_TRANSITIONS (p_status p)
    | None => eventType e ∈ STATE_PRESERVING_EVENTS (p_status p)
    end;
  acc_verified : eventType e = TRunCompleted -> verifiers_satisfied p = true;
}.

Lemma assertTransition_Return p e next u :
  assertTransition p e next = Return u <->
  match next with
  | Some target => target ∈ RUN_TRANSITIONS (p_status p)
  | None => eventType e ∈ STATE_PRESERVING_EVENTS (p_status p)
  end.
Proof.
  unfold assertTransition, require. destruct u, next; case_bool_decide; naive_solver.
Qed.

Section Facts.
Context `{Zod}.

Lemma reduceRunEvent_Return p e p' :
  reduceRunEvent p e = Return p' <->
  exists e', RunEventSchema e = Some e' /\ acceptable p e'
             /\ p' = reduced p e' /\ RunProjectionSchema p' = true.
Proof.
  unfold reduceRunEvent. split.
  - destruct (parse RunProjectionSchema p) as [p0 |] eqn:Hp; [| done].
    apply parse_Return in Hp as [Hp ->]. cbn [mbind outcome_bind].
    destruct (RunEventSchema e) as [e' |]; [| done]. cbn [orThrow mbind outcome_bind].
    destruct (TerminalRunStatus (p_status p)) eqn:Hlive; [done |].
    destruct (event_bound p e') eqn:Hb; cbn [negb]; [| done].
    destruct (e_sequence e' =? p_lastSequence p + 1) eqn:Hseq; cbn [negb]; [| done]. bools.
    cbv zeta. destruct (assertKindAllowed _ _ _) as [[] |] eqn:Hk; [| done].
    cbn [mbind outcome_bind].
    destruct (assertTransition _ _ _) eqn:Ht; [| done]. apply assertTransition_Return in Ht.
    unfold require. cbn [mbind outcome_bind].
    destruct (negb (bool_decide (eventType e' = TRunCompleted)) || verifiers_satisfied p)
      eqn:Hv; [| done]. cbn [mbind outcome_bind].
    intros Hr. apply parse_Return in Hr as [Hok ->].
    exists e'. split_and!; try done. split; try done.
    intros Hc. by rewrite bool_decide_eq_true_2 in Hv.
  - intros (e' & He & [Hp Hlive Hb Hseq Hk Ht Hv] & -> & Hok).
    apply (assertTransition_Return _ _ _ tt) in Ht.
    rewrite (proj2 (parse_Return _ p p)) by done. cbn [mbind outcome_bind].
    rewrite He. cbn [orThrow mbind outcome_bind]. rewrite Hlive, Hb. cbn [negb].
    rewrite (proj2 (Z.eqb_eq _ _)) by done. cbn [negb]. cbv zeta. rewrite Hk. cbn [mbind outcome_bind].
    rewrite Ht. cbn [mbind outcome_bind]. unfold require.
    case_bool_decide as Hc; cbn [negb orb].
    + rewrite (Hv Hc). by apply parse_Return.
    + by apply parse_Return.
Qed.

(** A parsed event parses to itself, up to the text of an approval display. *)
Lemma RunEventSchema_inv e e' :
  RunEventSchema e = Some e' ->
  EventBaseSchema e = true /\ payload_parse (e_payload e) = Some (e_payload e')
  /\ EventBaseSchema e' = true
  /\ e_sequence e' = e_sequence e /\ e_eventId e' = e_eventId e
  /\ e_runId e' = e_runId e /\ e_tenantId e' = e_tenantId e.
Proof.
  unfold RunEventSchema. destruct (EventBaseSchema e) eqn:Hb; [| done].
  destruct (payload_parse (e_payload e)) eqn:Hp; [| done]. by intros [= <-].
Qed.

Lemma payload_parse_checks p p' :
  payload_parse p = Some p' -> payload_checks p' = true /\ payload_type p' = payload_type p.
Proof.
  unfold payload_parse. destruct (payload_checks p) eqn:Hc; [| done].
  destruct p; try (by intros [= <-]).
  destruct approvalDisplay as [d |]; cbn [mbind option_bind]; [| by intros [= <-]].
  destruct (ApprovalPreviewDisplaySchema d); [| done]. intros [= <-]. done.
Qed.

Lemma mapM_idem {A} (f : A -> option A) l k :
  (forall a b, f a = Some b -> f b = Some b) -> mapM f l = Some k -> mapM f k = Some k.
Proof.
  intros Hf. revert k. induction l as [| a l IH]; cbn; intros k; [by intros [= <-] |].
  destruct (f a) as [b |] eqn:Ha; cbn; [| done].
  destruct (mapM f l) as [k' |] eqn:Hl; cbn; [| done]. intros [= <-]. cbn.
  rewrite (Hf _ _ Ha). cbn. by rewrite (IH k' eq_refl).
Qed.

Lemma field_idem f g :
  ApprovalPreviewFieldSchema f = Some g -> ApprovalPreviewFieldSchema g = Some g.
Proof.
  unfold ApprovalPreviewFieldSchema. destruct (trimmed 80 f.1) eqn:H1; cbn; [| done].
  destruct (trimmed 500 f.2) eqn:H2; cbn; [| done]. intros [= <-]. cbn.
  rewrite (trimmed_idem _ _ _ H1). cbn. by rewrite (trimmed_idem _ _ _ H2).
Qed.

Lemma display_idem d d' :
  ApprovalPreviewDisplaySchema d = Some d' -> ApprovalPreviewDisplaySchema d' = Some d'.
Proof.
  unfold ApprovalPreviewDisplaySchema.
  destruct (trimmed 160 (apd_title d)) eqn:H1; cbn; [| done].
  destruct (trimmed 1000 (apd_summary d)) eqn:H2; cbn; [| done].
  destruct (trimmed 1000 (apd_materialConsequence d)) eqn:H3; cbn; [| done].
  destruct (apd_fields d) as [fs |]; cbn; [| intros [= <-]; cbn;
    by rewrite (trimmed_idem _ _ _ H1); cbn; rewrite (trimmed_idem _ _ _ H2); cbn;
    rewrite (trimmed_idem _ _ _ H3)].
  unfold array_of. destruct (_ && _) eqn:Hlen; cbn; [| done].
  destruct (mapM _ fs) as [gs |] eqn:Hm; cbn; [| done]. intros [= <-]. cbn.
  rewrite (trimmed_idem _ _ _ H1). cbn. rewrite (trimmed_idem _ _ _ H2). cbn.
  rewrite (trimmed_idem _ _ _ H3). cbn.
  pose proof (length_mapM _ _ _ Hm) as Hl. rewrite <-Hl, Hlen.
  by rewrite (mapM_idem _ _ _ field_idem Hm).
Qed.

(** A parsed event parses to itself. *)
Lemma RunEventSchema_idem e e' : RunEventSchema e = Some e' -> RunEventSchema e' = Some e'.
Proof.
  intros (_ & Hp & Hb & _)%RunEventSchema_inv. unfold RunEventSchema. rewrite Hb.
  assert (payload_parse (e_payload e') = Some (e_payload e')) as Hpp.
  { pose proof (payload_parse_checks _ _ Hp) as [Hc _]. unfold payload_parse in *.
    rewrite Hc. destruct (payload_checks (e_payload e)); [| done].
    destruct (e_payload e); injection Hp as <- || idtac; try done.
    destruct approvalDisplay as [d |]; cbn [mbind option_bind] in Hp; [| by injection Hp as <-].
    destruct (ApprovalPreviewDisplaySchema d) as [d' |] eqn:Hd; [| done].
    injection Hp as <-. cbn. by rewrite (display_idem _ _ Hd). }
  rewrite Hpp. cbn. by destruct e'.
Qed.

(** The projection built from a valid projection and a parsed event is valid:
    the final parse of the reducer never throws. *)
Lemma reduced_valid p e e' :
  RunProjectionSchema p = true -> RunEventSchema e = Some e' ->
  RunProjectionSchema (reduced p e') = true.
Proof.
  intros Hp (_ & Hpay & Hb & _)%RunEventSchema_inv.
  apply payload_parse_checks in Hpay as [Hchk _].
  assert (forall l x, all_of min1 l = true -> min1 x = true -> all_of min1 (l ++ [x]) = true)
    as Hsnoc.
  { intros l x Hl Hx. rewrite all_of_spec in *. set_solver. }
  assert (forall l, all_of min1 l = true -> all_of min1 (new_set l) = true) as Hset.
  { intros l Hl. rewrite all_of_spec in *. intros a. rewrite new_set_elem. auto. }
  unfold reduced, advance. generalize (nextStatusFor (e_payload e')). intros next.
  unfold payload_checks, RunProjectionSchema, RunSchema, EventBaseSchema in *. bools.
  assert (forall n, int_positive n = true -> int_nonnegative n = true) as Hnn.
  { intros n Hn. unfold int_positive, int_nonnegative in *. bools.
    apply andb_true_iff. split; [done |]. apply Z.leb_le. lia. }
  destruct (e_payload e'); cbn in *; try case_decide; cbn; bools;
    rewrite !andb_true_iff; split_and!; auto.
  all: try (by destruct errorCode).
Qed.
End Facts.
