(* ===== verification/RunStreams.v ===== *)
(** * Event streams

    What holds of every projection an accepted stream builds. *)

From S2P Require Import Prelude JsTime Errors Schema JsonValue Contracts Effects Run Events EventsFacts.

Local Open Scope Z_scope.

Section Streams.
Context `{Zod}.

Lemma rebuild_app p l k :
  rebuildRunProjection p (l ++ k) = (q ← rebuildRunProjection p l; rebuildRunProjection q k).
Proof.
  revert p. induction l as [| e l IH]; intros p; cbn; [done |].
  destruct (reduceRunEvent p e); cbn; [apply IH | done].
Qed.

(** Induction over an accepted stream, from its start: [P q h] relates the
    projection to the parsed events consumed so far. *)
Lemma rebuild_ind (P : RunProjection -> list RunEvent -> Prop) p l q :
  P p [] ->
  (forall m h e e', P m h -> RunEventSchema e = Some e' -> acceptable m e' ->
     P (reduced m e') (h ++ [e'])) ->
  rebuildRunProjection p l = Return q ->
  exists h, mapM RunEventSchema l = Some h /\ P q h.
Proof.
  intros H0 Hstep. revert q. induction l as [| e l IH] using rev_ind; intros q Hq.
  { cbn in Hq. injection Hq as <-. by exists []. }
  rewrite rebuild_app in Hq. destruct (rebuildRunProjection p l) as [m |] eqn:Hm; [| done].
  cbn in Hq. destruct (reduceRunEvent m e) as [m' |] eqn:Hr; [| done]. injection Hq as <-.
  destruct (IH m eq_refl) as (h & Hh & Hmh).
  apply reduceRunEvent_Return in Hr as (e' & He & Hacc & -> & _).
  exists (h ++ [e']). split; [| by apply (Hstep m h e e')].
  rewrite mapM_app, Hh. cbn. by rewrite He.
Qed.

(** The projection of a run that starts from its header. *)
Definition reachable (q : RunProjection) : Prop :=
  exists run l, run_status run = created
    /\ rebuildRunProjection (createRunProjection run) l = Return q.

Lemma reachable_ind (P : RunProjection -> Prop) q :
  (forall run, run_status run = created -> P (createRunProjection run)) ->
  (forall m e e', P m -> RunEventSchema e = Some e' -> acceptable m e' -> P (reduced m e')) ->
  reachable q -> P q.
Proof.
  intros H0 Hstep (run & l & Hrun & Hq).
  apply (rebuild_ind (fun m _ => P m)) in Hq as (? & _ & ?); eauto.
Qed.

(** The status automaton the table describes. *)
Definition status_step (s t : RunStatus) : Prop := t ∈ RUN_TRANSITIONS s.

Lemma acceptable_status m e :
  acceptable m e -> p_status (reduced m e) = p_status m
                    \/ status_step (p_status m) (p_status (reduced m e)).
Proof.
  intros [_ _ _ _ _ Ht _]. rewrite reduced_status.
  destruct (nextStatusFor (e_payload e)); [by right | by left].
Qed.


(** C13: a terminal run is immutable: no stream continues past a projection
    whose status is completed, failed or cancelled, and a well-formed event
    offered to it is answered with KAF_RUNTIME_TERMINAL. *)
Theorem terminal_is_final p l k m q :
  rebuildRunProjection p l = Return m -> TerminalRunStatus (p_status m) = true ->
  rebuildRunProjection p (l ++ k) = Return q -> k = [] /\ q = m.
Proof.
  intros Hm Ht. rewrite rebuild_app, Hm. cbn. destruct k as [| e k]; cbn.
  { by intros [= <-]. }
  destruct (reduceRunEvent m e) as [m' |] eqn:Hr; [| done].
  apply reduceRunEvent_Return in Hr as (e' & _ & Hacc & _).
  by rewrite (acc_live _ _ Hacc) in Ht.
Qed.

Lemma reduced_identity m e :
  run_runId (p_run (reduced m e)) = run_runId (p_run m)
  /\ run_tenantId (p_run (reduced m e)) = run_tenantId (p_run m)
  /\ run_executionDefinition (p_run (reduced m e)) = run_executionDefinition (p_run m)
  /\ p_lastSequence (reduced m e) = e_sequence e
  /\ p_lastEventId (reduced m e) = Some (e_eventId e).
Proof. unfold reduced. by autorewrite with reducer. Qed.

(** An accepted stream carries consecutive numbers and the run's identity. *)
Lemma rebuild_contiguous p l q :
  rebuildRunProjection p l = Return q ->
  exists h, mapM RunEventSchema l = Some h
    /\ p_lastSequence q = p_lastSequence p + Z.of_nat (length h)
    /\ (forall i e, h !! i = Some e ->
         e_sequence e = p_lastSequence p + 1 + Z.of_nat i
         /\ e_runId e = run_runId (p_run q) /\ e_tenantId e = run_tenantId (p_run q)).
Proof.
  intros Hq. eapply (rebuild_ind (fun m h =>
    p_lastSequence m = p_lastSequence p + Z.of_nat (length h) /\
    forall i e, h !! i = Some e -> e_sequence e = p_lastSequence p + 1 + Z.of_nat i
      /\ e_runId e = run_runId (p_run m) /\ e_tenantId e = run_tenantId (p_run m))) in Hq;
    [done | split; [cbn; lia | done] |].
  clear. intros m h e e' [Hlast Hh] _ Hacc.
  destruct (reduced_identity m e') as (Hrun & Hten & _ & Hseq & _).
  rewrite Hrun, Hten, Hseq, (acc_sequence _ _ Hacc), length_app. cbn. split; [lia |].
  pose proof (acc_bound _ _ Hacc) as Hb. unfold event_bound in Hb. bools.
  intros i ev [Hi | [Hi Hx]]%lookup_app_Some; [by apply Hh |].
  apply list_lookup_singleton_Some in Hx as [Hx <-]. rewrite (acc_sequence _ _ Hacc), Hlast. split_and!; try done. lia.
Qed.

(** An accepted stream is contiguous and belongs to one run: its events
    carry the sequence numbers that follow the projection's, without gap or
    repetition, and the identity of the run never changes. *)
Theorem stream_contiguous p l q :
  rebuildRunProjection p l = Return q ->
  exists h, mapM RunEventSchema l = Some h
    /\ p_lastSequence q = p_lastSequence p + Z.of_nat (length h)
    /\ (forall i e, h !! i = Some e ->
         e_sequence e = p_lastSequence p + 1 + Z.of_nat i
         /\ e_runId e = run_runId (p_run q) /\ e_tenantId e = run_tenantId (p_run q)).
Proof. apply rebuild_contiguous. Qed.

(** Every status change of an accepted stream follows the transition table. *)
Theorem status_path p l q :
  rebuildRunProjection p l = Return q -> steps status_step (p_status p) (p_status q).
Proof.
  intros Hq. apply (rebuild_ind (fun m _ => steps status_step (p_status p) (p_status m))) in Hq
    as (_ & _ & ?); [done | constructor |].
  clear. intros m h e e' Hm _ Hacc.
  destruct (acceptable_status m e' Hacc) as [-> | Hs]; [done |].
  by eapply steps_snoc.
Qed.

(** What a status promises about the rest of the projection. *)
Definition status_promise (q : RunProjection) : Prop :=
  match p_status q with
  | created => q = createRunProjection (p_run q)
  | waiting_for_input => is_Some (p_waitingRequestId q)
  | waiting_for_approval => is_Some (p_waitingDecisionId q)
  | suspended => is_Some (p_resumeTarget q)
  | completed => verifiers_satisfied q = true
  | _ => True
  end.

Lemma created_not_next e next : nextStatusFor (e_payload e) = Some next -> next <> created.
Proof.
  destruct (e_payload e); try discriminate; cbn; try (by intros [= <-]).
  - destruct resumeTarget; by intros [= <-].
  - destruct nextStatus; by intros [= <-].
Qed.

(** The event that enters a status sets the field it promises. *)
Lemma promise_of_next m e next :
  nextStatusFor (e_payload e) = Some next ->
  (eventType e = TRunCompleted -> verifiers_satisfied m = true) ->
  next <> created ->
  match next with
  | created => reduced m e = createRunProjection (p_run (reduced m e))
  | waiting_for_input => is_Some (p_waitingRequestId (reduced m e))
  | waiting_for_approval => is_Some (p_waitingDecisionId (reduced m e))
  | suspended => is_Some (p_resumeTarget (reduced m e))
  | completed => verifiers_satisfied (reduced m e) = true
  | _ => True
  end.
Proof.
  unfold eventType, reduced. intros Hn Hv Hc.
  destruct (e_payload e); try discriminate Hn; cbn in Hn;
    try destruct resumeTarget; try destruct nextStatus;
    injection Hn as <-; cbn; try done; eauto.
Qed.

(** An event that preserves the status preserves the promise. *)
Lemma promise_preserved m e :
  status_promise m -> nextStatusFor (e_payload e) = None ->
  eventType e ∈ STATE_PRESERVING_EVENTS (p_status m) ->
  match p_status m with
  | created => reduced m e = createRunProjection (p_run (reduced m e))
  | waiting_for_input => is_Some (p_waitingRequestId (reduced m e))
  | waiting_for_approval => is_Some (p_waitingDecisionId (reduced m e))
  | suspended => is_Some (p_resumeTarget (reduced m e))
  | completed => verifiers_satisfied (reduced m e) = true
  | _ => True
  end.
Proof.
  unfold status_promise, eventType, reduced. intros Hm Hn Ht.
  destruct (p_status m); cbn [STATE_PRESERVING_EVENTS] in Ht;
    try (by apply not_elem_of_nil in Ht); try done.
  destruct (e_payload e); cbn in Hn, Ht |- *; try discriminate Hn; try done; set_solver.
Qed.

Lemma reachable_promise q : reachable q -> status_promise q.
Proof.
  apply reachable_ind; clear q.
  { intros run Hrun. unfold status_promise, p_status. cbn. by rewrite Hrun. }
  intros m e e' Hm _ Hacc. unfold status_promise. rewrite reduced_status.
  destruct (nextStatusFor (e_payload e')) as [next |] eqn:Hnext; cbn [default].
  - apply (promise_of_next m e'); [done | apply (acc_verified _ _ Hacc) | ].
    apply (created_not_next _ _ Hnext).
  - apply (promise_preserved m e' Hm Hnext).
    pose proof (acc_transition _ _ Hacc) as Ht. by rewrite Hnext in Ht.
Qed.

(** A reachable projection that waits names what it waits for: the
    pending input request, the pending decision, or the status to resume; a
    completed one has every required verifier passed or excepted, and one that
    is still created is untouched. *)
Theorem reachable_status_promise q : reachable q -> status_promise q.
Proof. apply reachable_promise. Qed.

(** ** Completion *)

(** The event records a pass of the verifier, or an exception for it. *)
Definition evidence_for (verifier : string) (e : RunEvent) : Prop :=
  match e_payload e with
  | VerificationRecorded _ _ v verification_pass _ => v = verifier
  | VerificationExceptionRecorded _ _ _ v _ _ _ _ _ _ _ _ => v = verifier
  | _ => False
  end.

Definition accepts_requiring (required : list string) (e : RunEvent) : Prop :=
  match e_payload e with RunAccepted _ _ r => r = required | _ => False end.

(** What a projection owes to the events it was folded from. *)
Definition history_backs (m : RunProjection) (h : list RunEvent) : Prop :=
  (forall v, v ∈ p_passedVerifierIds m \/ v ∈ p_verificationExceptionIds m ->
     exists e, e ∈ h /\ evidence_for v e) /\
  (p_status m <> created -> p_status m <> failed ->
     exists e, e ∈ h /\ accepts_requiring (p_requiredVerifierIds m) e).

Lemma reduced_verifiers m e v :
  v ∈ p_passedVerifierIds (reduced m e) \/ v ∈ p_verificationExceptionIds (reduced m e) ->
  (v ∈ p_passedVerifierIds m \/ v ∈ p_verificationExceptionIds m) \/ evidence_for v e.
Proof.
  unfold reduced, evidence_for. destruct (e_payload e); cbn; try tauto.
  - case_decide as Hs; [subst | tauto]. cbn. rewrite new_set_elem, elem_of_app, list_elem_of_singleton.
    naive_solver.
  - rewrite new_set_elem, elem_of_app, list_elem_of_singleton. naive_solver.
Qed.

Lemma reduced_required m e :
  p_requiredVerifierIds (reduced m e) = p_requiredVerifierIds m
  \/ accepts_requiring (p_requiredVerifierIds (reduced m e)) e.
Proof.
  unfold reduced, accepts_requiring. destruct (e_payload e); cbn; auto. by case_decide; left.
Qed.

Lemma from_created m e :
  acceptable m e -> p_status m = created -> p_status (reduced m e) <> failed ->
  accepts_requiring (p_requiredVerifierIds (reduced m e)) e.
Proof.
  intros Hacc Hm. pose proof (acc_transition _ _ Hacc) as Ht.
  rewrite reduced_status, Hm in *. unfold reduced, accepts_requiring, eventType in *.
  destruct (e_payload e); cbn in Ht |- *; try done; try set_solver.
  - destruct resumeTarget; cbn in *; set_solver.
  - destruct nextStatus; cbn in *; set_solver.
Qed.

Lemma history_backs_step m h e :
  history_backs m h -> acceptable m e -> history_backs (reduced m e) (h ++ [e]).
Proof.
  intros [Hver Hreq] Hacc. split.
  - intros v [Hv | Hv]%reduced_verifiers.
    + destruct (Hver v Hv) as (x & ? & ?). exists x. split; [set_solver | done].
    + exists e. split; [set_solver | done].
  - intros Hnc Hnf. destruct (decide (p_status m = created)) as [Hm | Hm].
    { exists e. split; [set_solver | by apply from_created]. }
    destruct (decide (p_status m = failed)) as [Hm' | Hm'].
    { pose proof (acc_live _ _ Hacc) as Hl. by rewrite Hm' in Hl. }
    destruct (reduced_required m e) as [Heq | Ha];
      [| exists e; split; [set_solver | done]].
    destruct (Hreq Hm Hm') as (x & ? & ?). exists x. rewrite Heq.
    split; [set_solver | done].
Qed.

(** C12: a run completes only with evidence: if a stream that starts from a
    fresh run reaches completed, one of its events accepted the run with some
    list of required verifiers, and for each of them an event of the stream
    records that it passed or that an exception was granted for it. *)
Theorem completed_has_evidence run l q :
  run_status run = created ->
  rebuildRunProjection (createRunProjection run) l = Return q ->
  p_status q = completed ->
  exists h required, mapM RunEventSchema l = Some h
    /\ (exists e, e ∈ h /\ accepts_requiring required e)
    /\ (forall v, v ∈ required -> exists e, e ∈ h /\ evidence_for v e).
Proof.
  intros Hrun Hq Hc.
  assert (reachable q) as Hr by (by exists run, l).
  apply reachable_promise in Hr. unfold status_promise in Hr. rewrite Hc in Hr.
  apply (rebuild_ind history_backs) in Hq as (h & Hh & Hver & Hreq).
  - exists h, (p_requiredVerifierIds q). split_and!; [done | apply Hreq; congruence |].
    intros v Hv. apply Hver. unfold verifiers_satisfied in Hr. rewrite all_of_spec in Hr.
    specialize (Hr v Hv). apply orb_true_iff in Hr as [? | ?]; bools; auto.
  - split; cbn; [set_solver | ]. unfold p_status; cbn. by rewrite Hrun.
  - intros. by apply history_backs_step.
Qed.

(** A compensation run never plans and never waits for input: no accepted
    stream brings it to either status. *)
Theorem compensation_never_plans q :
  reachable q -> is_compensation (run_executionDefinition (p_run q)) = true ->
  p_status q <> planning /\ p_status q <> waiting_for_input.
Proof.
  apply (reachable_ind (fun q => is_compensation (run_executionDefinition (p_run q)) = true ->
    p_status q <> planning /\ p_status q <> waiting_for_input)); clear q.
  { intros run Hrun _. unfold p_status. cbn. by rewrite Hrun. }
  intros m e e' IH _ Hacc.
  destruct (reduced_identity m e') as (_ & _ & -> & _). intros Hk. specialize (IH Hk).
  rewrite reduced_status. pose proof (acc_kind _ _ Hacc) as Ha.
  unfold assertKindAllowed in Ha. rewrite Hk in Ha. cbn [andb] in Ha.
  destruct (_ || _) eqn:Hf in Ha; [done |]. bools.
  destruct (nextStatusFor (e_payload e')) as [next |] eqn:Hn; cbn; [| done].
  split; [congruence |]. intros ->.
  assert (payload_type (e_payload e') = TInputRequested) as Ht; [| rewrite Ht in *; set_solver].
  destruct (e_payload e'); try discriminate Hn; try done.
  - by destruct resumeTarget.
  - by destruct nextStatus.
Qed.

(** The EffectAbandoned event, which the schema declares and the reducer
    has a branch for, is accepted in no status. *)
Theorem effect_abandoned_never_accepted p e q :
  eventType e = TEffectAbandoned -> reduceRunEvent p e <> Return q.
Proof.
  intros He (e' & Hp & Hacc & _)%reduceRunEvent_Return.
  apply RunEventSchema_inv in Hp as (_ & Hpay & _).
  apply payload_parse_checks in Hpay as [_ Ht].
  unfold eventType in He. rewrite He in Ht. pose proof (acc_transition _ _ Hacc) as Htr.
  unfold eventType in Htr. destruct (e_payload e'); try discriminate Ht. cbn in Htr.
  destruct (p_status p); cbn in Htr; set_solver.
Qed.
End Streams.

(** ** Concrete streams

    A run that is accepted, planned, executed, verified and completed, one that
    is suspended and one of a compensation, with the stream theorems applied to
    them. *)

#[local] Existing Instance zod_reference.

Definition example_time : string := "2026-09-04T10:00:00.000Z".

Definition example_compensation : ExecutionDefinitionRef :=
  compensation_definition
    {| cd_id := "undo"; cd_version := "1.0.0";
       cd_compensationRunDefinitionDigest := example_digest;
       cd_originalAgentDefinitionDigest := example_digest;
       cd_originalEffectDigest := example_digest;
       cd_compensationStrategyRegistrationDigest := example_digest;
       cd_compensationToolRegistrationDigest := example_digest |}.

Definition example_run (d : ExecutionDefinitionRef) : Run :=
  {| run_runId := "run-1"; run_tenantId := "tenant-1"; run_workOrderId := "wo-1";
     run_workOrderBindingDigest := example_digest; run_executionDefinition := d;
     run_executionDefinitionDigest := example_digest; run_status := created;
     run_createdAt := example_time; run_updatedAt := example_time;
     run_dataClass := data_internal; run_correlationId := "corr-1" |}.

Definition example_event (d : ExecutionDefinitionRef) (n : Z) (p : RunEventPayload) : RunEvent :=
  {| e_eventId := String (digit_char n) "-event"; e_runId := "run-1"; e_sequence := n;
     e_occurredAt := example_time; e_correlationId := "corr-1"; e_causationId := None;
     e_tenantId := "tenant-1"; e_dataClass := data_internal; e_executionDefinition := d;
     e_executionDefinitionDigest := example_digest; e_prevHash := None; e_payload := p |}.

Fixpoint example_stream_from (d : ExecutionDefinitionRef) (n : Z) (ps : list RunEventPayload)
  : list RunEvent :=
  match ps with
  | [] => []
  | p :: ps' => example_event d n p :: example_stream_from d (n + 1) ps'
  end.
Definition example_stream (d : ExecutionDefinitionRef) := example_stream_from d 1.

Definition example_completed : list RunEvent :=
  example_stream example_agent
    [ RunAccepted "wo-1" example_digest ["schema"];
      PlanningStarted "step-1";
      ModelCallStarted "step-1" "res-1" example_digest;
      ModelCallCompleted "step-1" "res-1" example_digest "stop";
      ExecutionStarted "step-2" None;
      VerificationStarted "step-3" example_digest;
      VerificationRecorded "step-3" "ver-1" "schema" verification_pass example_digest;
      RunCompleted "step-3" "evidence-1" example_digest ].

Definition example_suspended : list RunEvent :=
  example_stream example_agent
    [ RunAccepted "wo-1" example_digest []; ExecutionStarted "step-1" None;
      RunSuspended "step-1" resume_running "effect_uncertain" (Some "effect-1") ].

Definition example_compensating : list RunEvent :=
  example_stream example_compensation
    [ RunAccepted "wo-1" example_digest []; ExecutionStarted "step-1" None ].

Definition rebuilt (d : ExecutionDefinitionRef) (l : list RunEvent) : RunProjection :=
  match rebuildRunProjection (createRunProjection (example_run d)) l with
  | Return q => q
  | Throw _ => createRunProjection (example_run d)
  end.

Example example_completed_status : p_status (rebuilt example_agent example_completed) = completed.
Proof. vm_compute. reflexivity. Qed.

Lemma example_completed_rebuilt :
  rebuildRunProjection (createRunProjection (example_run example_agent)) example_completed
  = Return (rebuilt example_agent example_completed).
Proof. vm_compute. reflexivity. Qed.

Lemma rebuilt_reachable d l :
  isReturn (rebuildRunProjection (createRunProjection (example_run d)) l) = true ->
  reachable (rebuilt d l).
Proof.
  intros H. exists (example_run d), l. split; [done |]. unfold rebuilt.
  by destruct (rebuildRunProjection _ _).
Qed.

Lemma terminal_is_final_witness :
  TerminalRunStatus (p_status (rebuilt example_agent example_completed)) = true
  /\ exists k : list RunEvent, k = [] /\
     rebuilt example_agent (example_completed ++ k) = rebuilt example_agent example_completed.
Proof.
  split; [vm_compute; reflexivity |]. exists [].
  assert (rebuildRunProjection (createRunProjection (example_run example_agent))
    (example_completed ++ []) = Return (rebuilt example_agent (example_completed ++ []))) as Hq
    by (vm_compute; reflexivity).
  assert (TerminalRunStatus (p_status (rebuilt example_agent example_completed)) = true) as Ht
    by (vm_compute; reflexivity).
  exact (terminal_is_final _ _ _ _ _ example_completed_rebuilt Ht Hq).
Defined.

Lemma stream_contiguous_witness :
  p_lastSequence (rebuilt example_agent example_completed) = 8
  /\ exists h, mapM RunEventSchema example_completed = Some h /\ 8 = 0 + Z.of_nat (length h).
Proof.
  split; [vm_compute; reflexivity |].
  destruct (stream_contiguous _ _ _ example_completed_rebuilt) as (h & Hh & Hlen & _).
  exists h. split; [exact Hh | exact Hlen].
Defined.

Lemma status_path_witness :
  steps status_step created (p_status (rebuilt example_agent example_completed)).
Proof. exact (status_path _ _ _ example_completed_rebuilt). Defined.

Lemma reachable_status_promise_witness :
  p_status (rebuilt example_agent example_suspended) = suspended
  /\ status_promise (rebuilt example_agent example_suspended).
Proof.
  split; [vm_compute; reflexivity |].
  apply reachable_status_promise. apply rebuilt_reachable. vm_compute. reflexivity.
Defined.

Lemma completed_has_evidence_witness :
  exists h required, mapM RunEventSchema example_completed = Some h
    /\ (exists e, e ∈ h /\ accepts_requiring required e)
    /\ (forall v, v ∈ required -> exists e, e ∈ h /\ evidence_for v e).
Proof.
  exact (completed_has_evidence (example_run example_agent) _ _ eq_refl example_completed_rebuilt example_completed_status).
Defined.

Lemma compensation_never_plans_witness :
  p_status (rebuilt example_compensation example_compensating) = running
  /\ p_status (rebuilt example_compensation example_compensating) <> planning.
Proof.
  split; [vm_compute; reflexivity |].
  apply compensation_never_plans; [| vm_compute; reflexivity].
  apply rebuilt_reachable. vm_compute. reflexivity.
Defined.

Lemma effect_abandoned_never_accepted_witness :
  reduceRunEvent (rebuilt example_agent example_suspended)
    (example_event example_agent 4 (EffectAbandoned "step-1" "effect-1" "operator"))
  <> Return (rebuilt example_agent example_suspended).
Proof. by apply effect_abandoned_never_accepted. Defined.
