(* ===== verification/StoreInternal.v ===== *)
(** * Shared parts of the in-memory stores (packages/store-memory/src/internal.ts,
    config.ts)

    The checks of the clock and of time-to-live values, the conflict error and the
    storage security guard.

    A store keys its maps by [recordKey(...parts)], the canonical JSON of an array
    of strings; the maps of the models are keyed by the tuple of the parts, which
    that text determines. *)

From S2P Require Import Prelude JsTime Errors Schema Contracts.

Local Open Scope Z_scope.

Definition conflict {A} (reason : string) : outcome js_error A :=
  Throw (KafReason KAF_STORAGE_CONCURRENCY_CONFLICT reason).

(** [existing !== undefined && existing !== value], by canonical text for records. *)
Definition changed {A} `{EqDecision A} (existing : option A) (value : A) : bool :=
  match existing with Some e => negb (bool_decide (e = value)) | None => false end.

Lemma changed_false {A} `{EqDecision A} (existing : option A) (value : A) :
  changed existing value = false <-> existing = None \/ existing = Some value.
Proof.
  destruct existing as [e |]; cbn; [| naive_solver]. rewrite negb_false_iff, bool_decide_eq_true. naive_solver.
Qed.

Definition assertPositiveTtl (ttlMs : Z) : outcome js_error unit :=
  require (is_safe_integer ttlMs && (0 <? ttlMs))
    (KafError KAF_SCHEMA_INVALID [("path", DStr "ttlMs"); ("issue", DStr "positive")]).

(** [Date.parse(value)], throwing on NaN. *)
Definition assertValidInstant (value : string) : outcome js_error Z :=
  orThrow (Date_parse value)
    (KafError KAF_SCHEMA_INVALID [("path", DStr "clock.now"); ("issue", DStr "datetime")]).

(** [expiresAt !== undefined && Date.parse(expiresAt) <= assertValidInstant(now)] *)
Definition hasExpired (expiresAt : option string) (now : string) : outcome js_error bool :=
  match expiresAt with
  | None => Return false
  | Some e => ms ← assertValidInstant now; Return (nan_le (Date_parse e) (Some ms))
  end.

(** [new Date(ms).toISOString()] *)
Definition isoOrThrow (ms : Z) : outcome js_error string :=
  orThrow (toISOString ms) (RangeError "Invalid time value").

(** ** The storage security guard (config.ts) *)

Record StorageSecurityProfile := {
  ssp_id : string;
  ssp_allowedDataClasses : list DataClass;
  ssp_allowedTenants : list string;
  ssp_allowedPurposes : list string;
}.

Section Guard.
Context (profile : StorageSecurityProfile).

Definition guard_reject (reason : string) : js_error :=
  KafError KAF_STORAGE_SECURITY_PROFILE
    [("profileId", DStr (ssp_id profile)); ("reason", DStr reason)].

(** [matches(allowed, value)] *)
Definition allowed_matches (allowed : list string) (value : string) : bool :=
  bool_decide ("*" ∈ allowed) || bool_decide (value ∈ allowed).

Definition assertTenantAllowed (tenantId : string) : outcome js_error unit :=
  require (negb (js_length (js_trim tenantId) =? 0)
           && allowed_matches (ssp_allowedTenants profile) tenantId)
    (guard_reject "tenant").

Definition assertRoutingAllowed (tenantId : string) (dataClass : DataClass)
  : outcome js_error unit :=
  _ ← assertTenantAllowed tenantId;
  _ ← require (negb (bool_decide (dataClass = data_highly_restricted)))
        (guard_reject "data_class");
  require (bool_decide (dataClass ∈ ssp_allowedDataClasses profile)) (guard_reject "data_class").

Definition assertWriteAllowed (tenantId purposeCode : string) (dataClass : DataClass)
  : outcome js_error unit :=
  _ ← assertRoutingAllowed tenantId dataClass;
  require (allowed_matches (ssp_allowedPurposes profile) purposeCode) (guard_reject "purpose").

(** A write is admitted only for a listed tenant, data class and purpose, and
    never for highly restricted data, whatever the profile lists. *)
Lemma assertWriteAllowed_Return tenantId purposeCode dataClass u :
  assertWriteAllowed tenantId purposeCode dataClass = Return u ->
  dataClass <> data_highly_restricted
  /\ dataClass ∈ ssp_allowedDataClasses profile
  /\ ("*" ∈ ssp_allowedTenants profile \/ tenantId ∈ ssp_allowedTenants profile)
  /\ ("*" ∈ ssp_allowedPurposes profile \/ purposeCode ∈ ssp_allowedPurposes profile)
  /\ js_trim tenantId <> EmptyString.
Proof.
  unfold assertWriteAllowed, assertRoutingAllowed, assertTenantAllowed, allowed_matches, require.
  repeat (case_bool_decide; cbn); try done;
  destruct (js_trim tenantId) eqn:Ht; cbn; try done; intros; split_and!; auto.
Qed.
End Guard.
