(* ===== verification/LeaseStore.v ===== *)
(** * Run leases (packages/store-memory/src/lease-store.ts)

    One lease per run at a time, fenced by a token that only grows. *)

From stdpp Require Import pretty.
From S2P Require Import Prelude JsTime Errors Schema Contracts StoreInternal.

Local Open Scope Z_scope.
Local Open Scope js_scope.

(** ** Data *)

Inductive LeaseState := lease_active | lease_released | lease_expired.

Record RunLease := {
  lease_leaseId : string;
  lease_tenantId : string;
  lease_runId : string;
  lease_holderId : string;
  lease_fencingToken : Z;
  lease_acquiredAt : string;
  lease_expiresAt : string;
  lease_state : LeaseState;
}.

#[export] Instance LeaseState_eq_dec : EqDecision LeaseState.
Proof. solve_decision. Defined.
#[export] Instance RunLease_eq_dec : EqDecision RunLease.
Proof. solve_decision. Defined.

Definition RunLeaseSchema `{Zod} (l : RunLease) : bool :=
  min1 (lease_leaseId l) && min1 (lease_tenantId l) && min1 (lease_runId l)
  && min1 (lease_holderId l) && int_nonnegative (lease_fencingToken l)
  && zod_datetime (lease_acquiredAt l) && zod_datetime (lease_expiresAt l).

Definition with_state (st : LeaseState) (l : RunLease) : RunLease :=
  {| lease_leaseId := lease_leaseId l; lease_tenantId := lease_tenantId l;
     lease_runId := lease_runId l; lease_holderId := lease_holderId l;
     lease_fencingToken := lease_fencingToken l; lease_acquiredAt := lease_acquiredAt l;
     lease_expiresAt := lease_expiresAt l; lease_state := st |}.

Definition with_expiresAt (e : string) (l : RunLease) : RunLease :=
  {| lease_leaseId := lease_leaseId l; lease_tenantId := lease_tenantId l;
     lease_runId := lease_runId l; lease_holderId := lease_holderId l;
     lease_fencingToken := lease_fencingToken l; lease_acquiredAt := lease_acquiredAt l;
     lease_expiresAt := e; lease_state := lease_state l |}.

(** The private fields of [MemoryRunLeaseStore]. *)
Record LeaseStore := {
  ls_leases : gmap (string * string) RunLease;
  ls_lastFencingTokens : gmap (string * string) Z;
  ls_leaseCounter : Z;
}.

Definition empty_lease_store : LeaseStore :=
  {| ls_leases := ∅; ls_lastFencingTokens := ∅; ls_leaseCounter := 0 |}.

Definition put_lease (key : string * string) (l : RunLease) (s : LeaseStore) : LeaseStore :=
  {| ls_leases := <[key := l]> (ls_leases s); ls_lastFencingTokens := ls_lastFencingTokens s;
     ls_leaseCounter := ls_leaseCounter s |}.

Definition put_token (key : string * string) (n : Z) (s : LeaseStore) : LeaseStore :=
  {| ls_leases := ls_leases s; ls_lastFencingTokens := <[key := n]> (ls_lastFencingTokens s);
     ls_leaseCounter := ls_leaseCounter s |}.

Definition lease_key (l : RunLease) : string * string := (lease_tenantId l, lease_runId l).

Definition sameLease (left : option RunLease) (right : RunLease) : bool :=
  match left with
  | None => false
  | Some l =>
      bool_decide (lease_leaseId l = lease_leaseId right)
      && bool_decide (lease_tenantId l = lease_tenantId right)
      && bool_decide (lease_runId l = lease_runId right)
      && bool_decide (lease_holderId l = lease_holderId right)
      && (lease_fencingToken l =? lease_fencingToken right)
  end.

#[global] Arguments sameLease : simpl never.

Definition assertNonempty (value path : string) : outcome js_error unit :=
  require (negb (js_length (js_trim value) =? 0))
    (KafError KAF_SCHEMA_INVALID [("path", DStr path); ("issue", DStr "too_small")]).

(** ** Operations

    [now] is the reading of the injected clock; [generateLeaseId] the optional
    constructor argument of that name. *)

Section Operations.
Context `{Zod}.
Context (generateLeaseId : option (string -> string -> Z -> string)).

Definition nextLeaseId (tenantId runId : string) (token : Z) : method LeaseStore js_error string :=
  match generateLeaseId with
  | Some f => mreturn (f tenantId runId token)
  | None =>
      let! s := mget in
      let n := ls_leaseCounter s + 1 in
      mput {| ls_leases := ls_leases s; ls_lastFencingTokens := ls_lastFencingTokens s;
              ls_leaseCounter := n |} ;;!
      mreturn ("memory-lease-" +:+ pretty token +:+ "-" +:+ pretty n)
  end.

Definition acquire (now tenantId runId holderId : string) (ttlMs : Z)
  : method LeaseStore js_error (option RunLease) :=
  mlift (assertNonempty tenantId "tenantId") ;;!
  mlift (assertNonempty runId "runId") ;;!
  mlift (assertNonempty holderId "holderId") ;;!
  mlift (assertPositiveTtl ttlMs) ;;!
  let! nowMs := mlift (assertValidInstant now) in
  let key := (tenantId, runId) in
  let! s := mget in
  let existing := ls_leases s !! key in
  let held := match existing with
              | Some e => bool_decide (lease_state e = lease_active)
                          && nan_gt (Date_parse (lease_expiresAt e)) (Some nowMs)
              | None => false
              end in
  if held then mreturn None
  else
    mput (match existing with
          | Some e => if decide (lease_state e = lease_active)
                      then put_lease key (with_state lease_expired e) s else s
          | None => s
          end) ;;!
    let! s := mget in
    let fencingToken := default 0 (ls_lastFencingTokens s !! key) + 1 in
    mput (put_token key fencingToken s) ;;!
    let! leaseId := nextLeaseId tenantId runId fencingToken in
    let! expiresAt := mlift (isoOrThrow (nowMs + ttlMs)) in
    let! lease := mlift (parse RunLeaseSchema
      {| lease_leaseId := leaseId; lease_tenantId := tenantId; lease_runId := runId;
         lease_holderId := holderId; lease_fencingToken := fencingToken;
         lease_acquiredAt := now; lease_expiresAt := expiresAt;
         lease_state := lease_active |}) in
    let! s := mget in
    mput (put_lease key lease s) ;;!
    mreturn (Some lease).

Definition renew (now : string) (input : RunLease) (ttlMs : Z)
  : method LeaseStore js_error RunLease :=
  let! lease := mlift (parse RunLeaseSchema input) in
  mlift (assertPositiveTtl ttlMs) ;;!
  let! nowMs := mlift (assertValidInstant now) in
  let key := lease_key lease in
  let! s := mget in
  match ls_leases s !! key with
  | Some current =>
      if negb (sameLease (Some current) lease)
         || negb (bool_decide (lease_state current = lease_active))
      then mlift (conflict "stale_lease")
      else if nan_le (Date_parse (lease_expiresAt current)) (Some nowMs) then
        mput (put_lease key (with_state lease_expired current) s) ;;!
        mlift (conflict "expired_lease")
      else
        let! expiresAt := mlift (isoOrThrow (nowMs + ttlMs)) in
        let! renewed := mlift (parse RunLeaseSchema (with_expiresAt expiresAt current)) in
        mput (put_lease key renewed s) ;;!
        mreturn renewed
  | None => mlift (conflict "stale_lease")
  end.

Definition release (input : RunLease) : method LeaseStore js_error unit :=
  let! lease := mlift (parse RunLeaseSchema input) in
  let key := lease_key lease in
  let! s := mget in
  match ls_leases s !! key with
  | Some current =>
      if negb (sameLease (Some current) lease)
         || negb (bool_decide (lease_state current = lease_active))
      then mlift (conflict "stale_lease")
      else mput (put_lease key (with_state lease_released current) s)
  | None => mlift (conflict "stale_lease")
  end.

Definition assertActive (now : string) (input : RunLease) (s : LeaseStore)
  : outcome js_error unit :=
  lease ← parse RunLeaseSchema input;
  let current := ls_leases s !! lease_key lease in
  nowMs ← assertValidInstant now;
  match current with
  | Some c =>
      if negb (sameLease (Some c) lease) || negb (bool_decide (lease_state c = lease_active))
         || nan_le (Date_parse (lease_expiresAt c)) (Some nowMs)
      then conflict "stale_or_expired_fence" else Return tt
  | None => conflict "stale_or_expired_fence"
  end.

Definition isActive (now : string) (input : RunLease) (s : LeaseStore) : bool :=
  isReturn (assertActive now input s).

Definition inspect (tenantId runId : string) (s : LeaseStore) : option RunLease :=
  ls_leases s !! (tenantId, runId).
End Operations.

(** ** The effect of one operation *)

Lemma nextLeaseId_effect gen t r n s o s' :
  nextLeaseId gen t r n s = (o, s') ->
  isReturn o = true /\ ls_leases s' = ls_leases s
  /\ ls_lastFencingTokens s' = ls_lastFencingTokens s.
Proof. unfold nextLeaseId. destruct gen; intros [= <- <-]; done. Qed.

(** Only the state of the lease at the key may have changed. *)
Definition same_token (a b : option RunLease) : Prop :=
  a = b \/ exists l, b = Some l /\ a = Some (with_state lease_expired l).

Section Effects.
Context `{Zod} (gen : option (string -> string -> Z -> string)).

Lemma acquire_effect now t r h ttl s o s' :
  acquire gen now t r h ttl s = (o, s') ->
  (forall k, k <> (t, r) -> ls_leases s' !! k = ls_leases s !! k
                       /\ ls_lastFencingTokens s' !! k = ls_lastFencingTokens s !! k) /\
  ((s' = s /\ forall l, o <> Return (Some l)) \/
   (ls_lastFencingTokens s' !! (t, r) = Some (default 0 (ls_lastFencingTokens s !! (t, r)) + 1) /\
    ((same_token (ls_leases s' !! (t, r)) (ls_leases s !! (t, r)) /\ forall l, o <> Return (Some l))
     \/ exists l nowMs, o = Return (Some l) /\ ls_leases s' !! (t, r) = Some l
          /\ lease_fencingToken l = default 0 (ls_lastFencingTokens s !! (t, r)) + 1
          /\ lease_key l = (t, r) /\ lease_state l = lease_active /\ RunLeaseSchema l = true
          /\ Date_parse now = Some nowMs /\ Date_parse (lease_expiresAt l) = Some (nowMs + ttl)
          /\ (forall e, ls_leases s !! (t, r) = Some e -> lease_state e = lease_active ->
                nan_gt (Date_parse (lease_expiresAt e)) (Some nowMs) = false)))).
Proof.
  unfold acquire, mthen, mlift, mget, mput, mreturn.
  destruct (assertNonempty t "tenantId"); [| intros [= <- <-]; by auto].
  destruct (assertNonempty r "runId"); [| intros [= <- <-]; by auto].
  destruct (assertNonempty h "holderId"); [| intros [= <- <-]; by auto].
  destruct (assertPositiveTtl ttl); [| intros [= <- <-]; by auto].
  unfold assertValidInstant. destruct (Date_parse now) as [nowMs |] eqn:Hnow; cbn [orThrow];
    [| intros [= <- <-]; by auto].
  set (existing := ls_leases s !! (t, r)).
  set (held := match existing with Some _ => _ | None => _ end).
  destruct held eqn:Hheld; [intros [= <- <-]; by auto |].
  set (s1 := match existing with Some e => _ | None => _ end).
  assert (ls_lastFencingTokens s1 = ls_lastFencingTokens s
          /\ same_token (ls_leases s1 !! (t, r)) existing
          /\ forall k, k <> (t, r) -> ls_leases s1 !! k = ls_leases s !! k) as (Ht1 & Hl1 & Hk1).
  { unfold s1, same_token. destruct existing as [e |] eqn:He; [case_decide |];
      cbn; split_and!; try done; eauto.
    - right. exists e. by rewrite lookup_insert_eq.
    - intros k Hk. by rewrite lookup_insert_ne. }
  rewrite Ht1. set (token := default 0 _ + 1).
  destruct (nextLeaseId gen t r token (put_token (t, r) token s1)) as [id s2] eqn:Hid.
  apply nextLeaseId_effect in Hid as (Hret & Hl2 & Ht2).
  destruct id as [leaseId |]; [| done]. cbn in Hl2, Ht2.
  assert (forall k, k <> (t, r) -> ls_leases s2 !! k = ls_leases s !! k
            /\ ls_lastFencingTokens s2 !! k = ls_lastFencingTokens s !! k) as Hframe.
  { intros k Hk. rewrite Hl2, Ht2, Ht1, lookup_insert_ne by done. auto. }
  assert (ls_lastFencingTokens s2 !! (t, r) = Some token) as Htok.
  { by rewrite Ht2, lookup_insert_eq. }
  unfold isoOrThrow. destruct (toISOString (nowMs + ttl)) as [expiresAt |] eqn:Hiso; cbn [orThrow];
    [| intros [= <- <-]; split; [done |]; right; rewrite Hl2; by auto].
  unfold parse. set (lease := {| lease_leaseId := leaseId |}).
  destruct (RunLeaseSchema lease) eqn:Hok;
    [| intros [= <- <-]; split; [done |]; right; rewrite Hl2; by auto].
  intros [= <- <-]. cbn. split.
  - intros k Hk. rewrite lookup_insert_ne by done. by apply Hframe.
  - right. split; [done |]. right. exists lease, nowMs.
    rewrite lookup_insert_eq. split_and!; try done.
    + by apply Date_parse_toISOString.
    + intros e He Hact. unfold held in Hheld. rewrite He in Hheld.
      by rewrite bool_decide_eq_true_2 in Hheld.
Qed.

Lemma sameLease_token c l :
  sameLease (Some c) l = true ->
  lease_key c = lease_key l /\ lease_fencingToken c = lease_fencingToken l
  /\ lease_leaseId c = lease_leaseId l /\ lease_holderId c = lease_holderId l.
Proof. unfold sameLease, lease_key. intros. bools. split_and!; congruence. Qed.

(** [renew] and [release] leave every token as it is and keep the identity of
    every lease. *)
Definition keeps_tokens (s s' : LeaseStore) : Prop :=
  ls_lastFencingTokens s' = ls_lastFencingTokens s /\
  forall k, match ls_leases s !! k, ls_leases s' !! k with
            | Some l, Some l' => lease_fencingToken l' = lease_fencingToken l
                                 /\ lease_key l' = lease_key l
                                 /\ (is_Some (Date_parse (lease_expiresAt l)) ->
                                     is_Some (Date_parse (lease_expiresAt l')))
            | None, None => True
            | _, _ => False
            end.

Lemma keeps_tokens_refl s : keeps_tokens s s.
Proof. split; [done |]. intros k. by destruct (ls_leases s !! k). Qed.

Lemma keeps_tokens_put k c l s :
  ls_leases s !! k = Some c -> lease_fencingToken l = lease_fencingToken c ->
  lease_key l = lease_key c ->
  (is_Some (Date_parse (lease_expiresAt c)) -> is_Some (Date_parse (lease_expiresAt l))) ->
  keeps_tokens s (put_lease k l s).
Proof.
  intros Hc Ht Hk He. split; [done |]. intros k'. cbn. destruct (decide (k' = k)) as [-> | Hne].
  - by rewrite Hc, lookup_insert_eq.
  - rewrite lookup_insert_ne by done. by destruct (ls_leases s !! k').
Qed.

Lemma renew_effect now l ttl s o s' :
  renew now l ttl s = (o, s') -> keeps_tokens s s'.
Proof.
  unfold renew, mthen, mlift, mget, mput, mreturn.
  destruct (parse _ l) as [l0 |]; [| intros [= <- <-]; apply keeps_tokens_refl].
  destruct (assertPositiveTtl ttl); [| intros [= <- <-]; apply keeps_tokens_refl].
  destruct (assertValidInstant now) as [nowMs |]; [| intros [= <- <-]; apply keeps_tokens_refl].
  destruct (ls_leases s !! lease_key l0) as [c |] eqn:Hc;
    [| intros [= <- <-]; apply keeps_tokens_refl].
  destruct (_ || _); [intros [= <- <-]; apply keeps_tokens_refl |].
  destruct (nan_le _ _); [intros [= <- <-]; by eapply keeps_tokens_put |].
  unfold isoOrThrow. destruct (toISOString _) as [e |] eqn:Hiso; cbn [orThrow];
    [| intros [= <- <-]; apply keeps_tokens_refl].
  apply Date_parse_toISOString in Hiso. unfold parse. destruct (RunLeaseSchema (with_expiresAt e c));
    intros [= <- <-];
    [eapply keeps_tokens_put; try done; cbn; by rewrite Hiso | apply keeps_tokens_refl].
Qed.

Lemma release_effect l s o s' : release l s = (o, s') -> keeps_tokens s s'.
Proof.
  unfold release, mthen, mlift, mget, mput.
  destruct (parse _ l) as [l0 |]; [| intros [= <- <-]; apply keeps_tokens_refl].
  destruct (ls_leases s !! lease_key l0) as [c |] eqn:Hc;
    [| intros [= <- <-]; apply keeps_tokens_refl].
  destruct (_ || _); intros [= <- <-]; [apply keeps_tokens_refl | by eapply keeps_tokens_put].
Qed.
End Effects.

(** ** Executions *)

Section Steps.
Context `{Zod} (gen : option (string -> string -> Z -> string)).

Inductive lease_step (s s' : LeaseStore) : Prop :=
| step_acquire now t r h ttl o : acquire gen now t r h ttl s = (o, s') -> lease_step s s'
| step_renew now l ttl o : renew now l ttl s = (o, s') -> lease_step s s'
| step_release l o : release l s = (o, s') -> lease_step s s'.

(** A stored lease has a readable expiry, sits at its key and its token was
    issued for that key. *)
Definition lease_wf (s : LeaseStore) : Prop :=
  forall k l, ls_leases s !! k = Some l ->
    is_Some (Date_parse (lease_expiresAt l)) /\ lease_key l = k /\
    exists n, ls_lastFencingTokens s !! k = Some n /\ lease_fencingToken l <= n.

Lemma empty_wf : lease_wf empty_lease_store.
Proof. intros k l. cbn. by rewrite lookup_empty. Qed.

(** The run at [k] has a lease fenced at [m] or later. *)
Definition fenced (k : string * string) (m : Z) (s : LeaseStore) : Prop :=
  lease_wf s /\ exists l, ls_leases s !! k = Some l /\ m <= lease_fencingToken l.

Lemma keeps_tokens_wf s s' : keeps_tokens s s' -> lease_wf s -> lease_wf s'.
Proof.
  intros [Ht Hl] Hwf k l' Hk. specialize (Hl k). rewrite Hk in Hl.
  destruct (ls_leases s !! k) as [l |] eqn:Hs; [| done]. destruct Hl as (Htok & Hkey & Hexp).
  rewrite Hkey, Htok, Ht. destruct (Hwf k l Hs) as (He & ? & ?). auto.
Qed.

Lemma acquire_wf now t r h ttl s o s' :
  acquire gen now t r h ttl s = (o, s') -> lease_wf s -> lease_wf s'.
Proof.
  intros Hacq Hwf. apply acquire_effect in Hacq as [Hframe Hkey]. intros k l Hk.
  destruct (decide (k = (t, r))) as [-> | Hne].
  - destruct Hkey as [[-> _] | (Htok & [[Hsame _] | (l' & ms & _ & Hl & Hn & Hlk & _ & _ & _ & Hexp & _)])];
      [by apply Hwf | |].
    + rewrite Htok.
      assert (exists l0, ls_leases s !! (t, r) = Some l0 /\ lease_key l = lease_key l0
                /\ lease_fencingToken l = lease_fencingToken l0
                /\ lease_expiresAt l = lease_expiresAt l0) as (l0 & Hl0 & -> & -> & ->).
      { destruct Hsame as [Heq | (l0 & Hl0 & Heq)]; rewrite Hk in Heq.
        - exists l. by rewrite <-Heq.
        - injection Heq as ->. by exists l0. }
      destruct (Hwf _ _ Hl0) as (? & ? & n & Hn & ?). rewrite Hn. cbn. split_and!; try done.
      exists (n + 1). split; [done | lia].
    + rewrite Hk in Hl. injection Hl as ->. rewrite Hlk, Htok, Hn, Hexp. eauto with lia.
  - destruct (Hframe k Hne) as [Hl Ht]. rewrite Hl in Hk. rewrite Ht. by apply Hwf.
Qed.

Lemma lease_step_wf s s' : lease_wf s -> lease_step s s' -> lease_wf s'.
Proof.
  intros Hwf [? ? ? ? ? ? Ha | ? ? ? ? Hr | ? ? Hr].
  - by eapply acquire_wf.
  - by eapply keeps_tokens_wf; [eapply renew_effect |].
  - by eapply keeps_tokens_wf; [eapply release_effect |].
Qed.

Lemma reachable_wf s : steps lease_step empty_lease_store s -> lease_wf s.
Proof. apply steps_invariant; [apply lease_step_wf | apply empty_wf]. Qed.

Lemma keeps_tokens_fenced k m s s' : keeps_tokens s s' -> fenced k m s -> fenced k m s'.
Proof.
  intros Hkeep [Hwf (l & Hl & Hm)]. split; [by eapply keeps_tokens_wf |].
  destruct Hkeep as [_ Hk]. specialize (Hk k). rewrite Hl in Hk.
  destruct (ls_leases s' !! k) as [l' |]; [| done]. destruct Hk as (Htok & _).
  exists l'. split; [done | lia].
Qed.

Lemma lease_step_fenced k m s s' : fenced k m s -> lease_step s s' -> fenced k m s'.
Proof.
  intros Hf [now t r h ttl o Ha | ? ? ? ? Hr | ? ? Hr];
    [| by eapply keeps_tokens_fenced; [eapply renew_effect |]
     | by eapply keeps_tokens_fenced; [eapply release_effect |]].
  destruct Hf as [Hwf (l & Hl & Hm)]. split; [by eapply acquire_wf |].
  apply acquire_effect in Ha as [Hframe Hkey].
  destruct (decide (k = (t, r))) as [-> | Hne];
    [| exists l; by destruct (Hframe k Hne) as [-> _]].
  destruct Hkey as [[-> _] | (_ & [[Hsame _] | (l' & ms & _ & Hl' & Hn & _)])]; [by exists l | |].
  - destruct Hsame as [-> | (l0 & Hl0 & ->)]; [by exists l |].
    rewrite Hl in Hl0. injection Hl0 as <-. by exists (with_state lease_expired l).
  - exists l'. split; [done |]. destruct (Hwf _ _ Hl) as (_ & _ & n & Hnn & ?).
    rewrite Hnn in Hn. cbn in Hn. lia.
Qed.

(** An operation returned the lease [l] on a run. *)
Lemma acquire_fenced now t r h ttl s l s' :
  lease_wf s -> acquire gen now t r h ttl s = (Return (Some l), s') ->
  fenced (t, r) (lease_fencingToken l) s' /\ lease_key l = (t, r)
  /\ forall m, fenced (t, r) m s -> m < lease_fencingToken l.
Proof.
  intros Hwf Ha. pose proof (acquire_wf _ _ _ _ _ _ _ _ Ha Hwf) as Hwf'.
  apply acquire_effect in Ha as [_ [[_ Hno] | (_ & [[_ Hno] | Hyes])]];
    [by destruct (Hno l) | by destruct (Hno l) |].
  destruct Hyes as (l' & ms & [= <-] & Hl & Hn & Hk & _).
  split_and!; [split; [done |]; by exists l | done |].
  intros m [_ (l0 & Hl0 & Hm)]. destruct (Hwf _ _ Hl0) as (_ & _ & n & Hnn & ?).
  rewrite Hnn in Hn. cbn in Hn. lia.
Qed.

Lemma assertActive_Return now l s u :
  assertActive now l s = Return u ->
  RunLeaseSchema l = true /\ exists c ms, ls_leases s !! lease_key l = Some c
    /\ sameLease (Some c) l = true /\ lease_state c = lease_active
    /\ Date_parse now = Some ms /\ nan_le (Date_parse (lease_expiresAt c)) (Some ms) = false.
Proof.
  unfold assertActive, assertValidInstant. destruct (parse RunLeaseSchema l) as [l0 |] eqn:Hp; [| done].
  apply parse_Return in Hp as [Hok ->]. cbn [mbind outcome_bind].
  destruct (Date_parse now) as [ms |]; cbn [orThrow mbind outcome_bind]; [| done].
  destruct (ls_leases s !! lease_key l) as [c |] eqn:Hc; [| done].
  destruct (sameLease (Some c) l) eqn:Hsame; cbn [negb orb]; [| done].
  destruct (bool_decide _) eqn:Hst; cbn [negb orb]; [| done].
  destruct (nan_le _ _) eqn:Hexp; [done |]. bools. intros _.
  split; [done |]. by exists c, ms.
Qed.

Lemma fenced_rejects now l m s u :
  fenced (lease_key l) m s -> lease_fencingToken l < m -> assertActive now l s <> Return u.
Proof.
  intros [_ (c & Hc & Hm)] Hlt (_ & c' & ms & Hc' & Hsame & _)%assertActive_Return.
  rewrite Hc in Hc'. injection Hc' as <-.
  apply sameLease_token in Hsame as (_ & Htok & _). lia.
Qed.

Lemma superseded_inactive s0 s1 s2 s3 s4 now1 now2 t r h1 h2 ttl1 ttl2 l1 l2 :
  steps lease_step empty_lease_store s0 ->
  acquire gen now1 t r h1 ttl1 s0 = (Return (Some l1), s1) ->
  steps lease_step s1 s2 ->
  acquire gen now2 t r h2 ttl2 s2 = (Return (Some l2), s3) ->
  steps lease_step s3 s4 ->
  lease_fencingToken l1 < lease_fencingToken l2 /\
  forall now, isActive now l1 s4 = false.
Proof.
  intros Hs0 Ha1 Hs12 Ha2 Hs34.
  apply reachable_wf in Hs0.
  apply acquire_fenced in Ha1 as (Hf1 & Hk1 & _); [| done].
  apply (steps_invariant _ _ _ _ (lease_step_fenced _ _) Hf1) in Hs12.
  apply acquire_fenced in Ha2 as (Hf3 & _ & Hlt); [| apply Hs12].
  apply Hlt in Hs12. split; [done |]. intros now. unfold isActive.
  apply (steps_invariant _ _ _ _ (lease_step_fenced _ _) Hf3) in Hs34.
  destruct (assertActive now l1 s4) eqn:Hact; [| done].
  exfalso. revert Hact. eapply fenced_rejects; [by rewrite Hk1 | lia].
Qed.

(** C17: fencing.  Once a later lease of the same run has been handed out, its
    token is larger and the earlier holder is refused for ever, whatever its
    lease says, whatever the clock reads and whatever else happens to the
    store in between and afterwards. *)
Theorem stale_holder_is_fenced s0 s1 s2 s3 s4 now1 now2 t r h1 h2 ttl1 ttl2 l1 l2 :
  steps lease_step empty_lease_store s0 ->
  acquire gen now1 t r h1 ttl1 s0 = (Return (Some l1), s1) ->
  steps lease_step s1 s2 ->
  acquire gen now2 t r h2 ttl2 s2 = (Return (Some l2), s3) ->
  steps lease_step s3 s4 ->
  lease_fencingToken l1 < lease_fencingToken l2 /\
  forall now, isActive now l1 s4 = false.
Proof. apply superseded_inactive. Qed.

(** C18: mutual exclusion.  While some holder's lease on the run is active, an
    acquisition by anyone returns no lease and leaves the store as it was;
    and a lease that is returned is active until, and not from, its expiry. *)
Theorem acquire_excludes now t r h ttl s o s' l :
  steps lease_step empty_lease_store s ->
  acquire gen now t r h ttl s = (o, s') ->
  (isActive now l s = true -> lease_key l = (t, r) ->
     s' = s /\ forall l', o <> Return (Some l')) /\
  (o = Return (Some l) -> exists nowMs, Date_parse now = Some nowMs /\
     forall at_ ms, Date_parse at_ = Some ms -> isActive at_ l s' = (ms <? nowMs + ttl)).
Proof.
  intros Hs Ha. apply reachable_wf in Hs as Hwf. split.
  - intros Hact Hk. unfold isActive in Hact. destruct (assertActive now l s) eqn:Hr; [| done].
    apply assertActive_Return in Hr as (_ & c & ms & Hc & _ & Hst & Hnow & Hexp).
    rewrite Hk in Hc. revert Ha. unfold acquire, mthen, mlift, mget, mput, mreturn.
    destruct (assertNonempty t "tenantId"); [| by intros [= <- <-]].
    destruct (assertNonempty r "runId"); [| by intros [= <- <-]].
    destruct (assertNonempty h "holderId"); [| by intros [= <- <-]].
    destruct (assertPositiveTtl ttl); [| by intros [= <- <-]].
    unfold assertValidInstant. rewrite Hnow. cbn [orThrow]. rewrite Hc, Hst.
    destruct (Hwf _ _ Hc) as [[e He] _]. rewrite He in *.
    unfold nan_le, nan_gt, nan_lt, nan_compare in *. bools.
    rewrite (proj2 (Z.ltb_lt _ _)) by done. by intros [= <- <-].
  - intros ->. apply acquire_effect in Ha as [_ [[_ Hno] | (_ & [[_ Hno] | Hyes])]];
    [by destruct (Hno l) | by destruct (Hno l) |].
    destruct Hyes as (l' & nowMs & [= <-] & Hl & _ & Hk & Hst & Hok & Hnow & Hexp & _).
    exists nowMs. split; [done |]. intros at_ ms Hat. unfold isActive, assertActive.
    rewrite (proj2 (parse_Return _ l l)) by done. cbn. rewrite Hk, Hl.
    unfold assertValidInstant. rewrite Hat. cbn. rewrite Hst, Hexp.
    assert (sameLease (Some l) l = true) as ->.
    { unfold sameLease. by rewrite !bool_decide_eq_true_2, Z.eqb_refl. }
    cbn. destruct (nowMs + ttl <=? ms) eqn:Hle; bools; cbn; symmetry;
      [apply Z.ltb_ge | apply Z.ltb_lt]; lia.
Qed.
End Steps.
