(* ===== verification/EventStore.v ===== *)
(** * The event store (packages/store-memory/src/event-store.ts)

    An append-only log per run with optimistic concurrency, idempotent replays
    and a projection kept beside it.  Every asynchronous method awaits once and
    then runs its synchronous body to the end, so a call is one step of the
    store. *)

From S2P Require Import Prelude JsTime Errors Schema JsonValue Contracts Effects Run Events EventsFacts.
From S2P Require Import RunStreams StoreInternal LeaseStore.

Local Open Scope Z_scope.
Local Open Scope js_scope.

(** ** Data *)

(** The parts of [recordKey(tenantId, runId)]. *)
Notation RunKey := (string * string)%type (only parsing).

Definition event_key (e : RunEvent) : RunKey := (e_tenantId e, e_runId e).

Record EventRecord := { er_key : RunKey; er_event : RunEvent }.

Record EventStore := {
  es_streams : gmap RunKey (list RunEvent);
  es_eventsById : gmap string EventRecord;
  es_projections : gmap RunKey RunProjection;
}.

Definition empty_event_store : EventStore :=
  {| es_streams := ∅; es_eventsById := ∅; es_projections := ∅ |}.

Record AppendResult := { ar_sequence : Z; ar_replayed : bool }.

Definition put_projection (key : RunKey) (p : RunProjection) (s : EventStore) : EventStore :=
  {| es_streams := es_streams s; es_eventsById := es_eventsById s;
     es_projections := <[key := p]> (es_projections s) |}.

(** The JSON value of an event up to the order of object keys. *)
Definition payload_normal (p : RunEventPayload) : RunEventPayload :=
  match p with
  | EffectAcknowledged step effect result ack =>
      EffectAcknowledged step effect result (acknowledgement_normal ack)
  | RunFailed step code details =>
      RunFailed step code
        ((fun f => sort_fields (map (fun kv => (kv.1, json_normal kv.2)) f)) <$> details)
  | _ => p
  end.

Definition event_normal (e : RunEvent) : RunEvent :=
  {| e_eventId := e_eventId e; e_runId := e_runId e; e_sequence := e_sequence e;
     e_occurredAt := e_occurredAt e; e_correlationId := e_correlationId e;
     e_causationId := e_causationId e; e_tenantId := e_tenantId e;
     e_dataClass := e_dataClass e; e_executionDefinition := e_executionDefinition e;
     e_executionDefinitionDigest := e_executionDefinitionDigest e;
     e_prevHash := e_prevHash e; e_payload := payload_normal (e_payload e) |}.

Definition sameEvent (left right : RunEvent) : bool :=
  bool_decide (event_normal left = event_normal right).

(** ** Operations *)

Section Operations.
Context `{Zod} (profile : StorageSecurityProfile).

Definition initialProjection (e : RunEvent) : outcome js_error RunProjection :=
  match e_payload e with
  | RunAccepted workOrderId workOrderBindingDigest _ =>
      if e_sequence e =? 1 then
        parse RunProjectionSchema (createRunProjection
          {| run_runId := e_runId e; run_tenantId := e_tenantId e;
             run_workOrderId := workOrderId;
             run_workOrderBindingDigest := workOrderBindingDigest;
             run_executionDefinition := e_executionDefinition e;
             run_executionDefinitionDigest := e_executionDefinitionDigest e;
             run_status := created;
             run_createdAt := e_occurredAt e; run_updatedAt := e_occurredAt e;
             run_dataClass := e_dataClass e; run_correlationId := e_correlationId e |})
      else Throw (KafError KAF_RUNTIME_EVENT_SEQUENCE
             [("expected", DNum 1); ("received", DNum (e_sequence e))])
  | _ => Throw (KafError KAF_RUNTIME_EVENT_SEQUENCE
           [("expected", DNum 1); ("received", DNum (e_sequence e))])
  end.

Definition assertNonnegativeInteger (path : string) (n : Z) : outcome js_error unit :=
  require (is_safe_integer n && (0 <=? n))
    (KafError KAF_SCHEMA_INVALID [("path", DStr path); ("issue", DStr "nonnegative_integer")]).

Definition appendSynchronous (input : RunEvent) (expectedSequence : Z)
  : method EventStore js_error AppendResult :=
  let! event := mlift (orThrow (RunEventSchema input) ZodError) in
  mlift (assertRoutingAllowed profile (e_tenantId event) (e_dataClass event)) ;;!
  mlift (assertNonnegativeInteger "expectedSequence" expectedSequence) ;;!
  let key := event_key event in
  let! s := mget in
  match es_eventsById s !! e_eventId event with
  | Some duplicate =>
      if bool_decide (er_key duplicate = key) && sameEvent (er_event duplicate) event
      then mreturn {| ar_sequence := e_sequence (er_event duplicate); ar_replayed := true |}
      else mlift (conflict "event_id_reused")
  | None =>
      let stream := default [] (es_streams s !! key) in
      if negb (Z.of_nat (length stream) =? expectedSequence)
         || negb (e_sequence event =? expectedSequence + 1)
      then mlift (conflict "event_sequence")
      else
        let! next := mlift
          match es_projections s !! key with
          | None =>
              if negb (Z.of_nat (length stream) =? 0)
              then Throw (KafReason KAF_STORAGE_NOT_FOUND "projection_missing_rebuild_required")
              else p ← initialProjection event; reduceRunEvent p event
          | Some previous => reduceRunEvent previous event
          end in
        mput {| es_streams := <[key := stream ++ [event]]> (es_streams s);
                es_eventsById := <[e_eventId event := {| er_key := key; er_event := event |}]>
                                   (es_eventsById s);
                es_projections := <[key := next]> (es_projections s) |} ;;!
        mreturn {| ar_sequence := e_sequence event; ar_replayed := false |}
  end.

Definition append := appendSynchronous.

(** [leaseStore] is the store the constructor was given, [now] its clock. *)
Definition appendFenced (leaseStore : option LeaseStore) (now : string) (input : RunEvent)
    (expectedSequence : Z) (lease : RunLease) : method EventStore js_error AppendResult :=
  match leaseStore with
  | None => mthrow (KafError KAF_RUNTIME_CAPABILITY_MISSING
                      [("requiredCapability", DStr "fenced_event_append")])
  | Some leases =>
      mlift (assertActive now lease leases) ;;!
      let! event := mlift (orThrow (RunEventSchema input) ZodError) in
      mlift (assertRoutingAllowed profile (e_tenantId event) (e_dataClass event)) ;;!
      if negb (bool_decide (e_tenantId event = lease_tenantId lease))
         || negb (bool_decide (e_runId event = lease_runId lease))
      then mthrow (KafError KAF_RUNTIME_EVENT_BINDING [])
      else appendSynchronous event expectedSequence
  end.

Definition read (tenantId runId : string) (afterSequence : Z) (s : EventStore)
  : outcome js_error (list RunEvent) :=
  _ ← assertNonnegativeInteger "afterSequence" afterSequence;
  let snapshot := default [] (es_streams s !! (tenantId, runId)) in
  Return (filter (fun e => afterSequence < e_sequence e) snapshot).

Definition getProjection (tenantId runId : string) (s : EventStore) : option RunProjection :=
  es_projections s !! (tenantId, runId).

Definition dropProjection (tenantId runId : string) (s : EventStore) : EventStore :=
  {| es_streams := es_streams s; es_eventsById := es_eventsById s;
     es_projections := delete (tenantId, runId) (es_projections s) |}.

Definition rebuildProjection (tenantId runId : string)
  : method EventStore js_error (option RunProjection) :=
  let key := (tenantId, runId) in
  let! s := mget in
  match es_streams s !! key with
  | Some ((first :: _) as stream) =>
      let! projection := mlift (p ← initialProjection first; rebuildRunProjection p stream) in
      mput (put_projection key projection s) ;;!
      mreturn (Some projection)
  | _ => mreturn None
  end.

(** The deep copies of a transaction. *)
Definition transactionSnapshot (s : EventStore) : EventStore := s.
Definition transactionRestore (snapshot : EventStore) : method EventStore js_error unit :=
  mput snapshot.
End Operations.
