(* ===== verification/EventStoreFacts.v ===== *)
(** * Properties of the event store

    The invariant of the store (every projection is the fold of its stream, and
    the identifier index holds exactly the stored events), what one append does,
    and the properties of executions. *)

From S2P Require Import Prelude JsTime Errors Schema JsonValue Contracts Effects Run Events EventsFacts.
From S2P Require Import RunStreams StoreInternal LeaseStore EventStore.

Local Open Scope Z_scope.

(** ** The fold of a stream *)

Section Fold.
Context `{Zod}.

(** The abstract meaning of a stored stream: the projection of the run whose
    header its first event carries. *)
Definition stream_projection (l : list RunEvent) : option RunProjection :=
  match l with
  | [] => None
  | first :: _ =>
      match initialProjection first with
      | Return p => match rebuildRunProjection p l with Return q => Some q | Throw _ => None end
      | Throw _ => None
      end
  end.

Lemma initialProjection_sequence e p : initialProjection e = Return p -> p_lastSequence p = 0.
Proof.
  unfold initialProjection. destruct (e_payload e); try done.
  destruct (_ =? _); [| done]. by intros (_ & ->)%parse_Return.
Qed.

Lemma initialProjection_key e p :
  initialProjection e = Return p ->
  run_runId (p_run p) = e_runId e /\ run_tenantId (p_run p) = e_tenantId e
  /\ run_status (p_run p) = created /\ p = createRunProjection (p_run p).
Proof.
  unfold initialProjection. destruct (e_payload e); try done.
  destruct (_ =? _); [| done]. by intros (_ & ->)%parse_Return.
Qed.

(** The projection before the event: the stored one, or a fresh one. *)
Lemma stream_projection_snoc l e p q :
  match l with [] => initialProjection e = Return p | _ => stream_projection l = Some p end ->
  reduceRunEvent p e = Return q ->
  stream_projection (l ++ [e]) = Some q.
Proof.
  destruct l as [| first l]; intros Hp Hr; unfold stream_projection in *; cbn [app].
  - rewrite Hp. cbn. by rewrite Hr.
  -
    destruct (initialProjection first) as [p0 |]; [| done].
    destruct (rebuildRunProjection p0 (first :: l)) as [m |] eqn:Hm; [| done].
    injection Hp as ->. change (first :: l ++ [e]) with ((first :: l) ++ [e]).
    rewrite rebuild_app, Hm. cbn. by rewrite Hr.
Qed.

(** A folded stream of parsed events is contiguous from sequence number 1 and
    belongs to one run. *)
Lemma stream_projection_contiguous l q :
  stream_projection l = Some q -> (forall e, e ∈ l -> RunEventSchema e = Some e) ->
  p_lastSequence q = Z.of_nat (length l) /\
  (forall i e, l !! i = Some e -> e_sequence e = 1 + Z.of_nat i
     /\ event_key e = (run_tenantId (p_run q), run_runId (p_run q))).
Proof.
  intros Hq Hl. destruct l as [| first l]; [done |]. unfold stream_projection in Hq.
  destruct (initialProjection first) as [p0 |] eqn:H0; [| done].
  apply initialProjection_sequence in H0 as Hs.
  destruct (rebuildRunProjection p0 (first :: l)) as [m |] eqn:Hm; [| done].
  injection Hq as ->. apply rebuild_contiguous in Hm as (h & Hh & Hlast & Hi).
  assert (h = first :: l) as ->.
  { assert (mapM RunEventSchema (first :: l) = Some (first :: l)) as Hid.
    { apply mapM_Some_2, Forall2_same_length_lookup_2; [done |].
      intros i x y Hx Hy. rewrite Hx in Hy. injection Hy as <-.
      apply Hl. by eapply list_elem_of_lookup_2. }
    congruence. }
  rewrite Hs in *. split; [rewrite Hlast; lia |]. intros i e He. destruct (Hi i e He) as (? & ? & ?).
  split; [lia | unfold event_key; congruence].
Qed.
End Fold.

(** ** The invariant *)

Record es_wf `{Zod} (s : EventStore) : Prop := {
  wf_stream k l : es_streams s !! k = Some l ->
    is_Some (stream_projection l) /\
    forall e, e ∈ l -> event_key e = k /\ RunEventSchema e = Some e
      /\ es_eventsById s !! e_eventId e = Some {| er_key := k; er_event := e |};
  wf_byId id r : es_eventsById s !! id = Some r ->
    e_eventId (er_event r) = id /\
    exists l, es_streams s !! er_key r = Some l /\ er_event r ∈ l;
  wf_projection k p : es_projections s !! k = Some p ->
    exists l, es_streams s !! k = Some l /\ stream_projection l = Some p;
}.

Section Append.
Context `{Zod} (profile : StorageSecurityProfile).

Lemma empty_es_wf : es_wf empty_event_store.
Proof. split; cbn; intros *; by rewrite lookup_empty. Qed.

(** What an append returns and writes, case by case. *)
Inductive append_outcome (input : RunEvent) (n : Z) (s : EventStore)
  : outcome js_error AppendResult -> EventStore -> Prop :=
| append_rejected err : append_outcome input n s (Throw err) s
| append_replayed e d :
    RunEventSchema input = Some e ->
    es_eventsById s !! e_eventId e = Some d -> er_key d = event_key e ->
    event_normal (er_event d) = event_normal e ->
    append_outcome input n s
      (Return {| ar_sequence := e_sequence (er_event d); ar_replayed := true |}) s
| append_stored e q :
    RunEventSchema input = Some e ->
    es_eventsById s !! e_eventId e = None ->
    let stream := default [] (es_streams s !! event_key e) in
    Z.of_nat (length stream) = n -> e_sequence e = n + 1 ->
    (es_wf s -> stream_projection (stream ++ [e]) = Some q) ->
    append_outcome input n s
      (Return {| ar_sequence := n + 1; ar_replayed := false |})
      {| es_streams := <[event_key e := stream ++ [e]]> (es_streams s);
         es_eventsById := <[e_eventId e := {| er_key := event_key e; er_event := e |}]>
                            (es_eventsById s);
         es_projections := <[event_key e := q]> (es_projections s) |}.

Lemma appendSynchronous_outcome input n s o s' :
  appendSynchronous profile input n s = (o, s') -> append_outcome input n s o s'.
Proof.
  unfold appendSynchronous, mthen, mlift, mget, mput, mreturn.
  destruct (RunEventSchema input) as [e |] eqn:He; cbn [orThrow]; [| intros [= <- <-]; constructor].
  destruct (assertRoutingAllowed _ _ _); [| intros [= <- <-]; constructor].
  destruct (assertNonnegativeInteger _ _); [| intros [= <- <-]; constructor].
  destruct (es_eventsById s !! e_eventId e) as [d |] eqn:Hd.
  { destruct (_ && _) eqn:Hsame; intros [= <- <-]; [| constructor].
    unfold sameEvent in Hsame. bools. by eapply append_replayed. }
  destruct (_ || _) eqn:Hseq; [intros [= <- <-]; constructor |]. bools.
  set (stream := default [] (es_streams s !! event_key e)) in *.
  destruct (match es_projections s !! event_key e with Some _ => _ | None => _ end)
    as [q |] eqn:Hq; intros [= <- <-]; [| constructor].
  match goal with Hs : e_sequence e = n + 1 |- _ => rewrite Hs end. apply append_stored; try done. intros Hwf. fold stream.
  destruct (es_projections s !! event_key e) as [previous |] eqn:Hprev.
  - destruct (wf_projection _ Hwf _ _ Hprev) as (l & Hl & Hfold).
    unfold stream. rewrite Hl. cbn. eapply stream_projection_snoc; [| done].
    by destruct l.
  - destruct (Z.of_nat (length stream) =? 0) eqn:Hlen; cbn in Hq; [| done]. bools.
    destruct (initialProjection e) as [p |] eqn:Hp; [| done].
    destruct stream; [| done]. by eapply stream_projection_snoc.
Qed.

Lemma append_outcome_wf input n s o s' :
  append_outcome input n s o s' -> es_wf s -> es_wf s'.
Proof.
  destruct 1 as [| | e q He Hid stream Hlen Hseq Hfold]; try done. intros Hwf.
  apply RunEventSchema_idem in He as Hidem. specialize (Hfold Hwf). split; cbn.
  - intros k l. destruct (decide (k = event_key e)) as [-> | Hk].
    + rewrite lookup_insert_eq. intros [= <-]. split; [by eexists |].
      intros x [Hx | ->%list_elem_of_singleton]%elem_of_app; [| by rewrite lookup_insert_eq].
      unfold stream in Hx. destruct (es_streams s !! event_key e) as [l |] eqn:Hl; [| by apply not_elem_of_nil in Hx].
      destruct (wf_stream _ Hwf _ _ Hl) as [_ Hall]. destruct (Hall x Hx) as (? & ? & Hx').
      rewrite lookup_insert_ne; [done |]. congruence.
    + rewrite lookup_insert_ne by done. intros Hl.
      destruct (wf_stream _ Hwf _ _ Hl) as [? Hall]. split; [done |].
      intros x Hx. destruct (Hall x Hx) as (? & ? & Hx'). rewrite lookup_insert_ne; [done |].
      congruence.
  - intros id r. destruct (decide (id = e_eventId e)) as [-> | Hne].
    + rewrite lookup_insert_eq. intros [= <-]. cbn. split; [done |].
      rewrite lookup_insert_eq. eexists. split; [done |]. apply elem_of_app. right. by apply list_elem_of_singleton.
    + rewrite lookup_insert_ne by done. intros Hr.
      destruct (wf_byId _ Hwf _ _ Hr) as (? & l & Hl & Hin). split; [done |].
      destruct (decide (er_key r = event_key e)) as [Heq | ?].
      * rewrite Heq, lookup_insert_eq. eexists. split; [done |].
        unfold stream. rewrite <-Heq, Hl. cbn [default]. apply elem_of_app. by left.
      * rewrite lookup_insert_ne by done. by exists l.
  - intros k p. destruct (decide (k = event_key e)) as [-> | Hk].
    + rewrite !lookup_insert_eq. intros [= <-]. by eexists.
    + rewrite !lookup_insert_ne by done. apply (wf_projection _ Hwf).
Qed.

Lemma appendFenced_outcome leases now input n lease s o s' :
  appendFenced profile leases now input n lease s = (o, s') ->
  (exists err, o = Throw err /\ s' = s) \/
  exists e store, RunEventSchema input = Some e /\ leases = Some store
    /\ isActive now lease store = true /\ event_key e = lease_key lease
    /\ append_outcome e n s o s'.
Proof.
  unfold appendFenced, mthen, mlift, mthrow, isActive.
  destruct leases as [store |]; [| intros [= <- <-]; eauto].
  destruct (assertActive now lease store) eqn:Ha; [| intros [= <- <-]; eauto].
  destruct (RunEventSchema input) as [e |] eqn:He; cbn [orThrow]; [| intros [= <- <-]; eauto].
  destruct (assertRoutingAllowed _ _ _); [| intros [= <- <-]; eauto].
  destruct (_ || _) eqn:Hk; [intros [= <- <-]; eauto |]. bools.
  intros Happ%appendSynchronous_outcome. right. exists e, store.
  rewrite Ha. unfold event_key, lease_key. split_and!; congruence || done.
Qed.
End Append.

(** ** Executions *)

Section Executions.
Context `{Zod} (profile : StorageSecurityProfile).

Inductive es_step (s s' : EventStore) : Prop :=
| step_append e n o : append profile e n s = (o, s') -> es_step s s'
| step_appendFenced leases now e n l o :
    appendFenced profile leases now e n l s = (o, s') -> es_step s s'
| step_dropProjection t r : s' = dropProjection t r s -> es_step s s'
| step_rebuildProjection t r o : rebuildProjection t r s = (o, s') -> es_step s s'.

Definition es_reachable : EventStore -> Prop := steps es_step empty_event_store.

(** A rebuild writes the projection that the stream determines, or nothing. *)
Lemma rebuildProjection_effect t r s o s' :
  rebuildProjection t r s = (o, s') ->
  s' = s \/ exists l q, es_streams s !! (t, r) = Some l /\ stream_projection l = Some q
                        /\ s' = put_projection (t, r) q s.
Proof.
  unfold rebuildProjection, mthen, mget, mlift, mput, mreturn.
  destruct (es_streams s !! (t, r)) as [[| first l] |] eqn:Hl;
    [intros [= <- <-]; by left | | intros [= <- <-]; by left].
  destruct (mbind _ _) as [q |] eqn:Hq; intros [= <- <-]; [| by left].
  right. exists (first :: l), q. split_and!; try done. unfold stream_projection.
  destruct (initialProjection first); [| done]. cbn [mbind outcome_bind] in Hq. by rewrite Hq.
Qed.

Lemma es_step_outcome s s' :
  es_step s s' ->
  (exists e n o, append_outcome e n s o s')
  \/ (es_streams s' = es_streams s /\ es_eventsById s' = es_eventsById s
      /\ (es_wf s -> es_wf s')).
Proof.
  intros [e n o Ha%appendSynchronous_outcome | ? ? e n ? o Ha%appendFenced_outcome
          | t r -> | t r o Hr%rebuildProjection_effect].
  - eauto.
  - destruct Ha as [(? & -> & ->) | (? & ? & _ & _ & _ & _ & ?)]; [right; auto |].
    left. eauto.
  - right. split_and!; try done. intros Hwf. destruct Hwf as [? ? Hp]. split; try done. cbn.
    intros k p [_ Hk]%lookup_delete_Some. by apply Hp.
  - right. destruct Hr as [-> | (l & q & Hl & Hq & ->)]; [done |].
    split_and!; try done. intros Hwf. destruct Hwf as [? ? Hp]. split; try done. cbn.
    intros k p [[<- <-] | [_ Hk]]%lookup_insert_Some; [by exists l | by apply Hp].
Qed.

Lemma es_step_wf s s' : es_wf s -> es_step s s' -> es_wf s'.
Proof.
  intros Hwf [(e & n & o & Ha) | (_ & _ & Hp)]%es_step_outcome; [| by apply Hp].
  by eapply append_outcome_wf.
Qed.

Lemma es_reachable_wf s : es_reachable s -> es_wf s.
Proof. apply steps_invariant; [apply es_step_wf | apply empty_es_wf]. Qed.

(** The store only grows: streams by appending, the index by new identifiers. *)
Definition es_extends (s s' : EventStore) : Prop :=
  (forall k, default [] (es_streams s !! k) `prefix_of` default [] (es_streams s' !! k)) /\
  (forall id r, es_eventsById s !! id = Some r -> es_eventsById s' !! id = Some r).

Lemma es_extends_refl s : es_extends s s.
Proof. by split. Qed.

Lemma append_outcome_extends e n s o s' : append_outcome e n s o s' -> es_extends s s'.
Proof.
  destruct 1 as [| | e' q He Hid stream Hlen Hseq Hfold]; try apply es_extends_refl.
  split; cbn.
  - intros k. destruct (decide (k = event_key e')) as [-> | Hk];
      [| by rewrite lookup_insert_ne].
    rewrite lookup_insert_eq. cbn [default]. by apply prefix_app_r.
  - intros id r Hr. rewrite lookup_insert_ne; [done |]. intros <-. by rewrite Hid in Hr.
Qed.

Lemma steps_extends s s' : steps es_step s s' -> es_extends s s'.
Proof.
  apply (steps_invariant _ (es_extends s)); [| apply es_extends_refl].
  intros s1 s2 [Hs Hi] Hstep. apply es_step_outcome in Hstep as [(e & n & o & Ha) | (Hs' & Hi' & _)].
  - apply append_outcome_extends in Ha as [Hs' Hi']. split; [| eauto].
    intros k. exact (transitivity (Hs k) (Hs' k)).
  - split; [intros k; rewrite Hs'; apply Hs | rewrite Hi'; apply Hi].
Qed.

Lemma steps_wf s s' : es_wf s -> steps es_step s s' -> es_wf s'.
Proof. intros Hwf. apply steps_invariant; [apply es_step_wf | done]. Qed.

Lemma stored_contiguous s k l :
  es_wf s -> es_streams s !! k = Some l ->
  forall i e, l !! i = Some e -> e_sequence e = 1 + Z.of_nat i /\ event_key e = k.
Proof.
  intros Hwf Hl i e He. destruct (wf_stream _ Hwf _ _ Hl) as [[q Hq] Hall].
  destruct (stream_projection_contiguous _ _ Hq) as [_ Hc]; [intros x Hx; by apply Hall |].
  split; [by apply Hc |]. apply Hall. by eapply list_elem_of_lookup_2.
Qed.

(** C14: the stored projection refines the log.  In every reachable store the
    projection of a run is the fold of the reducer over its stream, whose
    events belong to the run and are numbered 1, 2, 3, ...; its last sequence
    number is the length of the stream. *)
Theorem projection_is_fold s t r p :
  es_reachable s -> getProjection t r s = Some p ->
  exists l, es_streams s !! (t, r) = Some l
    /\ stream_projection l = Some p
    /\ p_lastSequence p = Z.of_nat (length l)
    /\ run_tenantId (p_run p) = t /\ run_runId (p_run p) = r
    /\ (forall i e, l !! i = Some e -> e_sequence e = 1 + Z.of_nat i /\ event_key e = (t, r)).
Proof.
  intros Hwf%es_reachable_wf Hp. destruct (wf_projection _ Hwf _ _ Hp) as (l & Hl & Hq).
  exists l. destruct (wf_stream _ Hwf _ _ Hl) as [_ Hall].
  destruct (stream_projection_contiguous _ _ Hq) as [Hlast Hc]; [intros x Hx; by apply Hall |].
  assert (run_tenantId (p_run p) = t /\ run_runId (p_run p) = r) as [Ht Hr].
  { destruct l as [| x l]; [done |]. destruct (Hc 0%nat x eq_refl) as [_ Hk].
    destruct (Hall x) as (Hk' & _); [left |]. rewrite Hk' in Hk. by injection Hk. }
  split_and!; try done. intros i e He. by apply (stored_contiguous s (t, r) l).
Qed.

(** C15: optimistic concurrency.  Of all the appends that expect the same
    sequence number on a run, at most one ever stores an event: once one has,
    any other that returns is the replay of a stored event and changes
    nothing. *)
Theorem one_append_per_sequence s s1 s2 s3 e1 e2 n r1 r2 :
  append profile e1 n s = (Return r1, s1) -> ar_replayed r1 = false ->
  steps es_step s1 s2 ->
  append profile e2 n s2 = (Return r2, s3) -> event_key e2 = event_key e1 ->
  ar_replayed r2 = true /\ s3 = s2.
Proof.
  intros Ha1%appendSynchronous_outcome Hr1 Hs12%steps_extends Ha2%appendSynchronous_outcome Hk.
  inversion Ha1 as [| | e q He Hid stream Hlen Hseq _]; subst; [done |].
  inversion Ha2 as [| | e' q' He' Hid' stream' Hlen' Hseq' _]; subst; [done |]. exfalso.
  apply RunEventSchema_inv in He as (_ & _ & _ & _ & _ & Hru & Hte).
  apply RunEventSchema_inv in He' as (_ & _ & _ & _ & _ & Hru' & Hte').
  assert (event_key e' = event_key e) as Hkk by (unfold event_key in *; congruence).
  destruct Hs12 as [Hp _]. specialize (Hp (event_key e)). apply prefix_length in Hp.
  cbn [es_streams] in Hp. rewrite lookup_insert_eq in Hp. cbn [default] in Hp.
  unfold stream' in Hlen'. rewrite Hkk in Hlen'.
  change (length (stream ++ [e]) <= length (default [] (es_streams s2 !! event_key e)))%nat in Hp.
  rewrite length_app in Hp. cbn [length] in Hp. lia.
Qed.

(** C16: appends are idempotent.  Once an append of an event has returned, the
    same append, made again at any later time and with any expected sequence
    number, returns the same sequence number as a replay and leaves the store
    as it is. *)
Theorem append_is_idempotent s s1 s2 e n m res :
  append profile e n s = (Return res, s1) -> steps es_step s1 s2 ->
  is_safe_integer m = true -> 0 <= m ->
  append profile e m s2 = (Return {| ar_sequence := ar_sequence res; ar_replayed := true |}, s2).
Proof.
  intros Ha [_ Hid]%steps_extends Hm Hm0.
  assert (exists e' d, RunEventSchema e = Some e'
    /\ isReturn (assertRoutingAllowed profile (e_tenantId e') (e_dataClass e')) = true
    /\ es_eventsById s1 !! e_eventId e' = Some d /\ er_key d = event_key e'
    /\ event_normal (er_event d) = event_normal e'
    /\ e_sequence (er_event d) = ar_sequence res) as (e' & d & He & Hroute & Hd & Hk & Hn & Hsq).
  { pose proof (appendSynchronous_outcome _ _ _ _ _ _ Ha) as Ho.
    assert (forall e', RunEventSchema e = Some e' ->
      isReturn (assertRoutingAllowed profile (e_tenantId e') (e_dataClass e')) = true) as Hroute.
    { intros e' He. revert Ha. unfold append, appendSynchronous, mthen, mlift. rewrite He. cbn [orThrow].
      by destruct (assertRoutingAllowed _ _ _). }
    inversion Ho as [| e' d He Hd Hk Hn | e' q He Hd stream Hlen Hseq _]; subst.
    - exists e', d. split_and!; auto.
    - exists e'. eexists. cbn. rewrite lookup_insert_eq. split_and!; eauto. }
  apply Hid in Hd. unfold append, appendSynchronous, mthen, mlift, mget, mreturn.
  rewrite He. cbn [orThrow]. destruct (assertRoutingAllowed _ _ _); [| done].
  unfold assertNonnegativeInteger, require. rewrite Hm, (proj2 (Z.leb_le _ _)) by done. cbn [andb].
  rewrite Hd. unfold sameEvent. rewrite !bool_decide_eq_true_2 by done. cbn [andb]. by rewrite Hsq.
Qed.

Lemma prefix_drop {A} (l k : list A) n : l `prefix_of` k -> drop n l `prefix_of` drop n k.
Proof. intros [x ->]. rewrite drop_app. by apply prefix_app_r. Qed.

Lemma filter_after_drop (l : list RunEvent) a j :
  0 <= a -> (forall i e, l !! i = Some e -> e_sequence e = j + 1 + Z.of_nat i) -> 0 <= j ->
  filter (fun e => a < e_sequence e) l = drop (Z.to_nat (a - j)) l.
Proof.
  revert j. induction l as [| e l IH]; intros j Ha Hl Hj; [by rewrite drop_nil |].
  assert (e_sequence e = j + 1) as He by (rewrite (Hl 0%nat e eq_refl); lia).
  assert (filter (fun e => a < e_sequence e) l = drop (Z.to_nat (a - (j + 1))) l) as Hf.
  { apply IH; [done | | lia]. intros i x Hx. rewrite (Hl (S i) x Hx). lia. }
  rewrite filter_cons, He, Hf. case_decide.
  - by replace (Z.to_nat (a - (j + 1))) with 0%nat by lia; replace (Z.to_nat (a - j)) with 0%nat by lia.
  - by replace (Z.to_nat (a - j)) with (S (Z.to_nat (a - (j + 1)))) by lia.
Qed.

(** Readers see a stable, gapless log of one run.  A read after sequence
    number [a] yields exactly the events of the run numbered a+1, a+2, ..., and
    whatever a later read yields extends it. *)
Theorem read_is_stable s s' t r a l l' :
  es_reachable s -> steps es_step s s' ->
  read t r a s = Return l -> read t r a s' = Return l' ->
  l `prefix_of` l' /\
  (forall i e, l !! i = Some e -> e_sequence e = a + 1 + Z.of_nat i /\ event_key e = (t, r)).
Proof.
  intros Hwf%es_reachable_wf Hs Hl Hl'. apply steps_wf in Hs as Hwf'; [| done].
  apply steps_extends in Hs as [Hp _]. specialize (Hp (t, r)). revert Hl Hl'. unfold read.
  destruct (assertNonnegativeInteger _ a) as [u |] eqn:Ha; [| done].
  assert (0 <= a) as Ha0.
  { unfold assertNonnegativeInteger, require in Ha. destruct (_ && _) eqn:Hb in Ha; [| done]. by bools. }
  assert (forall s, es_wf s -> forall i e, default [] (es_streams s !! (t, r)) !! i = Some e ->
    e_sequence e = 0 + 1 + Z.of_nat i /\ event_key e = (t, r)) as Hc.
  { clear -H. intros s Hwf i e. destruct (es_streams s !! (t, r)) as [l |] eqn:Hl; cbn; [| done].
    intros He. by apply (stored_contiguous s _ l Hwf Hl). }
  assert (forall s, es_wf s -> filter (fun e => a < e_sequence e) (default [] (es_streams s !! (t, r)))
    = drop (Z.to_nat (a - 0)) (default [] (es_streams s !! (t, r)))) as Hd.
  { intros s0 Hw. apply filter_after_drop; [done | | lia]. intros i e He. by apply (Hc s0). }
  cbn [mbind outcome_bind]. rewrite (Hd s Hwf), (Hd s' Hwf'). intros <-%(inj Return) <-%(inj Return).
  split.
  - by apply prefix_drop.
  - intros i e. rewrite lookup_drop. intros He. destruct (Hc s Hwf _ _ He). split; [lia | done].
Qed.

(** A dropped projection is rebuilt as it was: after dropping the
    projection of a run, a rebuild returns it and restores the store. *)
Theorem rebuild_restores s t r p :
  es_reachable s -> getProjection t r s = Some p ->
  rebuildProjection t r (dropProjection t r s) = (Return (Some p), s).
Proof.
  intros Hwf%es_reachable_wf Hp. destruct (wf_projection _ Hwf _ _ Hp) as (l & Hl & Hq).
  unfold rebuildProjection, mthen, mget, mlift, mput, mreturn. cbn. rewrite Hl.
  destruct l as [| first l]; [done |]. unfold stream_projection in Hq.
  destruct (initialProjection first) as [p0 |]; [| done]. cbn [mbind outcome_bind].
  destruct (rebuildRunProjection p0 (first :: l)) as [q |]; [| done]. injection Hq as ->.
  f_equal. unfold put_projection, dropProjection. cbn. rewrite insert_delete_id by done.
  by destruct s.
Qed.

(** A stale holder cannot write.  Whatever both stores went through, an
    append fenced by a lease that has been superseded on its run is refused
    and leaves the event store as it was. *)
Theorem stale_append_refused gen ls0 ls1 ls2 ls3 ls4 now1 now2 t r h1 h2 ttl1 ttl2 l1 l2
    now e n s o s' :
  steps (lease_step gen) empty_lease_store ls0 ->
  acquire gen now1 t r h1 ttl1 ls0 = (Return (Some l1), ls1) ->
  steps (lease_step gen) ls1 ls2 ->
  acquire gen now2 t r h2 ttl2 ls2 = (Return (Some l2), ls3) ->
  steps (lease_step gen) ls3 ls4 ->
  appendFenced profile (Some ls4) now e n l1 s = (o, s') ->
  isReturn o = false /\ s' = s.
Proof.
  intros H0 H1 H2 H3 H4 Ha.
  destruct (superseded_inactive gen _ _ _ _ _ _ _ _ _ _ _ _ _ _ _ H0 H1 H2 H3 H4) as [_ Hno].
  apply appendFenced_outcome in Ha as [(err & -> & ->) | (? & store & _ & [= <-] & Hact & _)]; [done |].
  by rewrite Hno in Hact.
Qed.
End Executions.

(** ** Examples of the stores

    Concrete executions of the lease store and the event store, at which the
    hypotheses of their properties hold. *)

#[local] Existing Instance zod_reference.

(** ** Leases *)

Definition example_later : string := "2026-09-04T10:05:00.000Z".

(** The lease an acquisition returns, and the store after it. *)
Definition leased (now holder : string) (s : LeaseStore) : option RunLease :=
  match (acquire None now "tenant-1" "run-1" holder 60000 s).1 with
  | Return l => l | Throw _ => None
  end.
Definition after_lease (now holder : string) (s : LeaseStore) : LeaseStore :=
  (acquire None now "tenant-1" "run-1" holder 60000 s).2.

Definition example_lease (now holder : string) (s : LeaseStore) : RunLease :=
  default {| lease_leaseId := ""; lease_tenantId := ""; lease_runId := ""; lease_holderId := "";
             lease_fencingToken := 0; lease_acquiredAt := ""; lease_expiresAt := "";
             lease_state := lease_released |} (leased now holder s).

Definition leases1 : LeaseStore := after_lease example_time "worker-1" empty_lease_store.
Definition lease1 : RunLease := example_lease example_time "worker-1" empty_lease_store.
Definition leases2 : LeaseStore := after_lease example_later "worker-2" leases1.
Definition lease2 : RunLease := example_lease example_later "worker-2" leases1.

Lemma lease1_acquired :
  acquire None example_time "tenant-1" "run-1" "worker-1" 60000 empty_lease_store
  = (Return (Some lease1), leases1).
Proof. vm_compute. reflexivity. Qed.

Lemma lease2_acquired :
  acquire None example_later "tenant-1" "run-1" "worker-2" 60000 leases1
  = (Return (Some lease2), leases2).
Proof. vm_compute. reflexivity. Qed.

Lemma stale_holder_is_fenced_witness :
  lease_fencingToken lease1 < lease_fencingToken lease2
  /\ forall now, isActive now lease1 leases2 = false.
Proof.
  exact (stale_holder_is_fenced None _ _ _ _ _ _ _ _ _ _ _ _ _ _ _
    (steps_refl _ _) lease1_acquired (steps_refl _ _) lease2_acquired (steps_refl _ _)).
Defined.

Lemma leases1_reachable : steps (lease_step None) empty_lease_store leases1.
Proof. eapply steps_cons; [eapply step_acquire, lease1_acquired | apply steps_refl]. Qed.

Lemma lease1_active : isActive example_time lease1 leases1 = true.
Proof. vm_compute. reflexivity. Qed.

(** An acquisition by a second worker while the first one's lease is active. *)
Lemma lease1_held :
  acquire None example_time "tenant-1" "run-1" "worker-2" 60000 leases1 = (Return None, leases1).
Proof. vm_compute. reflexivity. Qed.

Lemma acquire_excludes_witness :
  isActive example_time lease1 leases1 = true
  /\ (forall l', (Return None : outcome js_error (option RunLease)) <> Return (Some l'))
  /\ isActive example_later lease1 leases1 = false
  /\ exists nowMs, Date_parse example_time = Some nowMs /\
       forall at_ ms, Date_parse at_ = Some ms -> isActive at_ lease1 leases1 = (ms <? nowMs + 60000).
Proof.
  split; [exact lease1_active |]. split.
  - exact (proj2 (proj1 (acquire_excludes None _ _ _ _ _ _ _ _ lease1 leases1_reachable lease1_held)
      lease1_active eq_refl)).
  - split; [vm_compute; reflexivity |].
    exact (proj2 (acquire_excludes None _ _ _ _ _ _ _ _ lease1 (steps_refl _ _) lease1_acquired) eq_refl).
Defined.

(** ** Effects *)

Definition example_lifecycle : list EffectState :=
  [prepared; dispatched; unknown; needs_reconciliation; abandoned].

Lemma example_lifecycle_ok : lifecycle strategy_reconcilable example_lifecycle.
Proof. repeat (apply lifecycle_step; [reflexivity |]). apply lifecycle_start. Qed.

Lemma lifecycle_bounded_witness : (4 <= 5)%nat.
Proof. exact (lifecycle_bounded _ _ _ example_lifecycle_ok). Defined.

Lemma lifecycle_from_prepared_witness :
  [dispatched; unknown; needs_reconciliation; abandoned]
  = [dispatched; unknown; needs_reconciliation; abandoned].
Proof.
  exact (proj1 (lifecycle_from_prepared _ _ abandoned example_lifecycle_ok eq_refl) eq_refl).
Defined.

(** ** Events *)

Definition example_profile : StorageSecurityProfile :=
  {| ssp_id := "memory"; ssp_allowedDataClasses := [data_public; data_internal];
     ssp_allowedTenants := ["*"]; ssp_allowedPurposes := ["*"] |}.

Fixpoint append_all (l : list RunEvent) (n : Z) (s : EventStore) : EventStore :=
  match l with
  | [] => s
  | e :: l' => append_all l' (n + 1) (append example_profile e n s).2
  end.

Lemma append_all_steps l n s : steps (es_step example_profile) s (append_all l n s).
Proof.
  revert n s. induction l as [| e l IH]; intros n s; [constructor |]. cbn [append_all].
  eapply steps_cons; [exact (step_append _ _ _ e n _ (surjective_pairing _)) | apply IH].
Qed.

Definition example_store (k : nat) : EventStore :=
  append_all (take k example_completed) 0 empty_event_store.

Definition example_projection : RunProjection := rebuilt example_agent example_completed.

Lemma example_getProjection :
  getProjection "tenant-1" "run-1" (example_store 8) = Some example_projection.
Proof. vm_compute. reflexivity. Qed.

Lemma projection_is_fold_witness :
  exists l, es_streams (example_store 8) !! ("tenant-1", "run-1")%string = Some l
    /\ stream_projection l = Some example_projection
    /\ p_lastSequence example_projection = Z.of_nat (length l).
Proof.
  destruct (projection_is_fold example_profile _ _ _ _ (append_all_steps _ _ _) example_getProjection)
    as (l & Hl & Hq & Hn & _).
  exists l. split; [exact Hl | split; [exact Hq | exact Hn]].
Defined.

Definition first_event : RunEvent := example_event example_agent 1 (RunAccepted "wo-1" example_digest ["schema"]).

(** A second writer that also expects sequence number 0. *)
Definition rival_event : RunEvent :=
  example_event example_agent 1 (RunAccepted "wo-2" example_digest []).

Lemma first_appended :
  append example_profile first_event 0 empty_event_store
  = (Return {| ar_sequence := 1; ar_replayed := false |}, example_store 1).
Proof. vm_compute. reflexivity. Qed.

Lemma first_replayed :
  append example_profile first_event 0 (example_store 1)
  = (Return {| ar_sequence := 1; ar_replayed := true |}, example_store 1).
Proof. vm_compute. reflexivity. Qed.

Example rival_rejected :
  append example_profile rival_event 0 (example_store 1)
  = (Throw (KafReason KAF_STORAGE_CONCURRENCY_CONFLICT "event_id_reused"), example_store 1).
Proof. vm_compute. reflexivity. Qed.

Lemma one_append_per_sequence_witness :
  ar_replayed {| ar_sequence := 1; ar_replayed := true |} = true /\ example_store 1 = example_store 1.
Proof.
  exact (one_append_per_sequence example_profile _ _ _ _ _ _ _ _ _
    first_appended eq_refl (steps_refl _ _) first_replayed eq_refl).
Defined.

Lemma append_is_idempotent_witness :
  append example_profile first_event 5 (append_all (drop 1 example_completed) 1 (example_store 1))
  = (Return {| ar_sequence := 1; ar_replayed := true |},
     append_all (drop 1 example_completed) 1 (example_store 1)).
Proof.
  assert (0 <= 5) as H5 by lia.
  exact (append_is_idempotent example_profile _ _ _ _ _ 5 _ first_appended
    (append_all_steps (drop 1 example_completed) 1 (example_store 1)) eq_refl H5).
Defined.

Definition read_events (k : nat) (a : Z) : list RunEvent :=
  match read "tenant-1" "run-1" a (example_store k) with Return l => l | Throw _ => [] end.

Lemma example_read k a : (k <= 8)%nat -> 0 <= a <= 8 ->
  read "tenant-1" "run-1" a (example_store k) = Return (read_events k a).
Proof.
  intros Hk Ha. unfold read_events, read, assertNonnegativeInteger, require, is_safe_integer.
  rewrite (proj2 (Z.leb_le (Z.abs a) _)), (proj2 (Z.leb_le 0 a)); [done | lia |].
  unfold MAX_SAFE_INTEGER. lia.
Qed.

Lemma read_is_stable_witness :
  length (read_events 3 1) = 2%nat /\ read_events 3 1 `prefix_of` read_events 3 1.
Proof.
  split; [vm_compute; reflexivity |].
  assert (3 <= 8)%nat as Hk by lia. assert (0 <= 1 <= 8) as Ha by lia.
  exact (proj1 (read_is_stable example_profile _ _ _ _ _ _ _ (append_all_steps _ _ _) (steps_refl _ _)
    (example_read 3 1 Hk Ha) (example_read 3 1 Hk Ha))).
Defined.

Lemma rebuild_restores_witness :
  rebuildProjection "tenant-1" "run-1" (dropProjection "tenant-1" "run-1" (example_store 8))
  = (Return (Some example_projection), example_store 8).
Proof.
  exact (rebuild_restores example_profile _ _ _ _ (append_all_steps _ _ _) example_getProjection).
Defined.

(** The first worker, whose lease the second one superseded, appends. *)
Lemma stale_append_refused_witness :
  isReturn (appendFenced example_profile (Some leases2) example_later first_event 0 lease1
              empty_event_store).1 = false
  /\ (appendFenced example_profile (Some leases2) example_later first_event 0 lease1
              empty_event_store).2 = empty_event_store.
Proof.
  exact (stale_append_refused example_profile None _ _ _ _ _ _ _ _ _ _ _ _ _ _ _ _ _ _ _ _ _
    (steps_refl _ _) lease1_acquired (steps_refl _ _) lease2_acquired (steps_refl _ _)
    (surjective_pairing _)).
Defined.
