(* ===== verification/Canonicalization.v ===== *)
(** * Canonical resources (packages/policy/src/canonicalization.ts)

    The canonical form of identifiers, tenant namespaces, URNs, relative and
    physical paths, hosts and URLs, and containment of a resource in a ceiling.

    The URL class of the host is not part of the repository: [WebUrl] is its
    interface, one member per property or setter the source uses. *)

From S2P Require Import Prelude JsTime Errors Schema JsonValue Unicode Contracts.

Local Open Scope N_scope.

Class WebUrl := {
  URL : Type;
  new_URL : jsstring -> option URL;
  url_protocol : URL -> jsstring;
  url_username : URL -> jsstring;
  url_password : URL -> jsstring;
  url_hostname : URL -> jsstring;
  url_port : URL -> jsstring;
  url_pathname : URL -> jsstring;
  url_search : URL -> jsstring;
  url_hash : URL -> jsstring;
  url_origin : URL -> jsstring;
  url_href : URL -> jsstring;
  url_set_hostname : URL -> jsstring -> URL;
  url_set_pathname : URL -> jsstring -> URL;
  url_sort_search : URL -> URL;
}.

Definition POLICY_NORMALIZATION_VERSION : string := "pactmark.policy-normalization@1".

Definition PolicyNormalizationError (reason : string) : js_error :=
  PolicyError "PolicyNormalizationError" reason.

Definition slash : N := 47.
Definition backslash : N := 92.
Definition colon : N := 58.

Definition is_lower : N -> bool := in_range 97 122.
Definition is_upper : N -> bool := in_range 65 90.
Definition is_decimal : N -> bool := in_range 48 57.

(** ** Text *)

Definition rejectControls (value : jsstring) : outcome js_error unit :=
  require (negb (existsb (fun c => is_control c || is_format c) (code_points value)))
    (PolicyNormalizationError "Control and format characters are not permitted").

Section Text.
Context `{Unicode, WebUrl}.

Definition normalizedText (value : jsstring) : outcome js_error jsstring :=
  let normalized := nfc value in
  _ ← rejectControls normalized; Return normalized.

(** ** Identifiers *)

(** [[a-z0-9]] and [[a-z0-9._:@/-]] *)
Definition is_identifier_edge (c : N) : bool := is_lower c || is_decimal c.
Definition is_identifier_unit (c : N) : bool :=
  is_identifier_edge c || bool_decide (c ∈ js "._:@/-").

(** [/^[a-z0-9](?:[a-z0-9._:@/-]{0,254}[a-z0-9])?$/u] *)
Definition is_canonical_identifier (s : jsstring) : bool :=
  match s with
  | [] => false
  | c :: rest =>
      is_identifier_edge c &&
      match list.last rest with
      | None => true
      | Some d => is_identifier_edge d && forallb is_identifier_unit rest
                  && (length rest <=? 255)%nat
      end
  end.

Definition canonicalizeIdentifier (value : jsstring) : outcome js_error jsstring :=
  text ← normalizedText value;
  let normalized := trim text in
  _ ← require (is_canonical_identifier normalized)
        (PolicyNormalizationError "Identifier is not in canonical lowercase form");
  Return normalized.

Definition canonicalizeTenantNamespace (value : jsstring) : outcome js_error jsstring :=
  normalized ← canonicalizeIdentifier value;
  _ ← require (negb (includes_char slash normalized || includes_char colon normalized))
        (PolicyNormalizationError "Tenant namespace must be a single identifier segment");
  Return normalized.

(** [[a-z0-9]] under the flags [iu]: with case folding it also matches U+017F
    and U+212A. *)
Definition is_urn_edge (c : N) : bool :=
  is_lower c || is_upper c || is_decimal c || (c =? 383) || (c =? 8490).
Definition is_nid_unit (c : N) : bool := is_urn_edge c || (c =? 45).
Definition is_nss_unit (c : N) : bool :=
  is_urn_edge c || bool_decide (c ∈ js "()+,.:=@;$_!*'/?#%-").

(** Splits at the first colon. *)
Fixpoint break_at (sep : N) (s : jsstring) : option (jsstring * jsstring) :=
  match s with
  | [] => None
  | c :: s' => if c =? sep then Some ([], s')
               else '(a, b) ← break_at sep s'; Some (c :: a, b)
  end.

(** The two groups of the URN expression. *)
Definition match_urn (s : jsstring) : option (jsstring * jsstring) :=
  '(scheme, rest) ← break_at colon s;
  '(nid, nss) ← break_at colon rest;
  if bool_decide (map ascii_lower scheme = js "urn")
     && match nid with c :: nid' => is_urn_edge c && forallb is_nid_unit nid'
                                    && (length nid' <=? 31)%nat | [] => false end
     && match nss with c :: nss' => is_urn_edge c && forallb is_nss_unit nss'
                                    && (length nss' <=? 2043)%nat | [] => false end
  then Some (nid, nss) else None.

Definition canonicalizeUrn (value : jsstring) : outcome js_error jsstring :=
  text ← normalizedText value;
  '(nid, nss) ← orThrow (match_urn (trim text)) (PolicyNormalizationError "URN is invalid");
  Return (js "urn:" ++ toLowerCase nid ++ colon :: nss).

(** ** Relative paths *)

Fixpoint decode_rounds (rounds : nat) (current : jsstring) : outcome js_error jsstring :=
  match rounds with
  | O => Throw (PolicyNormalizationError "Excessively nested percent encoding")
  | S rounds' =>
      next ← orThrow (decodeURIComponent current)
               (PolicyNormalizationError "Malformed percent encoding");
      if bool_decide (next = current) then Return current else decode_rounds rounds' next
  end.

Definition repeatedlyDecode (value : jsstring) : outcome js_error jsstring := decode_rounds 4 value.

(** [/^[a-zA-Z]:/u] *)
Definition has_drive_prefix (s : jsstring) : bool :=
  match s with c :: d :: _ => (is_lower c || is_upper c) && (d =? colon) | _ => false end.

Definition is_ambiguous_segment (segment : jsstring) : bool :=
  bool_decide (segment = []) || bool_decide (segment = js ".") || bool_decide (segment = js "..").

Fixpoint reject_controls_in (segments : list jsstring) : outcome js_error unit :=
  match segments with
  | [] => Return tt
  | segment :: rest => _ ← rejectControls segment; reject_controls_in rest
  end.

Definition canonicalizeResourcePath (value : jsstring) : outcome js_error jsstring :=
  normalized ← normalizedText value;
  _ ← require (negb (includes_char backslash normalized || starts_with [slash] normalized
                     || has_drive_prefix normalized))
        (PolicyNormalizationError "Only package-relative slash-separated paths are permitted");
  decoded ← repeatedlyDecode normalized;
  _ ← require (negb (includes_char backslash decoded || starts_with [slash] decoded))
        (PolicyNormalizationError "Encoded absolute or backslash path is not permitted");
  let segments := split slash decoded in
  _ ← require (negb (existsb is_ambiguous_segment segments))
        (PolicyNormalizationError "Path traversal or ambiguous path segment is not permitted");
  _ ← reject_controls_in segments;
  Return (join slash segments).

(** ** Physical paths *)

(** [/^[a-zA-Z]:\//u] *)
Definition has_drive_root (s : jsstring) : bool :=
  match s with
  | c :: d :: e :: _ => (is_lower c || is_upper c) && (d =? colon) && (e =? slash)
  | _ => false
  end.

(** [.replace(/\/$/u, "") || "/"] *)
Definition strip_trailing_slash (s : jsstring) : jsstring :=
  match list.last s with
  | Some c => if c =? slash then removelast s else s
  | None => s
  end.

Definition normalizePhysicalAbsolutePath (value : jsstring) : outcome js_error jsstring :=
  text ← normalizedText value;
  let slashPath := map (fun c => if c =? backslash then slash else c) text in
  _ ← require (starts_with [slash] slashPath || has_drive_root slashPath)
        (PolicyNormalizationError "A physically resolved path must be absolute");
  let prefix := if starts_with [slash] slashPath then [slash]
                else map ascii_lower (take 1 slashPath) ++ [colon; slash] in
  let remainder := drop (length prefix) slashPath in
  let segments := filter (fun segment => segment <> []) (split slash remainder) in
  _ ← require (negb (existsb (fun segment => bool_decide (segment = js ".")
                                             || bool_decide (segment = js "..")) segments))
        (PolicyNormalizationError "A physically resolved path cannot contain traversal");
  _ ← reject_controls_in segments;
  let text := strip_trailing_slash (prefix ++ join slash segments) in
  Return (match text with [] => [slash] | _ => text end).

Definition assertResolvedPathWithinRoot (root path : jsstring) : outcome js_error unit :=
  canonicalRoot ← normalizePhysicalAbsolutePath root;
  canonicalResolved ← normalizePhysicalAbsolutePath path;
  let descendantPrefix := if bool_decide (canonicalRoot = [slash]) then [slash]
                          else canonicalRoot ++ [slash] in
  require (bool_decide (canonicalResolved = canonicalRoot)
           || starts_with descendantPrefix canonicalResolved)
    (PolicyNormalizationError "Resolved path escapes the authorized root").

(** ** Hosts *)

(** The value of one to three decimal digits. *)
Definition octet (s : jsstring) : option N :=
  if forallb is_decimal s && (1 <=? length s)%nat && (length s <=? 3)%nat
  then Some (fold_left (fun acc c => acc * 10 + (c - 48)) s 0) else None.

Definition parseIpv4 (host : jsstring) : option (N * N * N * N) :=
  match split 46 host with
  | [s1; s2; s3; s4] =>
      a ← octet s1; b ← octet s2; c ← octet s3; d ← octet s4;
      if (a <=? 255) && (b <=? 255) && (c <=? 255) && (d <=? 255) then Some (a, b, c, d) else None
  | _ => None
  end.

Definition isBlockedIpv4 (octets : N * N * N * N) : bool :=
  let '(a, b, _, _) := octets in
  (a =? 0) || (a =? 10) || (a =? 127)
  || ((a =? 169) && (b =? 254))
  || ((a =? 172) && (16 <=? b) && (b <=? 31))
  || ((a =? 192) && (b =? 168))
  || ((a =? 198) && ((b =? 18) || (b =? 19)))
  || ((a =? 100) && (64 <=? b) && (b <=? 127))
  || (224 <=? a).

Definition is_hex_lower (c : N) : bool := is_decimal c || in_range 97 102 c.

(** [host.replace(/^0+|:0+(?=[0-9a-f])/gu, "")]: a colon and the zeros after it
    go when a hexadecimal digit follows; the last zero may be that digit. *)
Fixpoint compact_colons (fuel : nat) (s : jsstring) : jsstring :=
  match fuel, s with
  | O, _ | _, [] => s
  | S fuel', c :: rest =>
      let zeros := (length rest - length (drop_while (N.eqb 48) rest))%nat in
      let after := drop_while (N.eqb 48) rest in
      if (c =? colon) && (1 <=? zeros)%nat then
        match after with
        | d :: _ => if is_hex_lower d then compact_colons fuel' after
                    else if (2 <=? zeros)%nat then compact_colons fuel' (48 :: after)
                    else c :: compact_colons fuel' rest
        | [] => if (2 <=? zeros)%nat then compact_colons fuel' (48 :: after)
                else c :: compact_colons fuel' rest
        end
      else c :: compact_colons fuel' rest
  end.

Definition compactIpv6 (host : jsstring) : jsstring :=
  compact_colons (length host) (drop_while (N.eqb 48) host).

(** [/^f[cd][0-9a-f]{2}:/] and [/^fe[89ab][0-9a-f]:/] *)
Definition is_unique_local (host : jsstring) : bool :=
  match host with
  | f :: x :: a :: b :: k :: _ =>
      (f =? 102) && ((x =? 99) || (x =? 100)) && is_hex_lower a && is_hex_lower b && (k =? colon)
  | _ => false
  end.
Definition is_link_local (host : jsstring) : bool :=
  match host with
  | f :: e :: x :: a :: k :: _ =>
      (f =? 102) && (e =? 101) && ((x =? 56) || (x =? 57) || (x =? 97) || (x =? 98))
      && is_hex_lower a && (k =? colon)
  | _ => false
  end.

Definition isDeniedCanonicalHost (host : jsstring) : bool :=
  bool_decide (host = js "localhost") || ends_with (js ".localhost") host
  || ends_with (js ".local") host || bool_decide (host = js "metadata.google.internal")
  || bool_decide (host = js "metadata.azure.internal")
  || match parseIpv4 host with
     | Some octets => isBlockedIpv4 octets
     | None =>
         includes_char colon host &&
         (bool_decide (host = js "::") || bool_decide (host = js "::1") || is_unique_local host
          || is_link_local host || starts_with (js "::ffff:") host
          || includes (js "::ffff:127.") (compactIpv6 host)
          || includes (js "::ffff:10.") (compactIpv6 host)
          || includes (js "::ffff:169.254.") (compactIpv6 host))
     end.

(** [hostname.replace(/^\[|\]$/gu, "").replace(/\.$/u, "").toLowerCase()] *)
Definition bare_host (hostname : jsstring) : jsstring :=
  let opened := match hostname with c :: rest => if c =? 91 then rest else hostname | [] => [] end in
  let closed := match list.last opened with
                | Some c => if c =? 93 then removelast opened else opened | None => opened end in
  let undotted := match list.last closed with
                  | Some c => if c =? 46 then removelast closed else closed | None => closed end in
  toLowerCase undotted.

Definition https_url (raw : jsstring) : option URL := new_URL (js "https://" ++ raw ++ [slash]).

Definition isPrivateOrReservedHostname (value : jsstring) : bool :=
  match normalizedText value with
  | Throw _ => true
  | Return text =>
      match https_url (toLowerCase (trim text)) with
      | None => true
      | Some url => isDeniedCanonicalHost (bare_host (url_hostname url))
      end
  end.

(** [/^[a-z0-9.-]+$/u] *)
Definition is_dns_name (host : jsstring) : bool :=
  bool_decide (host <> []) && forallb (fun c => is_identifier_edge c || (c =? 46) || (c =? 45)) host.

Definition canonicalizeHost (value : jsstring) : outcome js_error jsstring :=
  text ← normalizedText value;
  let raw := toLowerCase (trim text) in
  _ ← require (negb (bool_decide (raw = []) || ends_with [colon] raw || includes_char 64 raw
                     || includes_char slash raw || includes_char 63 raw || includes_char 35 raw))
        (PolicyNormalizationError "Host is empty or contains URL components");
  url ← orThrow (https_url raw) (PolicyNormalizationError "Host or port is ambiguous");
  _ ← require (bool_decide (url_username url = []) && bool_decide (url_password url = [])
               && bool_decide (url_pathname url = [slash]))
        (PolicyNormalizationError "Host authority is ambiguous");
  let host := bare_host (url_hostname url) in
  _ ← require (negb (starts_with (js ".") host || ends_with (js ".") host || includes (js "..") host
                     || (negb (includes_char colon host) && negb (is_dns_name host))))
        (PolicyNormalizationError "Host name is ambiguous or non-canonical");
  _ ← require (negb (isDeniedCanonicalHost host))
        (PolicyNormalizationError "Private, reserved, loopback, or metadata host is denied");
  Return (if bool_decide (url_port url = []) then host else host ++ colon :: url_port url).

(** ** URLs *)

Definition is_authority_end (c : N) : bool := (c =? slash) || (c =? 63) || (c =? 35).

(** The text from the first slash at or after the first of [/?#] up to the
    query or fragment; [None] when there is no such slash. *)
Definition raw_path (normalized : jsstring) : option jsstring :=
  let from_authority := drop_while (fun c => negb (is_authority_end c)) normalized in
  match drop_while (fun c => negb (c =? slash)) from_authority with
  | [] => None
  | path => match split 63 path with
            | before_query :: _ => head (split 35 before_query)
            | [] => None
            end
  end.

Fixpoint check_raw_segments (segments : list jsstring) : outcome js_error unit :=
  match segments with
  | [] => Return tt
  | segment :: rest =>
      decoded ← repeatedlyDecode segment;
      _ ← require (negb (bool_decide (decoded = js ".") || bool_decide (decoded = js "..")
                         || includes_char slash decoded || includes_char backslash decoded))
            (PolicyNormalizationError "URL path traversal or encoded separator is not permitted");
      check_raw_segments rest
  end.

Fixpoint decode_segments (segments : list jsstring) : outcome js_error (list jsstring) :=
  match segments with
  | [] => Return []
  | segment :: rest =>
      decoded ← repeatedlyDecode segment; others ← decode_segments rest; Return (decoded :: others)
  end.

Definition canonicalizeUrl (value : jsstring) : outcome js_error jsstring :=
  normalized ← normalizedText value;
  _ ← match raw_path normalized with
      | Some path => check_raw_segments (split slash path)
      | None => Return tt
      end;
  url ← orThrow (new_URL normalized) (PolicyNormalizationError "URL is invalid");
  _ ← require (bool_decide (url_protocol url = js "https:") || bool_decide (url_protocol url = js "http:"))
        (PolicyNormalizationError "Only HTTP(S) URLs are supported");
  _ ← require (bool_decide (url_username url = []) && bool_decide (url_password url = []))
        (PolicyNormalizationError "URL userinfo is not permitted");
  _ ← require (bool_decide (url_hash url = []))
        (PolicyNormalizationError "URL fragments are not policy resources");
  hostname ← canonicalizeHost (url_hostname url);
  decoded ← decode_segments (split slash (url_pathname url));
  let pathname := join slash decoded in
  _ ← require (negb (existsb (fun segment => bool_decide (segment = js ".")
                                || bool_decide (segment = js "..")) (split slash pathname)))
        (PolicyNormalizationError "URL path traversal is not permitted");
  let url := url_set_hostname url
               (if includes_char colon hostname then 91 :: hostname ++ [93] else hostname) in
  let url := url_set_pathname url pathname in
  Return (url_href (url_sort_search url)).

(** ** Scopes *)

Definition canonical_value (scope : ResourceScope) : outcome js_error jsstring :=
  match scope_kind scope with
  | scope_path => canonicalizeResourcePath (scope_value scope)
  | scope_url => canonicalizeUrl (scope_value scope)
  | scope_host => canonicalizeHost (scope_value scope)
  | scope_identifier => canonicalizeIdentifier (scope_value scope)
  | scope_tenant => canonicalizeTenantNamespace (scope_value scope)
  | scope_urn => canonicalizeUrn (scope_value scope)
  | _ => Throw (PolicyNormalizationError "Unknown resource kind")
  end.

Definition canonicalizeResourceScope (scope : ResourceScope) : outcome js_error ResourceScope :=
  value ← canonical_value scope;
  Return {| scope_kind := scope_kind scope; scope_value := value;
            scope_normalizationVersion := POLICY_NORMALIZATION_VERSION |}.

(** The parent itself, or a path below it. *)
Definition path_within (parent child : jsstring) : bool :=
  bool_decide (child = parent) || starts_with (parent ++ [slash]) child.

Definition url_within (parent child : jsstring) : outcome js_error bool :=
  childUrl ← orThrow (new_URL child) (TypeError "Invalid URL");
  parentUrl ← orThrow (new_URL parent) (TypeError "Invalid URL");
  Return (bool_decide (url_origin childUrl = url_origin parentUrl)
          && bool_decide (url_search childUrl = url_search parentUrl)
          && (bool_decide (url_pathname childUrl = url_pathname parentUrl)
              || starts_with (strip_trailing_slash (url_pathname parentUrl) ++ [slash])
                   (url_pathname childUrl))).

Definition isResourceWithinScope (candidate ceiling : ResourceScope) : outcome js_error bool :=
  if negb (bool_decide (scope_kind candidate = scope_kind ceiling)) then Return false
  else
    match canonicalizeResourceScope candidate, canonicalizeResourceScope ceiling with
    | Return child, Return parent =>
        match scope_kind child with
        | scope_path => Return (path_within (scope_value parent) (scope_value child))
        | scope_url => url_within (scope_value parent) (scope_value child)
        | _ => Return (bool_decide (scope_value child = scope_value parent))
        end
    | _, _ => Return false
    end.

End Text.
