(* ===== verification/CanonicalizationFacts.v ===== *)
(** * Properties of canonical resources

    The shape of canonical paths, containment as containment of segment lists,
    transitivity of containment, confinement of physical paths under a root, and
    the addresses that hosts may not name. *)

From S2P Require Import Prelude JsTime Errors Schema JsonValue Unicode Contracts Canonicalization.

Local Open Scope N_scope.

Lemma starts_with_spec p s : starts_with p s = true <-> p `prefix_of` s.
Proof. unfold starts_with. apply bool_decide_eq_true. Qed.

Lemma includes_char_spec c s : includes_char c s = true <-> c ∈ s.
Proof. unfold includes_char. apply bool_decide_eq_true. Qed.

Lemma require_Return {E} b (e : E) u : require b e = Return u <-> b = true.
Proof. unfold require. destruct b, u; naive_solver. Qed.

Lemma bind_Return {E A B} (m : outcome E A) (f : A -> outcome E B) b :
  mbind f m = Return b <-> exists a, m = Return a /\ f a = Return b.
Proof. destruct m; naive_solver. Qed.

(** Takes a chain of guards that returned apart. *)
Ltac guards H :=
  repeat (apply bind_Return in H as (? & ?Hg & H)).

Section Paths.
Context `{Unicode, WebUrl}.

(** ** Relative paths *)

(** A segment that names something and stays in place. *)
Definition clean_segment (seg : jsstring) : Prop :=
  seg <> [] /\ seg <> js "." /\ seg <> js ".." /\ slash ∉ seg /\ rejectControls seg = Return tt.

Lemma existsb_false {A} (f : A -> bool) l : existsb f l = false <-> Forall (fun a => f a = false) l.
Proof.
  induction l as [| a l IH]; cbn; [naive_solver |].
  rewrite orb_false_iff, IH, Forall_cons_iff. done.
Qed.

Lemma reject_controls_in_Return segs u :
  reject_controls_in segs = Return u <-> Forall (fun seg => rejectControls seg = Return tt) segs.
Proof.
  destruct u. induction segs as [| seg segs IH]; cbn; [naive_solver |].
  rewrite Forall_cons_iff, <-IH. destruct (rejectControls seg) as [[] |]; naive_solver.
Qed.

Lemma decode_rounds_Return n v d : decode_rounds n v = Return d -> percent ∉ d.
Proof.
  revert v. induction n as [| n IH]; cbn; intros v Hd; [done |]. guards Hd.
  case_bool_decide as Heq; [| by eapply IH]. injection Hd as <-. subst.
  apply decode_fixed. unfold orThrow in *. destruct (decodeURIComponent v); naive_solver.
Qed.

Lemma decode_rounds_fixed n v : percent ∉ v -> decode_rounds (S n) v = Return v.
Proof. intros Hv%decode_fixed. cbn. rewrite Hv. cbn. by rewrite bool_decide_eq_true_2. Qed.

(** The shape of a canonical path.  Whatever the input encodes, a path that
    is accepted is the join of at least one segment, each of which is not empty,
    not [.] and not [..], holds no separator and no control character; the path
    holds no backslash and no percent sign and is not absolute. *)
Theorem canonical_path_shape v p :
  canonicalizeResourcePath v = Return p ->
  exists segs, segs <> [] /\ Forall clean_segment segs /\ p = join slash segs
    /\ split slash p = segs /\ backslash ∉ p /\ percent ∉ p /\ head p <> Some slash.
Proof.
  unfold canonicalizeResourcePath. intros Hp. guards Hp. injection Hp as <-.
  rewrite !require_Return in *. bools.
  match goal with H : repeatedlyDecode _ = Return ?d |- _ =>
    rename d into dec; rename H into Hdec end.
  apply decode_rounds_Return in Hdec.
  exists (split slash dec). rewrite join_split.
  match goal with H : existsb is_ambiguous_segment _ = false |- _ => apply existsb_false in H as Ha end.
  match goal with H : reject_controls_in _ = Return _ |- _ => apply reject_controls_in_Return in H as Hc end.
  split_and!; try done.
  - apply split_nonempty.
  - apply Forall_forall. intros seg Hseg. rewrite Forall_forall in Ha, Hc.
    specialize (Ha seg Hseg). unfold is_ambiguous_segment in Ha. bools.
    split_and!; try done; [eapply split_no_sep, list_elem_of_In, Hseg | by apply Hc].
  - intros Hin. apply includes_char_spec in Hin. congruence.
  - destruct dec as [| c dec]; [done |]. cbn. intros [= ->].
    match goal with H : starts_with [slash] _ = false |- _ => unfold starts_with in H end. bools.
    match goal with H : ~ _ `prefix_of` _ |- _ => apply H end. by exists dec.
Qed.

(** ** Containment *)

Lemma path_within_iff p c :
  path_within p c = true <-> split slash p `prefix_of` split slash c.
Proof.
  unfold path_within. rewrite orb_true_iff, starts_with_spec, bool_decide_eq_true.
  apply text_prefix_iff_segments.
Qed.

Lemma canonicalizeResourceScope_Return scope s :
  canonicalizeResourceScope scope = Return s <->
  exists v, canonical_value scope = Return v /\
    s = {| scope_kind := scope_kind scope; scope_value := v;
           scope_normalizationVersion := POLICY_NORMALIZATION_VERSION |}.
Proof.
  unfold canonicalizeResourceScope. rewrite bind_Return. naive_solver.
Qed.

(** For paths, containment in a ceiling is containment of segment lists: a
    candidate is within a ceiling exactly when both have a canonical form and
    the ceiling's segments are the first segments of the candidate's.  So
    [/a/bc] is not within [/a/b], and no spelling of a parent directory is. *)
Theorem path_within_scope_iff candidate ceiling :
  scope_kind candidate = scope_path -> scope_kind ceiling = scope_path ->
  isResourceWithinScope candidate ceiling = Return true <->
  exists child parent,
    canonicalizeResourcePath (scope_value candidate) = Return child
    /\ canonicalizeResourcePath (scope_value ceiling) = Return parent
    /\ split slash parent `prefix_of` split slash child.
Proof.
  intros Hk Hk'. unfold isResourceWithinScope, canonicalizeResourceScope, canonical_value.
  rewrite Hk, Hk'. rewrite bool_decide_eq_true_2 by done. cbn [negb].
  destruct (canonicalizeResourcePath (scope_value candidate)) as [child |]; cbn; [| naive_solver].
  destruct (canonicalizeResourcePath (scope_value ceiling)) as [parent |]; cbn; [| naive_solver].
  split.
  - intros Hw%(inj Return)%path_within_iff. by exists child, parent.
  - intros (? & ? & [= <-] & [= <-] & Hw). f_equal. by apply path_within_iff.
Qed.

(** The path component of a URL ceiling, without its trailing slash. *)
Lemma strip_trailing_slash_cases s :
  strip_trailing_slash s = s /\ list.last s <> Some slash
  \/ exists t, s = t ++ [slash] /\ strip_trailing_slash s = t.
Proof.
  unfold strip_trailing_slash. induction s as [| c s _] using rev_ind; [by left |].
  rewrite last_snoc. destruct (c =? slash) eqn:Hc.
  - apply N.eqb_eq in Hc as ->. right. exists s. by rewrite removelast_last.
  - left. split; [done |]. intros [= ->]. by rewrite N.eqb_refl in Hc.
Qed.

Definition below (parent child : jsstring) : Prop :=
  child = parent \/ (strip_trailing_slash parent ++ [slash]) `prefix_of` child.

Lemma below_trans a b c : below b a -> below c b -> below c a.
Proof.
  intros [-> | Hab] [-> | Hbc]; [by left | by right | by right |]. right.
  destruct (strip_trailing_slash_cases b) as [[Heq _] | (t & -> & Heq)]; rewrite Heq in Hab.
  - trans b; [done |]. trans (b ++ [slash]); [by apply prefix_app_r | done].
  - by trans (t ++ [slash]).
Qed.

Lemma url_within_iff parent child :
  url_within parent child = Return true <->
  exists c p, new_URL child = Some c /\ new_URL parent = Some p
    /\ url_origin c = url_origin p /\ url_search c = url_search p
    /\ below (url_pathname p) (url_pathname c).
Proof.
  unfold url_within, below. destruct (new_URL child) as [c |]; cbn; [| naive_solver].
  destruct (new_URL parent) as [p |]; cbn; [| naive_solver]. split.
  - intros Hw%(inj Return). exists c, p. bools.
    match goal with H : _ || _ = true |- _ => apply orb_true_iff in H end.
    rewrite starts_with_spec, bool_decide_eq_true in *. auto.
  - intros (? & ? & [= <-] & [= <-] & Ho & Hs & Hb). f_equal.
    rewrite !bool_decide_eq_true_2 by done. cbn [andb].
    apply orb_true_iff. by rewrite starts_with_spec, bool_decide_eq_true.
Qed.

(** What containment says of the two canonical scopes. *)
Definition scope_below (parent child : ResourceScope) : Prop :=
  match scope_kind child with
  | scope_path => split slash (scope_value parent) `prefix_of` split slash (scope_value child)
  | scope_url => url_within (scope_value parent) (scope_value child) = Return true
  | _ => scope_value child = scope_value parent
  end.

Lemma isResourceWithinScope_iff candidate ceiling :
  isResourceWithinScope candidate ceiling = Return true <->
  scope_kind candidate = scope_kind ceiling /\
  exists child parent, canonicalizeResourceScope candidate = Return child
    /\ canonicalizeResourceScope ceiling = Return parent /\ scope_below parent child.
Proof.
  unfold isResourceWithinScope. case_bool_decide as Hk; cbn [negb]; [| naive_solver].
  destruct (canonicalizeResourceScope candidate) as [child |]; [| naive_solver].
  destruct (canonicalizeResourceScope ceiling) as [parent |]; [| naive_solver].
  assert (match scope_kind child with
    | scope_path => Return (path_within (scope_value parent) (scope_value child))
    | scope_url => url_within (scope_value parent) (scope_value child)
    | _ => Return (bool_decide (scope_value child = scope_value parent))
    end = Return true <-> scope_below parent child) as ->.
  { unfold scope_below. destruct (scope_kind child); try done;
      (split; [intros Hw%(inj Return) | intros Hw; f_equal]);
      first [by apply path_within_iff | by apply bool_decide_eq_true_1 in Hw | by apply bool_decide_eq_true_2]. }
  split; [naive_solver |]. by intros (_ & ? & ? & [= <-] & [= <-] & ?).
Qed.

(** Containment is transitive, for every kind of resource: what lies within
    a scope that lies within a ceiling lies within the ceiling, so a chain of
    delegations never reaches further than its first ceiling. *)
Theorem containment_transitive a b c :
  isResourceWithinScope a b = Return true -> isResourceWithinScope b c = Return true ->
  isResourceWithinScope a c = Return true.
Proof.
  rewrite !isResourceWithinScope_iff.
  intros (Hk & ca & cb & Ha & Hb & Hab) (Hk' & cb' & cc & Hb' & Hc & Hbc).
  rewrite Hb in Hb'. injection Hb' as <-. split; [congruence |].
  exists ca, cc. split_and!; try done. unfold scope_below in *.
  assert (scope_kind cb = scope_kind ca) as Hkk.
  { apply canonicalizeResourceScope_Return in Ha as (? & _ & ->), Hb as (? & _ & ->). by cbn. }
  rewrite Hkk in Hbc. destruct (scope_kind ca); try congruence.
  - by trans (split slash (scope_value cb)).
  - rewrite url_within_iff in *. destruct Hab as (u & v & Hu & Hv & Ho & Hs & Hp),
      Hbc as (v' & w & Hv' & Hw & Ho' & Hs' & Hp').
    rewrite Hv in Hv'. injection Hv' as <-. exists u, w. split_and!; try congruence.
    by eapply below_trans.
Qed.

(** ** Physical paths *)

(** Where a physical path leads: a drive or the root, and the segments below. *)
Definition render (location : option N * list jsstring) : jsstring :=
  match location with
  | (None, segs) => slash :: join slash segs
  | (Some drive, []) => [drive; colon]
  | (Some drive, segs) => drive :: colon :: slash :: join slash segs
  end.

Definition clean_location (location : option N * list jsstring) : Prop :=
  Forall clean_segment location.2 /\
  match location.1 with Some drive => is_lower drive = true | None => True end.

Lemma clean_segment_noslash segs :
  Forall clean_segment segs -> Forall (fun seg => slash ∉ seg) segs.
Proof. intros Hall. eapply Forall_impl; [| exact Hall]. by intros seg (_ & _ & _ & ? & _). Qed.

Lemma split_join_clean segs :
  segs <> [] -> Forall clean_segment segs -> split slash (join slash segs) = segs.
Proof. intros Hne Hall. apply split_join; [done | by apply clean_segment_noslash]. Qed.

Lemma last_join_clean segs :
  segs <> [] -> Forall clean_segment segs -> exists c, list.last (join slash segs) = Some c /\ c <> slash.
Proof.
  intros Hne Hall. induction segs as [| seg segs IH] using rev_ind; [done |].
  apply Forall_app in Hall as [Hall Hseg]. apply Forall_cons_iff in Hseg as [(Hn & _ & _ & Hs & _) _].
  assert (exists c, list.last seg = Some c /\ c <> slash) as (c & Hc & Hcs).
  { destruct seg as [| c seg _] using rev_ind; [done |]. exists c. rewrite last_snoc. split; [done |].
    intros ->. apply Hs, elem_of_app. right. left. }
  exists c. split; [| done]. destruct segs as [| s segs]; [done |].
  rewrite join_app by done. cbn [join]. by rewrite last_app, last_cons, Hc.
Qed.

Lemma strip_no_slash s c : list.last s = Some c -> c <> slash -> strip_trailing_slash s = s.
Proof. intros Hs Hc. unfold strip_trailing_slash. rewrite Hs. by rewrite (proj2 (N.eqb_neq c slash)). Qed.

Lemma normalizePhysical_render v t :
  normalizePhysicalAbsolutePath v = Return t ->
  exists location, clean_location location /\ t = render location.
Proof.
  unfold normalizePhysicalAbsolutePath. intros Ht. guards Ht. rewrite !require_Return in *.
  injection Ht as <-. set (sp := map _ _) in *. set (segs := filter _ _) in *.
  match goal with H : reject_controls_in _ = Return _ |- _ => apply reject_controls_in_Return in H as Hc end.
  bools. match goal with H : existsb _ _ = false |- _ => apply existsb_false in H as Ha end.
  assert (Forall clean_segment segs) as Hclean.
  { apply Forall_forall. intros seg Hseg. rewrite Forall_forall in Ha, Hc.
    specialize (Ha seg Hseg). bools. apply list_elem_of_In in Hseg as Hin.
    unfold segs in Hin. apply list_elem_of_filter in Hin as [Hne Hin].
    split_and!; try done; [by eapply split_no_sep | by apply Hc]. }
  assert (forall pre, list.last pre = Some slash ->
    strip_trailing_slash (pre ++ join slash segs)
    = if decide (segs = []) then removelast pre else pre ++ join slash segs) as Hstrip.
  { intros pre Hpre. case_decide as Hs.
    - rewrite Hs. cbn [join]. rewrite app_nil_r. unfold strip_trailing_slash. by rewrite Hpre, N.eqb_refl.
    - destruct (last_join_clean segs Hs Hclean) as (c & Hl & Hcs).
      apply (strip_no_slash _ c); [| done]. rewrite last_app, Hl. done. }
  destruct (starts_with [slash] sp) eqn:Hsl.
  - exists (None, segs). split; [by split |]. rewrite (Hstrip [slash]) by done.
    case_decide as Hs; [by rewrite Hs | done].
  - match goal with H : _ || _ = true |- _ => cbn [orb] in H; rename H into Hdrive end.
    destruct sp as [| c [| d [| e sp']]]; try done. cbn in Hdrive. bools.
    exists (Some (ascii_lower c), segs). split.
    + split; [done |]. cbn. unfold is_lower, is_upper, ascii_lower, in_range in *.
      destruct ((65 <=? c) && (c <=? 90)) eqn:Hu; bools.
      * apply andb_true_iff. rewrite !N.leb_le in *. lia.
      * match goal with H : _ || _ = true |- _ => rewrite orb_false_r in H end. done.
    + cbn [take map app].
      change (ascii_lower c :: colon :: slash :: join slash segs)
        with ([ascii_lower c; colon; slash] ++ join slash segs).
      rewrite (Hstrip [ascii_lower c; colon; slash]) by done.
      case_decide as Hs; [by rewrite Hs |].
      clearbody segs. by destruct segs.
Qed.

Lemma drive_not_slash drive : is_lower drive = true -> drive <> slash.
Proof. unfold is_lower, in_range. intros Hd ->. done. Qed.

(** The text tests of the source decide containment of locations. *)
Lemma render_within vr sr vp sp :
  clean_location (vr, sr) -> clean_location (vp, sp) ->
  render (vp, sp) = render (vr, sr) \/
  (if bool_decide (render (vr, sr) = [slash]) then [slash] else render (vr, sr) ++ [slash])
    `prefix_of` render (vp, sp)
  <-> vp = vr /\ sr `prefix_of` sp.
Proof.
  intros [Hsr Hvr] [Hsp Hvp]; cbn in Hsr, Hvr, Hsp, Hvp.
  assert (forall l k, l <> [] -> k <> [] -> Forall clean_segment l -> Forall clean_segment k ->
    join slash k = join slash l \/ (join slash l ++ [slash]) `prefix_of` join slash k
    <-> l `prefix_of` k) as Hjoin.
  { intros l k Hl Hk Hcl Hck. rewrite text_prefix_iff_segments. by rewrite !split_join_clean. }
  assert (forall l, l <> [] -> Forall clean_segment l -> join slash l <> []) as Hnil.
  { intros l Hl Hcl He. destruct (last_join_clean l Hl Hcl) as (c & Hc & _). by rewrite He in Hc. }
  assert (forall (l : list jsstring), [] `prefix_of` l) as Hpre by (intros l; by exists l).
  assert (forall l, l <> [] -> Forall clean_segment l -> ~ l `prefix_of` [] /\ join slash l <> []) as Hno.
  { intros l Hl Hcl. split; [by intros ?%prefix_nil_inv | by apply Hnil]. }
  destruct vr as [dr |], vp as [dp |]; cbn [render].
  - destruct sr as [| s sr], sp as [| t sp]; rewrite bool_decide_eq_false_2 by done; cbn [app].
    + split; [intros [[= ->] | Hp] | intros [[= ->] _]; by left]; [done |].
      apply prefix_cons_inv_2, prefix_cons_inv_2, prefix_nil_inv in Hp. done.
    + split; [intros [? | Hp] | intros [[= ->] _]].
      * done.
      * apply prefix_cons_inv_1 in Hp as ->. auto.
      * right. by do 3 apply prefix_cons; exists (join slash (t :: sp)).
    + split; [intros [? | Hp] | intros [_ ?%prefix_nil_inv]]; try done.
      apply prefix_cons_inv_2, prefix_cons_inv_2, prefix_nil_inv in Hp. done.
    + split.
      * intros [[= -> Heq] | Hp]; [split; [done |]; apply Hjoin; try done; by left |].
        apply prefix_cons_inv_1 in Hp as Hd. subst. split; [done |].
        do 3 apply prefix_cons_inv_2 in Hp. apply Hjoin; try done. by right.
      * intros [[= ->] Hp%Hjoin]; try done. destruct Hp as [-> | Hp]; [by left |].
        right. by do 3 apply prefix_cons.
  - rewrite bool_decide_eq_false_2 by (destruct sr; intros [=]; done).
    split; [| by intros [[=] _]]. intros [Heq | Hp].
    + exfalso. destruct sr; injection Heq as Heq; by apply (drive_not_slash dr).
    + exfalso. destruct sr; apply prefix_cons_inv_1 in Hp; by apply (drive_not_slash dr).
  - split; [| by intros [[=] _]]. intros [Heq | Hp].
    + exfalso. destruct sp; injection Heq as Heq; by apply (drive_not_slash dp).
    + exfalso. assert (forall l, (slash :: l) `prefix_of` match sp with
        [] => [dp; colon] | _ => dp :: colon :: slash :: join slash sp end -> False) as Hcontra.
      { intros l Hl. destruct sp; apply prefix_cons_inv_1 in Hl; by apply (drive_not_slash dp). }
      case_bool_decide; by apply Hcontra in Hp.
  - destruct sr as [| s sr].
    + cbn [join]. rewrite bool_decide_eq_true_2 by done. split; [auto |].
      intros _. right. by exists (join slash sp).
    + assert (join slash (s :: sr) <> []) as Hjn by (by apply Hnil).
      rewrite bool_decide_eq_false_2 by (intros Heq; by injection Heq). split.
      * intros Hor. split; [done |]. destruct sp as [| t sp].
        { exfalso. destruct Hor as [Heq | Hp].
          - injection Heq as Heq. by apply Hjn.
          - apply prefix_cons_inv_2, prefix_nil_inv in Hp. by apply app_eq_nil in Hp as [_ ?]. }
        apply Hjoin; try done. destruct Hor as [Heq | Hp]; [left; by injection Heq |].
        right. by apply prefix_cons_inv_2 in Hp.
      * intros [_ Hp]. destruct sp as [| t sp]; [by apply prefix_nil_inv in Hp |].
        apply Hjoin in Hp as [-> | Hp]; try done; [by left | right; by apply prefix_cons].
Qed.

(** Confinement.  A physically resolved path is accepted under a root
    exactly when both are absolute, on the same drive, free of traversal and
    control characters, and the segments of the root are the first segments of
    the path: [/srv/data-old] is not under [/srv/data]. *)
Theorem resolved_path_within_root_iff root path :
  assertResolvedPathWithinRoot root path = Return tt <->
  exists drive rootSegments pathSegments,
    normalizePhysicalAbsolutePath root = Return (render (drive, rootSegments))
    /\ normalizePhysicalAbsolutePath path = Return (render (drive, pathSegments))
    /\ clean_location (drive, rootSegments) /\ clean_location (drive, pathSegments)
    /\ rootSegments `prefix_of` pathSegments.
Proof.
  unfold assertResolvedPathWithinRoot. split.
  - intros Ha. guards Ha. rewrite require_Return, orb_true_iff, starts_with_spec, bool_decide_eq_true in Ha.
    pose proof Hg as Hr. pose proof Hg0 as Hp.
    apply normalizePhysical_render in Hr as ([vr sr] & Hcr & ->), Hp as ([vp sp] & Hcp & ->).
    apply render_within in Ha as [-> Hpre]; try done. by exists vr, sr, sp.
  - intros (drive & sr & sp & Hr & Hp & Hcr & Hcp & Hpre). rewrite Hr, Hp. cbn [mbind outcome_bind].
    apply require_Return. rewrite orb_true_iff, starts_with_spec, bool_decide_eq_true.
    by apply render_within.
Qed.

(** ** Hosts *)

Definition address (a b c d : N) : N := a * 16777216 + b * 65536 + c * 256 + d.

(** [address] lies in the block of [base] with a prefix of [bits] bits. *)
Definition in_block (addr : N) (block : N * N) : bool :=
  let '(base, bits) := block in addr / 2 ^ (32 - bits) =? base / 2 ^ (32 - bits).

(** 0.0.0.0/8, 10.0.0.0/8, 127.0.0.0/8, 169.254.0.0/16, 172.16.0.0/12,
    192.168.0.0/16, 198.18.0.0/15, 100.64.0.0/10, 224.0.0.0/4 and 240.0.0.0/4. *)
Definition RESERVED_BLOCKS : list (N * N) :=
  [ (address 0 0 0 0, 8); (address 10 0 0 0, 8); (address 127 0 0 0, 8);
    (address 169 254 0 0, 16); (address 172 16 0 0, 12); (address 192 168 0 0, 16);
    (address 198 18 0 0, 15); (address 100 64 0 0, 10); (address 224 0 0 0, 4);
    (address 240 0 0 0, 4) ].

Ltac Zify.zify_post_hook ::= Z.to_euclidean_division_equations.

Lemma address_blocks a b c d :
  a <= 255 -> b <= 255 -> c <= 255 -> d <= 255 ->
  isBlockedIpv4 (a, b, c, d) = existsb (in_block (address a b c d)) RESERVED_BLOCKS.
Proof.
  intros Ha Hb Hc Hd.
  assert (address a b c d / 2 ^ 24 = a) as H8 by (unfold address; lia).
  assert (address a b c d / 2 ^ 16 = a * 256 + b) as H16 by (unfold address; lia).
  assert (address a b c d / 2 ^ 20 = a * 16 + b / 16) as H12 by (unfold address; lia).
  assert (address a b c d / 2 ^ 17 = a * 128 + b / 2) as H15 by (unfold address; lia).
  assert (address a b c d / 2 ^ 22 = a * 4 + b / 64) as H10 by (unfold address; lia).
  assert (address a b c d / 2 ^ 28 = a / 16) as H4 by (unfold address; lia).
  apply eq_true_iff_eq. unfold RESERVED_BLOCKS, in_block, isBlockedIpv4. cbn [existsb].
  change (32 - 8) with 24. change (32 - 16) with 16. change (32 - 12) with 20.
  change (32 - 15) with 17. change (32 - 10) with 22. change (32 - 4) with 28.
  rewrite H8, H16, H12, H15, H10, H4. clear H8 H16 H12 H15 H10 H4.
  repeat match goal with |- context [address ?x ?y ?z ?w / ?k] =>
    let v := eval vm_compute in (address x y z w / k) in
    change (address x y z w / k) with v end.
  rewrite !orb_true_iff, !andb_true_iff, !orb_true_iff, !N.eqb_eq, !N.leb_le.
  split; intros; lia.
Qed.

Ltac Zify.zify_post_hook ::= idtac.

Lemma parseIpv4_bound host a b c d :
  parseIpv4 host = Some (a, b, c, d) -> a <= 255 /\ b <= 255 /\ c <= 255 /\ d <= 255.
Proof.
  unfold parseIpv4. destruct (split 46 host) as [| s1 [| s2 [| s3 [| s4 [|]]]]]; try done.
  destruct (octet s1), (octet s2), (octet s3), (octet s4); cbn; try done.
  destruct (_ && _) eqn:Hb; [| done]. intros [= <- <- <- <-]. bools.
  rewrite !N.leb_le in *. auto.
Qed.

(** A canonical host is never loopback, local, a metadata name or an address
    of a reserved block: whatever text it is written in, the name or IPv4
    address the URL parser finds in it lies outside all of them. *)
Theorem canonical_host_public value host :
  canonicalizeHost value = Return host ->
  exists url name, name = bare_host (url_hostname url)
    /\ (host = name \/ host = name ++ colon :: url_port url)
    /\ name <> js "localhost" /\ ~ js ".localhost" `suffix_of` name /\ ~ js ".local" `suffix_of` name
    /\ name <> js "metadata.google.internal" /\ name <> js "metadata.azure.internal"
    /\ forall a b c d block, parseIpv4 name = Some (a, b, c, d) -> block ∈ RESERVED_BLOCKS ->
         in_block (address a b c d) block = false.
Proof.
  unfold canonicalizeHost. intros Hh. guards Hh. rewrite !require_Return in *. bools.
  match goal with Hu : orThrow (https_url _) _ = Return ?u |- _ => exists u end.
  match goal with Hd : isDeniedCanonicalHost ?n = false |- _ => exists n; rename Hd into Hden end.
  unfold isDeniedCanonicalHost, ends_with in Hden. bools. split_and!; try done.
  - apply (inj Return) in Hh as <-. destruct (bool_decide (url_port _ = [])); [by left | by right].
  - intros a b c d block Hp Hb. rewrite Hp in *.
    apply parseIpv4_bound in Hp as (? & ? & ? & ?).
    match goal with Hi : isBlockedIpv4 _ = false |- _ => rewrite address_blocks in Hi by done;
      apply existsb_false in Hi; rewrite Forall_forall in Hi; apply Hi end.
    by apply list_elem_of_In.
Qed.

(** Kinds of resource that have no canonical form (datasets, runs, records,
    artifacts and opaque values) are within no ceiling. *)
Theorem uncanonical_kind_denied candidate ceiling :
  scope_kind candidate ∈ [scope_dataset; scope_run; scope_record; scope_artifact; scope_opaque] ->
  isResourceWithinScope candidate ceiling = Return false.
Proof.
  intros Hk. unfold isResourceWithinScope. case_bool_decide; [| done]. cbn [negb].
  unfold canonicalizeResourceScope, canonical_value.
  destruct (scope_kind candidate); set_solver.
Qed.
End Paths.

(** The drive check is made on the text before decoding only: a relative
    path whose encoded colon makes it a drive path is accepted, and its
    canonical form is one that the same function rejects. *)
Theorem encoded_drive_accepted `{UnicodeLaws} :
  canonicalizeResourcePath (js "C%3A/Windows") = Return (js "C:/Windows")
  /\ isReturn (canonicalizeResourcePath (js "C:/Windows")) = false.
Proof.
  unfold canonicalizeResourcePath, normalizedText.
  rewrite !nfc_inert by (repeat constructor). split; vm_compute; reflexivity.
Qed.
