(* ===== verification/Policy.v ===== *)
(** * The deterministic policy (packages/policy/src/policy.ts, reason-codes.ts)

    [evaluatePolicyPreflight] is the fail-closed boundary shared by the
    evaluator and the runtime; [evaluatePolicy] adds grants, previews and
    approvals.  Canonical resources come from Canonicalization.v; the digest of
    the target is a parameter, read by no decision. *)

From S2P Require Import Prelude JsTime Errors Schema JsonValue Unicode Contracts WorkOrder Authorization.
From S2P Require Import Authority Canonicalization.

Local Open Scope Z_scope.

Inductive PolicyReasonCode :=
| KAF_POLICY_ALLOWED | KAF_POLICY_DEFAULT_DENY | KAF_POLICY_INVALID_INPUT
| KAF_POLICY_UNKNOWN_PURPOSE | KAF_POLICY_DATA_CLASS_DENIED | KAF_POLICY_CAPABILITY_DENIED
| KAF_POLICY_SCOPE_DENIED | KAF_POLICY_GRANT_REQUIRED | KAF_POLICY_GRANT_BINDING_MISMATCH
| KAF_POLICY_SCHEMA_REQUIRED | KAF_POLICY_PREVIEW_REQUIRED | KAF_POLICY_COMPENSATION_REQUIRED
| KAF_POLICY_EFFECT_STRATEGY_REQUIRED | KAF_POLICY_APPROVAL_REQUIRED
| KAF_POLICY_APPROVAL_INVALID | KAF_POLICY_R5_DISABLED
| KAF_POLICY_NETWORK_ENFORCEMENT_REQUIRED | KAF_POLICY_BUDGET_EXCEEDED
| KAF_POLICY_REGISTRATION_KILLED.

Inductive PolicyDecision :=
| deny (reasonCode : PolicyReasonCode)
| allow
| requireApproval.

Record DeterministicPolicyConfig := {
  cfg_id : string;
  cfg_implementationVersion : string;
  cfg_allowedPurposes : list Purpose;
  cfg_risks_low : list ToolRiskClass;
  cfg_risks_medium : list ToolRiskClass;
  cfg_risks_high : list ToolRiskClass;
  cfg_risks_critical : list ToolRiskClass;
  cfg_enabledDataClasses : list DataClass;
  cfg_enableR5 : bool;
  cfg_r5ApprovalMaxAgeMs : Z;
}.

Definition allowedToolRisksByWorkRisk (c : DeterministicPolicyConfig) (r : RiskClass)
  : list ToolRiskClass :=
  match r with
  | risk_low => cfg_risks_low c
  | risk_medium => cfg_risks_medium c
  | risk_high => cfg_risks_high c
  | risk_critical => cfg_risks_critical c
  end.

(** [value !== undefined] *)
Definition isDefined {A} (o : option A) : bool := match o with Some _ => true | None => false end.

Definition nonempty {A} (l : list A) : bool := match l with [] => false | _ => true end.

Definition DeterministicPolicyConfigSchema (c : DeterministicPolicyConfig) : bool :=
  min1max 250 (cfg_id c) && min1max 100 (cfg_implementationVersion c)
  && all_of (fun p => min1 (purpose_code p) && min1 (purpose_registryVersion p))
       (cfg_allowedPurposes c)
  && nonempty (cfg_risks_low c) && nonempty (cfg_risks_medium c)
  && nonempty (cfg_risks_high c) && nonempty (cfg_risks_critical c)
  && int_positive (cfg_r5ApprovalMaxAgeMs c).

Definition DEFAULT_POLICY_CONFIG : DeterministicPolicyConfig := {|
  cfg_id := "pactmark.default-deny";
  cfg_implementationVersion := "1.0.0";
  cfg_allowedPurposes := [];
  cfg_risks_low := [R0; R1; R2];
  cfg_risks_medium := [R0; R1; R2; R3];
  cfg_risks_high := [R0; R1; R2; R3; R4];
  cfg_risks_critical := [R0; R1; R2; R3; R4];
  cfg_enabledDataClasses := [data_public; data_internal; data_confidential; data_restricted];
  cfg_enableR5 := false;
  cfg_r5ApprovalMaxAgeMs := 5 * 60 * 1000;
|}.

Inductive NetworkPolicy := network_none | network_declared | network_enforced.

#[export] Instance NetworkPolicy_eq_dec : EqDecision NetworkPolicy.
Proof. solve_decision. Defined.

Record PolicyPreflightInput := {
  pf_workOrder : AcceptedWorkOrder;
  pf_tool : ToolRegistrationContract;
  pf_policyRegistrationDigest : string;
  pf_argumentsDigest : string;
  pf_resources : list ResourceScope;
  pf_schemaValidated : bool;
  pf_networkPolicy : NetworkPolicy;
  pf_callsAlreadyUsed : Z;
  pf_requestedCost : option spec_float;
}.

Inductive PolicyPreflightResult :=
| preflightDeny (reasonCode : PolicyReasonCode)
| preflightPass (normalizedResources : list ResourceScope) (normalizedTargetDigest : string)
    (approvalRequired : bool).

Record PolicyEvaluationInput := {
  in_workOrder : AcceptedWorkOrder;
  in_tool : ToolRegistrationContract;
  in_policyRegistrationDigest : string;
  in_argumentsDigest : string;
  in_targetDigest : string;
  in_normalizedResources : list ResourceScope;
  in_schemaValidated : bool;
  in_grantResolution : option CapabilityGrantResolution;
  in_approval : option Approval;
  in_runId : string;
  in_stepId : string;
  in_decisionId : string;
  in_previewDigest : option string;
  in_networkPolicy : NetworkPolicy;
  in_callsAlreadyUsed : Z;
  in_requestedCost : option spec_float;
  in_evaluatedAt : string;
}.

Section Policy.
Context `{Zod, Unicode, WebUrl}.
Context (digestOfResources : list ResourceScope -> string).

Definition purposeAllowed (config : DeterministicPolicyConfig) (workOrder : AcceptedWorkOrder)
  : bool :=
  existsb (fun p => bool_decide (purpose_code p = purpose_code (wo_purpose (wo_common workOrder)))
                    && bool_decide (purpose_registryVersion p
                         = purpose_registryVersion (wo_purpose (wo_common workOrder))))
    (cfg_allowedPurposes config).

(** [ceilings.some(...)] and [candidates.every(...)], which stop early. *)
Fixpoint some_scope (candidate : ResourceScope) (ceilings : list ResourceScope)
  : outcome js_error bool :=
  match ceilings with
  | [] => Return false
  | ceiling :: rest =>
      b ← isResourceWithinScope candidate ceiling;
      if b : bool then Return true else some_scope candidate rest
  end.

Fixpoint scopesAllowed (candidates ceilings : list ResourceScope) : outcome js_error bool :=
  match candidates with
  | [] => Return true
  | candidate :: rest =>
      b ← some_scope candidate ceilings;
      if b : bool then scopesAllowed rest ceilings else Return false
  end.

Definition expected_action (tool : ToolRegistrationContract) : string :=
  if decide (tool_effectStrategyKind tool = tool_read) then "read" else "write".

Definition grantMatches (grant : CapabilityGrant) (input : PolicyEvaluationInput)
    (resources : list ResourceScope) : outcome js_error bool :=
  let b := gr_binding grant in
  let wo := in_workOrder input in
  let c := wo_common wo in
  let tool := in_tool input in
  if bool_decide (tenant_id (gb_tenant b) = tenant_id (wo_tenant c))
     && bool_decide (principal_type (gb_principal b) = principal_type (wo_principal c))
     && bool_decide (principal_id (gb_principal b) = principal_id (wo_principal c))
     && bool_decide (gb_workOrderId b = wo_id c)
     && bool_decide (gb_workOrderBindingDigest b = wo_workOrderBindingDigest c)
     && bool_decide (gb_executionDefinitionDigest b = wo_executionDefinitionDigest wo)
     && bool_decide (gb_toolId b = tool_id tool)
     && bool_decide (gb_toolRegistrationDigest b = tool_toolRegistrationDigest tool)
     && bool_decide (gb_policyRegistrationDigest b = in_policyRegistrationDigest input)
     && bool_decide (gb_action b = expected_action tool)
     && bool_decide (purpose_code (gb_purpose b) = purpose_code (wo_purpose c))
     && bool_decide (purpose_registryVersion (gb_purpose b)
                     = purpose_registryVersion (wo_purpose c))
     && bool_decide (gb_capability b ∈ ts_requiredScopes (tool_security tool))
  then scopesAllowed resources (gb_normalizedResources b)
  else Return false.

Definition approvalMatches (approvalInput : Approval) (input : PolicyEvaluationInput) : bool :=
  match ApprovalSchema approvalInput with
  | None => false
  | Some approval =>
      let b := ap_binding approval in
      let wo := in_workOrder input in
      let c := wo_common wo in
      date_lt (in_evaluatedAt input) (ap_expiresAt approval)
      && negb (bool_decide (principal_type (ap_approvedBy approval) = system_worker))
      && bool_decide (tenant_id (pe_tenant b) = tenant_id (wo_tenant c))
      && bool_decide (principal_type (pe_principal b) = principal_type (wo_principal c))
      && bool_decide (principal_id (pe_principal b) = principal_id (wo_principal c))
      && bool_decide (pe_runId b = in_runId input)
      && bool_decide (pe_stepId b = in_stepId input)
      && bool_decide (pe_decisionId b = in_decisionId input)
      && bool_decide (pe_workOrderBindingDigest b = wo_workOrderBindingDigest c)
      && bool_decide (pe_executionDefinitionDigest b = wo_executionDefinitionDigest wo)
      && bool_decide (pe_toolId b = tool_id (in_tool input))
      && bool_decide (pe_toolRegistrationDigest b = tool_toolRegistrationDigest (in_tool input))
      && bool_decide (pe_argumentsDigest b = in_argumentsDigest input)
      && bool_decide (pe_targetDigest b = in_targetDigest input)
      && bool_decide (Some (pe_previewDigest b) = in_previewDigest input)
      && bool_decide (pe_policyRegistrationDigest b = in_policyRegistrationDigest input)
      && bool_decide (purpose_code (pe_purpose b) = purpose_code (wo_purpose c))
      && bool_decide (purpose_registryVersion (pe_purpose b)
                      = purpose_registryVersion (wo_purpose c))
  end.

Definition hasWriteStrategy (tool : ToolRegistrationContract) : bool :=
  negb (bool_decide (tool_effectStrategyKind tool = tool_read)).

(** The registrations a decision depends on, each with its kill-switch kind. *)
Definition registration_killed (killSwitches : option KillSwitchRegistry)
    (workOrder : AcceptedWorkOrder) (tool : ToolRegistrationContract)
    (policyRegistrationDigest : string) : bool :=
  match killSwitches with
  | None => false
  | Some r =>
      isKilled target_tool_registration (tool_toolRegistrationDigest tool) r
      || isKilled target_policy_registration policyRegistrationDigest r
      || match wo_kind workOrder with
         | agent_work_order _ security resource adapter =>
             isKilled target_model_adapter adapter r
             || isKilled target_model_profile security r
             || isKilled target_model_profile resource r
         | compensation_work_order def _ _ _ _ _ strategy _ _ _ =>
             isKilled target_compensation_definition (cd_compensationRunDefinitionDigest def) r
             || isKilled target_compensation_strategy strategy r
             || isKilled target_compensation_strategy
                  (cd_compensationStrategyRegistrationDigest def) r
         end
  end.

(** [inputRaw.resources.map(canonicalizeResourceScope)] *)
Fixpoint canonicalize_all (resources : list ResourceScope) : outcome js_error (list ResourceScope) :=
  match resources with
  | [] => Return []
  | r :: rest =>
      s ← canonicalizeResourceScope r; others ← canonicalize_all rest; Return (s :: others)
  end.

Definition cost_exceeded (requested ceiling : option spec_float) : bool :=
  match requested, ceiling with
  | None, _ => false
  | Some _, None => true
  | Some cost, Some limit => SFltb limit cost
  end.

Definition evaluatePolicyPreflight (configInput : DeterministicPolicyConfig)
    (inputRaw : PolicyPreflightInput) (killSwitches : option KillSwitchRegistry)
  : outcome js_error PolicyPreflightResult :=
  match (if DeterministicPolicyConfigSchema configInput then Some configInput else None),
        AcceptedWorkOrderSchema (pf_workOrder inputRaw),
        (if ToolRegistrationContractSchema (pf_tool inputRaw) then Some (pf_tool inputRaw) else None)
  with
  | Some config, Some workOrder, Some tool =>
      let security := tool_security tool in
      let c := wo_common workOrder in
      if registration_killed killSwitches workOrder tool (pf_policyRegistrationDigest inputRaw)
      then Return (preflightDeny KAF_POLICY_REGISTRATION_KILLED)
      else if negb (purposeAllowed config workOrder)
      then Return (preflightDeny KAF_POLICY_UNKNOWN_PURPOSE)
      else if negb (bool_decide (wo_dataClass c ∈ cfg_enabledDataClasses config))
              || negb (bool_decide (wo_dataClass c ∈ ts_dataClasses security))
      then Return (preflightDeny KAF_POLICY_DATA_CLASS_DENIED)
      else if negb (bool_decide (ts_riskClass security
                 ∈ allowedToolRisksByWorkRisk config (wc_riskClass (wo_context c))))
      then Return (preflightDeny KAF_POLICY_DEFAULT_DENY)
      else if negb (pf_schemaValidated inputRaw)
      then Return (preflightDeny KAF_POLICY_SCHEMA_REQUIRED)
      else if negb (nonempty (ts_requiredScopes security))
              || negb (all_of (fun scope => bool_decide (scope ∈ wo_requestedCapabilities c))
                         (ts_requiredScopes security))
      then Return (preflightDeny KAF_POLICY_CAPABILITY_DENIED)
      else
        match canonicalize_all (pf_resources inputRaw) with
        | Throw _ => Return (preflightDeny KAF_POLICY_SCOPE_DENIED)
        | Return normalizedResources =>
            within ← (if nonempty normalizedResources
                      then scopesAllowed normalizedResources (wo_resourceScopeCeiling c)
                      else Return false);
            if negb within then Return (preflightDeny KAF_POLICY_SCOPE_DENIED)
            else if ts_maxCallsPerRun security <=? pf_callsAlreadyUsed inputRaw
            then Return (preflightDeny KAF_POLICY_BUDGET_EXCEEDED)
            else if cost_exceeded (pf_requestedCost inputRaw) (ts_costCeiling security)
            then Return (preflightDeny KAF_POLICY_BUDGET_EXCEEDED)
            else if bool_decide (ts_networkEnforcement security = network_required)
                    && negb (bool_decide (pf_networkPolicy inputRaw = network_enforced))
            then Return (preflightDeny KAF_POLICY_NETWORK_ENFORCEMENT_REQUIRED)
            else Return (preflightPass normalizedResources (digestOfResources normalizedResources)
                   (bool_decide (ts_riskClass security = R4)
                    || bool_decide (ts_riskClass security = R5)))
        end
  | _, _, _ => Return (preflightDeny KAF_POLICY_INVALID_INPUT)
  end.

Definition approvalStrength (s : AuthenticationStrength) : Z :=
  match s with
  | single_factor => 0 | multi_factor => 1 | phishing_resistant => 2 | user_presence => 3
  end.

(** [Date.parse(evaluatedAt) - Date.parse(createdAt) > maximum] *)
Definition older_than (evaluatedAt createdAt : string) (maximum : Z) : bool :=
  match Date_parse evaluatedAt, Date_parse createdAt with
  | Some t, Some t0 => maximum <? t - t0
  | _, _ => false
  end.

Definition preflight_input (input : PolicyEvaluationInput) (workOrder : AcceptedWorkOrder)
    (tool : ToolRegistrationContract) : PolicyPreflightInput :=
  {| pf_workOrder := workOrder; pf_tool := tool;
     pf_policyRegistrationDigest := in_policyRegistrationDigest input;
     pf_argumentsDigest := in_argumentsDigest input;
     pf_resources := in_normalizedResources input;
     pf_schemaValidated := in_schemaValidated input;
     pf_networkPolicy := in_networkPolicy input;
     pf_callsAlreadyUsed := in_callsAlreadyUsed input;
     pf_requestedCost := in_requestedCost input |}.

(** [{ ...inputRaw, workOrder, tool }] *)
Definition with_parsed (input : PolicyEvaluationInput) (workOrder : AcceptedWorkOrder)
    (tool : ToolRegistrationContract) : PolicyEvaluationInput :=
  let '(Build_PolicyEvaluationInput _ _ p a t n s g ap r st d pv nw c q e) := input in
  Build_PolicyEvaluationInput workOrder tool p a t n s g ap r st d pv nw c q e.

(** The part of [evaluatePolicy] after the grant: preview, strategy, approval. *)
Definition decide_by_risk (config : DeterministicPolicyConfig) (input : PolicyEvaluationInput)
  : PolicyDecision :=
  let tool := in_tool input in
  let security := tool_security tool in
  let risk := ts_riskClass security in
  if bool_decide (risk ∈ [R0; R1; R2]) then allow
  else if negb (isDefined (in_previewDigest input))
          || negb (isDefined (tool_previewStrategyRegistrationDigest tool))
  then deny KAF_POLICY_PREVIEW_REQUIRED
  else if negb (hasWriteStrategy tool) then deny KAF_POLICY_EFFECT_STRATEGY_REQUIRED
  else if bool_decide (risk = R3)
          && (negb (bool_decide (ts_reversibility security = compensatable))
              || negb (isDefined (tool_compensationStrategyRegistrationDigest tool)))
  then deny KAF_POLICY_COMPENSATION_REQUIRED
  else if bool_decide (risk = R3) then allow
  else if bool_decide (risk = R5) && negb (cfg_enableR5 config) then deny KAF_POLICY_R5_DISABLED
  else
    match in_approval input with
    | None => requireApproval
    | Some approval =>
        if negb (approvalMatches approval input) then deny KAF_POLICY_APPROVAL_INVALID
        else if bool_decide (risk = R4) && (approvalStrength (ap_authenticationStrength approval) <? 2)
        then deny KAF_POLICY_APPROVAL_INVALID
        else if bool_decide (risk = R5)
                && (negb (bool_decide (ap_authenticationStrength approval = user_presence))
                    || older_than (in_evaluatedAt input) (ap_createdAt approval)
                         (cfg_r5ApprovalMaxAgeMs config))
        then deny KAF_POLICY_APPROVAL_INVALID
        else allow
    end.

Definition evaluatePolicy (configInput : DeterministicPolicyConfig)
    (inputRaw : PolicyEvaluationInput) (killSwitches : option KillSwitchRegistry)
  : outcome js_error PolicyDecision :=
  match (if DeterministicPolicyConfigSchema configInput then Some configInput else None),
        AcceptedWorkOrderSchema (in_workOrder inputRaw),
        (if ToolRegistrationContractSchema (in_tool inputRaw) then Some (in_tool inputRaw) else None)
  with
  | Some config, Some workOrder, Some tool =>
      let input := with_parsed inputRaw workOrder tool in
      preflight ← evaluatePolicyPreflight config (preflight_input input workOrder tool) killSwitches;
      match preflight with
      | preflightDeny reasonCode => Return (deny reasonCode)
      | preflightPass resources _ _ =>
          match in_grantResolution input with
          | None => Return (deny KAF_POLICY_GRANT_REQUIRED)
          | Some (resolution_active grantInput _) =>
              grant ← orThrow (CapabilityGrantSchema grantInput) ZodError;
              matches ← grantMatches grant input resources;
              if negb matches then Return (deny KAF_POLICY_GRANT_BINDING_MISMATCH)
              else Return (decide_by_risk config input)
          | Some resolution_binding_mismatch => Return (deny KAF_POLICY_GRANT_BINDING_MISMATCH)
          | Some _ => Return (deny KAF_POLICY_GRANT_REQUIRED)
          end
      end
  | _, _, _ => Return (deny KAF_POLICY_INVALID_INPUT)
  end.

(** The core port: what [createPolicyPreflightEngine] answers. *)
Inductive EngineDecision :=
| engine_deny (reasonCode : PolicyReasonCode)
| engine_decision (approvalRequired : bool) (normalizedResources : list ResourceScope)
    (normalizedTargetDigest : string).

Definition engine_evaluate (config : DeterministicPolicyConfig) (policyRegistrationDigest : string)
    (input : PolicyPreflightInput) (killSwitches : option KillSwitchRegistry)
  : outcome js_error EngineDecision :=
  let '(Build_PolicyPreflightInput wo tool _ args res ok net calls cost) := input in
  result ← evaluatePolicyPreflight config
    (Build_PolicyPreflightInput wo tool policyRegistrationDigest args res ok net calls cost)
    killSwitches;
  match result with
  | preflightDeny reasonCode => Return (engine_deny reasonCode)
  | preflightPass resources digest required => Return (engine_decision required resources digest)
  end.
End Policy.
