(* ===== verification/PolicyFacts.v ===== *)
(** * Properties of the policy

    An allowed operation satisfied every condition of the policy, and the
    conditions suffice; killed registrations are denied; the default
    configuration denies everything; the preflight engine and the evaluator
    agree; the kill-switch registry restores from its snapshot. *)

From S2P Require Import Prelude JsTime Errors Schema JsonValue Unicode Contracts WorkOrder Authorization.
From S2P Require Import Authority Canonicalization CanonicalizationFacts Policy.

Local Open Scope Z_scope.

(** The URL interface, as far as totality depends on it: what a URL prints
    parses again. *)
Class WebUrlLaws `{WebUrl} : Prop := {
  url_href_parses u : is_Some (new_URL (url_href u));
}.

Section Scopes.
Context `{Zod, Unicode, WebUrl, !WebUrlLaws}.

Lemma canonical_url_parses v u : canonicalizeUrl v = Return u -> is_Some (new_URL u).
Proof.
  unfold canonicalizeUrl. intros Hu. guards Hu. apply (inj Return) in Hu as <-.
  apply url_href_parses.
Qed.

(** Containment is decided: it throws for no pair of scopes. *)
Lemma isResourceWithinScope_total a b : exists r, isResourceWithinScope a b = Return r.
Proof.
  unfold isResourceWithinScope. case_bool_decide as Hk; cbn [negb]; [| eauto].
  destruct (canonicalizeResourceScope a) as [child |] eqn:Ha; [| eauto].
  destruct (canonicalizeResourceScope b) as [parent |] eqn:Hb; [| eauto].
  apply canonicalizeResourceScope_Return in Ha as (va & Ha & ->), Hb as (vb & Hb & ->).
  cbn [scope_kind scope_value]. unfold canonical_value in *. rewrite <-Hk in Hb.
  destruct (scope_kind a); eauto.
  apply canonical_url_parses in Ha as [ua Ha], Hb as [ub Hb].
  unfold url_within. rewrite Ha, Hb. cbn. eauto.
Qed.

Lemma some_scope_iff c ks :
  exists r, some_scope c ks = Return r /\
    (r = true <-> exists k, k ∈ ks /\ isResourceWithinScope c k = Return true).
Proof.
  induction ks as [| k ks (r & IH & Hr)]; cbn.
  { exists false. split; [done |]. split; [done | by intros (? & ?%not_elem_of_nil & _)]. }
  destruct (isResourceWithinScope_total c k) as [[|] Hk]; rewrite Hk; cbn.
  - exists true. split; [done |]. split; [| done]. intros _. exists k. split; [left | done].
  - exists r. split; [done |]. rewrite Hr. setoid_rewrite elem_of_cons. split.
    + intros (k' & ? & ?). eauto.
    + intros (k' & [-> | ?] & Hk'); [congruence | eauto].
Qed.

Lemma scopesAllowed_iff cs ks :
  exists r, scopesAllowed cs ks = Return r /\
    (r = true <-> forall c, c ∈ cs -> exists k, k ∈ ks /\ isResourceWithinScope c k = Return true).
Proof.
  induction cs as [| c cs (r & IH & Hr)]; cbn.
  { exists true. split; [done |]. split; [by intros _ ? ?%not_elem_of_nil | done]. }
  destruct (some_scope_iff c ks) as ([|] & Hc & Hs); rewrite Hc; cbn.
  - exists r. split; [done |]. rewrite Hr. setoid_rewrite elem_of_cons. split.
    + intros Hall c' [-> | Hin]; [by apply Hs | by apply Hall].
    + intros Hall c' Hin. apply Hall. by right.
  - exists false. split; [done |]. split; [done |]. intros Hall. apply Hs, Hall. left.
Qed.

Lemma canonicalize_all_Forall2 l k :
  canonicalize_all l = Return k <->
  Forall2 (fun r s => canonicalizeResourceScope r = Return s) l k.
Proof.
  revert k. induction l as [| r l IH]; cbn; intros k.
  - split; [by intros <-%(inj Return); constructor | by inversion 1].
  - destruct (canonicalizeResourceScope r) as [s |] eqn:Hs; cbn.
    + destruct (canonicalize_all l) as [others |] eqn:Ho; cbn.
      * split; [intros <-%(inj Return); constructor; [done | by apply IH] |].
        inversion 1 as [| ? ? ? k' Hc1 Hc2]; subst. rewrite Hs in Hc1. injection Hc1 as <-.
        apply IH in Hc2. congruence.
      * split; [done |]. inversion 1 as [| ? ? ? k' Hc1 Hc2]; subst. by apply IH in Hc2.
    + split; [done |]. inversion 1; subst. congruence.
Qed.
End Scopes.

Section Allowed.
Context `{Zod, Unicode, WebUrl, !WebUrlLaws}.
Context (digestOfResources : list ResourceScope -> string).

(** Every resource is covered by one of the ceilings. *)
Definition covered (resources ceilings : list ResourceScope) : Prop :=
  forall c, c ∈ resources -> exists k, k ∈ ceilings /\ isResourceWithinScope c k = Return true.

(** The conditions of the preflight, on the parsed input. *)
Record preflight_conditions (config : DeterministicPolicyConfig) (wo : AcceptedWorkOrder)
    (tool : ToolRegistrationContract) (input : PolicyPreflightInput)
    (killSwitches : option KillSwitchRegistry) (resources : list ResourceScope) : Prop := {
  pc_alive : registration_killed killSwitches wo tool (pf_policyRegistrationDigest input) = false;
  pc_purpose : exists p, p ∈ cfg_allowedPurposes config
    /\ purpose_code p = purpose_code (wo_purpose (wo_common wo))
    /\ purpose_registryVersion p = purpose_registryVersion (wo_purpose (wo_common wo));
  pc_data_enabled : wo_dataClass (wo_common wo) ∈ cfg_enabledDataClasses config;
  pc_data_tool : wo_dataClass (wo_common wo) ∈ ts_dataClasses (tool_security tool);
  pc_risk : ts_riskClass (tool_security tool)
    ∈ allowedToolRisksByWorkRisk config (wc_riskClass (wo_context (wo_common wo)));
  pc_schema : pf_schemaValidated input = true;
  pc_scopes_nonempty : ts_requiredScopes (tool_security tool) <> [];
  pc_scopes : forall scope, scope ∈ ts_requiredScopes (tool_security tool) ->
    scope ∈ wo_requestedCapabilities (wo_common wo);
  pc_canonical : Forall2 (fun r s => canonicalizeResourceScope r = Return s)
    (pf_resources input) resources;
  pc_resources_nonempty : resources <> [];
  pc_ceiling : covered resources (wo_resourceScopeCeiling (wo_common wo));
  pc_calls : pf_callsAlreadyUsed input < ts_maxCallsPerRun (tool_security tool);
  pc_cost : cost_exceeded (pf_requestedCost input) (ts_costCeiling (tool_security tool)) = false;
  pc_network : ts_networkEnforcement (tool_security tool) = network_required ->
    pf_networkPolicy input = network_enforced;
}.

Lemma purposeAllowed_iff config wo :
  purposeAllowed config wo = true <->
  exists p, p ∈ cfg_allowedPurposes config
    /\ purpose_code p = purpose_code (wo_purpose (wo_common wo))
    /\ purpose_registryVersion p = purpose_registryVersion (wo_purpose (wo_common wo)).
Proof.
  unfold purposeAllowed. rewrite existsb_exists. setoid_rewrite <-list_elem_of_In.
  setoid_rewrite andb_true_iff. setoid_rewrite bool_decide_eq_true. naive_solver.
Qed.

Lemma nonempty_true {A} (l : list A) : nonempty l = true <-> l <> [].
Proof. destruct l; naive_solver. Qed.

Lemma preflight_pass_iff config input ks resources digest required :
  evaluatePolicyPreflight digestOfResources config input ks
    = Return (preflightPass resources digest required) <->
  DeterministicPolicyConfigSchema config = true /\
  ToolRegistrationContractSchema (pf_tool input) = true /\
  exists wo, AcceptedWorkOrderSchema (pf_workOrder input) = Some wo
    /\ preflight_conditions config wo (pf_tool input) input ks resources
    /\ digest = digestOfResources resources
    /\ required = bool_decide (ts_riskClass (tool_security (pf_tool input)) = R4)
                  || bool_decide (ts_riskClass (tool_security (pf_tool input)) = R5).
Proof.
  unfold evaluatePolicyPreflight.
  destruct (DeterministicPolicyConfigSchema config); [| naive_solver].
  destruct (AcceptedWorkOrderSchema (pf_workOrder input)) as [wo |]; [| naive_solver].
  destruct (ToolRegistrationContractSchema (pf_tool input)); [| naive_solver].
  set (tool := pf_tool input). cbv zeta.
  destruct (registration_killed _ _ _ _) eqn:Hk.
  { split; [done |]. intros (_ & _ & ? & [= <-] & Hc & _). by rewrite (pc_alive _ _ _ _ _ _ Hc) in Hk. }
  destruct (purposeAllowed config wo) eqn:Hp; cbn [negb].
  2: { split; [done |]. intros (_ & _ & ? & [= <-] & Hc & _).
       apply (pc_purpose _ _ _ _ _ _), purposeAllowed_iff in Hc. congruence. }
  destruct (_ || _) eqn:Hd.
  { split; [done |]. intros (_ & _ & ? & [= <-] & Hc & _).
    exfalso. apply orb_true_iff in Hd as [Hd | Hd]; bools;
      [by apply Hd, (pc_data_enabled _ _ _ _ _ _ Hc) | by apply Hd, (pc_data_tool _ _ _ _ _ _ Hc)]. }
  destruct (bool_decide (ts_riskClass _ ∈ _)) eqn:Hrisk; cbn [negb].
  2: { split; [done |]. intros (_ & _ & ? & [= <-] & Hc & _).
       exfalso. bools. by apply Hrisk, (pc_risk _ _ _ _ _ _ Hc). }
  destruct (pf_schemaValidated input) eqn:Hsch; cbn [negb].
  2: { split; [done |]. intros (_ & _ & ? & [= <-] & Hc & _).
       by rewrite (pc_schema _ _ _ _ _ _ Hc) in Hsch. }
  destruct (negb (nonempty _) || _) eqn:Hcap.
  { split; [done |]. intros (_ & _ & ? & [= <-] & Hc & _).
    apply orb_true_iff in Hcap as [Hcap | Hcap]; apply negb_true_iff in Hcap.
    - pose proof (pc_scopes_nonempty _ _ _ _ _ _ Hc) as Hn. apply nonempty_true in Hn. congruence.
    - assert (all_of (fun scope => bool_decide (scope ∈ wo_requestedCapabilities (wo_common wo)))
        (ts_requiredScopes (tool_security tool)) = true) as Ha; [| congruence].
      apply all_of_spec. intros s Hs. apply bool_decide_eq_true. by apply (pc_scopes _ _ _ _ _ _ Hc). }
  destruct (canonicalize_all (pf_resources input)) as [rs |] eqn:Hrs.
  2: { split; [done |]. intros (_ & _ & ? & [= <-] & Hc & _).
       pose proof (pc_canonical _ _ _ _ _ _ Hc) as Hf. apply canonicalize_all_Forall2 in Hf. congruence. }
  destruct (scopesAllowed_iff rs (wo_resourceScopeCeiling (wo_common wo))) as (w & Hw & Hwr).
  rewrite Hw.
  assert ((if nonempty rs then Return w else Return false) = (Return (nonempty rs && w) : outcome js_error bool))
    as -> by (by destruct (nonempty rs)).
  cbn [mbind outcome_bind].
  destruct (nonempty rs && w) eqn:Hin; cbn [negb].
  2: { split; [done |]. intros (_ & _ & ? & [= <-] & Hc & _).
       pose proof (pc_canonical _ _ _ _ _ _ Hc) as Hf. apply canonicalize_all_Forall2 in Hf.
       assert (rs = resources) as -> by congruence.
       pose proof (pc_resources_nonempty _ _ _ _ _ _ Hc) as Hn%nonempty_true.
       rewrite Hn in Hin. cbn in Hin. subst w.
       by pose proof (proj2 Hwr (pc_ceiling _ _ _ _ _ _ Hc)). }
  apply andb_true_iff in Hin as [Hne Hwt].
  destruct (_ <=? _) eqn:Hcalls.
  { split; [done |]. intros (_ & _ & ? & [= <-] & Hc & _). bools.
    pose proof (pc_calls _ _ _ _ _ _ Hc). subst tool. lia. }
  destruct (cost_exceeded _ _) eqn:Hcost.
  { split; [done |]. intros (_ & _ & ? & [= <-] & Hc & _).
    by rewrite (pc_cost _ _ _ _ _ _ Hc) in Hcost. }
  destruct (bool_decide (ts_networkEnforcement _ = _) && _) eqn:Hnet.
  { split; [done |]. intros (_ & _ & ? & [= <-] & Hc & _). bools.
    exfalso. match goal with Hn : _ <> network_enforced |- _ => apply Hn end.
    by apply (pc_network _ _ _ _ _ _ Hc). }
  split.
  - intros Hres. injection Hres as <- <- <-. do 2 (split; [done |]). exists wo.
    split; [done |]. split; [| done]. apply orb_false_iff in Hd as [Hd1 Hd2].
    apply orb_false_iff in Hcap as [Hc1 Hc2]. apply negb_false_iff in Hc1, Hc2. bools. split; try done.
    + by apply purposeAllowed_iff.
    + by apply nonempty_true.
    + intros s Hs. rewrite all_of_spec in Hc2. apply Hc2 in Hs. by bools.
    + by apply canonicalize_all_Forall2.
    + by apply nonempty_true.
    + unfold covered. by apply Hwr.
    + intros Hn. apply andb_false_iff in Hnet as [Hf | Hf]; bools; congruence.
  - intros (_ & _ & ? & [= <-] & Hc & -> & ->).
    pose proof (pc_canonical _ _ _ _ _ _ Hc) as Hf. apply canonicalize_all_Forall2 in Hf.
    congruence.
Qed.

(** The conditions on the grant. *)
Record grant_conditions (grant : CapabilityGrant) (input : PolicyEvaluationInput)
    (resources : list ResourceScope) : Prop := {
  gc_tenant : tenant_id (gb_tenant (gr_binding grant))
    = tenant_id (wo_tenant (wo_common (in_workOrder input)));
  gc_principal_type : principal_type (gb_principal (gr_binding grant))
    = principal_type (wo_principal (wo_common (in_workOrder input)));
  gc_principal_id : principal_id (gb_principal (gr_binding grant))
    = principal_id (wo_principal (wo_common (in_workOrder input)));
  gc_workOrder : gb_workOrderId (gr_binding grant) = wo_id (wo_common (in_workOrder input));
  gc_workOrderDigest : gb_workOrderBindingDigest (gr_binding grant)
    = wo_workOrderBindingDigest (wo_common (in_workOrder input));
  gc_definition : gb_executionDefinitionDigest (gr_binding grant)
    = wo_executionDefinitionDigest (in_workOrder input);
  gc_tool : gb_toolId (gr_binding grant) = tool_id (in_tool input);
  gc_toolDigest : gb_toolRegistrationDigest (gr_binding grant)
    = tool_toolRegistrationDigest (in_tool input);
  gc_policy : gb_policyRegistrationDigest (gr_binding grant) = in_policyRegistrationDigest input;
  gc_action : gb_action (gr_binding grant) = expected_action (in_tool input);
  gc_purpose : purpose_code (gb_purpose (gr_binding grant))
    = purpose_code (wo_purpose (wo_common (in_workOrder input)));
  gc_purpose_version : purpose_registryVersion (gb_purpose (gr_binding grant))
    = purpose_registryVersion (wo_purpose (wo_common (in_workOrder input)));
  gc_capability : gb_capability (gr_binding grant)
    ∈ ts_requiredScopes (tool_security (in_tool input));
  gc_resources : covered resources (gb_normalizedResources (gr_binding grant));
}.

Lemma grantMatches_iff grant input resources :
  exists r, grantMatches grant input resources = Return r /\
    (r = true <-> grant_conditions grant input resources).
Proof.
  unfold grantMatches. cbv zeta. destruct (_ && _) eqn:Hb.
  - destruct (scopesAllowed_iff resources (gb_normalizedResources (gr_binding grant))) as (r & Hr & Hi).
    exists r. split; [done |]. bools. split.
    + intros Ht. split; try done. unfold covered. by apply Hi.
    + intros Hc. apply Hi, (gc_resources _ _ _ Hc).
  - exists false. split; [done |]. split; [done |]. intros [].
    rewrite !bool_decide_eq_true_2 in Hb by done. done.
Qed.

(** What a decision still needs after the grant. *)
Definition risk_conditions (config : DeterministicPolicyConfig) (input : PolicyEvaluationInput)
  : Prop :=
  let tool := in_tool input in
  let write_previewed := is_Some (in_previewDigest input)
    /\ is_Some (tool_previewStrategyRegistrationDigest tool)
    /\ tool_effectStrategyKind tool <> tool_read in
  let approved (strength : AuthenticationStrength -> Prop) (fresh : string -> Prop) :=
    exists approval, in_approval input = Some approval /\ approvalMatches approval input = true
      /\ strength (ap_authenticationStrength approval) /\ fresh (ap_createdAt approval) in
  match ts_riskClass (tool_security tool) with
  | R0 | R1 | R2 => True
  | R3 => write_previewed /\ ts_reversibility (tool_security tool) = compensatable
          /\ is_Some (tool_compensationStrategyRegistrationDigest tool)
  | R4 => write_previewed /\
          approved (fun s => s = phishing_resistant \/ s = user_presence) (fun _ => True)
  | R5 => write_previewed /\ cfg_enableR5 config = true /\
          approved (fun s => s = user_presence)
            (fun createdAt => older_than (in_evaluatedAt input) createdAt
               (cfg_r5ApprovalMaxAgeMs config) = false)
  end.

Lemma decide_by_risk_allow config input :
  decide_by_risk config input = allow <-> risk_conditions config input.
Proof.
  unfold decide_by_risk, risk_conditions, hasWriteStrategy. cbv zeta.
  destruct (ts_riskClass (tool_security (in_tool input))) eqn:Hr;
    try (rewrite bool_decide_eq_true_2 by set_solver; done).
  all: rewrite ?(bool_decide_eq_false_2 (_ ∈ _)) by set_solver.
  all: destruct (in_previewDigest input) as [pd |]; cbn; [| split; [done | naive_solver]].
  all: destruct (tool_previewStrategyRegistrationDigest (in_tool input)) as [ps |]; cbn;
    [| split; [done | intros ((_ & [? [=]] & _) & _)]].
  all: destruct (decide (tool_effectStrategyKind (in_tool input) = tool_read)) as [Hread | Hread];
    [rewrite !bool_decide_eq_true_2 by done; cbn; split; [done | intros ((_ & _ & ?) & _); done]
    | rewrite (bool_decide_eq_false_2 (_ = tool_read)) by done; cbn].
  - destruct (bool_decide (ts_reversibility _ = _)) eqn:Hrev; cbn; bools;
      [| split; [done | intros (_ & ? & _); done]].
    destruct (tool_compensationStrategyRegistrationDigest _); cbn;
      [| split; [done | intros (_ & _ & [? [=]])]].
    split; [intros _; eauto 10 | done].
  - destruct (in_approval input) as [a |]; [| split; [done | intros (_ & ? & [=] & _)]].
    destruct (approvalMatches a input) eqn:Ha; cbn;
      [| split; [done | intros (_ & ? & [= <-] & ? & _); congruence]].
    destruct (ap_authenticationStrength a) eqn:Hs; cbn;
      (split; [try done; intros _ | try done]); try (split; [by eauto |]; exists a; rewrite Hs; by auto).
    all: intros (_ & ? & [= <-] & _ & [?|?] & _); congruence.
  - destruct (cfg_enableR5 config); cbn; [| split; [done | intros (_ & [=] & _)]].
    destruct (in_approval input) as [a |]; [| split; [done | intros (_ & _ & ? & [=] & _)]].
    destruct (approvalMatches a input) eqn:Ha; cbn;
      [| split; [done | intros (_ & _ & ? & [= <-] & ? & _); congruence]].
    destruct (bool_decide (ap_authenticationStrength a = _)) eqn:Hs; cbn; bools;
      [| split; [done | intros (_ & _ & ? & [= <-] & _ & ? & _); congruence]].
    destruct (older_than _ _ _) eqn:Ho; cbn.
    + split; [done |]. intros (_ & _ & ? & [= <-] & _ & _ & ?). congruence.
    + split; [| done]. intros _. split; [by eauto |]. split; [done |]. by exists a.
Qed.

(** C10: default deny.  The evaluator allows an operation exactly when the
    configuration, work order and tool are well formed and every condition
    holds: no registration involved is killed; the purpose, data class, risk,
    capabilities and network policy are admitted; every resource has a canonical
    form within the work order's ceiling and within an active grant bound to
    this tenant, principal, work order, tool, policy and purpose; the call and
    cost budgets are not used up; and, by risk class, the write is previewed and
    compensatable or carries a matching, strong and fresh approval. *)
Theorem evaluatePolicy_allow_iff config input ks :
  evaluatePolicy digestOfResources config input ks = Return allow <->
  DeterministicPolicyConfigSchema config = true /\
  ToolRegistrationContractSchema (in_tool input) = true /\
  exists wo wo' rawGrant uses grant resources,
    AcceptedWorkOrderSchema (in_workOrder input) = Some wo
    /\ AcceptedWorkOrderSchema wo = Some wo'
    /\ preflight_conditions config wo' (in_tool input)
         (preflight_input input wo (in_tool input)) ks resources
    /\ in_grantResolution input = Some (resolution_active rawGrant uses)
    /\ CapabilityGrantSchema rawGrant = Some grant
    /\ grant_conditions grant (with_parsed input wo (in_tool input)) resources
    /\ risk_conditions config (with_parsed input wo (in_tool input)).
Proof.
  unfold evaluatePolicy.
  destruct (DeterministicPolicyConfigSchema config) eqn:Hcfg; [| naive_solver].
  destruct (AcceptedWorkOrderSchema (in_workOrder input)) as [wo |]; [| naive_solver].
  destruct (ToolRegistrationContractSchema (in_tool input)) eqn:Htool; [| naive_solver].
  cbv zeta. set (i := with_parsed input wo (in_tool input)).
  assert (preflight_input i wo (in_tool input) = preflight_input input wo (in_tool input)) as ->
    by (by destruct input).
  assert (in_grantResolution i = in_grantResolution input) as -> by (by destruct input).
  destruct (evaluatePolicyPreflight _ _ _ _) as [[code | resources digest req] |] eqn:Hpre; cbn.
  1, 3: split; [done |]; intros (_ & _ & ? & wo' & g & u & gr & rs & [= <-] & Hwo & Hc & _);
    assert (evaluatePolicyPreflight digestOfResources config
      (preflight_input input wo (in_tool input)) ks
      = Return (preflightPass rs (digestOfResources rs)
         (bool_decide (ts_riskClass (tool_security (in_tool input)) = R4)
          || bool_decide (ts_riskClass (tool_security (in_tool input)) = R5)))) as Hp
      by (apply preflight_pass_iff; split_and!; [done | done | exists wo'; by split_and!]);
    congruence.
  apply preflight_pass_iff in Hpre as (_ & _ & wo' & Hwo & Hc & _ & _). cbn [pf_workOrder preflight_input] in Hwo.
  destruct (in_grantResolution input) as [[g u | | | | |] |];
    try (split; [done | intros (_ & _ & ? & ? & ? & ? & ? & ? & _ & _ & _ & [=] & _)]).
  assert (forall rs, preflight_conditions config wo' (in_tool input)
    (preflight_input input wo (in_tool input)) ks rs -> rs = resources) as Huniq.
  { intros rs Hrs. pose proof (pc_canonical _ _ _ _ _ _ Hc) as Hf.
    pose proof (pc_canonical _ _ _ _ _ _ Hrs) as Hf'. apply canonicalize_all_Forall2 in Hf, Hf'. congruence. }
  destruct (CapabilityGrantSchema g) as [grant |] eqn:Hg; cbn;
    [| split; [done | intros (_ & _ & ? & ? & ? & ? & ? & ? & _ & _ & _ & [= <- <-] & ? & _); congruence]].
  destruct (grantMatches_iff grant i resources) as (r & Hr & Hgc). rewrite Hr. cbn.
  destruct r; cbn.
  - rewrite (inj_iff Return), decide_by_risk_allow. split.
    + intros Hrisk. do 2 (split; [done |]). exists wo, wo', g, u, grant, resources.
      split_and!; try done. by apply Hgc.
    + by intros (_ & _ & ? & ? & ? & ? & ? & ? & [= <-] & _ & _ & _ & _ & _ & ?).
  - split; [done |]. intros (_ & _ & ? & wo'' & ? & ? & ? & rs & [= <-] & Hwo' & Hrs & [= <- <-] & Hg' & Hgr & _).
    assert (wo'' = wo') as -> by congruence. apply Huniq in Hrs as ->.
    rewrite Hg in Hg'. injection Hg' as <-. by apply Hgc in Hgr.
Qed.
End Allowed.

Section Denied.
Context `{Zod, Unicode, WebUrl, !WebUrlLaws}.
Context (digestOfResources : list ResourceScope -> string).

Lemma preflight_total config input ks :
  exists r, evaluatePolicyPreflight digestOfResources config input ks = Return r.
Proof.
  unfold evaluatePolicyPreflight. cbv zeta.
  destruct (if DeterministicPolicyConfigSchema config then _ else _); [| eauto].
  destruct (AcceptedWorkOrderSchema _) as [wo |]; [| eauto].
  destruct (if ToolRegistrationContractSchema _ then _ else _); [| eauto].
  repeat match goal with |- exists _, (if ?b then _ else _) = _ => destruct b; [eauto |] end.
  destruct (canonicalize_all _) as [rs |]; [| eauto].
  destruct (scopesAllowed_iff rs (wo_resourceScopeCeiling (wo_common wo))) as (w & -> & _).
  destruct (nonempty rs); cbn;
  repeat match goal with |- exists _, (if ?b then _ else _) = _ => destruct b; [eauto |] end; eauto.
Qed.

(** An emergency stop stops.  When the tool, the policy or any model or
    compensation registration of the (parsed) work order is killed, the
    evaluator denies, whatever grant or approval is presented. *)
Theorem killed_is_denied config input r wo wo' :
  AcceptedWorkOrderSchema (in_workOrder input) = Some wo -> AcceptedWorkOrderSchema wo = Some wo' ->
  registration_killed (Some r) wo' (in_tool input) (in_policyRegistrationDigest input) = true ->
  exists code, evaluatePolicy digestOfResources config input (Some r) = Return (deny code)
    /\ code ∈ [KAF_POLICY_REGISTRATION_KILLED; KAF_POLICY_INVALID_INPUT].
Proof.
  intros Hwo Hwo' Hk. unfold evaluatePolicy. rewrite Hwo.
  destruct (DeterministicPolicyConfigSchema config) eqn:Hc; [| eexists; split; [done | set_solver]].
  destruct (ToolRegistrationContractSchema (in_tool input)) eqn:Ht; [| eexists; split; [done | set_solver]].
  cbv zeta. destruct input. cbn in *. unfold evaluatePolicyPreflight. cbn. rewrite Hwo', Hc, Ht. cbn.
  rewrite Hk. cbn. eexists. split; [done | set_solver].
Qed.

(** The evaluator and the runtime's preflight engine agree: what the engine
    denies the evaluator denies with the same reason, and what the evaluator
    allows or offers for approval the engine does not deny. *)
Theorem engine_agrees config input ks wo :
  AcceptedWorkOrderSchema (in_workOrder input) = Some wo ->
  DeterministicPolicyConfigSchema config = true ->
  ToolRegistrationContractSchema (in_tool input) = true ->
  exists e, engine_evaluate digestOfResources config (in_policyRegistrationDigest input)
      (preflight_input input wo (in_tool input)) ks = Return e /\
    (forall code, e = engine_deny code ->
       evaluatePolicy digestOfResources config input ks = Return (deny code)) /\
    (forall d, evaluatePolicy digestOfResources config input ks = Return d ->
       (forall code, d <> deny code) -> exists resources digest,
         e = engine_decision (bool_decide (ts_riskClass (tool_security (in_tool input)) = R4)
                              || bool_decide (ts_riskClass (tool_security (in_tool input)) = R5))
               resources digest).
Proof.
  intros Hwo Hc Ht.
  assert (engine_evaluate digestOfResources config (in_policyRegistrationDigest input)
    (preflight_input input wo (in_tool input)) ks
    = (result ← evaluatePolicyPreflight digestOfResources config
        (preflight_input input wo (in_tool input)) ks;
       match result with
       | preflightDeny reasonCode => Return (engine_deny reasonCode)
       | preflightPass resources digest required => Return (engine_decision required resources digest)
       end)) as He by (by destruct input).
  assert (evaluatePolicy digestOfResources config input ks
    = (preflight ← evaluatePolicyPreflight digestOfResources config
         (preflight_input input wo (in_tool input)) ks;
       match preflight with
       | preflightDeny code => Return (deny code)
       | preflightPass resources _ _ =>
           match in_grantResolution input with
           | None => Return (deny KAF_POLICY_GRANT_REQUIRED)
           | Some (resolution_active grantInput _) =>
               grant ← orThrow (CapabilityGrantSchema grantInput) ZodError;
               matches ← grantMatches grant (with_parsed input wo (in_tool input)) resources;
               if negb matches then Return (deny KAF_POLICY_GRANT_BINDING_MISMATCH)
               else Return (decide_by_risk config (with_parsed input wo (in_tool input)))
           | Some resolution_binding_mismatch => Return (deny KAF_POLICY_GRANT_BINDING_MISMATCH)
           | Some _ => Return (deny KAF_POLICY_GRANT_REQUIRED)
           end
       end)) as Hev.
  { unfold evaluatePolicy. rewrite Hwo, Hc, Ht. by destruct input. }
  rewrite He, Hev. destruct (preflight_total config (preflight_input input wo (in_tool input)) ks) as [r Hr].
  rewrite Hr. cbn [mbind outcome_bind]. destruct r as [code | resources digest required]; cbn [mbind outcome_bind].
  - eexists. split; [done |]. split; [by intros ? [= <-] |].
    intros d Hd Hno. apply (inj Return) in Hd as <-. by destruct (Hno code).
  - eexists. split; [done |]. split; [done |]. intros d _ _. exists resources, digest.
    apply preflight_pass_iff in Hr as (_ & _ & ? & _ & _ & _ & ->). done.
Qed.

(** The shipped configuration admits no purpose, so it denies every request. *)
Theorem default_policy_denies input ks :
  exists code, evaluatePolicy digestOfResources DEFAULT_POLICY_CONFIG input ks = Return (deny code)
    /\ code <> KAF_POLICY_ALLOWED.
Proof.
  unfold evaluatePolicy. change (DeterministicPolicyConfigSchema DEFAULT_POLICY_CONFIG) with true.
  cbv iota.
  destruct (AcceptedWorkOrderSchema (in_workOrder input)) as [wo |]; [| by eexists].
  destruct (ToolRegistrationContractSchema (in_tool input)) eqn:Ht; [| by eexists].
  cbv zeta. destruct input. cbn in *. unfold evaluatePolicyPreflight.
  change (DeterministicPolicyConfigSchema DEFAULT_POLICY_CONFIG) with true. cbn. rewrite Ht.
  destruct (AcceptedWorkOrderSchema wo) as [wo' |]; [| by eexists]. cbn.
  destruct (registration_killed _ _ _ _); by eexists.
Qed.
End Denied.

(** ** The kill-switch registry *)

Section Registry.
Context `{Zod}.

Lemma key_inj k d k' d' : key k d = key k' d' -> k = k' /\ d = d'.
Proof. destruct k, k'; intros Hk; cbv in Hk; simplify_eq; auto. Qed.

Inductive ks_step (r r' : KillSwitchRegistry) : Prop :=
| step_activate k d code by_ at_ o : activate k d code by_ at_ r = (o, r') -> ks_step r r'
| step_deactivate k d o : deactivate k d r = (o, r') -> ks_step r r'.

Definition empty_registry : KillSwitchRegistry := {| kr_version := 0; kr_active := ∅ |}.

(** Every entry is valid and sits at its own key. *)
Definition ks_wf (r : KillSwitchRegistry) : Prop :=
  0 <= kr_version r /\
  map_Forall (fun i e => i = key (ks_targetKind e) (ks_targetDigest e)
                         /\ KillSwitchEntrySchema e = true) (kr_active r).

Lemma activate_effect k d code by_ at_ r o r' :
  activate k d code by_ at_ r = (o, r') ->
  (r' = r /\ exists err, o = Throw err) \/
  exists e, o = Return e /\ KillSwitchEntrySchema e = true
    /\ ks_targetKind e = k /\ ks_targetDigest e = d
    /\ r' = {| kr_version := kr_version r + 1; kr_active := <[key k d := e]> (kr_active r) |}.
Proof.
  unfold activate, mthen, mget, mput, mlift, mreturn, parse.
  destruct (KillSwitchEntrySchema _) eqn:He; intros [= <- <-]; [right | left; eauto].
  eexists. by split_and!.
Qed.

Lemma ks_step_wf r r' : ks_wf r -> ks_step r r' -> ks_wf r'.
Proof.
  intros [Hv Hwf] [k d code by_ at_ o Ha%activate_effect | k d o Hd].
  - destruct Ha as [[-> _] | (e & _ & He & <- & <- & ->)]; [by split |]. split; cbn; [lia |].
    by apply map_Forall_insert_2.
  - revert Hd. unfold deactivate, mthen, mget, mput, mreturn.
    destruct (kr_active r !! key k d); intros [= <- <-]; [| by split].
    split; cbn; [lia |]. by apply map_Forall_delete.
Qed.

(** The registry is exactly the set of activations not yet taken back: an
    activation that returns kills its target and no other, a deactivation
    revives its target and no other and says whether it was killed, each change
    raises the version by one, and an activation that throws changes nothing. *)
Theorem kill_switch_semantics r k d code by_ at_ :
  (let '(o, r') := activate k d code by_ at_ r in
   if isReturn o
   then kr_version r' = kr_version r + 1 /\ forall k' d',
          isKilled k' d' r' = bool_decide ((k', d') = (k, d)) || isKilled k' d' r
   else r' = r) /\
  (let '(o, r') := deactivate k d r in
   o = Return (isKilled k d r) /\
   kr_version r' = kr_version r + (if isKilled k d r then 1 else 0) /\
   forall k' d', isKilled k' d' r' = negb (bool_decide ((k', d') = (k, d))) && isKilled k' d' r).
Proof.
  assert (forall k' d', (k', d') <> (k, d) -> key k d <> key k' d') as Hne.
  { intros k' d' Hn Hk. apply Hn. apply key_inj in Hk as [-> ->]. done. }
  split.
  - destruct (activate k d code by_ at_ r) as [o r'] eqn:Ha. apply activate_effect in Ha.
    destruct Ha as [[-> [err ->]] | (e & -> & _ & _ & _ & ->)]; cbn; [done |].
    split; [done |]. intros k' d'. unfold isKilled. cbn.
    destruct (bool_decide ((k', d') = (k, d))) eqn:Heq; cbn; bools.
    + injection Heq as -> ->. rewrite lookup_insert_eq. by apply bool_decide_eq_true_2.
    + by rewrite lookup_insert_ne by (by apply Hne).
  - unfold deactivate, mthen, mget, mput, mreturn, isKilled.
    destruct (kr_active r !! key k d) as [e |] eqn:Hl; cbn.
    + do 2 (split; [done |]). intros k' d'.
      destruct (decide ((k', d') = (k, d))) as [Heq | Hn].
      * injection Heq as -> ->. rewrite lookup_delete_eq, (bool_decide_eq_true_2 ((k, d) = (k, d))) by done.
        done.
      * rewrite (bool_decide_eq_false_2 _ Hn), lookup_delete_ne by (by apply Hne). done.
    + split; [done |]. split; [lia |]. intros k' d'.
      destruct (decide ((k', d') = (k, d))) as [Heq | Hn].
      * injection Heq as -> ->. rewrite Hl. by rewrite andb_false_r.
      * by rewrite (bool_decide_eq_false_2 _ Hn).
Qed.

Lemma insert_entry_Permutation e l : insert_entry e l ≡ₚ e :: l.
Proof.
  induction l as [| x l IH]; cbn; [done |]. destruct (String.compare _ _); try done.
  rewrite IH. apply Permutation_swap.
Qed.

Lemma sort_entries_Permutation l : foldr insert_entry [] l ≡ₚ l.
Proof. induction l as [| e l IH]; cbn; [done |]. by rewrite insert_entry_Permutation, IH. Qed.

Definition entry_key (e : KillSwitchEntry) : string := key (ks_targetKind e) (ks_targetDigest e).

Lemma fold_set_entry l m :
  NoDup (map entry_key l) ->
  (forall e, e ∈ l -> fold_left (fun m e => set_entry e m) l m !! entry_key e = Some e) /\
  (forall i, i ∉ map entry_key l -> fold_left (fun m e => set_entry e m) l m !! i = m !! i).
Proof.
  revert m. induction l as [| e l IH]; intros m; cbn.
  { intros _. split; [by intros ? ?%not_elem_of_nil | done]. }
  intros [Hno Hnd]%list.NoDup_cons. destruct (IH (set_entry e m) Hnd) as [Hin Hout]. split.
  - intros e' [-> | He']%elem_of_cons; [| by apply Hin].
    rewrite Hout by done. apply lookup_insert_eq.
  - intros i Hi. apply not_elem_of_cons in Hi as [Hie Hil]. rewrite Hout by done.
    apply lookup_insert_ne. unfold entry_key in Hie. congruence.
Qed.

(** A snapshot restores the registry it was taken of: version, entries and
    so every answer of [isKilled], for any registry built by activations and
    deactivations whose version is a safe integer. *)
Theorem snapshot_restores r :
  steps ks_step empty_registry r -> kr_version r <= MAX_SAFE_INTEGER ->
  createKillSwitchRegistry (Some (snapshot r)) = Return r.
Proof.
  intros Hs Hmax. assert (ks_wf r) as [Hv Hwf].
  { revert Hs. apply steps_invariant; [apply ks_step_wf |]. split; [done |]. apply map_Forall_empty. }
  set (l := kss_entries (snapshot r)).
  assert (l ≡ₚ map snd (map_to_list (kr_active r))) as Hl by apply sort_entries_Permutation.
  assert (forall e, e ∈ l <-> kr_active r !! entry_key e = Some e) as Hel.
  { intros e. rewrite Hl. rewrite list_elem_of_fmap. split.
    - intros ([i e'] & -> & Hi%elem_of_map_to_list). destruct (Hwf _ _ Hi) as [Hk _].
      cbn. unfold entry_key. by rewrite <-Hk.
    - intros He%elem_of_map_to_list. by exists (entry_key e, e). }
  assert (KillSwitchSnapshotSchema (snapshot r) = true) as Hok.
  { unfold KillSwitchSnapshotSchema. apply andb_true_iff. split.
    - unfold int_nonnegative. apply andb_true_iff. rewrite is_safe_integer_spec, Z.leb_le. cbn.
      unfold MAX_SAFE_INTEGER in *. lia.
    - apply all_of_spec. intros e He%Hel. by apply (Hwf _ _ He). }
  unfold createKillSwitchRegistry, parse. rewrite Hok. cbn [mbind outcome_bind].
  f_equal. destruct r as [v active]. f_equal. cbn [kr_active] in *.
  assert (NoDup (map entry_key l)) as Hnd.
  { assert (map entry_key l ≡ₚ map fst (map_to_list active)) as ->; [| apply NoDup_fst_map_to_list].
    rewrite Hl. change (entry_key <$> (snd <$> map_to_list active) ≡ₚ fst <$> map_to_list active).
    rewrite <-list_fmap_compose. apply Permutation_refl'.
    apply list_fmap_ext. intros n [i e] Hi%list_elem_of_lookup_2%elem_of_map_to_list.
    destruct (Hwf _ _ Hi) as [Hk _]. by cbn. }
  destruct (fold_set_entry l ∅ Hnd) as [Hin Hout]. fold l.
  apply map_eq. intros i. destruct (active !! i) as [e |] eqn:Hi.
  - destruct (Hwf _ _ Hi) as [Hk _]. assert (i = entry_key e) as -> by done. apply Hin. by apply Hel.
  - rewrite Hout, lookup_empty; [done |].
    change (i ∉ entry_key <$> l). rewrite list_elem_of_fmap. intros (e & -> & He%Hel). congruence.
Qed.
End Registry.
