(* ===== verification/PolicyExamples.v ===== *)
(** * Examples of the policy

    A work order, a tool, a grant and an approval at which the properties of
    canonical resources, of the policy and of the kill switches apply. *)

From S2P Require Import Prelude JsTime Errors Schema JsonValue Unicode Contracts WorkOrder Authorization.
From S2P Require Import Authority Canonicalization CanonicalizationFacts Policy PolicyFacts.

Local Open Scope Z_scope.

#[local] Existing Instance zod_reference.
#[local] Existing Instance unicode_ascii.
#[local] Existing Instance unicode_ascii_laws.

(** A URL class for plain https URLs: a host and a path. *)
Definition plain_url (s : jsstring) : option (jsstring * jsstring) :=
  if starts_with (js "https://") s then
    let rest := drop 8 s in
    match break_at slash rest with
    | Some (host, path) => Some (host, slash :: path)
    | None => Some (rest, [slash])
    end
  else None.

#[local] Instance url_reference : WebUrl := {|
  URL := jsstring * jsstring;
  new_URL := plain_url;
  url_protocol _ := js "https:"; url_username _ := []; url_password _ := [];
  url_hostname u := u.1; url_port _ := []; url_pathname u := u.2; url_search _ := [];
  url_hash _ := []; url_origin u := js "https://" ++ u.1;
  url_href u := js "https://" ++ u.1 ++ u.2;
  url_set_hostname u h := (h, u.2); url_set_pathname u p := (u.1, p); url_sort_search u := u;
|}.

#[local] Instance url_reference_laws : WebUrlLaws.
Proof.
  split. intros [host path]. change (is_Some (plain_url (js "https://" ++ host ++ path))).
  unfold plain_url.
  assert (starts_with (js "https://") (js "https://" ++ host ++ path) = true) as ->.
  { apply starts_with_spec. by exists (host ++ path). }
  destruct (break_at slash _) as [[a b] |]; eauto.
Defined.

(** ** Resources *)

Definition path_scope (v : string) : ResourceScope :=
  {| scope_kind := scope_path; scope_value := js v; scope_normalizationVersion := "1" |}.

Lemma example_path : canonicalizeResourcePath (js "reports/%32%30/q1") = Return (js "reports/20/q1").
Proof. vm_compute. reflexivity. Qed.

Lemma canonical_path_shape_witness :
  exists segs, segs <> [] /\ Forall clean_segment segs /\ js "reports/20/q1" = join slash segs.
Proof.
  destruct (canonical_path_shape _ _ example_path) as (segs & Hne & Hall & Hj & _).
  exists segs. split; [exact Hne | split; [exact Hall | exact Hj]].
Defined.

Lemma path_within_scope_iff_witness :
  isResourceWithinScope (path_scope "reports/q1") (path_scope "reports") = Return true
  /\ isResourceWithinScope (path_scope "reports-old/q1") (path_scope "reports") = Return false
  /\ exists child parent,
    canonicalizeResourcePath (js "reports/q1") = Return child
    /\ canonicalizeResourcePath (js "reports") = Return parent
    /\ split slash parent `prefix_of` split slash child.
Proof.
  assert (isResourceWithinScope (path_scope "reports/q1") (path_scope "reports") = Return true) as Hw
    by (vm_compute; reflexivity).
  split; [exact Hw |]. split; [vm_compute; reflexivity |].
  exact (proj1 (path_within_scope_iff (path_scope "reports/q1") (path_scope "reports") eq_refl eq_refl) Hw).
Defined.

Lemma containment_transitive_witness :
  isResourceWithinScope (path_scope "a/b/c") (path_scope "a") = Return true.
Proof.
  assert (isResourceWithinScope (path_scope "a/b/c") (path_scope "a/b") = Return true) as H1
    by (vm_compute; reflexivity).
  assert (isResourceWithinScope (path_scope "a/b") (path_scope "a") = Return true) as H2
    by (vm_compute; reflexivity).
  exact (containment_transitive _ _ _ H1 H2).
Defined.

Example confined :
  assertResolvedPathWithinRoot (js "/srv/data") (js "/srv/data/a") = Return tt
  /\ isReturn (assertResolvedPathWithinRoot (js "/srv/data") (js "/srv/data-old")) = false
  /\ assertResolvedPathWithinRoot (js "C:\work") (js "c:/work/x") = Return tt.
Proof. vm_compute. auto. Qed.

Lemma canonical_host_public_witness :
  canonicalizeHost (js "Example.COM") = Return (js "example.com")
  /\ isReturn (canonicalizeHost (js "169.254.169.254")) = false
  /\ exists url name, name = bare_host (url_hostname url) /\ name <> js "localhost".
Proof.
  assert (canonicalizeHost (js "Example.COM") = Return (js "example.com")) as Hh
    by (vm_compute; reflexivity).
  split; [exact Hh |]. split; [vm_compute; reflexivity |].
  destruct (canonical_host_public _ _ Hh) as (url & name & Hn & _ & Hl & _).
  exists url, name. split; [exact Hn | exact Hl].
Defined.

Lemma uncanonical_kind_denied_witness :
  isResourceWithinScope
    {| scope_kind := scope_dataset; scope_value := js "d"; scope_normalizationVersion := "1" |}
    {| scope_kind := scope_dataset; scope_value := js "d"; scope_normalizationVersion := "1" |}
  = Return false.
Proof. apply uncanonical_kind_denied. left. Defined.

Lemma encoded_drive_accepted_witness :
  canonicalizeResourcePath (js "C%3A/Windows") = Return (js "C:/Windows")
  /\ isReturn (canonicalizeResourcePath (js "C:/Windows")) = false.
Proof. exact encoded_drive_accepted. Defined.

(** ** A request *)

Definition some_budget : WorkBudget :=
  Build_WorkBudget 4 4 4 60000 None None None None None None None None None None None None None.

Definition example_purpose : Purpose :=
  {| purpose_code := "support"; purpose_registryVersion := "1" |}.

Definition example_principal : Principal :=
  {| principal_type := user; principal_id := "ada" |}.

Definition example_work_order : AcceptedWorkOrder := {|
  wo_common := {|
    wo_id := "wo-1"; wo_createdAt := "2026-09-04T10:00:00.000Z"; wo_goal := "Reply";
    wo_input := Jnull;
    wo_context := {| wc_roleFamily := "support"; wc_workflowId := "w"; wc_riskClass := risk_high |};
    wo_workMode := mode_assist; wo_autonomyMode := autonomy_delegate_review;
    wo_decisionOwner := owner_registered_role "lead"; wo_purpose := example_purpose;
    wo_dataClass := data_internal; wo_retention := retain_session;
    wo_principal := example_principal; wo_tenant := {| tenant_id := "tenant-1" |};
    wo_requestedCapabilities := ["mail.send"]; wo_resourceScopeCeiling := [path_scope "outbox"];
    wo_budget := some_budget; wo_workflowContext := None; wo_correlationId := None;
    wo_deadline := None; wo_region := None; wo_jurisdiction := None;
    wo_workOrderBindingDigest := example_digest |};
  wo_executionDefinitionDigest := example_digest;
  wo_kind := agent_work_order {| ad_id := "agent"; ad_version := "1.0.0";
                                 ad_agentDefinitionDigest := example_digest |}
               example_digest example_digest example_digest;
|}.

Definition example_tool : ToolRegistrationContract := {|
  tool_id := "mail.send@1"; tool_implementationVersion := "1"; tool_description := "Sends mail";
  tool_inputSchemaDigest := example_digest; tool_outputSchemaDigest := example_digest;
  tool_security := {| ts_riskClass := R4; ts_dataClasses := [data_internal];
    ts_reversibility := irreversible; ts_requiredScopes := ["mail.send"]; ts_egress := egress_none;
    ts_networkEnforcement := network_declared_ok; ts_maxCallsPerRun := 1; ts_timeoutMs := 1000;
    ts_costCeiling := None |};
  tool_previewStrategyRegistrationDigest := Some example_digest;
  tool_effectStrategyKind := tool_native; tool_effectStrategyRegistrationDigest := example_digest;
  tool_compensationStrategyRegistrationDigest := None; tool_executorKind := "in_process";
  tool_executorVersion := "1"; tool_toolRegistrationDigest := example_digest;
|}.

Definition example_config : DeterministicPolicyConfig :=
  {| cfg_id := "policy"; cfg_implementationVersion := "1"; cfg_allowedPurposes := [example_purpose];
     cfg_risks_low := [R0]; cfg_risks_medium := [R0]; cfg_risks_high := [R0; R4];
     cfg_risks_critical := [R0]; cfg_enabledDataClasses := [data_internal]; cfg_enableR5 := false;
     cfg_r5ApprovalMaxAgeMs := 1000 |}.

Definition example_binding : CapabilityGrantBinding :=
  {| gb_issuerId := "issuer"; gb_principal := example_principal;
     gb_tenant := {| tenant_id := "tenant-1" |}; gb_workOrderId := "wo-1";
     gb_workOrderBindingDigest := example_digest; gb_executionDefinition := example_agent;
     gb_executionDefinitionDigest := example_digest; gb_capability := "mail.send";
     gb_action := "write"; gb_toolId := "mail.send@1"; gb_toolVersion := "1";
     gb_toolRegistrationDigest := example_digest;
     gb_normalizedResources := [path_scope "outbox/today"]; gb_purpose := example_purpose;
     gb_policyRegistrationDigest := example_digest |}.

Definition example_grant : CapabilityGrant :=
  {| gr_id := "grant-1"; gr_binding := example_binding; gr_maximumUses := 2;
     gr_issuedAt := "2026-09-04T10:00:00.000Z"; gr_expiresAt := "2026-09-04T11:00:00.000Z";
     gr_revokedAt := None |}.

Definition example_approval : Approval :=
  {| ap_id := "approval-1"; ap_issuerId := "issuer"; ap_challengeId := "challenge-1";
     ap_challengeProofDigest := example_digest;
     ap_binding := {| pe_tenant := {| tenant_id := "tenant-1" |}; pe_principal := example_principal;
       pe_runId := "run-1"; pe_stepId := "step-1"; pe_decisionId := "decision-1";
       pe_workOrderBindingDigest := example_digest; pe_executionDefinition := example_agent;
       pe_executionDefinitionDigest := example_digest; pe_toolId := "mail.send@1";
       pe_toolVersion := "1"; pe_toolRegistrationDigest := example_digest;
       pe_argumentsDigest := example_digest; pe_targetDigest := example_digest;
       pe_contentDigest := None; pe_previewDigest := example_digest; pe_purpose := example_purpose;
       pe_policyRegistrationDigest := example_digest |};
     ap_approvedBy := {| principal_type := user; principal_id := "grace" |};
     ap_authenticationStrength := phishing_resistant;
     ap_createdAt := "2026-09-04T10:01:00.000Z"; ap_expiresAt := "2026-09-04T10:10:00.000Z" |}.

Definition example_input (resource : string) (approval : option Approval) : PolicyEvaluationInput := {|
  in_workOrder := example_work_order; in_tool := example_tool;
  in_policyRegistrationDigest := example_digest; in_argumentsDigest := example_digest;
  in_targetDigest := example_digest; in_normalizedResources := [path_scope resource];
  in_schemaValidated := true; in_grantResolution := Some (resolution_active example_grant 2);
  in_approval := approval; in_runId := "run-1"; in_stepId := "step-1"; in_decisionId := "decision-1";
  in_previewDigest := Some example_digest; in_networkPolicy := network_none;
  in_callsAlreadyUsed := 0; in_requestedCost := None;
  in_evaluatedAt := "2026-09-04T10:02:00.000Z";
|}.

Definition no_digest (l : list ResourceScope) : string := example_digest.

Lemma example_allowed :
  evaluatePolicy no_digest example_config
    (example_input "outbox/today/1.eml" (Some example_approval)) None = Return allow.
Proof. vm_compute. reflexivity. Qed.

Example example_needs_approval :
  evaluatePolicy no_digest example_config (example_input "outbox/today/1.eml" None) None
  = Return requireApproval.
Proof. vm_compute. reflexivity. Qed.

Example example_outside_grant :
  evaluatePolicy no_digest example_config
    (example_input "outbox/todays" (Some example_approval)) None
  = Return (deny KAF_POLICY_GRANT_BINDING_MISMATCH).
Proof. vm_compute. reflexivity. Qed.

Lemma evaluatePolicy_allow_iff_witness :
  DeterministicPolicyConfigSchema example_config = true
  /\ exists grant, CapabilityGrantSchema example_grant = Some grant.
Proof.
  destruct (proj1 (evaluatePolicy_allow_iff no_digest example_config
    (example_input "outbox/today/1.eml" (Some example_approval)) None) example_allowed)
    as (Hc & _ & wo & wo' & raw & uses & grant & rs & _ & _ & _ & Hraw & Hg & _).
  split; [exact Hc |]. exists grant. injection Hraw as Hr _. rewrite Hr. exact Hg.
Defined.

(** The registry after an emergency stop of the tool. *)
Definition stopped : KillSwitchRegistry :=
  (activate target_tool_registration example_digest "KAF_STOP" "operator"
     "2026-09-04T10:00:00.000Z" empty_registry).2.

Lemma example_parsed : AcceptedWorkOrderSchema example_work_order = Some example_work_order.
Proof. vm_compute. reflexivity. Qed.

Lemma killed_is_denied_witness :
  exists code, evaluatePolicy no_digest example_config
      (example_input "outbox/today/1.eml" (Some example_approval)) (Some stopped) = Return (deny code)
    /\ code ∈ [KAF_POLICY_REGISTRATION_KILLED; KAF_POLICY_INVALID_INPUT].
Proof.
  assert (registration_killed (Some stopped) example_work_order example_tool example_digest = true)
    as Hk by (vm_compute; reflexivity).
  exact (killed_is_denied no_digest example_config
    (example_input "outbox/today/1.eml" (Some example_approval)) stopped _ _ example_parsed example_parsed Hk).
Defined.

Lemma engine_agrees_witness :
  exists e, engine_evaluate no_digest example_config example_digest
    (preflight_input (example_input "outbox/today/1.eml" None) example_work_order example_tool) None
    = Return e.
Proof.
  assert (DeterministicPolicyConfigSchema example_config = true) as Hc by (vm_compute; reflexivity).
  assert (ToolRegistrationContractSchema example_tool = true) as Ht by (vm_compute; reflexivity).
  destruct (engine_agrees no_digest example_config (example_input "outbox/today/1.eml" None) None
    _ example_parsed Hc Ht) as (e & He & _).
  exists e. exact He.
Defined.

Lemma stopped_reachable : steps ks_step empty_registry stopped.
Proof.
  eapply steps_cons; [| apply steps_refl].
  exact (step_activate _ _ target_tool_registration example_digest "KAF_STOP" "operator"
    "2026-09-04T10:00:00.000Z" _ (surjective_pairing _)).
Qed.

Lemma snapshot_restores_witness :
  length (kss_entries (snapshot stopped)) = 1%nat
  /\ createKillSwitchRegistry (Some (snapshot stopped)) = Return stopped.
Proof.
  split; [vm_compute; reflexivity |].
  apply (snapshot_restores stopped stopped_reachable). vm_compute. discriminate.
Defined.
