(* ===== verification/Grants.v ===== *)
(** * Capability grants (packages/policy/src/grants.ts)

    The issuer that turns authority into grants and the process-local store that
    counts their uses.  Each method of the source resolves a promise and then
    runs to its end, so a call is one step of the store. *)

From S2P Require Import Prelude JsTime Errors Schema JsonValue Unicode Contracts WorkOrder Authorization.
From S2P Require Import Authority.

Local Open Scope Z_scope.
Local Open Scope js_scope.

Definition GrantError (code : string) : js_error := PolicyError "GrantError" code.

(** [StoredGrant] *)
Record StoredGrant := {
  sg_grant : CapabilityGrant;
  sg_claims : gmap string CapabilityGrantUseClaim;
  sg_revokedAt : option string;
}.

(** The map of maps [grants], by tenant and grant. *)
Notation GrantStore := (gmap (string * string) StoredGrant) (only parsing).

Definition grant_key (g : CapabilityGrant) : string * string :=
  (tenant_id (gb_tenant (gr_binding g)), gr_id g).

Definition is_revoked (s : StoredGrant) : bool :=
  bool_decide (sg_revokedAt s <> None) || bool_decide (gr_revokedAt (sg_grant s) <> None).

Definition grant_expired (s : StoredGrant) (at_ : string) : bool :=
  nan_le (Date_parse (gr_expiresAt (sg_grant s))) (Date_parse at_).

Definition claims_used (s : StoredGrant) : Z := Z.of_nat (size (sg_claims s)).

Section Store.
Context `{Zod}.

Definition matchesBinding (grant : CapabilityGrant) (rawBinding : CapabilityGrantBinding)
  : outcome js_error bool :=
  binding ← orThrow (CapabilityGrantBindingSchema rawBinding) ZodError;
  Return (bool_decide (binding = gr_binding grant)).

Definition grant_issue (rawGrant : CapabilityGrant) : method GrantStore js_error unit :=
  let! grant := mlift (orThrow (CapabilityGrantSchema rawGrant) ZodError) in
  let! grants := mget in
  match grants !! grant_key grant with
  | Some _ => mthrow (GrantError "KAF_POLICY_GRANT_DUPLICATE")
  | None => mput (<[grant_key grant := {| sg_grant := grant; sg_claims := ∅; sg_revokedAt := None |}]> grants)
  end.

Definition grant_revoke (tenantId grantId revokedAt : string) : method GrantStore js_error unit :=
  let! grants := mget in
  match grants !! (tenantId, grantId) with
  | None => mthrow (GrantError "KAF_POLICY_GRANT_MISSING")
  | Some stored => mput (<[(tenantId, grantId) :=
      {| sg_grant := sg_grant stored; sg_claims := sg_claims stored;
         sg_revokedAt := Some revokedAt |}]> grants)
  end.

Definition grant_resolve (grantId : string) (binding : CapabilityGrantBinding) (at_ : string)
    (grants : GrantStore) : outcome js_error CapabilityGrantResolution :=
  parsedBinding ← orThrow (CapabilityGrantBindingSchema binding) ZodError;
  match grants !! (tenant_id (gb_tenant parsedBinding), grantId) with
  | None => Return resolution_missing
  | Some stored =>
      matches ← matchesBinding (sg_grant stored) parsedBinding;
      if negb matches then Return resolution_binding_mismatch
      else if is_revoked stored then Return resolution_revoked
      else if grant_expired stored at_ then Return resolution_expired
      else
        let remaining := gr_maximumUses (sg_grant stored) - claims_used stored in
        if remaining <=? 0 then Return resolution_exhausted
        else Return (resolution_active (sg_grant stored) remaining)
  end.

Definition grant_reserveUse (tenantId grantId authorizationKey at_ : string)
  : method GrantStore js_error CapabilityGrantUseClaim :=
  let! grants := mget in
  match grants !! (tenantId, grantId) with
  | None => mthrow (GrantError "KAF_POLICY_GRANT_MISSING")
  | Some stored =>
      match sg_claims stored !! authorizationKey with
      | Some replay => mreturn replay
      | None =>
          if is_revoked stored then mthrow (GrantError "KAF_POLICY_GRANT_REVOKED")
          else if grant_expired stored at_ then mthrow (GrantError "KAF_POLICY_GRANT_EXPIRED")
          else if gr_maximumUses (sg_grant stored) <=? claims_used stored
          then mthrow (GrantError "KAF_POLICY_GRANT_EXHAUSTED")
          else
            let claim := {| uc_grantId := grantId; uc_authorizationKey := authorizationKey;
                            uc_useNumber := claims_used stored + 1; uc_claimedAt := at_ |} in
            mput (<[(tenantId, grantId) :=
              {| sg_grant := sg_grant stored;
                 sg_claims := <[authorizationKey := claim]> (sg_claims stored);
                 sg_revokedAt := sg_revokedAt stored |}]> grants) ;;!
            mreturn claim
      end
  end.

(** ** The issuer *)

(** [CapabilityGrantIssueRequest]: a grant without its identity, issuer and time
    of issue; the issuer field of the binding is not read. *)
Record GrantIssueRequest := {
  rq_binding : CapabilityGrantBinding;
  rq_maximumUses : Z;
  rq_expiresAt : string;
}.

Definition issued_by (issuerId : string) (b : CapabilityGrantBinding) : CapabilityGrantBinding :=
  let '(Build_CapabilityGrantBinding _ p t wo wd d dd c a ti tv td r pu pd) := b in
  Build_CapabilityGrantBinding issuerId p t wo wd d dd c a ti tv td r pu pd.

(** [createGrantIssuer(...).issue]: [at_] is the clock's reading and [ids] the
    identifiers the generator returns, one per request. *)
Definition issuer_issue (issuer : AuthorityIssuer) (m : AuthorityModule) (at_ : string)
    (authority : js_value) (requests : list (GrantIssueRequest * string))
  : outcome js_error (list CapabilityGrant) :=
  match verify issuer authority (Date_parse at_) m with
  | verification_invalid _ => Throw (GrantError "KAF_AUTHORITY_INVALID")
  | verification_valid claims =>
      let subject := default (cl_actor claims) (cl_subject claims) in
      (fix each requests :=
         match requests with
         | [] => Return []
         | (raw, id) :: rest =>
             request ← orThrow (CapabilityGrantBindingSchema
               (issued_by (ai_issuerId issuer) (rq_binding raw))) ZodError;
             _ ← require (int_positive (rq_maximumUses raw) && zod_datetime (rq_expiresAt raw)) ZodError;
             _ ← require (bool_decide (tenant_id (gb_tenant request) = tenant_id (cl_tenant claims))
                          && bool_decide (gb_principal request = subject)
                          && negb (date_le (rq_expiresAt raw) at_))
                   (GrantError "KAF_POLICY_GRANT_BINDING_MISMATCH");
             grant ← orThrow (CapabilityGrantSchema
               {| gr_id := id; gr_binding := request; gr_maximumUses := rq_maximumUses raw;
                  gr_issuedAt := at_; gr_expiresAt := rq_expiresAt raw; gr_revokedAt := None |}) ZodError;
             others ← each rest;
             Return (grant :: others)
         end) requests
  end.
End Store.

(** ** Properties *)

Section Facts.
Context `{Zod}.

Inductive gs_step (s s' : GrantStore) : Prop :=
| step_grant_issue g o : grant_issue g s = (o, s') -> gs_step s s'
| step_grant_revoke t g at_ o : grant_revoke t g at_ s = (o, s') -> gs_step s s'
| step_grant_reserve t g k at_ o : grant_reserveUse t g k at_ s = (o, s') -> gs_step s s'.

Lemma grant_issue_effect g s o s' :
  grant_issue g s = (o, s') ->
  s' = s \/ exists g', CapabilityGrantSchema g = Some g' /\ s !! grant_key g' = None
    /\ s' = <[grant_key g' := {| sg_grant := g'; sg_claims := ∅; sg_revokedAt := None |}]> s.
Proof.
  unfold grant_issue, mthen, mlift, mget, mput, mthrow.
  destruct (CapabilityGrantSchema g) as [g' |]; cbn [orThrow]; [| intros [= <- <-]; by left].
  destruct (s !! grant_key g') eqn:Hk; intros [= <- <-]; [by left | right; eauto].
Qed.

Lemma grant_revoke_effect t g at_ s o s' :
  grant_revoke t g at_ s = (o, s') ->
  (s' = s /\ isReturn o = false) \/ exists st, s !! (t, g) = Some st /\ o = Return tt
    /\ s' = <[(t, g) := {| sg_grant := sg_grant st; sg_claims := sg_claims st;
                           sg_revokedAt := Some at_ |}]> s.
Proof.
  unfold grant_revoke, mthen, mget, mput, mthrow.
  destruct (s !! (t, g)) eqn:Hk; intros [= <- <-]; [right; eauto | by left].
Qed.

(** What a reservation of a use returns and writes. *)
Inductive reserve_outcome (t g k at_ : string) (s : GrantStore)
  : outcome js_error CapabilityGrantUseClaim -> GrantStore -> Prop :=
| reserve_refused e : reserve_outcome t g k at_ s (Throw e) s
| reserve_replayed st c : s !! (t, g) = Some st -> sg_claims st !! k = Some c ->
    reserve_outcome t g k at_ s (Return c) s
| reserve_claimed st : s !! (t, g) = Some st -> sg_claims st !! k = None ->
    is_revoked st = false -> grant_expired st at_ = false ->
    claims_used st < gr_maximumUses (sg_grant st) ->
    let c := {| uc_grantId := g; uc_authorizationKey := k; uc_useNumber := claims_used st + 1;
                uc_claimedAt := at_ |} in
    reserve_outcome t g k at_ s (Return c)
      (<[(t, g) := {| sg_grant := sg_grant st; sg_claims := <[k := c]> (sg_claims st);
                      sg_revokedAt := sg_revokedAt st |}]> s).

Lemma grant_reserveUse_outcome t g k at_ s o s' :
  grant_reserveUse t g k at_ s = (o, s') -> reserve_outcome t g k at_ s o s'.
Proof.
  unfold grant_reserveUse, mthen, mget, mput, mthrow, mreturn.
  destruct (s !! (t, g)) as [st |] eqn:Hs; [| intros [= <- <-]; constructor].
  destruct (sg_claims st !! k) as [c |] eqn:Hc; [intros [= <- <-]; by econstructor |].
  destruct (is_revoked st) eqn:Hr; [intros [= <- <-]; constructor |].
  destruct (grant_expired st at_) eqn:He; [intros [= <- <-]; constructor |].
  destruct (_ <=? _) eqn:Hu; [intros [= <- <-]; constructor |]. bools.
  intros [= <- <-]. by constructor.
Qed.

(** The claims of a grant number its uses from 1, without repetition. *)
Definition claims_numbered (st : StoredGrant) : Prop :=
  claims_used st <= gr_maximumUses (sg_grant st) /\
  (forall k c, sg_claims st !! k = Some c ->
     uc_authorizationKey c = k /\ 1 <= uc_useNumber c <= claims_used st) /\
  (forall k k' c c', sg_claims st !! k = Some c -> sg_claims st !! k' = Some c' ->
     uc_useNumber c = uc_useNumber c' -> k = k').

Lemma claims_numbered_claim st g k at_ :
  claims_numbered st -> sg_claims st !! k = None -> claims_used st < gr_maximumUses (sg_grant st) ->
  claims_numbered {| sg_grant := sg_grant st;
    sg_claims := <[k := {| uc_grantId := g; uc_authorizationKey := k;
                           uc_useNumber := claims_used st + 1; uc_claimedAt := at_ |}]> (sg_claims st);
    sg_revokedAt := sg_revokedAt st |}.
Proof.
  intros (Hm & Hk & Hinj) Hn Hlt. unfold claims_numbered, claims_used in *. cbn.
  rewrite map_size_insert_None by done. split_and!; [lia | |].
  - intros k' c [[<- <-] | [_ Hc]]%lookup_insert_Some; cbn; [split; [done | lia] |].
    destruct (Hk _ _ Hc). split; [done | lia].
  - intros k1 k2 c1 c2 [[<- <-] | [Hn1 Hc1]]%lookup_insert_Some [[<- <-] | [Hn2 Hc2]]%lookup_insert_Some;
      cbn; intros He; [done | | | by eapply Hinj].
    + destruct (Hk _ _ Hc2). lia.
    + destruct (Hk _ _ Hc1). lia.
Qed.

Definition gs_wf (s : GrantStore) : Prop :=
  map_Forall (fun key st => grant_key (sg_grant st) = key /\ 0 < gr_maximumUses (sg_grant st)
                            /\ claims_numbered st) s.

Lemma gs_step_wf s s' : gs_wf s -> gs_step s s' -> gs_wf s'.
Proof.
  intros Hwf [g o Hi%grant_issue_effect | t g at_ o Hr%grant_revoke_effect
              | t g k at_ o Hu%grant_reserveUse_outcome].
  - destruct Hi as [-> | (g' & Hg & Hno & ->)]; [done |]. apply map_Forall_insert_2; [| done].
    cbn. assert (0 < gr_maximumUses g') as Hpos.
    { unfold CapabilityGrantSchema in Hg. destruct (trimmed _ _); [| done]. cbn in Hg.
      destruct (CapabilityGrantBindingSchema _); [| done]. cbn in Hg. unfold checked in Hg.
      destruct (_ && _) eqn:Hb in Hg; [| done]. injection Hg as <-. cbn.
      unfold int_positive in Hb. by bools. }
    split_and!; [done | done |]. unfold claims_numbered, claims_used. cbn.
    rewrite map_size_empty. split_and!; [lia | |]; intros *; by rewrite lookup_empty.
  - destruct Hr as [[-> _] | (st & Hst & _ & ->)]; [done |]. apply map_Forall_insert_2; [| done].
    by apply Hwf in Hst.
  - destruct Hu as [| | st Hst Hc Hrv He Hlt c]; try done. apply map_Forall_insert_2; [| done].
    apply Hwf in Hst as (Hk & Hp & Hn). cbn. split_and!; [done | done |]. by apply claims_numbered_claim.
Qed.

Lemma reachable_gs_wf s : steps gs_step ∅ s -> gs_wf s.
Proof. apply steps_invariant; [apply gs_step_wf | apply map_Forall_empty]. Qed.

(** A grant keeps its terms and its claims; a revoked one gains none. *)
Definition grant_extends (st st' : StoredGrant) : Prop :=
  sg_grant st' = sg_grant st /\ sg_claims st ⊆ sg_claims st' /\
  (is_revoked st = true -> is_revoked st' = true /\ sg_claims st' = sg_claims st).

Definition gs_extends (s s' : GrantStore) : Prop :=
  forall key st, s !! key = Some st -> exists st', s' !! key = Some st' /\ grant_extends st st'.

Lemma grant_extends_refl st : grant_extends st st.
Proof. by split_and!. Qed.

Lemma gs_extends_insert s key st st' :
  s !! key = Some st -> grant_extends st st' -> gs_extends s (<[key := st']> s).
Proof.
  intros Hk He key0 st0 H0. destruct (decide (key0 = key)) as [-> | Hne].
  - exists st'. rewrite lookup_insert_eq. split; [done |]. by simplify_eq.
  - exists st0. rewrite lookup_insert_ne by done. split; [done | apply grant_extends_refl].
Qed.

Lemma gs_step_extends s s' : gs_step s s' -> gs_extends s s'.
Proof.
  assert (forall s, gs_extends s s) as Hrefl.
  { intros s0 key st Hk. exists st. split; [done | apply grant_extends_refl]. }
  intros [g o Hi%grant_issue_effect | t g at_ o Hr%grant_revoke_effect
          | t g k at_ o Hu%grant_reserveUse_outcome].
  - destruct Hi as [-> | (g' & _ & Hno & ->)]; [apply Hrefl |]. intros key st Hk.
    exists st. split; [| apply grant_extends_refl]. rewrite lookup_insert_ne; [done |]. congruence.
  - destruct Hr as [[-> _] | (st & Hst & _ & ->)]; [apply Hrefl |].
    by eapply gs_extends_insert.
  - destruct Hu as [| | st Hst Hc Hrv He Hlt c]; try apply Hrefl.
    eapply gs_extends_insert; [done |]. split_and!; [done | by apply insert_subseteq | congruence].
Qed.

Lemma gs_steps_extend s s' : steps gs_step s s' -> gs_extends s s'.
Proof.
  apply (steps_invariant _ (gs_extends s)).
  - intros s1 s2 H1 H2%gs_step_extends key st Hk.
    destruct (H1 _ _ Hk) as (st1 & Hk1 & Hg1 & Hc1 & Hr1).
    destruct (H2 _ _ Hk1) as (st2 & Hk2 & Hg2 & Hc2 & Hr2). exists st2. split; [done |].
    split_and!; [congruence | by trans (sg_claims st1) |]. intros Hr.
    destruct (Hr1 Hr) as [Hr' Heq]. destruct (Hr2 Hr') as [? ?]. split; [done | congruence].
  - intros key st Hk. exists st. split; [done | apply grant_extends_refl].
Qed.

(** C23: a grant is never overused.  In every reachable store a grant has at most
    [maximumUses] claims, each under its own authorization key, and they carry
    distinct use numbers between 1 and the number of claims. *)
Theorem uses_bounded s t g st :
  steps gs_step ∅ s -> s !! (t, g) = Some st ->
  claims_used st <= gr_maximumUses (sg_grant st) /\
  (forall k c, sg_claims st !! k = Some c ->
     uc_authorizationKey c = k /\ 1 <= uc_useNumber c <= claims_used st) /\
  (forall k k' c c', sg_claims st !! k = Some c -> sg_claims st !! k' = Some c' ->
     uc_useNumber c = uc_useNumber c' -> k = k').
Proof. intros Hs Hk. apply reachable_gs_wf in Hs. by apply Hs in Hk as (_ & _ & ?). Qed.

(** A use is claimed once.  Whatever happens in between, claiming again under
    the same authorization key returns the first claim and changes nothing, even
    when the grant has been revoked, has expired or is used up. *)
Theorem claim_is_stable s s1 s2 t g k at1 at2 c :
  grant_reserveUse t g k at1 s = (Return c, s1) -> steps gs_step s1 s2 ->
  grant_reserveUse t g k at2 s2 = (Return c, s2).
Proof.
  intros Hr Hs%gs_steps_extend.
  assert (exists st, s1 !! (t, g) = Some st /\ sg_claims st !! k = Some c) as (st & Hst & Hc).
  { apply grant_reserveUse_outcome in Hr. inversion Hr as [| st c' Hst Hc | st Hst Hc _ _ _ c']; subst.
    - by exists st.
    - rewrite lookup_insert_eq. eexists. split; [done |]. cbn. by rewrite lookup_insert_eq. }
  destruct (Hs _ _ Hst) as (st' & Hst' & _ & Hsub & _).
  unfold grant_reserveUse, mthen, mget, mreturn. rewrite Hst'.
  by rewrite (lookup_weaken _ _ _ _ Hc Hsub).
Qed.

(** C24: revocation is final.  After a grant is revoked it never resolves as
    active again, and the only claims it still returns are those made before. *)
Theorem revoked_grants_nothing s s1 s2 t g at_ :
  grant_revoke t g at_ s = (Return tt, s1) -> steps gs_step s1 s2 ->
  (forall b b' at' grant n, CapabilityGrantBindingSchema b = Some b' -> tenant_id (gb_tenant b') = t ->
     grant_resolve g b at' s2 <> Return (resolution_active grant n)) /\
  (forall k at' c s3, grant_reserveUse t g k at' s2 = (Return c, s3) ->
     s3 = s2 /\ exists st, s !! (t, g) = Some st /\ sg_claims st !! k = Some c).
Proof.
  intros Hr Hs%gs_steps_extend. apply grant_revoke_effect in Hr as [[_ ?] | (st & Hst & _ & ->)]; [done |].
  destruct (Hs (t, g) _ (lookup_insert_eq _ _ _)) as (st2 & Hst2 & _ & _ & Hrev).
  destruct Hrev as [Hrev Hcl]; [done |].
  cbn in Hcl. split.
  - intros b b' at' grant n Hb Ht. unfold grant_resolve. rewrite Hb. cbn [orThrow mbind outcome_bind].
    rewrite Ht, Hst2. destruct (matchesBinding _ _) as [[|] |]; cbn; try done. by rewrite Hrev.
  - intros k at' c s3 Hu%grant_reserveUse_outcome.
    inversion Hu as [| st' c' Hst' Hc | st' Hst' Hc Hno _ _ c']; subst.
    + assert (st' = st2) as -> by congruence. split; [done |]. exists st. split; [done |]. congruence.
    + assert (st' = st2) as -> by congruence. congruence.
Qed.

(** An active resolution is honoured.  A grant that resolves as active with
    [n] uses left is the stored grant, bound to exactly the binding asked for,
    and a use claimed at that time under a fresh key succeeds, leaving [n - 1]. *)
Theorem active_resolution_honoured s g b at_ grant n k :
  grant_resolve g b at_ s = Return (resolution_active grant n) ->
  exists b' b'' st, CapabilityGrantBindingSchema b = Some b'
    /\ CapabilityGrantBindingSchema b' = Some b'' /\ gr_binding grant = b''
    /\ s !! (tenant_id (gb_tenant b'), g) = Some st /\ sg_grant st = grant
    /\ n = gr_maximumUses grant - claims_used st /\ 0 < n
    /\ (sg_claims st !! k = None -> exists c s',
          grant_reserveUse (tenant_id (gb_tenant b')) g k at_ s = (Return c, s')
          /\ uc_useNumber c = gr_maximumUses grant - n + 1
          /\ exists st', s' !! (tenant_id (gb_tenant b'), g) = Some st'
             /\ gr_maximumUses grant - claims_used st' = n - 1).
Proof.
  unfold grant_resolve. destruct (CapabilityGrantBindingSchema b) as [b' |]; cbn; [| done].
  destruct (s !! (tenant_id (gb_tenant b'), g)) as [st |] eqn:Hst; [| done].
  unfold matchesBinding. destruct (CapabilityGrantBindingSchema b') as [b'' |] eqn:Hb; cbn; [| done].
  destruct (bool_decide _) eqn:Hm; cbn; [| done]. destruct (is_revoked st) eqn:Hr; [done |].
  destruct (grant_expired st at_) eqn:He; [done |]. destruct (_ <=? _) eqn:Hn; [done |]. bools.
  intros Heq. injection Heq as <- <-. exists b', b'', st. split_and!; try done.
  intros Hk. unfold grant_reserveUse, mthen, mget, mput, mreturn. rewrite Hst, Hk, Hr, He.
  rewrite (proj2 (Z.leb_gt _ _)) by lia. eexists _, _. split; [done |]. cbn. split; [lia |].
  rewrite lookup_insert_eq. eexists. split; [done |]. unfold claims_used in *. cbn.
  rewrite map_size_insert_None by done. lia.
Qed.
End Facts.
