(* ===== verification/AuthorizationReservations.v ===== *)
(** * Authorization reservations (packages/policy/src/authorization-reservations.ts)

    A reservation claims one use of its grant, of its approval and of each of
    its secret references; the checks run before the first claim is written. *)

From S2P Require Import Prelude JsTime Errors Schema JsonValue Unicode Contracts.
From S2P Require Import WorkOrder Authorization.

Local Open Scope Z_scope.
Local Open Scope js_scope.

Definition ReservationError (code : string) : js_error :=
  PolicyError "AuthorizationReservationError" code.

(** By tenant and subject: the authorization keys that claimed a use, each with
    its reservation. *)
Notation ClaimIndex := (gmap (string * string) (gmap string string)) (only parsing).

Record ReservationStore := {
  rv_reservations : gmap (string * string) AuthorizationReservation;
  rv_grantClaims : ClaimIndex;
  rv_approvalClaims : ClaimIndex;
  rv_secretClaims : ClaimIndex;
}.

Definition empty_reservations : ReservationStore := Build_ReservationStore ∅ ∅ ∅ ∅.

Definition put_reservation (key : string * string) (r : AuthorizationReservation)
    (s : ReservationStore) : ReservationStore :=
  Build_ReservationStore (<[key := r]> (rv_reservations s)) (rv_grantClaims s)
    (rv_approvalClaims s) (rv_secretClaims s).

Definition set_grantClaims (i : ClaimIndex) (s : ReservationStore) : ReservationStore :=
  Build_ReservationStore (rv_reservations s) i (rv_approvalClaims s) (rv_secretClaims s).
Definition set_approvalClaims (i : ClaimIndex) (s : ReservationStore) : ReservationStore :=
  Build_ReservationStore (rv_reservations s) (rv_grantClaims s) i (rv_secretClaims s).
Definition set_secretClaims (i : ClaimIndex) (s : ReservationStore) : ReservationStore :=
  Build_ReservationStore (rv_reservations s) (rv_grantClaims s) (rv_approvalClaims s) i.

Definition claims_of (index : ClaimIndex) (tenantId subjectId : string) : gmap string string :=
  default ∅ (index !! (tenantId, subjectId)).

Definition reserveClaim (index : ClaimIndex)
    (tenantId subjectId authorizationKey reservationId : string) (maximumUses : Z)
  : outcome js_error ClaimIndex :=
  let claims := claims_of index tenantId subjectId in
  match claims !! authorizationKey with
  | Some replay =>
      if negb (bool_decide (replay = reservationId))
      then Throw (ReservationError "KAF_POLICY_AUTHORIZATION_BINDING_MISMATCH")
      else Return index
  | None =>
      if maximumUses <=? Z.of_nat (size claims)
      then Throw (ReservationError "KAF_POLICY_AUTHORIZATION_CLAIM_EXHAUSTED")
      else Return (<[(tenantId, subjectId) := <[authorizationKey := reservationId]> claims]> index)
  end.

Definition assertClaimAvailable (index : ClaimIndex)
    (tenantId subjectId authorizationKey reservationId : string) (maximumUses : Z)
  : outcome js_error unit :=
  let claims := claims_of index tenantId subjectId in
  match claims !! authorizationKey with
  | Some replay =>
      require (bool_decide (replay = reservationId))
        (ReservationError "KAF_POLICY_AUTHORIZATION_BINDING_MISMATCH")
  | None =>
      require (negb (maximumUses <=? Z.of_nat (size claims)))
        (ReservationError "KAF_POLICY_AUTHORIZATION_CLAIM_EXHAUSTED")
  end.

(** Some reservation of the tenant has the identifier. *)
Definition has_reservation_id (s : ReservationStore) (tenantId reservationId : string) : bool :=
  existsb (fun kr : (string * string) * AuthorizationReservation =>
    bool_decide (kr.1.1 = tenantId)
    && bool_decide (res_authorizationReservationId kr.2 = reservationId))
    (map_to_list (rv_reservations s)).

(** [limit === undefined || limit < 1] *)
Definition no_limit (limit : option Z) : bool :=
  match limit with None => true | Some n => n <? 1 end.

Definition with_consumed (consumedAt : string) (r : AuthorizationReservation)
  : AuthorizationReservation :=
  let '(Build_AuthorizationReservation a b c d e f g h i j k l m n o p q u v w x _ y z _) := r in
  Build_AuthorizationReservation a b c d e f g h i j k l m n o p q u v w x reservation_consumed
    y z (Some consumedAt).

Section Store.
Context `{Zod}.
Context (grantMaximumUses secretRefMaximumUses approvalMaximumUses : string -> string -> option Z).

Fixpoint assert_secrets (index : ClaimIndex) (tenantId authorizationKey reservationId : string)
    (limits : list (string * option Z)) : outcome js_error unit :=
  match limits with
  | [] => Return tt
  | (refId, Some limit) :: rest =>
      _ ← assertClaimAvailable index tenantId refId authorizationKey reservationId limit;
      assert_secrets index tenantId authorizationKey reservationId rest
  | (_, None) :: rest => assert_secrets index tenantId authorizationKey reservationId rest
  end.

Fixpoint reserve_secrets (tenantId authorizationKey reservationId : string)
    (limits : list (string * option Z)) : method ReservationStore js_error unit :=
  match limits with
  | [] => mreturn tt
  | (_, None) :: _ => mthrow (ReservationError "KAF_POLICY_AUTHORIZATION_CLAIM_EXHAUSTED")
  | (refId, Some limit) :: rest =>
      let! s := mget in
      let! index := mlift (reserveClaim (rv_secretClaims s) tenantId refId authorizationKey
                             reservationId limit) in
      mput (set_secretClaims index s) ;;!
      reserve_secrets tenantId authorizationKey reservationId rest
  end.

(** The limit of the approval, when the reservation names one. *)
Definition approval_limit (r : AuthorizationReservation) : option (string * option Z) :=
  match res_approvalId r with
  | None => None
  | Some approvalId => Some (approvalId, approvalMaximumUses (res_tenantId r) approvalId)
  end.

Definition reserve (rawReservation : AuthorizationReservation) (at_ : string)
  : method ReservationStore js_error AuthorizationReservation :=
  let! reservation := mlift (parse AuthorizationReservationSchema rawReservation) in
  let tenantId := res_tenantId reservation in
  let authorizationKey := res_authorizationKey reservation in
  let reservationId := res_authorizationReservationId reservation in
  mlift (require (bool_decide (res_state reservation = reservation_reserved))
    (ReservationError "KAF_POLICY_AUTHORIZATION_BINDING_MISMATCH")) ;;!
  mlift (require (negb (date_le (res_expiresAt reservation) at_))
    (ReservationError "KAF_POLICY_AUTHORIZATION_EXPIRED")) ;;!
  let! s := mget in
  match rv_reservations s !! (tenantId, authorizationKey) with
  | Some replay =>
      if bool_decide (replay = reservation) then mreturn replay
      else mthrow (ReservationError "KAF_POLICY_AUTHORIZATION_BINDING_MISMATCH")
  | None =>
      mlift (require (negb (has_reservation_id s tenantId reservationId))
        (ReservationError "KAF_POLICY_AUTHORIZATION_DUPLICATE")) ;;!
      let! grantLimit := mlift
        (match grantMaximumUses tenantId (res_grantId reservation) with
         | Some n => if n <? 1 then Throw (ReservationError "KAF_POLICY_AUTHORIZATION_CLAIM_EXHAUSTED")
                     else Return n
         | None => Throw (ReservationError "KAF_POLICY_AUTHORIZATION_CLAIM_EXHAUSTED")
         end) in
      mlift (match approval_limit reservation with
             | None => Return tt
             | Some (_, limit) => require (negb (no_limit limit))
                 (ReservationError "KAF_POLICY_AUTHORIZATION_CLAIM_EXHAUSTED")
             end) ;;!
      let secretLimits := map (fun refId => (refId, secretRefMaximumUses tenantId refId))
                            (res_secretRefIds reservation) in
      mlift (require (negb (existsb (fun l => no_limit l.2) secretLimits))
        (ReservationError "KAF_POLICY_AUTHORIZATION_CLAIM_EXHAUSTED")) ;;!
      mlift (assertClaimAvailable (rv_grantClaims s) tenantId (res_grantId reservation)
               authorizationKey reservationId grantLimit) ;;!
      mlift (match approval_limit reservation with
             | Some (approvalId, Some limit) =>
                 assertClaimAvailable (rv_approvalClaims s) tenantId approvalId authorizationKey
                   reservationId limit
             | _ => Return tt
             end) ;;!
      mlift (assert_secrets (rv_secretClaims s) tenantId authorizationKey reservationId secretLimits) ;;!
      let! index := mlift (reserveClaim (rv_grantClaims s) tenantId (res_grantId reservation)
                             authorizationKey reservationId grantLimit) in
      mput (set_grantClaims index s) ;;!
      match approval_limit reservation with
      | Some (approvalId, Some limit) =>
          let! s := mget in
          let! index := mlift (reserveClaim (rv_approvalClaims s) tenantId approvalId
                                 authorizationKey reservationId limit) in
          mput (set_approvalClaims index s)
      | _ => mreturn tt
      end ;;!
      reserve_secrets tenantId authorizationKey reservationId secretLimits ;;!
      let! s := mget in
      mput (put_reservation (tenantId, authorizationKey) reservation s) ;;!
      mreturn reservation
  end.

Definition get (tenantId authorizationKey : string) (s : ReservationStore)
  : option AuthorizationReservation :=
  rv_reservations s !! (tenantId, authorizationKey).

Definition consume (tenantId authorizationKey consumedAt : string)
  : method ReservationStore js_error AuthorizationReservation :=
  let! s := mget in
  match rv_reservations s !! (tenantId, authorizationKey) with
  | None => mthrow (ReservationError "KAF_POLICY_AUTHORIZATION_BINDING_MISMATCH")
  | Some existing =>
      if bool_decide (res_state existing = reservation_consumed) then mreturn existing
      else
        mlift (require (negb (date_le (res_expiresAt existing) consumedAt))
          (ReservationError "KAF_POLICY_AUTHORIZATION_EXPIRED")) ;;!
        let! consumed := mlift (parse AuthorizationReservationSchema
                                  (with_consumed consumedAt existing)) in
        mput (put_reservation (tenantId, authorizationKey) consumed s) ;;!
        mreturn consumed
  end.
End Store.
