(* ===== verification/ReservationFacts.v ===== *)
(** * Properties of authorization reservations

    A rejected reservation leaves no trace; the claims are exactly those of the
    stored reservations and never exceed their limits; reservations and
    consumptions are idempotent. *)

From S2P Require Import Prelude JsTime Errors Schema JsonValue Unicode Contracts WorkOrder Authorization.
From S2P Require Import AuthorizationReservations Authority Canonicalization CanonicalizationFacts Policy.
From S2P Require Import PolicyFacts PolicyExamples Grants.

Local Open Scope Z_scope.

(** ** Claims *)

(** The index after a claim that the checks admitted. *)
Definition add_claim (tenantId k id : string) (index : ClaimIndex) (subjectId : string)
  : ClaimIndex :=
  match claims_of index tenantId subjectId !! k with
  | Some _ => index
  | None => <[(tenantId, subjectId) := <[k := id]> (claims_of index tenantId subjectId)]> index
  end.

Lemma claims_of_insert index t sub t' sub' c :
  claims_of (<[(t, sub) := c]> index) t' sub'
  = if decide ((t', sub') = (t, sub)) then c else claims_of index t' sub'.
Proof.
  unfold claims_of. case_decide as Heq.
  - injection Heq as -> ->. by rewrite lookup_insert_eq.
  - by rewrite lookup_insert_ne.
Qed.

Lemma claims_of_add t k id index sub t' sub' :
  claims_of (add_claim t k id index sub) t' sub'
  = if decide ((t', sub') = (t, sub)) then
      match claims_of index t sub !! k with
      | Some _ => claims_of index t sub
      | None => <[k := id]> (claims_of index t sub)
      end
    else claims_of index t' sub'.
Proof.
  unfold add_claim. destruct (claims_of index t sub !! k).
  - case_decide as Heq; [by injection Heq as -> -> | done].
  - apply claims_of_insert.
Qed.

Lemma reserveClaim_admitted index t sub k id limit u :
  assertClaimAvailable index t sub k id limit = Return u ->
  reserveClaim index t sub k id limit = Return (add_claim t k id index sub).
Proof.
  unfold assertClaimAvailable, reserveClaim, add_claim, require.
  destruct (claims_of index t sub !! k); [case_bool_decide; cbn; done |].
  by destruct (limit <=? _).
Qed.

Lemma assert_after_add index t sub sub' k id limit limit' u u' :
  assertClaimAvailable index t sub k id limit = Return u ->
  assertClaimAvailable index t sub' k id limit' = Return u' ->
  assertClaimAvailable (add_claim t k id index sub) t sub' k id limit' = Return tt.
Proof.
  unfold assertClaimAvailable. rewrite claims_of_add. destruct u, u'.
  destruct (decide ((t, sub') = (t, sub))) as [Heq | Hne]; [| done].
  injection Heq as ->. destruct (claims_of index t sub !! k) as [replay |] eqn:Hk.
  - by rewrite Hk.
  - intros _ _. rewrite lookup_insert_eq. unfold require. by rewrite bool_decide_eq_true_2.
Qed.

Lemma assert_secrets_after_add index t sub k id limit u limits :
  assertClaimAvailable index t sub k id limit = Return u ->
  assert_secrets index t k id limits = Return tt ->
  assert_secrets (add_claim t k id index sub) t k id limits = Return tt.
Proof.
  intros Hs. induction limits as [| [ref [l |]] limits IH]; cbn; [done | | done].
  destruct (assertClaimAvailable index t ref k id l) as [[] |] eqn:Hr; cbn; [| done].
  intros Hrest. rewrite (assert_after_add _ _ _ _ _ _ _ _ _ _ Hs Hr). cbn. by apply IH.
Qed.

(** Checked secrets are claimed one after the other without failing. *)
Lemma reserve_secrets_admitted t k id limits s :
  assert_secrets (rv_secretClaims s) t k id limits = Return tt ->
  existsb (fun l => no_limit l.2) limits = false ->
  reserve_secrets t k id limits s
  = (Return tt, set_secretClaims (fold_left (add_claim t k id) (map fst limits) (rv_secretClaims s)) s).
Proof.
  revert s. induction limits as [| [ref [l |]] limits IH]; cbn; intros s.
  - intros _ _. by destruct s.
  - destruct (assertClaimAvailable (rv_secretClaims s) t ref k id l) as [u |] eqn:Ha; cbn; [| done].
    intros Hrest [Hl Hno]%orb_false_iff. unfold mthen, mget, mlift, mput.
    rewrite (reserveClaim_admitted _ _ _ _ _ _ _ Ha).
    rewrite IH; [by destruct s | | done]. by eapply assert_secrets_after_add.
  - done.
Qed.

Lemma claims_of_fold t k id subs index t' sub' :
  claims_of index t' sub' !! k = None \/ t' <> t \/ sub' ∉ subs ->
  claims_of (fold_left (add_claim t k id) subs index) t' sub'
  = if decide (t' = t /\ sub' ∈ subs) then <[k := id]> (claims_of index t' sub')
    else claims_of index t' sub'.
Proof.
  revert index. induction subs as [| sub subs IH] using rev_ind; intros index Hk.
  - cbn. rewrite decide_False by (intros [_ ?%not_elem_of_nil]; done). done.
  - rewrite fold_left_app. cbn [fold_left]. rewrite claims_of_add.
    assert (claims_of index t' sub' !! k = None \/ t' <> t \/ sub' ∉ subs) as Hk'.
    { destruct Hk as [? | [? | Hn]]; auto. right. right. intros Hin. apply Hn, elem_of_app. by left. }
    destruct (decide ((t', sub') = (t, sub))) as [Heq | Hne].
    + injection Heq as -> ->. rewrite IH by done.
      assert (sub ∈ subs ++ [sub]) as Hin by (apply elem_of_app; right; left).
      rewrite (decide_True (P := t = t /\ sub ∈ subs ++ [sub])) by done.
      destruct Hk as [Hk | [? | Hn]]; [| done | done].
      case_decide; [by rewrite lookup_insert_eq | by rewrite Hk].
    + rewrite IH by done. apply decide_ext. rewrite elem_of_app, list_elem_of_singleton.
      split; [naive_solver |]. intros [-> [? | ->]]; [done | by destruct Hne].
Qed.

(** ** One operation *)

Section Operations.
Context `{Zod}.
Context (grantMax secretMax approvalMax : string -> string -> option Z).

Definition grant_subjects (r : AuthorizationReservation) : list string := [res_grantId r].
Definition approval_subjects (r : AuthorizationReservation) : list string :=
  match res_approvalId r with Some a => [a] | None => [] end.

(** The store after a fresh reservation. *)
Definition reserved_store (r : AuthorizationReservation) (s : ReservationStore) : ReservationStore :=
  let add := add_claim (res_tenantId r) (res_authorizationKey r) (res_authorizationReservationId r) in
  {| rv_reservations := <[(res_tenantId r, res_authorizationKey r) := r]> (rv_reservations s);
     rv_grantClaims := fold_left add (grant_subjects r) (rv_grantClaims s);
     rv_approvalClaims := fold_left add (approval_subjects r) (rv_approvalClaims s);
     rv_secretClaims := fold_left add (res_secretRefIds r) (rv_secretClaims s) |}.

(** Every subject of the reservation has a use left. *)
Definition uses_left (index : ClaimIndex) (limit : string -> string -> option Z)
    (r : AuthorizationReservation) (subjects : list string) : Prop :=
  forall sub, sub ∈ subjects -> exists n, limit (res_tenantId r) sub = Some n /\ 0 < n
    /\ (claims_of index (res_tenantId r) sub !! res_authorizationKey r = None ->
        Z.of_nat (size (claims_of index (res_tenantId r) sub)) < n).

Inductive reservation_outcome (s : ReservationStore) (raw : AuthorizationReservation) (at_ : string)
  : outcome js_error AuthorizationReservation -> ReservationStore -> Prop :=
| reservation_rejected e : reservation_outcome s raw at_ (Throw e) s
| reservation_replayed :
    res_state raw = reservation_reserved ->
    rv_reservations s !! (res_tenantId raw, res_authorizationKey raw) = Some raw ->
    reservation_outcome s raw at_ (Return raw) s
| reservation_made :
    AuthorizationReservationSchema raw = true -> res_state raw = reservation_reserved ->
    date_le (res_expiresAt raw) at_ = false ->
    rv_reservations s !! (res_tenantId raw, res_authorizationKey raw) = None ->
    has_reservation_id s (res_tenantId raw) (res_authorizationReservationId raw) = false ->
    uses_left (rv_grantClaims s) grantMax raw (grant_subjects raw) ->
    uses_left (rv_approvalClaims s) approvalMax raw (approval_subjects raw) ->
    uses_left (rv_secretClaims s) secretMax raw (res_secretRefIds raw) ->
    reservation_outcome s raw at_ (Return raw) (reserved_store raw s).

Lemma assert_uses_left index t sub k id n u :
  assertClaimAvailable index t sub k id n = Return u ->
  claims_of index t sub !! k = None -> Z.of_nat (size (claims_of index t sub)) < n.
Proof.
  unfold assertClaimAvailable, require. intros Ha Hk. rewrite Hk in Ha.
  destruct (_ <=? _) eqn:Hn in Ha; [done |]. by bools.
Qed.

Lemma assert_secrets_uses index t k id refs :
  assert_secrets index t k id (map (fun ref => (ref, secretMax t ref)) refs) = Return tt ->
  forall ref n, ref ∈ refs -> secretMax t ref = Some n -> claims_of index t ref !! k = None ->
  Z.of_nat (size (claims_of index t ref)) < n.
Proof.
  induction refs as [| ref0 refs IH]; cbn; intros Ha ref n; [by intros ?%not_elem_of_nil |].
  destruct (secretMax t ref0) as [n0 |] eqn:Hn0.
  - destruct (assertClaimAvailable index t ref0 k id n0) as [u |] eqn:H0; cbn in Ha; [| done].
    intros [-> | Hin]%elem_of_cons Hn; [| by apply (IH Ha)]. simplify_eq. by eapply assert_uses_left.
  - intros [-> | Hin]%elem_of_cons Hn; [congruence | by apply (IH Ha)].
Qed.

Lemma reserve_outcome_of raw at_ s o s' :
  reserve grantMax secretMax approvalMax raw at_ s = (o, s') -> reservation_outcome s raw at_ o s'.
Proof.
  unfold reserve, mthen, mlift, mget, mput, mthrow, mreturn.
  destruct (parse _ raw) as [r |] eqn:Hp; [| intros [= <- <-]; constructor].
  apply parse_Return in Hp as [Hok ->].
  destruct (require (bool_decide _) _) eqn:Hst; [| intros [= <- <-]; constructor].
  destruct (require (negb (date_le _ _)) _) eqn:Hexp; [| intros [= <- <-]; constructor].
  destruct (rv_reservations s !! _) as [replay |] eqn:Hrep.
  { destruct (bool_decide (replay = raw)) eqn:Heq; intros [= <- <-]; bools; subst; constructor; [| done].
    unfold require in Hst. destruct (bool_decide (res_state _ = _)) eqn:Hs'; [by bools | done]. }
  destruct (require (negb (has_reservation_id _ _ _)) _) eqn:Hid; [| intros [= <- <-]; constructor].
  destruct (grantMax (res_tenantId raw) (res_grantId raw)) as [g |] eqn:Hg;
    [| intros [= <- <-]; constructor].
  destruct (g <? 1) eqn:Hg1; [intros [= <- <-]; constructor |].
  destruct (match approval_limit approvalMax raw with None => _ | Some _ => _ end) eqn:Hal;
    [| intros [= <- <-]; constructor].
  set (limits := map _ _). destruct (require (negb (existsb _ limits)) _) eqn:Hsl;
    [| intros [= <- <-]; constructor].
  destruct (assertClaimAvailable (rv_grantClaims s) _ _ _ _ g) eqn:Hga;
    [| intros [= <- <-]; constructor].
  destruct (match approval_limit approvalMax raw with Some (_, Some _) => _ | _ => _ end) eqn:Haa;
    [| intros [= <- <-]; constructor].
  destruct (assert_secrets _ _ _ _ limits) as [[] |] eqn:Hsa; [| intros [= <- <-]; constructor].
  rewrite (reserveClaim_admitted _ _ _ _ _ _ _ Hga).
  unfold require in *. destruct (bool_decide (res_state raw = _)) eqn:Hst'; [| done].
  destruct (negb (date_le _ _)) eqn:Hexp'; [| done].
  destruct (negb (has_reservation_id _ _ _)) eqn:Hid'; [| done].
  destruct (negb (existsb _ limits)) eqn:Hsl'; [| done]. bools.
  assert (forall s0 o0 s1, rv_secretClaims s0 = rv_secretClaims s ->
    match reserve_secrets (res_tenantId raw) (res_authorizationKey raw)
      (res_authorizationReservationId raw) limits s0 with
    | (Return _, s2) => (Return raw, put_reservation (res_tenantId raw, res_authorizationKey raw) raw s2)
    | (Throw e, s2) => (Throw e, s2)
    end = (o0, s1) ->
    o0 = Return raw /\ s1 = put_reservation (res_tenantId raw, res_authorizationKey raw) raw
      (set_secretClaims (fold_left (add_claim (res_tenantId raw) (res_authorizationKey raw)
         (res_authorizationReservationId raw)) (res_secretRefIds raw) (rv_secretClaims s)) s0)) as Hsec.
  { intros s0 o0 s1 Hs0. rewrite reserve_secrets_admitted by (try rewrite Hs0; done).
    intros [= <- <-]. split; [done |]. rewrite Hs0. unfold limits. rewrite map_map. cbn. by rewrite map_id. }
  assert (uses_left (rv_grantClaims s) grantMax raw (grant_subjects raw)) as Hug.
  { intros sub ->%list_elem_of_singleton. exists g. split_and!; [done | lia |].
    by eapply assert_uses_left. }
  assert (uses_left (rv_secretClaims s) secretMax raw (res_secretRefIds raw)) as Hus.
  { intros ref Href. destruct (secretMax (res_tenantId raw) ref) as [n |] eqn:Hn.
    - exists n. split_and!; [done | | by eapply assert_secrets_uses].
      destruct (decide (0 < n)) as [| Hn0]; [done |]. exfalso.
      assert (existsb (fun l => no_limit l.2) limits = true) as Hex; [| congruence].
      apply existsb_exists. exists (ref, Some n). split; [| cbn; apply Z.ltb_lt; lia].
      unfold limits. apply in_map_iff. exists ref. rewrite Hn. split; [done |]. by apply list_elem_of_In.
    - exfalso. assert (existsb (fun l => no_limit l.2) limits = true) as Hex; [| congruence].
      apply existsb_exists. exists (ref, None). split; [| done].
      unfold limits. apply in_map_iff. exists ref. rewrite Hn. split; [done |]. by apply list_elem_of_In. }
  unfold approval_limit in *. destruct (res_approvalId raw) as [apId |] eqn:Ha.
  - destruct (approvalMax (res_tenantId raw) apId) as [n |] eqn:Hn; [| done]. cbn in Hal.
    destruct (n <? 1) eqn:Hn1; [done |]. bools. cbn [rv_approvalClaims set_grantClaims].
    rewrite (reserveClaim_admitted _ _ _ _ _ _ _ Haa).
    intros [-> ->]%Hsec; [| done].
    replace (put_reservation _ _ _) with (reserved_store raw s).
    2: { unfold reserved_store, approval_subjects. rewrite Ha. by destruct s. }
    constructor; try done. unfold approval_subjects. rewrite Ha.
    intros sub ->%list_elem_of_singleton. exists n. split_and!; [done | lia |].
    by eapply assert_uses_left.
  - intros [-> ->]%Hsec; [| done].
    replace (put_reservation _ _ _) with (reserved_store raw s).
    2: { unfold reserved_store, approval_subjects. rewrite Ha. by destruct s. }
    constructor; try done. unfold approval_subjects. rewrite Ha. by intros ? ?%not_elem_of_nil.
Qed.

(** C25: reservations are all or nothing.  A reservation that is rejected for any
    reason, a missing limit, a subject without a use left, a clash of keys or
    identifiers, leaves every claim and every reservation as it was, although
    claims are written one subject at a time. *)
Theorem rejected_reservation_leaves_no_trace raw at_ s e s' :
  reserve grantMax secretMax approvalMax raw at_ s = (Throw e, s') -> s' = s.
Proof. intros Hr%reserve_outcome_of. by inversion Hr. Qed.
(** ** Reachable stores *)

Inductive rv_step (s s' : ReservationStore) : Prop :=
| step_reserve raw at_ o : reserve grantMax secretMax approvalMax raw at_ s = (o, s') -> rv_step s s'
| step_consume t k at_ o : consume t k at_ s = (o, s') -> rv_step s s'.

Inductive consume_outcome (t k at_ : string) (s : ReservationStore)
  : outcome js_error AuthorizationReservation -> ReservationStore -> Prop :=
| consume_rejected e : consume_outcome t k at_ s (Throw e) s
| consume_replayed r : rv_reservations s !! (t, k) = Some r -> res_state r = reservation_consumed ->
    consume_outcome t k at_ s (Return r) s
| consume_made r : rv_reservations s !! (t, k) = Some r -> res_state r <> reservation_consumed ->
    date_le (res_expiresAt r) at_ = false ->
    consume_outcome t k at_ s (Return (with_consumed at_ r))
      (put_reservation (t, k) (with_consumed at_ r) s).

Lemma consume_outcome_of t k at_ s o s' : consume t k at_ s = (o, s') -> consume_outcome t k at_ s o s'.
Proof.
  unfold consume, mthen, mget, mlift, mput, mthrow, mreturn, require.
  destruct (rv_reservations s !! (t, k)) as [r |] eqn:Hr; [| intros [= <- <-]; constructor].
  destruct (bool_decide _) eqn:Hst; bools; [intros [= <- <-]; by constructor |].
  destruct (negb (date_le _ _)) eqn:He; bools; [| intros [= <- <-]; constructor].
  destruct (parse _ _) as [r' |] eqn:Hp; [| intros [= <- <-]; constructor].
  apply parse_Return in Hp as [_ ->]. intros [= <- <-]. by constructor.
Qed.

(** The index holds exactly the claims of the stored reservations, each subject
    within its limit. *)
Definition index_ok (subjects : AuthorizationReservation -> list string)
    (limit : string -> string -> option Z) (index : ClaimIndex) (s : ReservationStore) : Prop :=
  (forall t sub k id, claims_of index t sub !! k = Some id <->
     exists r, rv_reservations s !! (t, k) = Some r /\ sub ∈ subjects r
               /\ res_authorizationReservationId r = id)
  /\ (forall t sub, Z.of_nat (size (claims_of index t sub)) <= Z.max 0 (default 0 (limit t sub))).

Definition ids_unique (m : gmap (string * string) AuthorizationReservation) : Prop :=
  forall t k k' r r', m !! (t, k) = Some r -> m !! (t, k') = Some r' ->
    res_authorizationReservationId r = res_authorizationReservationId r' -> k = k'.

Lemma ids_unique_insert m t k r :
  ids_unique m ->
  (forall k' r', k' <> k -> m !! (t, k') = Some r' ->
     res_authorizationReservationId r' <> res_authorizationReservationId r) ->
  ids_unique (<[(t, k) := r]> m).
Proof.
  intros Hm Hf t' k1 k2 r1 r2 H1 H2 He.
  destruct (decide (k1 = k2)) as [| Hne]; [done | exfalso].
  apply lookup_insert_Some in H1, H2.
  destruct H1 as [[E1 E1'] | [Hn1 H1]], H2 as [[E2 E2'] | [Hn2 H2]]; simplify_eq.
  - by apply (Hf k2 r2).
  - by apply (Hf k1 r1).
  - by apply Hne, (Hm _ _ _ _ _ H1 H2).
Qed.

Definition rv_ok (s : ReservationStore) : Prop :=
  index_ok grant_subjects grantMax (rv_grantClaims s) s
  /\ index_ok approval_subjects approvalMax (rv_approvalClaims s) s
  /\ index_ok res_secretRefIds secretMax (rv_secretClaims s) s
  /\ ids_unique (rv_reservations s).

Lemma index_ok_fresh subjects limit index s t k :
  index_ok subjects limit index s -> rv_reservations s !! (t, k) = None ->
  forall sub, claims_of index t sub !! k = None.
Proof.
  intros [Hx _] Hno sub. destruct (_ !! k) as [id |] eqn:Hk; [| done].
  apply Hx in Hk as (r & Hr & _). congruence.
Qed.

Lemma index_ok_reserved subjects limit index s s' r :
  index_ok subjects limit index s ->
  rv_reservations s !! (res_tenantId r, res_authorizationKey r) = None ->
  rv_reservations s' = <[(res_tenantId r, res_authorizationKey r) := r]> (rv_reservations s) ->
  uses_left index limit r (subjects r) ->
  index_ok subjects limit (fold_left (add_claim (res_tenantId r) (res_authorizationKey r)
    (res_authorizationReservationId r)) (subjects r) index) s'.
Proof.
  intros Hok Hno Hs' Hu. pose proof (index_ok_fresh _ _ _ _ _ _ Hok Hno) as Hf.
  destruct Hok as [Hx Hn]. split.
  - intros t sub k id. rewrite Hs'.
    destruct (decide (t = res_tenantId r /\ k = res_authorizationKey r)) as [[-> ->] | Hne].
    + rewrite claims_of_fold by (left; apply Hf). rewrite lookup_insert_eq. case_decide as Hd.
      * rewrite lookup_insert_eq. split; [intros [= <-]; exists r; naive_solver | naive_solver].
      * rewrite Hf. split; [done | naive_solver].
    + rewrite lookup_insert_ne by naive_solver. rewrite <- Hx.
      destruct (decide (t = res_tenantId r)) as [-> | Ht];
        [| by rewrite claims_of_fold, decide_False by naive_solver].
      rewrite claims_of_fold by (left; apply Hf). case_decide; [| done].
      rewrite lookup_insert_ne; [done | naive_solver].
  - intros t sub. destruct (decide (t = res_tenantId r)) as [-> | Ht];
      [| by rewrite claims_of_fold, decide_False by naive_solver].
    rewrite claims_of_fold by (left; apply Hf). case_decide as Hd; [| done].
    rewrite map_size_insert_None by apply Hf.
    destruct (Hu sub) as (n & Hl & Hp & Hlt); [naive_solver |]. rewrite Hl. cbn.
    specialize (Hlt (Hf sub)). lia.
Qed.

Lemma index_ok_replaced subjects limit index s s' t k r r' :
  index_ok subjects limit index s -> rv_reservations s !! (t, k) = Some r ->
  rv_reservations s' = <[(t, k) := r']> (rv_reservations s) -> subjects r' = subjects r ->
  res_authorizationReservationId r' = res_authorizationReservationId r ->
  index_ok subjects limit index s'.
Proof.
  intros [Hx Hn] Hr Hs' Hsub Hid. split; [| done]. intros t' sub k' id. rewrite Hx, Hs'.
  destruct (decide ((t', k') = (t, k))) as [Heq | Hne].
  - injection Heq as -> ->. rewrite Hr, lookup_insert_eq. split; intros (? & [= <-] & ? & ?).
    + exists r'. by rewrite Hsub, Hid.
    + exists r. by rewrite <- Hsub, <- Hid.
  - by rewrite lookup_insert_ne.
Qed.

Lemma with_consumed_fields at_ r :
  grant_subjects (with_consumed at_ r) = grant_subjects r
  /\ approval_subjects (with_consumed at_ r) = approval_subjects r
  /\ res_secretRefIds (with_consumed at_ r) = res_secretRefIds r
  /\ res_authorizationReservationId (with_consumed at_ r) = res_authorizationReservationId r
  /\ res_state (with_consumed at_ r) = reservation_consumed.
Proof. by destruct r. Qed.

Lemma has_reservation_id_false s t id :
  has_reservation_id s t id = false ->
  forall k r, rv_reservations s !! (t, k) = Some r -> res_authorizationReservationId r <> id.
Proof.
  intros Hf k r Hr Hid. assert (has_reservation_id s t id = true) as Ht; [| congruence].
  apply existsb_exists. exists ((t, k), r). split.
  - by apply list_elem_of_In, elem_of_map_to_list.
  - cbn. by rewrite !bool_decide_eq_true_2.
Qed.

Lemma rv_step_ok s s' : rv_ok s -> rv_step s s' -> rv_ok s'.
Proof.
  intros (Hg & Ha & Hs & Hinj) [raw at_ o Hr%reserve_outcome_of | t k at_ o Hc%consume_outcome_of].
  - destruct Hr as [| | _ _ _ Hno Hid Hug Hua Hus]; try done.
    split_and!; [by apply (index_ok_reserved _ _ _ s) .. |].
    apply ids_unique_insert; [done |]. intros k' r' _. by apply has_reservation_id_false.
  - destruct Hc as [| | r Hr Hst Hexp]; try done.
    destruct (with_consumed_fields at_ r) as (F1 & F2 & F3 & F4 & _).
    split_and!; [by apply (index_ok_replaced _ _ _ s _ t k r (with_consumed at_ r)) .. |].
    apply ids_unique_insert; [done |]. intros k' r' Hne Hr' He. rewrite F4 in He.
    by apply Hne, (Hinj _ _ _ _ _ Hr' Hr).
Qed.

Lemma reachable_rv_ok s : steps rv_step empty_reservations s -> rv_ok s.
Proof.
  apply steps_invariant; [apply rv_step_ok |].
  assert (forall subjects limit, index_ok subjects limit ∅ empty_reservations) as Hi.
  { intros subjects limit. split; intros t sub; unfold claims_of; rewrite lookup_empty; cbn [default].
    - intros k id. split; [by rewrite lookup_empty | by intros (r & Hr & _)].
    - rewrite map_size_empty. lia. }
  split_and!; try apply Hi. by intros t k k' r r' Hr.
Qed.

Lemma index_ok_bound subjects limit index s t sub ks :
  index_ok subjects limit index s -> NoDup ks ->
  Forall (fun k => exists r, rv_reservations s !! (t, k) = Some r /\ sub ∈ subjects r) ks ->
  Z.of_nat (length ks) <= Z.max 0 (default 0 (limit t sub)).
Proof.
  intros [Hx Hn] Hnd Hks. specialize (Hn t sub).
  enough (length ks <= size (claims_of index t sub))%nat by lia.
  rewrite <- (size_list_to_set (C := gset string)) by done. rewrite <- size_dom.
  apply subseteq_size. intros k Hk. apply elem_of_list_to_set in Hk.
  rewrite list.Forall_forall in Hks. destruct (Hks k Hk) as (r & Hr & Hsub).
  apply elem_of_dom. exists (res_authorizationReservationId r). apply Hx. by exists r.
Qed.

(** C26: no subject is overused.  In every reachable store the reservations of a
    tenant that name one grant (or one approval, or one secret reference) are at
    most as many as its limit, and none when it has no limit. *)
Theorem reservations_within_limits s t sub ks :
  steps rv_step empty_reservations s -> NoDup ks ->
  let naming subjects :=
    Forall (fun k => exists r, rv_reservations s !! (t, k) = Some r /\ sub ∈ subjects r) ks in
  let within (limit : string -> string -> option Z) :=
    Z.of_nat (length ks) <= Z.max 0 (default 0 (limit t sub)) in
  (naming grant_subjects -> within grantMax)
  /\ (naming approval_subjects -> within approvalMax)
  /\ (naming res_secretRefIds -> within secretMax).
Proof.
  intros (Hg & Ha & Hs & _)%reachable_rv_ok Hnd naming within.
  split_and!; intros Hk; by eapply index_ok_bound.
Qed.

(** Identifiers are unique.  In every reachable store two reservations of a
    tenant under different authorization keys have different identifiers. *)
Lemma reservation_ids_unique s t k k' r r' :
  steps rv_step empty_reservations s ->
  get t k s = Some r -> get t k' s = Some r' -> k <> k' ->
  res_authorizationReservationId r <> res_authorizationReservationId r'.
Proof. intros (_ & _ & _ & Hu)%reachable_rv_ok Hr Hr' Hne He. by apply Hne, (Hu _ _ _ _ _ Hr Hr'). Qed.

(** ** What a stored reservation keeps *)

(** A later version of the same reservation: itself, or consumed. *)
Definition later_version (r r' : AuthorizationReservation) : Prop :=
  r' = r \/ res_state r <> reservation_consumed /\ exists at_, r' = with_consumed at_ r.

Definition rv_extends (s s' : ReservationStore) : Prop :=
  forall t k r, get t k s = Some r -> exists r', get t k s' = Some r' /\ later_version r r'.

Lemma rv_step_extends s s' : rv_step s s' -> rv_extends s s'.
Proof.
  assert (forall s0, rv_extends s0 s0) as Hrefl by (intros s0 t k r Hr; exists r; split; [done | by left]).
  intros [raw at_ o Hr%reserve_outcome_of | t k at_ o Hc%consume_outcome_of].
  - destruct Hr as [| | _ _ _ Hno _ _ _ _]; try apply Hrefl. intros t k r Hr. exists r.
    split; [| by left]. unfold get in *. cbn. rewrite lookup_insert_ne; [done | congruence].
  - destruct Hc as [| | r Hr Hst _]; try apply Hrefl. intros t' k' r' Hr'. unfold get in *. cbn.
    destruct (decide ((t, k) = (t', k'))) as [Heq | Hne].
    + injection Heq as <- <-. rewrite lookup_insert_eq. eexists. split; [done |]. right.
      assert (r' = r) as -> by congruence. eauto.
    + rewrite lookup_insert_ne by done. exists r'. split; [done | by left].
Qed.

Lemma rv_steps_extend s s' : steps rv_step s s' -> rv_extends s s'.
Proof.
  apply (steps_invariant _ (rv_extends s)).
  - intros s1 s2 H1 H2%rv_step_extends t k r Hr.
    destruct (H1 _ _ _ Hr) as (r1 & Hr1 & L1). destruct (H2 _ _ _ Hr1) as (r2 & Hr2 & L2).
    exists r2. split; [done |]. destruct L1 as [-> | [Hst [at1 ->]]]; [done |].
    destruct L2 as [-> | [Hst2 _]]; [right; eauto |].
    by destruct Hst2, (with_consumed_fields at1 r) as (_ & _ & _ & _ & ->).
  - intros t k r Hr. exists r. split; [done | by left].
Qed.

(** Consumption is final.  Once consumed, a reservation is returned unchanged
    by every later reading and every later consumption, whatever the clock says,
    and its authorization key can never be reserved again, not even by a replay
    of the original reservation. *)
Theorem consumed_is_final s s1 s2 t k at_ r :
  consume t k at_ s = (Return r, s1) -> steps rv_step s1 s2 ->
  res_state r = reservation_consumed
  /\ get t k s2 = Some r
  /\ (forall at', consume t k at' s2 = (Return r, s2))
  /\ (forall raw at', res_tenantId raw = t -> res_authorizationKey raw = k ->
       exists e, reserve grantMax secretMax approvalMax raw at' s2 = (Throw e, s2)).
Proof.
  intros Hc%consume_outcome_of Hs%rv_steps_extend.
  assert (res_state r = reservation_consumed /\ get t k s1 = Some r) as [Hst Hr].
  { inversion Hc as [| r' Hr Hst | r' Hr Hst Hexp]; subst; [done |]. split.
    - by destruct r'.
    - unfold get. cbn. by rewrite lookup_insert_eq. }
  destruct (Hs _ _ _ Hr) as (r' & Hr' & [-> | [? _]]); [| done]. split_and!; [done | done | |].
  - intros at'. unfold consume, mthen, mget, mreturn. unfold get in Hr'. rewrite Hr'.
    by rewrite bool_decide_eq_true_2.
  - intros raw at' <- <-. unfold get in Hr'.
    destruct (reserve grantMax secretMax approvalMax raw at' s2) as [o s3] eqn:Hres.
    apply reserve_outcome_of in Hres. destruct Hres as [e | Hraw Hrep | _ _ _ Hno _ _ _ _];
      [by exists e | congruence | congruence].
Qed.

(** Reserving is idempotent.  Once reserved, a reservation stays stored: until
    it is consumed, replaying the request before it expires returns it and changes
    nothing, so it claims no second use; once consumed, the replay is refused. *)
Theorem reserve_is_idempotent s s1 s2 r at1 at2 :
  reserve grantMax secretMax approvalMax r at1 s = (Return r, s1) -> steps rv_step s1 s2 ->
  date_le (res_expiresAt r) at2 = false ->
  (get (res_tenantId r) (res_authorizationKey r) s2 = Some r
   /\ reserve grantMax secretMax approvalMax r at2 s2 = (Return r, s2))
  \/ (exists at', get (res_tenantId r) (res_authorizationKey r) s2 = Some (with_consumed at' r)
     /\ exists e, reserve grantMax secretMax approvalMax r at2 s2 = (Throw e, s2)).
Proof.
  intros Hr Hs%rv_steps_extend Hexp.
  assert (get (res_tenantId r) (res_authorizationKey r) s1 = Some r
          /\ res_state r = reservation_reserved) as [Hget Hst].
  { apply reserve_outcome_of in Hr. inversion Hr; subst; [done |]. split; [| done].
    unfold get. cbn. by rewrite lookup_insert_eq. }
  destruct (Hs _ _ _ Hget) as (r' & Hget' & [-> | [_ [at' ->]]]).
  - left. split; [done |]. unfold get in Hget'.
    unfold reserve, mthen, mget, mput, mlift, mreturn, mthrow in *.
    destruct (parse _ r) as [r' |] eqn:Hp; [| done]. apply parse_Return in Hp as [_ ->].
    destruct (require (bool_decide _) _) eqn:Hst'; [| done].
    rewrite Hexp, Hget'. cbn. by rewrite bool_decide_eq_true_2.
  - right. exists at'. split; [done |]. unfold get in Hget'.
    destruct (reserve grantMax secretMax approvalMax r at2 s2) as [o s3] eqn:Hres.
    destruct (with_consumed_fields at' r) as (_ & _ & _ & _ & Hc).
    apply reserve_outcome_of in Hres. destruct Hres as [e | _ Hrep | _ _ _ Hno _ _ _ _];
      [by exists e | congruence | congruence].
Qed.
End Operations.

(** ** Examples of authority, grants and reservations

    Concrete executions at which the hypotheses of the properties of authority
    contexts, of the grant store and of authorization reservations hold. *)

#[local] Existing Instance zod_reference.
#[local] Existing Instance unicode_ascii.

(** ** Authority contexts *)

Definition example_claims : AuthorityClaims :=
  {| cl_issuerId := "unset"; cl_actor := example_principal; cl_subject := None;
     cl_tenant := {| tenant_id := "tenant-1" |}; cl_authenticatedAt := "2026-09-04T09:59:00.000Z";
     cl_authenticationStrength := phishing_resistant; cl_decisionRoles := ["lead"];
     cl_requestCorrelationId := "request-1"; cl_issuedAt := "2026-09-04T10:00:00.000Z";
     cl_expiresAt := "2026-09-04T11:00:00.000Z"; cl_runScope := None |}.

Definition issuer1 : AuthorityIssuer := {| ai_issuerId := "issuer"; ai_issuerProof := 0%nat |}.
Definition module0 : AuthorityModule := (createAuthorityIssuer "issuer" empty_module).2.
Definition module1 : AuthorityModule := (issue issuer1 example_claims module0).2.

Lemma module0_reachable : steps am_step empty_module module0.
Proof.
  eapply steps_cons; [| apply steps_refl].
  exact (step_createIssuer _ _ "issuer" _ (surjective_pairing _)).
Qed.

Lemma authority_unforgeable_witness :
  exists claims, verify issuer1 (js_object 1%nat) (Date_parse "2026-09-04T10:30:00.000Z") module1
    = verification_valid claims
  /\ verify {| ai_issuerId := "issuer"; ai_issuerProof := 7%nat |} (js_object 1%nat)
       (Date_parse "2026-09-04T10:30:00.000Z") module1 = verification_invalid other_issuer.
Proof.
  assert (issue issuer1 example_claims module0 = (Return 1%nat, module1)) as Hi
    by (vm_compute; reflexivity).
  destruct (authority_unforgeable _ _ _ _ _ _ module0_reachable Hi (steps_refl _ _))
    as (claims & _ & _ & Hother & _).
  eexists. split; [vm_compute; reflexivity |]. apply Hother. cbn. discriminate.
Defined.

(** ** The grant store *)

Definition grants0 : gmap (string * string) StoredGrant := (grant_issue example_grant ∅).2.
Definition at1 : string := "2026-09-04T10:02:00.000Z".
Definition at2 : string := "2026-09-04T12:00:00.000Z".

Definition claim1 : CapabilityGrantUseClaim :=
  {| uc_grantId := "grant-1"; uc_authorizationKey := "key-1"; uc_useNumber := 1;
     uc_claimedAt := at1 |}.
Definition grants1 : gmap (string * string) StoredGrant :=
  (grant_reserveUse "tenant-1" "grant-1" "key-1" at1 grants0).2.
Definition grants2 : gmap (string * string) StoredGrant :=
  (grant_revoke "tenant-1" "grant-1" at1 grants1).2.

Lemma claim1_made :
  grant_reserveUse "tenant-1" "grant-1" "key-1" at1 grants0 = (Return claim1, grants1).
Proof.
  assert ((grant_reserveUse "tenant-1" "grant-1" "key-1" at1 grants0).1 = Return claim1) as <-
    by (vm_compute; reflexivity).
  exact (surjective_pairing _).
Qed.

Lemma grants2_revoked : grant_revoke "tenant-1" "grant-1" at1 grants1 = (Return tt, grants2).
Proof.
  assert ((grant_revoke "tenant-1" "grant-1" at1 grants1).1 = Return tt) as <-
    by (vm_compute; reflexivity).
  exact (surjective_pairing _).
Qed.

Lemma grants1_reachable : steps gs_step ∅ grants1.
Proof.
  eapply steps_cons; [exact (step_grant_issue _ _ example_grant _ (surjective_pairing _)) |].
  eapply steps_cons; [exact (step_grant_reserve _ _ _ _ _ _ _ claim1_made) | apply steps_refl].
Qed.

Lemma uses_bounded_witness : exists st, grants1 !! ("tenant-1", "grant-1") = Some st
  /\ claims_used st = 1 /\ claims_used st <= gr_maximumUses (sg_grant st).
Proof.
  destruct (grants1 !! ("tenant-1", "grant-1")) as [st |] eqn:Hst; [| vm_compute in Hst; discriminate].
  exists st. split; [reflexivity |]. split.
  - vm_compute in Hst. injection Hst as <-. vm_compute. reflexivity.
  - exact (proj1 (uses_bounded _ _ _ _ grants1_reachable Hst)).
Defined.

Lemma claim_is_stable_witness :
  grant_reserveUse "tenant-1" "grant-1" "key-1" at2 grants2 = (Return claim1, grants2)
  /\ isReturn (grant_reserveUse "tenant-1" "grant-1" "key-2" at2 grants2).1 = false.
Proof.
  split; [| vm_compute; reflexivity].
  refine (claim_is_stable _ _ _ _ _ _ _ _ _ claim1_made _).
  eapply steps_cons; [exact (step_grant_revoke _ _ _ _ _ _ grants2_revoked) | apply steps_refl].
Defined.

Lemma claim1_replayed :
  grant_reserveUse "tenant-1" "grant-1" "key-1" at2 grants2
  = (Return claim1, (grant_reserveUse "tenant-1" "grant-1" "key-1" at2 grants2).2).
Proof.
  assert ((grant_reserveUse "tenant-1" "grant-1" "key-1" at2 grants2).1 = Return claim1) as <-
    by (vm_compute; reflexivity).
  exact (surjective_pairing _).
Qed.

Lemma revoked_grants_nothing_witness :
  (grant_reserveUse "tenant-1" "grant-1" "key-1" at2 grants2).2 = grants2.
Proof.
  exact (proj1 (proj2 (revoked_grants_nothing _ _ _ _ _ _ grants2_revoked (steps_refl _ _)) _ _ _ _
    claim1_replayed)).
Defined.

Lemma active_resolution_honoured_witness :
  grant_resolve "grant-1" example_binding at1 grants0 = Return (resolution_active example_grant 2)
  /\ exists c s', grant_reserveUse "tenant-1" "grant-1" "key-1" at1 grants0 = (Return c, s')
     /\ uc_useNumber c = 1.
Proof.
  assert (grant_resolve "grant-1" example_binding at1 grants0
          = Return (resolution_active example_grant 2)) as Hr by (vm_compute; reflexivity).
  split; [exact Hr |].
  destruct (active_resolution_honoured _ _ _ _ _ _ "key-1" Hr)
    as (b' & b'' & st & Hb & _ & _ & Hst & _ & _ & _ & Hc).
  assert (b' = example_binding) as -> by (vm_compute in Hb; injection Hb as <-; reflexivity).
  destruct Hc as (c & s' & Hcl & Hn & _).
  - vm_compute in Hst. injection Hst as <-. vm_compute. reflexivity.
  - exists c, s'. split; [exact Hcl | rewrite Hn; reflexivity].
Defined.

(** ** Authorization reservations *)

Definition two_uses (tenantId subjectId : string) : option Z := Some 2.

Definition example_reservation (id key : string) : AuthorizationReservation := {|
  res_authorizationReservationId := id; res_authorizationKey := key; res_tenantId := "tenant-1";
  res_runId := "run-1"; res_stepId := "step-1"; res_toolCallId := "call-1"; res_effectKey := None;
  res_workOrderBindingDigest := example_digest; res_executionDefinition := example_agent;
  res_executionDefinitionDigest := example_digest; res_toolId := "mail.send@1";
  res_toolVersion := "1"; res_toolRegistrationDigest := example_digest;
  res_policyRegistrationDigest := example_digest; res_argumentsDigest := example_digest;
  res_normalizedTargetDigest := example_digest; res_grantId := "grant-1";
  res_approvalId := Some "approval-1"; res_secretRefIds := ["smtp"];
  res_purposeCode := "support"; res_purposeRegistryVersion := "1";
  res_state := reservation_reserved; res_createdAt := "2026-09-04T10:01:00.000Z";
  res_expiresAt := "2026-09-04T11:00:00.000Z"; res_consumedAt := None |}.

Definition reserve_two := reserve two_uses two_uses two_uses.

Definition reservations1 : ReservationStore :=
  (reserve_two (example_reservation "r-1" "key-1") at1 empty_reservations).2.
Definition reservations2 : ReservationStore := (consume "tenant-1" "key-1" at1 reservations1).2.

Lemma reservation1_made :
  reserve_two (example_reservation "r-1" "key-1") at1 empty_reservations
  = (Return (example_reservation "r-1" "key-1"), reservations1).
Proof. vm_compute. reflexivity. Qed.

Lemma reservations1_reachable :
  steps (rv_step two_uses two_uses two_uses) empty_reservations reservations1.
Proof.
  eapply steps_cons; [| apply steps_refl].
  exact (step_reserve two_uses two_uses two_uses _ _ _ _ _ reservation1_made).
Qed.

Lemma reservation1_consumed :
  consume "tenant-1" "key-1" at1 reservations1
  = (Return (with_consumed at1 (example_reservation "r-1" "key-1")), reservations2).
Proof. vm_compute. reflexivity. Qed.

Definition reservations12 : ReservationStore :=
  (reserve_two (example_reservation "r-2" "key-2") at1 reservations1).2.

Lemma reservations12_reachable :
  steps (rv_step two_uses two_uses two_uses) empty_reservations reservations12.
Proof.
  eapply steps_snoc; [exact reservations1_reachable |].
  exact (step_reserve two_uses two_uses two_uses _ _ (example_reservation "r-2" "key-2") at1 _
    (surjective_pairing _)).
Qed.

Lemma stored12 :
  get "tenant-1" "key-1" reservations12 = Some (example_reservation "r-1" "key-1")
  /\ get "tenant-1" "key-2" reservations12 = Some (example_reservation "r-2" "key-2").
Proof. vm_compute. split; reflexivity. Qed.

Lemma rejected_reservation_leaves_no_trace_witness :
  (reserve_two (example_reservation "r-3" "key-3") at1 reservations12).2 = reservations12.
Proof.
  assert (isReturn (reserve_two (example_reservation "r-3" "key-3") at1 reservations12).1
    = false) as Hf by (vm_compute; reflexivity).
  destruct (reserve_two (example_reservation "r-3" "key-3") at1 reservations12) as [[r | e] s] eqn:Hr.
  - discriminate Hf.
  - exact (rejected_reservation_leaves_no_trace two_uses two_uses two_uses _ _ _ _ _ Hr).
Defined.

Lemma reservations_within_limits_witness :
  Z.of_nat (length ["key-1"; "key-2"]) <= Z.max 0 (default 0 (two_uses "tenant-1" "grant-1")).
Proof.
  refine (proj1 (reservations_within_limits two_uses two_uses two_uses _ "tenant-1" "grant-1"
    ["key-1"; "key-2"] reservations12_reachable _) _).
  - apply (bool_decide_unpack _). vm_compute. exact I.
  - destruct stored12 as [H1 H2].
    constructor; [eexists; split; [exact H1 | left] |].
    constructor; [eexists; split; [exact H2 | left] | constructor].
Defined.

Lemma reservation_ids_unique_witness : "r-1" <> "r-2".
Proof.
  destruct stored12 as [H1 H2].
  exact (reservation_ids_unique two_uses two_uses two_uses _ _ _ _ _ _ reservations12_reachable H1 H2
    ltac:(discriminate)).
Defined.

Lemma consumed_is_final_witness :
  get "tenant-1" "key-1" reservations2 = Some (with_consumed at1 (example_reservation "r-1" "key-1"))
  /\ forall at', (consume "tenant-1" "key-1" at' reservations2).2 = reservations2.
Proof.
  destruct (consumed_is_final two_uses two_uses two_uses _ _ _ _ _ _ _ reservation1_consumed
    (steps_refl _ _)) as (_ & Hg & Hc & _).
  split; [exact Hg |]. intros at'. rewrite (Hc at'). reflexivity.
Defined.

Lemma reserve_is_idempotent_witness :
  reserve_two (example_reservation "r-1" "key-1") "2026-09-04T10:59:00.000Z" reservations1
  = (Return (example_reservation "r-1" "key-1"), reservations1).
Proof.
  destruct (reserve_is_idempotent two_uses two_uses two_uses _ _ _ _ _ "2026-09-04T10:59:00.000Z"
    reservation1_made (steps_refl _ _) eq_refl) as [[_ H] | (at' & H & _)]; [exact H |].
  vm_compute in H. discriminate H.
Defined.
