(* ===== verification/JsNumber.v ===== *)
(** * Numbers as text

    The two conversions of the host language that JSON relies on: the text of a
    double (Number::toString, radix 10: the shortest decimal that reads back,
    the closest one when there are two) and the double nearest to a decimal. *)

From S2P Require Import Prelude JsonValue.

Local Open Scope Z_scope.

(** ** Decimal digits, as values 0 to 9, most significant first *)

Definition of_digits (ds : list Z) : Z := fold_left (fun n d => 10 * n + d) ds 0.

Fixpoint digits_fuel (fuel : nat) (n : Z) (acc : list Z) : list Z :=
  match fuel with
  | O => acc
  | S f => if n <? 10 then n :: acc else digits_fuel f (n / 10) (n mod 10 :: acc)
  end.

(** The digits of [n >= 0], without leading zero. *)
Definition to_digits (n : Z) : list Z := digits_fuel (S (Z.to_nat (Z.log2 n))) n [].

Definition digit_unit (d : Z) : N := Z.to_N (48 + d).
Definition digits_text (ds : list Z) : jsstring := map digit_unit ds.

(** ** Reading: the double nearest to a decimal *)

(** The double nearest to [num / den], ties to even. *)
Definition nearest (neg : bool) (num den : positive) : spec_float :=
  let '(q, e, l) := SFdiv_core_binary 53 1024 (Zpos num) 0 (Zpos den) 0 in
  binary_round_aux 53 1024 neg q e l.

(** The double nearest to [(-1)^neg * s * 10^exponent]. *)
Definition decimal_value (neg : bool) (s exponent : Z) : spec_float :=
  match s with
  | Zpos p =>
      if exponent <? 0 then nearest neg p (Z.to_pos (10 ^ (- exponent)))
      else nearest neg (Z.to_pos (s * 10 ^ exponent)) 1
  | _ => S754_zero neg
  end.

(** ** Writing *)

(** The decimal [S * 10^E] equal to [m * 2^e]. *)
Definition exact_decimal (m : positive) (e : Z) : Z * Z :=
  if 0 <=? e then (Zpos m * 2 ^ e, 0) else (Zpos m * 5 ^ (- e), e).

Section Shortest.
(** The exact value of [x] is [S0 * 10^E0], where [S0] has [L] digits. *)
Context (x : spec_float) (S0 E0 L : Z).

(** [10^k] has one digit too many: it is [10^(k-1)], one place further left. *)
Definition candidate (k s : Z) : Z * Z :=
  if s =? 10 ^ k then (10 ^ (k - 1), E0 + (L - k) + 1) else (s, E0 + (L - k)).

Definition reads_back (c : Z * Z) : bool := bool_decide (decimal_value false c.1 c.2 = x).

Fixpoint shortest_from (fuel : nat) (k : Z) : Z * Z :=
  let scale := 10 ^ (L - k) in
  let lo := candidate k (S0 / scale) in
  let hi := candidate k (S0 / scale + 1) in
  match reads_back lo, reads_back hi with
  | true, true =>
      match 2 * (S0 mod scale) ?= scale with
      | Lt => lo
      | Gt => hi
      | Eq => if Z.even (S0 / scale) then lo else hi
      end
  | true, false => lo
  | false, true => hi
  | false, false =>
      match fuel with
      | O => (S0, E0)
      | S f => shortest_from f (k + 1)
      end
  end.

End Shortest.

(** Every width up to that of the exact decimal is tried. *)
Definition shortest (x : spec_float) (S0 E0 : Z) : Z * Z :=
  let L := length (to_digits S0) in shortest_from x S0 E0 (Z.of_nat L) L 1.

Definition zeros (n : Z) : jsstring := replicate (Z.to_nat n) 48%N.

Definition dot : N := 46.
Definition minus : N := 45.
Definition plus : N := 43.
Definition letter_e : N := 101.

(** The digits [ds] with the decimal point after [n] of them. *)
Definition format_number (ds : jsstring) (n : Z) : jsstring :=
  let k := Z.of_nat (length ds) in
  if (k <=? n) && (n <=? 21) then ds ++ zeros (n - k)
  else if (0 <? n) && (n <=? 21) then take (Z.to_nat n) ds ++ dot :: drop (Z.to_nat n) ds
  else if (-6 <? n) && (n <=? 0) then 48%N :: dot :: zeros (- n) ++ ds
  else
    take 1 ds ++ (if k =? 1 then [] else dot :: drop 1 ds)
    ++ letter_e :: (if n - 1 <? 0 then minus else plus) :: digits_text (to_digits (Z.abs (n - 1))).

(** The text of a finite double; both zeros are [0]. *)
Definition number_text (x : spec_float) : jsstring :=
  match x with
  | S754_finite neg m e =>
      let '(s0, e0) := exact_decimal m e in
      let '(s, p) := shortest (S754_finite false m e) s0 e0 in
      let ds := to_digits s in
      (if neg then [minus] else [])
      ++ format_number (digits_text ds) (p + Z.of_nat (length ds))
  | S754_zero _ => [48%N]
  | S754_infinity neg => (if neg then [minus] else []) ++ js "Infinity"
  | S754_nan => js "NaN"
  end.

(** ** Number tokens *)

Record decimal_token := {
  tk_negative : bool;
  tk_integer : list Z;
  tk_fraction : list Z;
  tk_exponent : Z;
}.

Definition is_digit_unit (c : N) : bool := (48 <=? c)%N && (c <=? 57)%N.
Definition digit_of (c : N) : Z := Z.of_N c - 48.

(** The longest run of digits. *)
Fixpoint scan_digits (s : jsstring) : list Z * jsstring :=
  match s with
  | c :: s' => if is_digit_unit c then let '(ds, rest) := scan_digits s' in (digit_of c :: ds, rest)
               else ([], s)
  | [] => ([], [])
  end.

(** [(?:\.\d+)?] *)
Definition scan_fraction (s : jsstring) : list Z * jsstring :=
  match s with
  | c :: s' =>
      if (c =? dot)%N then
        match scan_digits s' with ([], _) => ([], s) | (ds, rest) => (ds, rest) end
      else ([], s)
  | [] => ([], [])
  end.

Definition scan_sign (s : jsstring) : bool * jsstring :=
  match s with
  | c :: s' => if (c =? minus)%N then (true, s') else if (c =? plus)%N then (false, s') else (false, s)
  | [] => (false, [])
  end.

(** [(?:[eE][+-]?\d+)?] *)
Definition scan_exponent (s : jsstring) : Z * jsstring :=
  match s with
  | c :: s' =>
      if (c =? 101)%N || (c =? 69)%N then
        let '(neg, s'') := scan_sign s' in
        match scan_digits s'' with
        | ([], _) => (0, s)
        | (ds, rest) => ((if neg then - of_digits ds else of_digits ds), rest)
        end
      else (0, s)
  | [] => (0, [])
  end.

Definition scan_tail (neg : bool) (int : list Z) (s : jsstring) : decimal_token * jsstring :=
  let '(frac, s1) := scan_fraction s in
  let '(exp, s2) := scan_exponent s1 in
  ({| tk_negative := neg; tk_integer := int; tk_fraction := frac; tk_exponent := exp |}, s2).

(** The longest prefix of [s] that is a number of the JSON grammar: a sign, an
    integer without leading zeros, a fraction, an exponent. *)
Definition scan_number (s : jsstring) : option (decimal_token * jsstring) :=
  let '(neg, s1) := match s with
                    | c :: s' => if (c =? minus)%N then (true, s') else (false, s)
                    | [] => (false, [])
                    end in
  match s1 with
  | c :: s2 =>
      if (c =? 48)%N then Some (scan_tail neg [0] s2)
      else
        match scan_digits s1 with
        | ([], _) => None
        | (int, rest) => Some (scan_tail neg int rest)
        end
  | [] => None
  end.

(** [Number(token)] *)
Definition token_value (t : decimal_token) : spec_float :=
  decimal_value (tk_negative t) (of_digits (tk_integer t ++ tk_fraction t))
    (tk_exponent t - Z.of_nat (length (tk_fraction t))).

(** ** Classification *)

(** [Number.isInteger] and [Number.isSafeInteger] *)
Definition is_integer (x : spec_float) : bool :=
  match x with
  | S754_zero _ => true
  | S754_finite _ m e => (0 <=? e) || (Zpos m mod 2 ^ (- e) =? 0)
  | _ => false
  end.

Definition integer_value (x : spec_float) : Z :=
  match x with
  | S754_finite neg m e =>
      let n := if 0 <=? e then Zpos m * 2 ^ e else Zpos m / 2 ^ (- e) in
      if neg then - n else n
  | _ => 0
  end.

Definition is_safe_number (x : spec_float) : bool :=
  is_integer x && (Z.abs (integer_value x) <=? 9007199254740991).
