(* ===== verification/JsNumberFacts.v ===== *)
(** * Facts about numbers as text

    An exact decimal of a double reads back as that double, so the search for
    the shortest decimal always succeeds; the text of a finite double is one
    number token, and its value is the double. *)

From S2P Require Import Prelude JsonValue JsNumber.

Local Open Scope Z_scope.

(** A double that exists: its mantissa and exponent are those of the format. *)
Definition is_double (x : spec_float) : bool := valid_binary 53 1024 x.

(** ** Rounding a value that needs none *)

Lemma digits2_pos_bounds p : 2 ^ (Zpos (digits2_pos p) - 1) <= Zpos p < 2 ^ Zpos (digits2_pos p).
Proof.
  induction p as [p IH | p IH |]; cbn [digits2_pos]; rewrite ?Pos2Z.inj_succ; [| | done].
  all: replace (Z.succ (Zpos (digits2_pos p)) - 1) with (Zpos (digits2_pos p)) by lia;
    rewrite Z.pow_succ_r by lia;
    replace (Zpos (digits2_pos p)) with (1 + (Zpos (digits2_pos p) - 1)) in IH at 1 by lia;
    assert (2 ^ Zpos (digits2_pos p) = 2 * 2 ^ (Zpos (digits2_pos p) - 1)) as He
      by (rewrite <- Z.pow_succ_r by lia; f_equal; lia);
    replace (1 + (Zpos (digits2_pos p) - 1) - 1) with (Zpos (digits2_pos p) - 1) in IH by lia; lia.
Qed.

Lemma digits2_unique z n : 0 < n -> 2 ^ (n - 1) <= z < 2 ^ n -> Zdigits2 z = n.
Proof.
  intros Hn Hz. destruct z as [| p | p]; [lia | | lia]. cbn.
  pose proof (digits2_pos_bounds p) as Hp. set (d := Zpos (digits2_pos p)) in *.
  destruct (Z.lt_trichotomy d n) as [Hlt | [-> | Hgt]]; [| done |].
  - assert (2 ^ d <= 2 ^ (n - 1)) by (apply Z.pow_le_mono_r; lia). lia.
  - assert (2 ^ n <= 2 ^ (d - 1)) by (apply Z.pow_le_mono_r; lia). lia.
Qed.

Lemma digits2_shift m k : 0 <= k -> Zdigits2 (Zpos m * 2 ^ k) = Zpos (digits2_pos m) + k.
Proof.
  intros Hk. apply digits2_unique; [lia |]. pose proof (digits2_pos_bounds m) as [Hl Hu].
  replace (Zpos (digits2_pos m) + k - 1) with (Zpos (digits2_pos m) - 1 + k) by lia.
  assert (0 < 2 ^ k) by lia. rewrite !Z.pow_add_r by lia. nia.
Qed.

Lemma shr_1_double z : 0 <= z -> shr_1 (Build_shr_record (2 * z) false false) = Build_shr_record z false false.
Proof. by destruct z. Qed.

Lemma iter_pos_nat {A} (f : A -> A) p x : SpecFloat.iter_pos f p x = Nat.iter (Pos.to_nat p) f x.
Proof.
  revert x. induction p as [p IH | p IH |]; intros x; cbn [SpecFloat.iter_pos]; [| | done].
  - rewrite !IH, Pos2Nat.inj_xI. rewrite <- Nat.iter_add.
    replace (S (2 * Pos.to_nat p)) with ((Pos.to_nat p + Pos.to_nat p) + 1)%nat by lia.
    by rewrite (Nat.iter_add _ 1).
  - rewrite !IH, Pos2Nat.inj_xO, <- Nat.iter_add. f_equal. lia.
Qed.

Lemma shr_exact z k e :
  0 <= z -> 0 <= k -> shr (Build_shr_record (z * 2 ^ k) false false) e k = (Build_shr_record z false false, e + k).
Proof.
  intros Hz Hk. destruct k as [| p | p]; [by rewrite Z.mul_1_r, Z.add_0_r | | lia]. cbn [shr].
  f_equal. rewrite iter_pos_nat. rewrite <- (positive_nat_Z p). generalize (Pos.to_nat p) as n.
  intros n. clear Hk. induction n as [| n IH]; [cbn; f_equal; lia |].
  rewrite Nat.iter_succ_r. rewrite Nat2Z.inj_succ, Z.pow_succ_r by lia.
  replace (z * (2 * 2 ^ Z.of_nat n)) with (2 * (z * 2 ^ Z.of_nat n)) by lia.
  rewrite shr_1_double by lia. done.
Qed.

Lemma round_exact neg m e e' :
  bounded 53 1024 m e = true -> e' <= e ->
  binary_round_aux 53 1024 neg (Zpos m * 2 ^ (e - e')) e' loc_Exact = S754_finite neg m e.
Proof.
  unfold bounded, canonical_mantissa. intros [Hc Hb]%andb_true_iff He.
  apply Z.eqb_eq in Hc. apply Z.leb_le in Hb.
  unfold binary_round_aux, shr_fexp. rewrite digits2_shift by lia.
  replace (Zpos (digits2_pos m) + (e - e') + e') with (Zpos (digits2_pos m) + e) by lia.
  rewrite Hc. cbn [shr_record_of_loc]. rewrite shr_exact by lia. cbn [shr_m loc_of_shr_record round_nearest_even].
  replace (e' + (e - e')) with e by lia. cbn [Zdigits2]. rewrite Hc, Z.sub_diag.
  cbn [shr shr_m shr_record_of_loc]. by apply Z.leb_le in Hb as ->.
Qed.

Lemma fexp_mono a b : a <= b -> fexp 53 1024 a <= fexp 53 1024 b.
Proof. unfold fexp. lia. Qed.

(** The double nearest to a ratio that is a double is that double. *)
Lemma nearest_exact neg num den m e :
  bounded 53 1024 m e = true ->
  Zpos num * 2 ^ Z.max 0 (- e) = Zpos m * 2 ^ Z.max 0 e * Zpos den ->
  nearest neg num den = S754_finite neg m e.
Proof.
  intros Hb Heq. unfold nearest, SFdiv_core_binary. rewrite !Z.add_0_r.
  set (e' := Z.min _ _). change (0 - 0) with 0 in *.
  assert (e' <= e) as Hle.
  { assert (Zpos (digits2_pos num) - Zpos (digits2_pos den) <= Zpos (digits2_pos m) + e) as Hd.
    { pose proof (digits2_pos_bounds num) as [Hn _]. pose proof (digits2_pos_bounds den) as [_ Hd].
      pose proof (digits2_pos_bounds m) as [_ Hm].
      set (dn := Zpos (digits2_pos num)) in *. set (dd := Zpos (digits2_pos den)) in *.
      set (dm := Zpos (digits2_pos m)) in *.
      destruct (Z.le_gt_cases (dn - dd) (dm + e)) as [| Hgt]; [done | exfalso].
      assert (2 ^ (dn - 1) * 2 ^ Z.max 0 (- e) < 2 ^ dm * 2 ^ Z.max 0 e * 2 ^ dd) as Hlt.
      { apply Z.le_lt_trans with (Zpos num * 2 ^ Z.max 0 (- e)).
        - apply Z.mul_le_mono_nonneg_r; lia.
        - rewrite Heq. apply Z.mul_lt_mono_nonneg; [lia | | lia | done].
          apply Z.mul_lt_mono_pos_r; lia. }
      rewrite <- !Z.pow_add_r in Hlt by lia. apply Z.pow_lt_mono_r_iff in Hlt; lia. }
    apply Z.le_trans with (1 := Z.le_min_l _ _). apply fexp_mono in Hd.
    unfold bounded, canonical_mantissa in Hb. apply andb_true_iff in Hb as [Hc _].
    apply Z.eqb_eq in Hc. cbn [Zdigits2]. lia. }
  assert (e' <= 0) as H0 by (apply Z.le_min_r).
  assert (match 0 - e' with
          | Zpos _ => Z.shiftl (Zpos num) (0 - e') | 0 => Zpos num | Zneg _ => 0
          end = Zpos m * 2 ^ (e - e') * Zpos den) as ->.
  { assert (Zpos num * 2 ^ (- e') = Zpos m * 2 ^ (e - e') * Zpos den) as Hx.
    { destruct (Z.le_gt_cases 0 e).
      - rewrite (Z.max_l 0 (- e)), (Z.max_r 0 e) in Heq by lia.
        replace (e - e') with (e + - e') by lia. rewrite Z.pow_add_r by lia. nia.
      - rewrite (Z.max_r 0 (- e)), (Z.max_l 0 e) in Heq by lia.
        replace (- e') with (- e + (e - e')) by lia. rewrite Z.pow_add_r by lia. nia. }
    rewrite <- Hx. replace (0 - e') with (- e') by lia.
    destruct (- e') as [| p | p] eqn:Hs; [lia | by rewrite Z.shiftl_mul_pow2 | lia]. }
  destruct (Z.div_eucl _ _) as [q r] eqn:Hqr.
  pose proof (Z.div_mul (Zpos m * 2 ^ (e - e')) (Zpos den) ltac:(lia)) as Hq.
  pose proof (Z.mod_mul (Zpos m * 2 ^ (e - e')) (Zpos den) ltac:(lia)) as Hr.
  unfold Z.div in Hq. unfold Z.modulo in Hr. rewrite Hqr in Hq, Hr. subst q r.
  assert (new_location (Zpos den) 0 = loc_Exact) as ->
    by (unfold new_location; by destruct (Z.even _)).
  by apply round_exact.
Qed.

Lemma decimal_value_exact neg m e s p :
  bounded 53 1024 m e = true -> exact_decimal m e = (s, p) ->
  0 < s /\ decimal_value neg s p = S754_finite neg m e.
Proof.
  intros Hb. unfold exact_decimal. destruct (0 <=? e) eqn:He; bools; intros [= <- <-].
  - assert (0 < Zpos m * 2 ^ e) as Hpos by lia. split; [done |].
    destruct (Zpos m * 2 ^ e) as [| z | z] eqn:Hz; [lia | | lia]. cbn [decimal_value].
    change (0 <? 0) with false. cbv iota. rewrite Z.mul_1_r. cbn [Z.to_pos].
    apply nearest_exact; [done |]. rewrite (Z.max_l 0 (- e)), (Z.max_r 0 e) by lia. lia.
  - assert (0 < 5 ^ (- e)) by lia. assert (0 < Zpos m * 5 ^ (- e)) as Hpos by lia. split; [done |].
    destruct (Zpos m * 5 ^ (- e)) as [| z | z] eqn:Hz; [lia | | lia]. cbn [decimal_value].
    rewrite (proj2 (Z.ltb_lt e 0)) by done. apply nearest_exact; [done |].
    rewrite (Z.max_r 0 (- e)), (Z.max_l 0 e) by lia.
    rewrite Z2Pos.id by (apply Z.pow_pos_nonneg; lia).
    rewrite <- Hz. change 10 with (2 * 5). rewrite Z.pow_mul_l. lia.
Qed.

(** ** The search for the shortest decimal *)

Lemma shortest_from_reads_back x S0 E0 L fuel k :
  decimal_value false S0 E0 = x ->
  let c := shortest_from x S0 E0 L fuel k in decimal_value false c.1 c.2 = x.
Proof.
  intros Hx. revert k. induction fuel as [| fuel IH]; intros k; cbn [shortest_from]; cbv zeta.
  all: set (lo := candidate _ _ _ _); set (hi := candidate _ _ _ _).
  all: destruct (reads_back x lo) eqn:Hlo, (reads_back x hi) eqn:Hhi; unfold reads_back in *; bools.
  all: repeat match goal with |- context [match ?b with _ => _ end] => destruct b end.
  all: done || apply IH.
Qed.

Lemma nearest_sign num den : nearest true num den = SFopp (nearest false num den).
Proof.
  unfold nearest. destruct (SFdiv_core_binary _ _ _ _ _ _) as [[q e] l]. unfold binary_round_aux.
  destruct (shr_fexp _ _ _ _ _) as [mrs e1]. destruct (shr_fexp _ _ _ _ _) as [mrs2 e2].
  destruct (shr_m mrs2); try done. by destruct (_ <=? _).
Qed.

Lemma decimal_value_sign s p : decimal_value true s p = SFopp (decimal_value false s p).
Proof. destruct s; cbn [decimal_value]; try done. destruct (_ <? 0); apply nearest_sign. Qed.

Lemma shortest_reads_back neg m e s0 e0 s p :
  bounded 53 1024 m e = true -> exact_decimal m e = (s0, e0) ->
  shortest (S754_finite false m e) s0 e0 = (s, p) ->
  0 < s /\ decimal_value neg s p = S754_finite neg m e.
Proof.
  intros Hb Hex Hs. destruct (decimal_value_exact false m e s0 e0 Hb Hex) as [_ Hv].
  pose proof (shortest_from_reads_back _ _ _ (Z.of_nat (length (to_digits s0)))
    (length (to_digits s0)) 1 Hv) as Hr.
  unfold shortest in Hs. rewrite Hs in Hr. cbn in Hr. split.
  - destruct s; [done | lia | done].
  - destruct neg; [| done]. by rewrite decimal_value_sign, Hr.
Qed.

(** ** Digits *)

Definition is_digit (d : Z) : Prop := 0 <= d <= 9.

Lemma of_digits_app ds es : of_digits (ds ++ es) = of_digits ds * 10 ^ Z.of_nat (length es) + of_digits es.
Proof.
  unfold of_digits. rewrite fold_left_app. generalize (fold_left (fun n d => 10 * n + d) ds 0) as n.
  assert (forall n, fold_left (fun n d => 10 * n + d) es n
    = n * 10 ^ Z.of_nat (length es) + fold_left (fun n d => 10 * n + d) es 0) as H; [| apply H].
  induction es as [| d es IH]; intros n; cbn [fold_left length]; [cbn; lia |].
  rewrite IH, (IH (10 * 0 + d)), Nat2Z.inj_succ, Z.pow_succ_r by lia. lia.
Qed.

Lemma of_digits_zeros n : of_digits (replicate n 0) = 0.
Proof. induction n as [| n IH]; [done |]. rewrite replicate_S_end, of_digits_app, IH. done. Qed.

Lemma digits_fuel_spec fuel n acc :
  0 <= n < 10 ^ Z.of_nat fuel -> (0 < fuel)%nat ->
  exists ds, digits_fuel fuel n acc = ds ++ acc /\ of_digits ds = n /\ Forall is_digit ds
    /\ exists d rest, ds = d :: rest /\ (d = 0 -> n = 0).
Proof.
  revert n acc. induction fuel as [| fuel IH]; intros n acc Hn Hf; [lia |]. cbn [digits_fuel].
  destruct (n <? 10) eqn:H10; bools.
  { exists [n]. split_and!; [done | unfold of_digits; cbn; lia | constructor; [unfold is_digit; lia | done] |].
    by exists n, []. }
  destruct (IH (n / 10) (n mod 10 :: acc)) as (ds & Hds & Hv & Hall & d & rest & Hd & Hz).
  - rewrite Nat2Z.inj_succ, Z.pow_succ_r in Hn by lia.
    split; [apply Z.div_pos; lia | apply Z.div_lt_upper_bound; lia].
  - destruct fuel; [cbn in Hn; lia | lia].
  - exists (ds ++ [n mod 10]). rewrite Hds, <- app_assoc. split_and!.
    + done.
    + rewrite of_digits_app, Hv. unfold of_digits. cbn. pose proof (Z.div_mod n 10). lia.
    + apply Forall_app. split; [done |]. constructor; [| done].
      pose proof (Z.mod_pos_bound n 10). unfold is_digit. lia.
    + exists d, (rest ++ [n mod 10]). rewrite Hd. split; [done |]. intros ->.
      assert (n / 10 = 0) as Hq by auto. apply Z.div_small_iff in Hq; lia.
Qed.

Lemma to_digits_spec n :
  0 <= n -> of_digits (to_digits n) = n /\ Forall is_digit (to_digits n)
    /\ exists d rest, to_digits n = d :: rest /\ (d = 0 -> n = 0).
Proof.
  intros Hn. unfold to_digits.
  destruct (digits_fuel_spec (S (Z.to_nat (Z.log2 n))) n []) as (ds & -> & Hv & Hall & Hd); [| lia |].
  - split; [done |]. rewrite Nat2Z.inj_succ, Z2Nat.id by apply Z.log2_nonneg.
    destruct (Z.eq_dec n 0) as [-> | Hne]; [done |].
    apply Z.lt_le_trans with (2 ^ Z.succ (Z.log2 n)); [apply Z.log2_spec; lia |].
    apply Z.pow_le_mono_l. lia.
  - rewrite app_nil_r. by split_and!.
Qed.

Lemma digit_unit_spec d :
  is_digit d -> is_digit_unit (digit_unit d) = true /\ digit_of (digit_unit d) = d
    /\ (digit_unit d =? 48)%N = (d =? 0) /\ (digit_unit d =? minus)%N = false.
Proof.
  intros Hd. unfold is_digit in Hd.
  assert (d = 0 \/ d = 1 \/ d = 2 \/ d = 3 \/ d = 4 \/ d = 5 \/ d = 6 \/ d = 7 \/ d = 8 \/ d = 9) as Hc
    by lia.
  repeat destruct Hc as [-> | Hc]; try (vm_compute; auto; fail). subst. vm_compute. auto.
Qed.

(** ** Scanning *)

(** No character of a number follows. *)
Definition ends_number (rest : jsstring) : bool :=
  match rest with
  | [] => true
  | c :: _ => negb (is_digit_unit c || (c =? dot)%N || (c =? 101)%N || (c =? 69)%N)
  end.

Definition ends_digits (rest : jsstring) : bool :=
  match rest with [] => true | c :: _ => negb (is_digit_unit c) end.

Lemma scan_digits_text ds rest :
  Forall is_digit ds -> ends_digits rest = true ->
  scan_digits (digits_text ds ++ rest) = (ds, rest).
Proof.
  intros Hds Hr. induction Hds as [| d ds Hd Hds IH].
  - destruct rest as [| c rest]; [done |]. cbn in Hr |- *. by destruct (is_digit_unit c).
  - cbn. destruct (digit_unit_spec d Hd) as (-> & -> & _). unfold digits_text in IH. by rewrite IH.
Qed.

Lemma ends_number_digits rest : ends_number rest = true -> ends_digits rest = true.
Proof. destruct rest as [| c rest]; [done |]. cbn. by destruct (is_digit_unit c). Qed.

Lemma scan_fraction_none rest : ends_number rest = true -> scan_fraction rest = ([], rest).
Proof.
  destruct rest as [| c rest]; [done |]. cbn.
  destruct (is_digit_unit c), (c =? dot)%N; cbn; done.
Qed.

Lemma scan_exponent_none rest : ends_number rest = true -> scan_exponent rest = (0, rest).
Proof.
  destruct rest as [| c rest]; [done |]. cbn.
  destruct (is_digit_unit c), (c =? dot)%N, (c =? 101)%N, (c =? 69)%N; cbn; done.
Qed.

Lemma scan_fraction_text d ds rest :
  Forall is_digit (d :: ds) -> ends_digits rest = true ->
  scan_fraction (dot :: digits_text (d :: ds) ++ rest) = (d :: ds, rest).
Proof.
  intros Hds Hr. cbn [scan_fraction]. change (dot =? dot)%N with true. cbv iota.
  by rewrite scan_digits_text.
Qed.

Lemma scan_exponent_text n rest :
  ends_number rest = true ->
  scan_exponent (letter_e :: (if n <? 0 then minus else plus)
                 :: digits_text (to_digits (Z.abs n)) ++ rest) = (n, rest).
Proof.
  intros Hr. cbn [scan_exponent]. change (letter_e =? 101)%N with true. cbn [orb]. cbv iota.
  destruct (to_digits_spec (Z.abs n)) as (Hv & Hall & d & ds & Hd & _); [lia |].
  assert (scan_sign ((if n <? 0 then minus else plus) :: digits_text (to_digits (Z.abs n)) ++ rest)
    = (n <? 0, digits_text (to_digits (Z.abs n)) ++ rest)) as -> by (by destruct (n <? 0)).
  rewrite scan_digits_text by (by try apply ends_number_digits).
  rewrite Hd. rewrite <- Hd, Hv. f_equal. destruct (n <? 0) eqn:Hn; bools; lia.
Qed.

(** An integer part that starts with a nonzero digit. *)
Lemma scan_number_integer (neg : bool) d ds rest :
  Forall is_digit (d :: ds) -> d <> 0 -> ends_digits rest = true ->
  scan_number ((if neg then [minus] else []) ++ digits_text (d :: ds) ++ rest)
  = Some (scan_tail neg (d :: ds) rest).
Proof.
  intros Hds Hd Hr. inversion Hds as [| ? ? Hdd _]; subst.
  destruct (digit_unit_spec d Hdd) as (_ & _ & H0 & Hm).
  apply Z.eqb_neq in Hd. rewrite Hd in H0.
  pose proof (scan_digits_text (d :: ds) rest Hds Hr) as Hscan.
  unfold scan_number. destruct neg; cbn [app].
  - change (minus =? minus)%N with true. cbv iota zeta.
    cbn [digits_text map app] in Hscan |- *. rewrite H0. cbv iota. unfold digits_text in *. by rewrite Hscan.
  - cbn [digits_text map app] in Hscan |- *. rewrite Hm. cbv iota zeta. rewrite H0. cbv iota.
    unfold digits_text in *. by rewrite Hscan.
Qed.

Lemma scan_number_zero (neg : bool) rest :
  scan_number ((if neg then [minus] else []) ++ 48%N :: rest) = Some (scan_tail neg [0] rest).
Proof. by destruct neg. Qed.

(** ** The text of a double is a token of its value *)

Lemma decimal_value_scaled neg s p :
  0 < s -> 0 <= p -> decimal_value neg (s * 10 ^ p) 0 = decimal_value neg s p.
Proof.
  intros Hs Hp. assert (0 < 10 ^ p) by lia. assert (0 < s * 10 ^ p) by lia.
  destruct s as [| q | q]; [lia | | lia]. unfold decimal_value at 2.
  rewrite (proj2 (Z.ltb_ge p 0)) by lia.
  destruct (Zpos q * 10 ^ p) as [| r | r] eqn:Hr; [lia | | lia].
  unfold decimal_value. by rewrite Z.mul_1_r.
Qed.

Lemma zeros_text n : zeros n = digits_text (replicate (Z.to_nat n) 0).
Proof. unfold zeros. induction (Z.to_nat n) as [| k IH]; [done |]. cbn. by f_equal. Qed.

Lemma digits_text_app ds es : digits_text ds ++ digits_text es = digits_text (ds ++ es).
Proof. unfold digits_text. by rewrite map_app. Qed.

Lemma ends_digits_dot rest : ends_digits (dot :: rest) = true.
Proof. done. Qed.

(** The formatted digits are one token whose value is theirs, scaled. *)
Lemma scan_format (neg : bool) ds p :
  Forall is_digit ds -> 0 < of_digits ds -> (exists d ds', ds = d :: ds' /\ d <> 0) ->
  exists t, (forall rest, ends_number rest = true ->
      scan_number ((if neg then [minus] else [])
        ++ format_number (digits_text ds) (p + Z.of_nat (length ds)) ++ rest) = Some (t, rest))
    /\ token_value t = decimal_value neg (of_digits ds) p.
Proof.
  intros Hds Hpos (d & ds' & Hd & Hd0). unfold format_number.
  assert (length (digits_text ds) = length ds) as Hlen by (unfold digits_text; apply length_map).
  rewrite Hlen. set (k := Z.of_nat (length ds)). set (n := p + k).
  assert (1 <= k) by (subst ds; unfold k; cbn; lia).
  destruct ((k <=? n) && (n <=? 21)) eqn:H1; [| destruct ((0 <? n) && (n <=? 21)) eqn:H2;
    [| destruct ((-6 <? n) && (n <=? 0)) eqn:H3]]; bools.
  - rewrite zeros_text, digits_text_app, Hd. cbn [app]. eexists. split.
    + intros rest Hr. rewrite scan_number_integer; [| | done | by apply ends_number_digits].
      * unfold scan_tail. by rewrite scan_fraction_none, scan_exponent_none.
      * apply (Forall_app_2 _ (d :: ds')); [by rewrite <- Hd |]. apply Forall_replicate. unfold is_digit. lia.
    + unfold token_value. cbn [tk_negative tk_integer tk_fraction tk_exponent length].
      rewrite app_nil_r. change (d :: ds' ++ replicate (Z.to_nat (n - k)) 0)
        with ((d :: ds') ++ replicate (Z.to_nat (n - k)) 0). rewrite <- Hd.
      rewrite of_digits_app, of_digits_zeros, length_replicate, Z2Nat.id, Z.add_0_r by lia.
      replace (n - k) with p by lia. rewrite Z.sub_0_r. apply decimal_value_scaled; lia.
  - assert (take (Z.to_nat n) (digits_text ds) = digits_text (take (Z.to_nat n) ds)) as -> by apply firstn_map.
    assert (drop (Z.to_nat n) (digits_text ds) = digits_text (drop (Z.to_nat n) ds)) as -> by apply skipn_map.
    assert (take (Z.to_nat n) ds = d :: take (pred (Z.to_nat n)) ds') as Ht.
    { rewrite Hd. destruct (Z.to_nat n) eqn:Hz; [lia | done]. }
    assert (Forall is_digit (take (Z.to_nat n) ds)) as Ht' by by apply Forall_take.
    assert (Forall is_digit (drop (Z.to_nat n) ds)) as Hdr by by apply Forall_drop.
    assert (length (drop (Z.to_nat n) ds) = (length ds - Z.to_nat n)%nat) as Hld by apply length_drop.
    destruct (drop (Z.to_nat n) ds) as [| x xs] eqn:Hx; [exfalso; cbn in Hld; unfold k, n in *; lia |].
    eexists. split.
    + intros rest Hr. rewrite <- app_assoc. cbn [app].
      rewrite Ht, scan_number_integer; [| by rewrite <- Ht | done | done]. unfold scan_tail.
      rewrite scan_fraction_text by (try apply ends_number_digits; done).
      by rewrite scan_exponent_none.
    + unfold token_value. cbn [tk_negative tk_integer tk_fraction tk_exponent].
      rewrite <- Ht, <- Hx, take_drop. f_equal. rewrite Hx, Hld. unfold k, n in *. lia.
  - set (fr := replicate (Z.to_nat (- n)) 0 ++ ds).
    assert (Forall is_digit fr) as Hfr.
    { apply Forall_app_2; [apply Forall_replicate; unfold is_digit; lia | done]. }
    assert (digits_text fr = zeros (- n) ++ digits_text ds) as Ht
      by (unfold fr; by rewrite zeros_text, digits_text_app).
    destruct fr as [| x xs] eqn:Hf; [exfalso; subst fr; rewrite Hd in Hf; by destruct (replicate _ _) |].
    eexists. split.
    + intros rest Hr. change ((48%N :: dot :: zeros (- n) ++ digits_text ds) ++ rest)
        with (48%N :: dot :: (zeros (- n) ++ digits_text ds) ++ rest).
      rewrite scan_number_zero, <- Ht. unfold scan_tail.
      rewrite scan_fraction_text by (try apply ends_number_digits; done).
      by rewrite scan_exponent_none.
    + unfold token_value. cbn [tk_negative tk_integer tk_fraction tk_exponent].
      change ([0] ++ x :: xs) with (replicate 1 0 ++ x :: xs). rewrite of_digits_app, of_digits_zeros, <- Hf.
      unfold fr. rewrite of_digits_app, of_digits_zeros, length_app, length_replicate.
      f_equal; unfold k, n in *; lia.
  - set (E := letter_e :: (if n - 1 <? 0 then minus else plus) :: digits_text (to_digits (Z.abs (n - 1)))).
    assert (is_digit d /\ Forall is_digit ds') as [Hdd Hds'] by (subst ds; by inversion Hds).
    set (F := if k =? 1 then [] else dot :: drop 1 (digits_text ds)).
    eexists. split.
    + intros rest Hr. assert (scan_exponent (E ++ rest) = (n - 1, rest)) as HE by by apply scan_exponent_text.
      assert (scan_fraction (F ++ E ++ rest) = (ds', E ++ rest)) as HF.
      { unfold F, k. rewrite Hd. destruct ds' as [| x xs]; [done |].
        replace (Z.of_nat (length (d :: x :: xs)) =? 1) with false
          by (symmetry; apply Z.eqb_neq; cbn; lia).
        by apply (scan_fraction_text x xs (E ++ rest)). }
      replace ((take 1 (digits_text ds) ++ F ++ E) ++ rest) with (digits_text [d] ++ F ++ E ++ rest)
        by (rewrite Hd; cbn; by rewrite <- !app_assoc).
      rewrite scan_number_integer; [| by constructor | done | unfold F; by destruct (k =? 1)].
      unfold scan_tail. by rewrite HF, HE.
    + unfold token_value. cbn [tk_negative tk_integer tk_fraction tk_exponent app].
      assert (length ds = S (length ds')) as Hl by (by rewrite Hd).
      rewrite <- Hd. f_equal. unfold n, k. lia.
Qed.

(** Both zeros are written [0] and read back as the positive one. *)
Lemma scan_number_text x :
  is_double x = true -> is_finite x = true ->
  exists t, (forall rest, ends_number rest = true -> scan_number (number_text x ++ rest) = Some (t, rest))
            /\ token_value t = number_normal x.
Proof.
  intros Hd Hf. destruct x as [b | | | neg m e]; try done.
  - exists {| tk_negative := false; tk_integer := [0]; tk_fraction := []; tk_exponent := 0 |}.
    split; [| done]. intros rest Hr. cbn [number_text app].
    pose proof (scan_number_zero false rest) as Hz. cbn [app] in Hz.
    rewrite Hz. unfold scan_tail. by rewrite scan_fraction_none, scan_exponent_none.
  - unfold is_double in Hd. cbn [valid_binary] in Hd. cbn [number_text number_normal].
    destruct (exact_decimal m e) as [s0 e0] eqn:Hex.
    destruct (shortest (S754_finite false m e) s0 e0) as [s p] eqn:Hs.
    destruct (shortest_reads_back neg _ _ _ _ _ _ Hd Hex Hs) as [Hpos Hv].
    destruct (to_digits_spec s) as (Hof & Hall & d & ds & Hds & Hz); [lia |].
    destruct (scan_format neg (to_digits s) p) as (t & Ht & Htv).
    + done.
    + by rewrite Hof.
    + exists d, ds. split; [done |]. intros ->. specialize (Hz eq_refl). lia.
    + exists t. split; [| by rewrite Htv, Hof]. intros rest Hr. rewrite <- app_assoc. by apply Ht.
Qed.
