(* ===== verification/JsonText.v ===== *)
(** * Canonical JSON text (packages/core/src/serialization.ts)

    [canonicalJsonStringify] and the strict parser on strings of UTF-16 code
    units.  Values are trees, so the source's checks against cycles, accessors,
    symbol keys and exotic prototypes have no counterpart and the last two error
    codes are never thrown; of an error its code and its path are kept.  An object
    read keeps its fields in textual order, where the host language lists
    integer-like keys first; canonicalization sorts them either way.  The parser's offset is the suffix still to be read;
    its mutual recursion takes fuel, [None] being its exhaustion. *)

From S2P Require Import Prelude JsonValue JsNumber Unicode.

Local Open Scope Z_scope.

Inductive CanonicalJsonErrorCode :=
| KAF_SERIALIZATION_INVALID_JSON | KAF_SERIALIZATION_DUPLICATE_KEY
| KAF_SERIALIZATION_INVALID_UNICODE | KAF_SERIALIZATION_NON_I_JSON_NUMBER
| KAF_SERIALIZATION_UNSUPPORTED_VALUE | KAF_SERIALIZATION_CYCLIC_VALUE.

Record CanonicalJsonError := { cje_code : CanonicalJsonErrorCode; cje_path : jsstring }.

Definition json_throw {A} (code : CanonicalJsonErrorCode) (path : jsstring)
  : outcome CanonicalJsonError A := Throw {| cje_code := code; cje_path := path |}.

Definition root_path : jsstring := js "$".
Definition at_index (path : jsstring) (i : nat) : jsstring :=
  path ++ js "[" ++ digits_text (to_digits (Z.of_nat i)) ++ js "]".
Definition at_key (path key : jsstring) : jsstring := path ++ js "." ++ key.
Definition key_path (path : jsstring) : jsstring := path ++ js ".[key]".

(** ** Characters *)

Definition quotation : N := 34.
Definition reverse_solidus : N := 92.
Definition comma : N := 44.
Definition colon_unit : N := 58.
Definition open_bracket : N := 91.
Definition close_bracket : N := 93.
Definition open_brace : N := 123.
Definition close_brace : N := 125.
Definition letter_u : N := 117.

(** ** Writing *)

(** Surrogates come in pairs. *)
Fixpoint valid_unicode (s : jsstring) : bool :=
  match s with
  | [] => true
  | c :: s' =>
      if is_high_surrogate c then
        match s' with
        | d :: s'' => is_low_surrogate d && valid_unicode s''
        | [] => false
        end
      else negb (is_low_surrogate c) && valid_unicode s'
  end.

Definition assertValidUnicode (value path : jsstring) : outcome CanonicalJsonError unit :=
  if valid_unicode value then Return tt else json_throw KAF_SERIALIZATION_INVALID_UNICODE path.

Definition hex_unit (d : N) : N := if (d <? 10)%N then (48 + d)%N else (87 + d)%N.

(** What JSON.stringify writes for one unit of a string without lone surrogates. *)
Definition escape_unit (c : N) : jsstring :=
  if (c =? quotation)%N || (c =? reverse_solidus)%N then [reverse_solidus; c]
  else if (c =? 8)%N then [reverse_solidus; 98%N]
  else if (c =? 9)%N then [reverse_solidus; 116%N]
  else if (c =? 10)%N then [reverse_solidus; 110%N]
  else if (c =? 12)%N then [reverse_solidus; 102%N]
  else if (c =? 13)%N then [reverse_solidus; 114%N]
  else if (c <? 32)%N then [reverse_solidus; letter_u; 48%N; 48%N; hex_unit (c / 16); hex_unit (c mod 16)]
  else [c].

Definition escape_units (s : jsstring) : jsstring := flat_map escape_unit s.

Definition quote (value path : jsstring) : outcome CanonicalJsonError jsstring :=
  _ ← assertValidUnicode value path;
  Return (quotation :: escape_units value ++ [quotation]).

(** [/[eE]/u.test(serialized)] *)
Definition has_exponent (s : jsstring) : bool :=
  existsb (fun c => (c =? 101)%N || (c =? 69)%N) s.

Definition serializeCanonicalNumber (value : spec_float) (path : jsstring)
  : outcome CanonicalJsonError jsstring :=
  let serialized := if is_finite value then number_text value else js "null" in
  let unsafePlainInteger :=
    is_integer value && negb (is_safe_number value) && negb (has_exponent serialized) in
  if negb (is_finite value) || unsafePlainInteger
  then json_throw KAF_SERIALIZATION_NON_I_JSON_NUMBER path
  else Return serialized.

(** [entries.join(",")] *)
Definition join_texts (texts : list jsstring) : jsstring := join comma texts.

Fixpoint sequence {E A} (l : list (outcome E A)) : outcome E (list A) :=
  match l with
  | [] => Return []
  | o :: l' => a ← o; others ← sequence l'; Return (a :: others)
  end.

(** One field of an object: its key, then its value. *)
Definition field_text (path key : jsstring) (value : outcome CanonicalJsonError jsstring)
  : outcome CanonicalJsonError jsstring :=
  k ← quote key (key_path path);
  t ← value;
  Return (k ++ colon_unit :: t).

Fixpoint canonicalize (value : JsonValue) (path : jsstring) : outcome CanonicalJsonError jsstring :=
  match value with
  | Jnull => Return (js "null")
  | Jstr s => quote s path
  | Jbool b => Return (if b then js "true" else js "false")
  | Jnum x => serializeCanonicalNumber x path
  | Jarr l =>
      entries ← sequence ((fix go (i : nat) (l : list JsonValue) :=
        match l with
        | [] => []
        | v :: l' => canonicalize v (at_index path i) :: go (S i) l'
        end) O l);
      Return (open_bracket :: join_texts entries ++ [close_bracket])
  | Jobj f =>
      fields ← sequence (map snd (sort_fields (map (fun kv =>
        (kv.1, field_text path kv.1 (canonicalize kv.2 (at_key path kv.1)))) f)));
      Return (open_brace :: join_texts fields ++ [close_brace])
  end.

Definition canonicalJsonStringify (value : JsonValue) : outcome CanonicalJsonError jsstring :=
  canonicalize value root_path.

(** ** Number tokens *)

Fixpoint drop_zeros (ds : list Z) : list Z :=
  match ds with
  | d :: ds' => if d =? 0 then drop_zeros ds' else ds
  | [] => []
  end.

(** The three parts the source joins into one text: sign, digits without leading
    and trailing zeros, exponent. *)
Definition normalizedDecimalIdentity (t : decimal_token) : bool * list Z * Z :=
  let coefficientDigits := drop_zeros (tk_integer t ++ tk_fraction t) in
  match coefficientDigits with
  | [] => (false, [0], 0)
  | _ =>
      let significant := reverse (drop_zeros (reverse coefficientDigits)) in
      (tk_negative t, significant,
       tk_exponent t - Z.of_nat (length (tk_fraction t))
       + (Z.of_nat (length coefficientDigits) - Z.of_nat (length significant)))
  end.

(** The identity of a text that is one number token. *)
Definition text_identity (s : jsstring) : option (bool * list Z * Z) :=
  match scan_number s with
  | Some (t, []) => Some (normalizedDecimalIdentity t)
  | _ => None
  end.

Definition assertUnroundedIntegerToken (token : decimal_token) (value : spec_float)
    (canonicalToken path : jsstring) : outcome CanonicalJsonError unit :=
  if negb (is_integer value) then Return tt
  else if bool_decide (Some (normalizedDecimalIdentity token) = text_identity canonicalToken)
  then Return tt
  else json_throw KAF_SERIALIZATION_NON_I_JSON_NUMBER path.

(** ** The strict parser *)

Definition json_fail {A} : outcome CanonicalJsonError A :=
  json_throw KAF_SERIALIZATION_INVALID_JSON root_path.

Fixpoint whitespace (s : jsstring) : jsstring :=
  match s with
  | c :: s' => if (c =? 9)%N || (c =? 10)%N || (c =? 13)%N || (c =? 32)%N then whitespace s' else s
  | [] => []
  end.

(** The characters up to the closing quotation mark, and the text after it. *)
Fixpoint scan_string (s : jsstring) : option (jsstring * jsstring) :=
  match s with
  | [] => None
  | c :: s' =>
      if (c =? quotation)%N then Some ([], s')
      else if (c =? reverse_solidus)%N then
        match s' with
        | d :: s'' => '(body, rest) ← scan_string s''; Some (c :: d :: body, rest)
        | [] => None
        end
      else if (c <=? 31)%N then None
      else '(body, rest) ← scan_string s'; Some (c :: body, rest)
  end.

(** JSON.parse on the body of a string literal. *)
Fixpoint decode_body (s : jsstring) : option jsstring :=
  match s with
  | [] => Some []
  | c :: s' =>
      if (c =? reverse_solidus)%N then
        match s' with
        | d :: s'' =>
            if (d =? quotation)%N || (d =? reverse_solidus)%N || (d =? 47)%N
            then rest ← decode_body s''; Some (d :: rest)
            else if (d =? 98)%N then rest ← decode_body s''; Some (8%N :: rest)
            else if (d =? 102)%N then rest ← decode_body s''; Some (12%N :: rest)
            else if (d =? 110)%N then rest ← decode_body s''; Some (10%N :: rest)
            else if (d =? 114)%N then rest ← decode_body s''; Some (13%N :: rest)
            else if (d =? 116)%N then rest ← decode_body s''; Some (9%N :: rest)
            else if (d =? letter_u)%N then
              match s'' with
              | a :: b :: x :: y :: s4 =>
                  a ← hex_value a; b ← hex_value b; x ← hex_value x; y ← hex_value y;
                  rest ← decode_body s4;
                  Some ((a * 4096 + b * 256 + x * 16 + y)%N :: rest)
              | _ => None
              end
            else None
        | [] => None
        end
      else if (c <=? 31)%N || (c =? quotation)%N then None
      else rest ← decode_body s'; Some (c :: rest)
  end.

(** [s] is the text after the opening quotation mark. *)
Definition readString (path s : jsstring) : outcome CanonicalJsonError (jsstring * jsstring) :=
  match scan_string s with
  | None => json_fail
  | Some (body, rest) =>
      match decode_body body with
      | None => json_fail
      | Some value => _ ← assertValidUnicode value path; Return (value, rest)
      end
  end.

Definition readNumber (path s : jsstring) : outcome CanonicalJsonError (spec_float * jsstring) :=
  match scan_number s with
  | None => json_fail
  | Some (token, rest) =>
      let value := token_value token in
      canonicalToken ← serializeCanonicalNumber value path;
      _ ← assertUnroundedIntegerToken token value canonicalToken path;
      Return (value, rest)
  end.

(** A parser: the value read and the text left, an error, or no fuel. *)
Definition parser (A : Type) : Type := option (outcome CanonicalJsonError (A * jsstring)).

Definition pbind {A B} (m : parser A) (k : A -> jsstring -> parser B) : parser B :=
  match m with
  | None => None
  | Some (Throw e) => Some (Throw e)
  | Some (Return (a, s)) => k a s
  end.

Definition starts (token s : jsstring) : option jsstring :=
  if bool_decide (take (length token) s = token) then Some (drop (length token) s) else None.

Definition read_literal (path s : jsstring) : outcome CanonicalJsonError (JsonValue * jsstring) :=
  match starts (js "true") s, starts (js "false") s, starts (js "null") s with
  | Some rest, _, _ => Return (Jbool true, rest)
  | _, Some rest, _ => Return (Jbool false, rest)
  | _, _, Some rest => Return (Jnull, rest)
  | _, _, _ => '(x, rest) ← readNumber path s; Return (Jnum x, rest)
  end.

(** The readers of arrays and objects after their opening bracket; [done] holds
    the elements or fields already read. *)
Fixpoint readValue (fuel : nat) (path s : jsstring) : parser JsonValue :=
  match fuel with
  | O => None
  | S fuel =>
      let s := whitespace s in
      match s with
      | [] => Some json_fail
      | c :: s' =>
          if (c =? quotation)%N then
            Some ('(v, rest) ← readString path s'; Return (Jstr v, rest))
          else if (c =? open_brace)%N then
            match whitespace s' with
            | d :: s'' =>
                if (d =? close_brace)%N then Some (Return (Jobj [], s''))
                else readFields fuel path [] s'
            | [] => readFields fuel path [] s'
            end
          else if (c =? open_bracket)%N then
            match whitespace s' with
            | d :: s'' =>
                if (d =? close_bracket)%N then Some (Return (Jarr [], s''))
                else readElements fuel path [] s'
            | [] => readElements fuel path [] s'
            end
          else Some (read_literal path s)
      end
  end
with readElements (fuel : nat) (path : jsstring) (done : list JsonValue) (s : jsstring)
  : parser JsonValue :=
  match fuel with
  | O => None
  | S fuel =>
      pbind (readValue fuel (at_index path (length done)) s) (fun v rest =>
        let done := done ++ [v] in
        match whitespace rest with
        | c :: rest' =>
            if (c =? close_bracket)%N then Some (Return (Jarr done, rest'))
            else if (c =? comma)%N then readElements fuel path done rest'
            else Some json_fail
        | [] => Some json_fail
        end)
  end
with readFields (fuel : nat) (path : jsstring) (done : list (jsstring * JsonValue)) (s : jsstring)
  : parser JsonValue :=
  match fuel with
  | O => None
  | S fuel =>
      match whitespace s with
      | c :: s1 =>
          if negb (c =? quotation)%N then Some json_fail
          else
            match readString (key_path path) s1 with
            | Throw e => Some (Throw e)
            | Return (key, s2) =>
                if bool_decide (key ∈ map fst done)
                then Some (json_throw KAF_SERIALIZATION_DUPLICATE_KEY path)
                else
                  match whitespace s2 with
                  | c2 :: s3 =>
                      if negb (c2 =? colon_unit)%N then Some json_fail
                      else
                        pbind (readValue fuel (at_key path key) s3) (fun v rest =>
                          let done := done ++ [(key, v)] in
                          match whitespace rest with
                          | c3 :: rest' =>
                              if (c3 =? close_brace)%N then Some (Return (Jobj done, rest'))
                              else if (c3 =? comma)%N then readFields fuel path done rest'
                              else Some json_fail
                          | [] => Some json_fail
                          end)
                  | [] => Some json_fail
                  end
            end
      | [] => Some json_fail
      end
  end.

(** [None] does not occur: two units of fuel per character are enough. *)
Definition parseJsonStrict (source : jsstring) : option (outcome CanonicalJsonError JsonValue) :=
  match readValue (2 * length source + 1) root_path source with
  | None => None
  | Some (Throw e) => Some (Throw e)
  | Some (Return (v, rest)) =>
      match whitespace rest with
      | [] => Some (Return v)
      | _ => Some json_fail
      end
  end.
