(* ===== verification/JsonFacts.v ===== *)
(** * Facts about canonical JSON

    The strict parser terminates; what canonicalization writes the parser reads
    back as the normal form of the value, so two values have the same canonical
    text exactly when their normal forms are equal. *)

From S2P Require Import Prelude JsonValue JsNumber JsNumberFacts Unicode JsonText.

Local Open Scope Z_scope.

(** ** The parser terminates *)

Lemma whitespace_length s : (length (whitespace s) <= length s)%nat.
Proof. induction s as [| c s IH]; cbn; [lia |]. destruct (_ || _); cbn; lia. Qed.

Lemma scan_string_length s body rest :
  scan_string s = Some (body, rest) -> (length rest < length s)%nat.
Proof.
  revert body. induction s as [s IH] using (induction_ltof1 _ (@length N)); unfold ltof in IH.
  intros body Hs. destruct s as [| c s]; [done |]. cbn [scan_string] in Hs.
  destruct (c =? quotation)%N; [injection Hs as _ <-; cbn; lia |].
  destruct (c =? reverse_solidus)%N.
  - destruct s as [| d s]; [done |]. destruct (scan_string s) as [[b r] |] eqn:Hr; [| done].
    injection Hs as _ <-. apply IH in Hr; cbn; lia.
  - destruct (c <=? 31)%N; [done |]. destruct (scan_string s) as [[b r] |] eqn:Hr; [| done].
    injection Hs as _ <-. apply IH in Hr; cbn; lia.
Qed.

Lemma readString_length path s v rest :
  readString path s = Return (v, rest) -> (length rest < length s)%nat.
Proof.
  unfold readString. destruct (scan_string s) as [[body r] |] eqn:Hs; [| done].
  destruct (decode_body body); [| done]. destruct (assertValidUnicode _ _); [| done].
  intros Hr. injection Hr as _ <-. by eapply scan_string_length.
Qed.

Lemma scan_digits_length s ds rest :
  scan_digits s = (ds, rest) -> (length rest + length ds = length s)%nat.
Proof.
  revert ds rest. induction s as [| c s IH]; cbn; intros ds rest; [by intros [= <- <-] |].
  destruct (is_digit_unit c); [| by intros [= <- <-]].
  destruct (scan_digits s) as [ds' rest']. intros [= <- <-]. cbn. specialize (IH _ _ eq_refl). lia.
Qed.

Lemma scan_tail_length neg int s t rest : scan_tail neg int s = (t, rest) -> (length rest <= length s)%nat.
Proof.
  unfold scan_tail. destruct (scan_fraction s) as [f s1] eqn:Hf.
  destruct (scan_exponent s1) as [e s2] eqn:He. intros [= _ <-].
  assert (length s1 <= length s)%nat as H1.
  { destruct s as [| c s]; cbn in Hf; [by injection Hf as _ <- |].
    destruct (c =? dot)%N; [| injection Hf as _ <-; lia].
    destruct (scan_digits s) as [ds r] eqn:Hd. apply scan_digits_length in Hd.
    destruct ds; injection Hf as _ <-; cbn in *; lia. }
  assert (length s2 <= length s1)%nat; [| lia].
  destruct s1 as [| c s1]; cbn in He; [by injection He as _ <- |].
  destruct (_ || _); [| injection He as _ <-; lia].
  destruct (scan_sign s1) as [neg' s'] eqn:Hs.
  assert (length s' <= length s1)%nat.
  { destruct s1 as [| x s1]; cbn in Hs; [by injection Hs as _ <- |].
    destruct (x =? minus)%N, (x =? plus)%N; injection Hs as _ <-; cbn; lia. }
  destruct (scan_digits s') as [ds r] eqn:Hd. apply scan_digits_length in Hd.
  destruct ds; injection He as _ <-; cbn in *; lia.
Qed.

Lemma scan_number_length s t rest : scan_number s = Some (t, rest) -> (length rest < length s)%nat.
Proof.
  unfold scan_number. set (p := match s with [] => _ | _ => _ end).
  assert (length p.2 <= length s)%nat as Hp.
  { unfold p. destruct s as [| c s]; cbn; [lia |]. destruct (_ =? _)%N; cbn; lia. }
  destruct p as [neg s1]. cbn in Hp. destruct s1 as [| c s2]; [done |].
  destruct (c =? 48)%N.
  - intros [= Ht]. apply scan_tail_length in Ht. cbn in Hp. lia.
  - destruct (scan_digits (c :: s2)) as [ds r] eqn:Hd. apply scan_digits_length in Hd.
    destruct ds; [done |]. intros [= Ht]. apply scan_tail_length in Ht. cbn in *. lia.
Qed.

Lemma starts_length t s rest : starts t s = Some rest -> (length rest + length t = length s)%nat.
Proof.
  unfold starts. destruct (bool_decide _) eqn:Hb; [| done]. intros [= <-]. bools.
  rewrite length_drop. apply (f_equal length) in Hb. rewrite length_take in Hb. lia.
Qed.

Lemma read_literal_length path s v rest :
  read_literal path s = Return (v, rest) -> (length rest < length s)%nat.
Proof.
  unfold read_literal. destruct (starts (js "true") s) as [r |] eqn:H1.
  { intros [= _ <-]. apply starts_length in H1. cbn in H1. lia. }
  destruct (starts (js "false") s) as [r |] eqn:H2.
  { intros [= _ <-]. apply starts_length in H2. cbn in H2. lia. }
  destruct (starts (js "null") s) as [r |] eqn:H3.
  { intros [= _ <-]. apply starts_length in H3. cbn in H3. lia. }
  unfold readNumber. destruct (scan_number s) as [[t r] |] eqn:Hs; [| done].
  apply scan_number_length in Hs.
  destruct (serializeCanonicalNumber _ _); [| done]. cbn.
  destruct (assertUnroundedIntegerToken _ _ _ _); [| done]. cbn. by intros [= _ <-].
Qed.

(** The reading succeeds or fails, and a success consumed at least one unit. *)
Definition finished {A} (p : parser A) (s : jsstring) : Prop :=
  exists o, p = Some o /\ forall a rest, o = Return (a, rest) -> (length rest < length s)%nat.

Lemma finished_fail {A} e s : finished (A := A) (Some (Throw e)) s.
Proof. by exists (Throw e). Qed.

Lemma finished_Return {A} (a : A) rest s :
  (length rest < length s)%nat -> finished (Some (Return (a, rest))) s.
Proof. intros Hl. exists (Return (a, rest)). split; [done |]. by intros ? ? [= _ <-]. Qed.

Lemma finished_outcome {A} (o : outcome CanonicalJsonError (A * jsstring)) s :
  (forall a rest, o = Return (a, rest) -> (length rest < length s)%nat) -> finished (Some o) s.
Proof. intros Ho. by exists o. Qed.

Lemma finished_pbind {A B} (m : parser A) (k : A -> jsstring -> parser B) s s' :
  finished m s -> (length s <= length s')%nat ->
  (forall a rest, (length rest < length s)%nat -> finished (k a rest) s') -> finished (pbind m k) s'.
Proof.
  intros (o & -> & Ho) Hle Hk. destruct o as [[a rest] | e]; cbn; [| apply finished_fail].
  apply Hk. by apply (Ho a rest).
Qed.

Lemma finished_weaken {A} (p : parser A) s s' :
  finished p s -> (length s <= length s')%nat -> finished p s'.
Proof. intros (o & Hp & Ho) Hle. exists o. split; [done |]. intros a r Hr. apply Ho in Hr. lia. Qed.

Lemma read_finished fuel :
  (forall path s, (2 * length s < fuel)%nat -> finished (readValue fuel path s) s)
  /\ (forall path acc s, (2 * length s + 1 < fuel)%nat -> finished (readElements fuel path acc s) s)
  /\ (forall path acc s, (2 * length s + 1 < fuel)%nat -> finished (readFields fuel path acc s) s).
Proof.
  induction fuel as [| fuel (IHv & IHe & IHf)]; [split_and!; intros; lia |]. split_and!.
  - intros path s Hs. cbn [readValue]. pose proof (whitespace_length s) as Hw.
    destruct (whitespace s) as [| c s'] eqn:Hws; [apply finished_fail |]. cbn in Hw.
    destruct (c =? quotation)%N.
    { apply finished_outcome. intros a rest Ha. destruct (readString path s') as [[v r] |] eqn:Hr; [| done].
      cbn in Ha. injection Ha as _ <-. apply readString_length in Hr. lia. }
    pose proof (whitespace_length s') as Hw'.
    destruct (c =? open_brace)%N; [| destruct (c =? open_bracket)%N].
    + assert (finished (readFields fuel path [] s') s) by (eapply finished_weaken; [apply IHf |]; lia).
      destruct (whitespace s') as [| d s'']; [done |]. destruct (d =? close_brace)%N; [| done].
      apply finished_Return. cbn in Hw'. lia.
    + assert (finished (readElements fuel path [] s') s) by (eapply finished_weaken; [apply IHe |]; lia).
      destruct (whitespace s') as [| d s'']; [done |]. destruct (d =? close_bracket)%N; [| done].
      apply finished_Return. cbn in Hw'. lia.
    + apply finished_outcome. intros a rest Hl%read_literal_length. cbn in Hl. lia.
  - intros path acc s Hs. cbn [readElements]. eapply finished_pbind; [apply IHv; lia | done |].
    intros v rest Hr. pose proof (whitespace_length rest) as Hw.
    destruct (whitespace rest) as [| c rest']; [apply finished_fail |]. cbn in Hw.
    destruct (c =? close_bracket)%N; [apply finished_Return; lia |].
    destruct (c =? comma)%N; [| apply finished_fail].
    eapply finished_weaken; [apply IHe |]; lia.
  - intros path acc s Hs. cbn [readFields]. pose proof (whitespace_length s) as Hw.
    destruct (whitespace s) as [| c s1]; [apply finished_fail |]. cbn in Hw.
    destruct (negb _); [apply finished_fail |].
    destruct (readString (key_path path) s1) as [[key s2] |] eqn:Hr; [| apply finished_fail].
    apply readString_length in Hr. destruct (bool_decide _); [apply finished_fail |].
    pose proof (whitespace_length s2) as Hw2. destruct (whitespace s2) as [| c2 s3]; [apply finished_fail |].
    cbn in Hw2. destruct (negb _); [apply finished_fail |].
    eapply (finished_pbind _ _ s3); [apply IHv; lia | lia |]. intros v rest Hrest.
    pose proof (whitespace_length rest) as Hw3.
    destruct (whitespace rest) as [| c3 rest']; [apply finished_fail |]. cbn in Hw3.
    destruct (c3 =? close_brace)%N; [apply finished_Return; lia |].
    destruct (c3 =? comma)%N; [| apply finished_fail].
    eapply finished_weaken; [apply IHf |]; lia.
Qed.

(** C22: the strict parser terminates on every input: it returns a value or throws
    a [CanonicalJsonError]; its fuel, two units per character, never runs out. *)
Theorem parseJsonStrict_terminates source : exists o, parseJsonStrict source = Some o.
Proof.
  unfold parseJsonStrict.
  destruct (proj1 (read_finished (2 * length source + 1)) root_path source) as (o & -> & _); [lia |].
  destruct o as [[v rest] | e]; [| by eexists]. destruct (whitespace rest); by eexists.
Qed.

(** ** Strings *)

Lemma hex_unit_value d : (d < 16)%N -> hex_value (hex_unit d) = Some d.
Proof.
  intros Hd. assert (In d (map N.of_nat (seq 0 16))) as Hin.
  { apply in_map_iff. exists (N.to_nat d). split; [lia |]. apply in_seq. lia. }
  cbn in Hin. repeat destruct Hin as [<- | Hin]; try done; by vm_compute.
Qed.

Lemma escape_unit_spec c s rest :
  scan_string (escape_unit c ++ s) = ('(body, r) ← scan_string s; Some (escape_unit c ++ body, r))
  /\ decode_body (escape_unit c ++ rest) = (r ← decode_body rest; Some (c :: r)).
Proof.
  unfold escape_unit.
  destruct ((c =? quotation)%N || (c =? reverse_solidus)%N) eqn:H1.
  { apply orb_true_iff in H1 as [Hc | Hc]; apply N.eqb_eq in Hc as ->; cbn;
      split; try done; by destruct (scan_string s) as [[] |]. }
  apply orb_false_iff in H1 as [Hq Hr].
  destruct (c =? 8)%N eqn:H8; [apply N.eqb_eq in H8 as ->; cbn; split; [by destruct (scan_string s) as [[] |] | done] |].
  destruct (c =? 9)%N eqn:H9; [apply N.eqb_eq in H9 as ->; cbn; split; [by destruct (scan_string s) as [[] |] | done] |].
  destruct (c =? 10)%N eqn:H10; [apply N.eqb_eq in H10 as ->; cbn; split; [by destruct (scan_string s) as [[] |] | done] |].
  destruct (c =? 12)%N eqn:H12; [apply N.eqb_eq in H12 as ->; cbn; split; [by destruct (scan_string s) as [[] |] | done] |].
  destruct (c =? 13)%N eqn:H13; [apply N.eqb_eq in H13 as ->; cbn; split; [by destruct (scan_string s) as [[] |] | done] |].
  destruct (c <? 32)%N eqn:H32.
  - apply N.ltb_lt in H32.
    assert (c / 16 < 16)%N as Hd1 by (apply N.Div0.div_lt_upper_bound; lia).
    assert (c mod 16 < 16)%N as Hd2 by (apply N.mod_lt; lia).
    pose proof (hex_unit_value _ Hd1) as Hh1. pose proof (hex_unit_value _ Hd2) as Hh2.
    assert (forall d, (d < 16)%N -> (hex_unit d =? quotation)%N = false
      /\ (hex_unit d =? reverse_solidus)%N = false /\ (hex_unit d <=? 31)%N = false) as Hp.
    { intros d Hd. unfold hex_unit, quotation, reverse_solidus. destruct (d <? 10)%N eqn:Hd10.
      - apply N.ltb_lt in Hd10. rewrite !(proj2 (N.eqb_neq _ _)), (proj2 (N.leb_gt _ _)) by lia. done.
      - apply N.ltb_ge in Hd10. rewrite !(proj2 (N.eqb_neq _ _)), (proj2 (N.leb_gt _ _)) by lia. done. }
    split.
    + cbn [app scan_string]. change (reverse_solidus =? quotation)%N with false.
      change (reverse_solidus =? reverse_solidus)%N with true. cbv iota.
      change (48 =? quotation)%N with false. change (48 =? reverse_solidus)%N with false.
      change (48 <=? 31)%N with false. cbv iota.
      destruct (Hp _ Hd1) as (-> & -> & ->). destruct (Hp _ Hd2) as (-> & -> & ->).
      by destruct (scan_string s) as [[] |].
    + cbn [app decode_body]. change (reverse_solidus =? reverse_solidus)%N with true. cbv iota.
      change ((letter_u =? quotation)%N || (letter_u =? reverse_solidus)%N || (letter_u =? 47)%N) with false.
      change (letter_u =? 98)%N with false. change (letter_u =? 102)%N with false.
      change (letter_u =? 110)%N with false. change (letter_u =? 114)%N with false.
      change (letter_u =? 116)%N with false. change (letter_u =? letter_u)%N with true. cbv iota.
      change (hex_value 48) with (Some 0%N). cbn [mbind option_bind]. rewrite Hh1, Hh2. cbn [mbind option_bind].
      replace (0 * 4096 + 0 * 256 + c / 16 * 16 + c mod 16)%N with c; [done |].
      pose proof (N.div_mod c 16). lia.
  - apply N.ltb_ge in H32. split.
    + cbn [app scan_string]. rewrite Hq, Hr, (proj2 (N.leb_gt _ _)) by lia. done.
    + cbn [app decode_body]. by rewrite Hq, Hr, (proj2 (N.leb_gt _ _)) by lia.
Qed.

Lemma scan_string_escaped s rest :
  scan_string (escape_units s ++ quotation :: rest) = Some (escape_units s, rest).
Proof.
  induction s as [| c s IH]; [done |]. unfold escape_units in *. cbn [flat_map]. rewrite <- app_assoc.
  rewrite (proj1 (escape_unit_spec c _ [])), IH. done.
Qed.

Lemma decode_body_escaped s : decode_body (escape_units s) = Some s.
Proof.
  induction s as [| c s IH]; [done |]. unfold escape_units in *. cbn [flat_map].
  by rewrite (proj2 (escape_unit_spec c [] _)), IH.
Qed.

Lemma quote_Return s path t :
  quote s path = Return t <-> valid_unicode s = true /\ t = quotation :: escape_units s ++ [quotation].
Proof.
  unfold quote, assertValidUnicode. destruct (valid_unicode s); cbn; [| by split; [| intros []]].
  split; [by intros [= <-] | by intros [_ ->]].
Qed.

Lemma readString_escaped path s rest :
  valid_unicode s = true -> readString path (escape_units s ++ quotation :: rest) = Return (s, rest).
Proof.
  intros Hs. unfold readString. rewrite scan_string_escaped, decode_body_escaped.
  unfold assertValidUnicode. by rewrite Hs.
Qed.

(** ** Numbers *)

Lemma serialize_Return x path t :
  serializeCanonicalNumber x path = Return t ->
  is_finite x = true /\ t = number_text x
  /\ forall path', serializeCanonicalNumber (number_normal x) path' = Return t.
Proof.
  unfold serializeCanonicalNumber. destruct (is_finite x) eqn:Hf; [| done]. cbn [negb orb].
  destruct (_ && _ && _) eqn:Hu; [done |]. intros [= <-]. split_and!; [done | done |].
  intros path'. destruct x; try done; cbn [number_normal]. by rewrite Hf, Hu.
Qed.

Lemma scan_number_head s r :
  scan_number s = Some r -> exists c s', s = c :: s' /\ (c = minus \/ is_digit_unit c = true).
Proof.
  unfold scan_number. destruct s as [| c s]; [done |]. intros Hs. exists c, s. split; [done |].
  destruct (c =? minus)%N eqn:Hm; [left; by apply N.eqb_eq |]. right.
  destruct (c =? 48)%N eqn:H0; [by apply N.eqb_eq in H0 as -> |]. cbn [scan_digits] in Hs.
  by destruct (is_digit_unit c).
Qed.

(** The first character of a value: no white space and no closing bracket. *)
Definition value_start (c : N) : bool :=
  negb ((c =? 9)%N || (c =? 10)%N || (c =? 13)%N || (c =? 32)%N || (c =? close_bracket)%N
        || (c =? close_brace)%N).

Definition number_start (c : N) : Prop := c = minus \/ is_digit_unit c = true.

Lemma number_start_spec c :
  number_start c -> value_start c = true /\ (c =? quotation)%N = false /\ (c =? open_brace)%N = false
    /\ (c =? open_bracket)%N = false /\ c <> 116%N /\ c <> 102%N /\ c <> 110%N.
Proof.
  intros [-> | Hd]; [by vm_compute |]. unfold is_digit_unit in Hd.
  apply andb_true_iff in Hd as [H1%N.leb_le H2%N.leb_le].
  unfold value_start, quotation, open_brace, open_bracket, close_bracket, close_brace.
  rewrite !(proj2 (N.eqb_neq _ _)) by lia. split_and!; try done; lia.
Qed.

Lemma starts_other t s c s' d t' : s = c :: s' -> t = d :: t' -> c <> d -> starts t s = None.
Proof. intros -> -> Hne. unfold starts. cbn. rewrite bool_decide_eq_false_2; [done |]. congruence. Qed.

Lemma number_text_start x :
  is_double x = true -> is_finite x = true -> exists c t, number_text x = c :: t /\ number_start c.
Proof.
  intros Hd Hf. destruct (scan_number_text x Hd Hf) as (t & Ht & _).
  specialize (Ht [] eq_refl). rewrite app_nil_r in Ht. by apply scan_number_head in Ht.
Qed.

Lemma read_literal_number x path t path' rest :
  is_double x = true -> serializeCanonicalNumber x path = Return t -> ends_number rest = true ->
  read_literal path' (t ++ rest) = Return (Jnum (number_normal x), rest).
Proof.
  intros Hd Hs Hr. apply serialize_Return in Hs as (Hf & -> & Hs).
  destruct (scan_number_text x Hd Hf) as (tk & Htk & Hv).
  destruct (number_text_start x Hd Hf) as (c & t & Hc & Hn).
  destruct (number_start_spec c Hn) as (_ & _ & _ & _ & Ht & Hfa & Hnu).
  unfold read_literal. rewrite Hc. cbn [app].
  rewrite (starts_other (js "true") _ c (t ++ rest) 116%N (js "rue") eq_refl eq_refl) by done.
  rewrite (starts_other (js "false") _ c (t ++ rest) 102%N (js "alse") eq_refl eq_refl) by done.
  rewrite (starts_other (js "null") _ c (t ++ rest) 110%N (js "ull") eq_refl eq_refl) by done.
  change (c :: t ++ rest) with ((c :: t) ++ rest). rewrite <- Hc.
  unfold readNumber. rewrite (Htk rest Hr), Hv, (Hs path'). cbn [mbind outcome_bind].
  unfold assertUnroundedIntegerToken. destruct (negb (is_integer _)); [done |].
  assert (text_identity (number_text x) = Some (normalizedDecimalIdentity tk)) as ->.
  { unfold text_identity. specialize (Htk [] eq_refl). rewrite app_nil_r in Htk. by rewrite Htk. }
  by rewrite bool_decide_eq_true_2.
Qed.

(** ** Fields in canonical order *)

Lemma insert_field_map {A B} (h : jsstring -> A -> B) k (a : A) f :
  insert_field k (h k a) (map (fun kv => (kv.1, h kv.1 kv.2)) f)
  = map (fun kv => (kv.1, h kv.1 kv.2)) (insert_field k a f).
Proof.
  induction f as [| [k' a'] f IH]; cbn; [done |]. destruct (key_lt k k'); [done |]. cbn. by rewrite IH.
Qed.

Lemma sort_fields_map {A B} (h : jsstring -> A -> B) f :
  sort_fields (map (fun kv => (kv.1, h kv.1 kv.2)) f)
  = map (fun kv => (kv.1, h kv.1 kv.2)) (sort_fields f).
Proof.
  unfold sort_fields. induction f as [| [k a] f IH]; cbn; [done |]. rewrite IH. apply insert_field_map.
Qed.

Lemma insert_field_perm {A} k (a : A) f : insert_field k a f ≡ₚ (k, a) :: f.
Proof.
  induction f as [| [k' a'] f IH]; cbn; [done |]. destruct (key_lt k k'); [done |].
  rewrite IH. apply Permutation_swap.
Qed.

Lemma sort_fields_perm {A} (f : list (jsstring * A)) : sort_fields f ≡ₚ f.
Proof.
  unfold sort_fields. induction f as [| [k a] f IH]; cbn; [done |]. by rewrite insert_field_perm, IH.
Qed.

(** A value the host language can hold: its numbers are doubles and the keys of
    an object are distinct. *)
Fixpoint json_wf (v : JsonValue) : bool :=
  match v with
  | Jnum x => is_double x
  | Jarr l => forallb json_wf l
  | Jobj f => bool_decide (NoDup (map fst f)) && forallb (fun kv => json_wf kv.2) f
  | _ => true
  end.

Lemma forallb_Forall {A} (p : A -> bool) l : forallb p l = true <-> Forall (fun a => p a = true) l.
Proof. rewrite forallb_forall, list.Forall_forall. by setoid_rewrite list_elem_of_In. Qed.

(** The texts of an object's fields, in canonical order. *)
Definition field_texts (path : jsstring) (f : list (jsstring * JsonValue))
  : outcome CanonicalJsonError (list jsstring) :=
  sequence (map (fun kv => field_text path kv.1 (canonicalize kv.2 (at_key path kv.1))) (sort_fields f)).

Lemma canonicalize_object f path :
  canonicalize (Jobj f) path
  = (fields ← field_texts path f; Return (open_brace :: join_texts fields ++ [close_brace])).
Proof.
  cbn [canonicalize]. unfold field_texts.
  rewrite (sort_fields_map (fun k v => field_text path k (canonicalize v (at_key path k)))).
  by rewrite map_map.
Qed.

Fixpoint element_texts (path : jsstring) (i : nat) (l : list JsonValue)
  : list (outcome CanonicalJsonError jsstring) :=
  match l with
  | [] => []
  | v :: l' => canonicalize v (at_index path i) :: element_texts path (S i) l'
  end.

Lemma canonicalize_array l path :
  canonicalize (Jarr l) path
  = (entries ← sequence (element_texts path O l); Return (open_bracket :: join_texts entries ++ [close_bracket])).
Proof.
  cbn [canonicalize].
  match goal with |- context [sequence (?g O l)] =>
    assert (forall i l', g i l' = element_texts path i l') as Hg end.
  { intros i l'. revert i. induction l' as [| v l' IH]; intros i; [done |]. cbn [element_texts]. by rewrite <- IH. }
  by rewrite Hg.
Qed.

Lemma json_normal_object f :
  json_normal (Jobj f) = Jobj (map (fun kv => (kv.1, json_normal kv.2)) (sort_fields f)).
Proof. cbn [json_normal]. by rewrite (sort_fields_map (fun _ => json_normal)). Qed.

Lemma canonicalize_start v path t :
  json_wf v = true -> canonicalize v path = Return t ->
  exists c t', t = c :: t' /\ value_start c = true.
Proof.
  intros Hwf Ht. destruct v as [| b | x | s | l | f].
  - cbn in Ht. injection Ht as <-. by eexists _, _.
  - cbn in Ht. injection Ht as <-. destruct b; by eexists _, _.
  - cbn [canonicalize] in Ht. apply serialize_Return in Ht as (Hf & -> & _).
    destruct (number_text_start x Hwf Hf) as (c & t' & -> & Hn). exists c, t'. split; [done |].
    apply (number_start_spec c Hn).
  - cbn [canonicalize] in Ht. apply quote_Return in Ht as [_ ->]. by eexists _, _.
  - rewrite canonicalize_array in Ht. destruct (sequence _); [| done]. cbn in Ht. injection Ht as <-.
    by eexists _, _.
  - rewrite canonicalize_object in Ht. destruct (field_texts _ _); [| done]. cbn in Ht. injection Ht as <-.
    by eexists _, _.
Qed.

Lemma whitespace_start c s : value_start c = true -> whitespace (c :: s) = c :: s.
Proof. unfold value_start. cbn. intros Hc. destruct ((c =? 9)%N || (c =? 10)%N || (c =? 13)%N || (c =? 32)%N); [done | done]. Qed.

Lemma value_start_brackets c :
  value_start c = true -> (c =? close_bracket)%N = false /\ (c =? close_brace)%N = false.
Proof. unfold value_start. rewrite negb_true_iff, !orb_false_iff. naive_solver. Qed.

(** ** Reading back *)

Definition reads_back_value (v : JsonValue) : Prop :=
  forall path path' t rest fuel,
    canonicalize v path = Return t -> ends_number rest = true ->
    (2 * length (t ++ rest) < fuel)%nat ->
    readValue fuel path' (t ++ rest) = Some (Return (json_normal v, rest)).

Lemma read_elements path path' l : forall i v acc texts rest fuel,
  Forall (fun v => reads_back_value v) (v :: l) ->
  sequence (element_texts path i (v :: l)) = Return texts ->
  (2 * length (join_texts texts ++ close_bracket :: rest) + 1 < fuel)%nat ->
  readElements fuel path' acc (join_texts texts ++ close_bracket :: rest)
  = Some (Return (Jarr (acc ++ map json_normal (v :: l)), rest)).
Proof.
  induction l as [| w l IH]; intros i v acc texts rest fuel Hall Hseq Hfuel;
    inversion Hall as [| ? ? Hv Hl]; subst; cbn [element_texts sequence] in Hseq;
    destruct (canonicalize v (at_index path i)) as [t |] eqn:Ht; cbn in Hseq; try done;
    (destruct fuel as [| fuel]; [lia |]); cbn [readElements].
  - injection Hseq as <-. unfold join_texts in *. cbn [join] in *.
    rewrite (Hv _ _ _ _ _ Ht); [| done | lia]. done.
  - destruct (canonicalize w (at_index path (S i))) as [t' |] eqn:Ht'; cbn in Hseq; [| done].
    destruct (sequence (element_texts path (S (S i)) l)) as [ts |] eqn:Hts; [| done].
    cbn in Hseq. injection Hseq as <-. unfold join_texts in *.
    change (join comma (t :: t' :: ts)) with (t ++ comma :: join comma (t' :: ts)) in *.
    rewrite <- app_assoc in *. cbn [app] in *.
    rewrite (Hv _ _ _ _ _ Ht); [| done | lia]. cbn [pbind whitespace].
    change (readElements fuel path' (acc ++ [json_normal v])
      (join comma (t' :: ts) ++ close_bracket :: rest)
      = Some (Return (Jarr (acc ++ json_normal v :: map json_normal (w :: l)), rest))).
    rewrite (IH (S i) w (acc ++ [json_normal v]) (t' :: ts)).
    + by rewrite <- app_assoc.
    + done.
    + cbn [element_texts sequence]. by rewrite Ht', Hts.
    + rewrite length_app in Hfuel. cbn [length] in Hfuel. unfold join_texts. lia.
Qed.

Lemma readString_quoted path s q rest :
  quote s path = Return q -> exists body, q = quotation :: body
    /\ forall path', readString path' (body ++ rest) = Return (s, rest).
Proof.
  intros [Hs ->]%quote_Return. exists (escape_units s ++ [quotation]). split; [done |].
  intros path'. rewrite <- app_assoc. by apply readString_escaped.
Qed.

Lemma field_text_Return path k value text :
  field_text path k value = Return text ->
  exists q t, quote k (key_path path) = Return q /\ value = Return t /\ text = q ++ colon_unit :: t.
Proof.
  unfold field_text. destruct (quote k _) as [q |]; cbn; [| done]. destruct value as [t |]; cbn; [| done].
  intros [= <-]. by exists q, t.
Qed.

#[local] Arguments field_text : simpl never.

Lemma read_fields path path' l : forall kv acc texts rest fuel,
  Forall (fun kv => reads_back_value kv.2) (kv :: l) ->
  NoDup (map fst acc ++ map fst (kv :: l)) ->
  sequence (map (fun kv => field_text path kv.1 (canonicalize kv.2 (at_key path kv.1))) (kv :: l))
    = Return texts ->
  (2 * length (join_texts texts ++ close_brace :: rest) + 1 < fuel)%nat ->
  readFields fuel path' acc (join_texts texts ++ close_brace :: rest)
  = Some (Return (Jobj (acc ++ map (fun kv => (kv.1, json_normal kv.2)) (kv :: l)), rest)).
Proof.
  induction l as [| kw l IH]; intros [k v] acc texts rest fuel Hall Hnd Hseq Hfuel;
    inversion Hall as [| ? ? Hv Hl]; subst; cbn [map sequence fst snd] in Hseq, Hv;
    destruct (field_text path k _) as [t0 |] eqn:Ht0; cbn in Hseq; try done;
    apply field_text_Return in Ht0 as (q & t & Hq & Ht & ->);
    (destruct fuel as [| fuel]; [lia |]); cbn [readFields].
  all: assert (bool_decide (k ∈ map fst acc) = false) as Hk by
    (apply bool_decide_eq_false; intros Hin; apply list.NoDup_app in Hnd as (_ & Hd & _);
     apply (Hd _ Hin); left).
  - injection Hseq as <-. unfold join_texts in *. cbn [join] in *. rewrite <- app_assoc in *.
    destruct (readString_quoted _ _ _ ((colon_unit :: t) ++ close_brace :: rest) Hq) as (body & -> & Hb).
    cbn [app] in *. change (whitespace (quotation :: ?s)) with (quotation :: s). cbv beta iota.
    change (negb (quotation =? quotation)%N) with false. cbv iota.
    rewrite (Hb (key_path path')), Hk. change (whitespace (colon_unit :: ?s)) with (colon_unit :: s).
    cbv beta iota. change (negb (colon_unit =? colon_unit)%N) with false. cbv iota.
    rewrite (Hv _ _ _ _ _ Ht); [done | done |].
    cbn [length] in Hfuel. rewrite length_app in Hfuel. cbn [length] in Hfuel. lia.
  - destruct (field_text path kw.1 _) as [t' |] eqn:Ht'; cbn in Hseq; [| done].
    destruct (sequence (map _ l)) as [ts |] eqn:Hts; [| done].
    cbn in Hseq. injection Hseq as <-. unfold join_texts in *.
    change (join comma ((q ++ colon_unit :: t) :: t' :: ts))
      with ((q ++ colon_unit :: t) ++ comma :: join comma (t' :: ts)) in *.
    repeat rewrite <- app_assoc in *. cbn [app] in *.
    destruct (readString_quoted _ _ _ (colon_unit :: t ++ comma :: join comma (t' :: ts)
      ++ close_brace :: rest) Hq) as (body & -> & Hb).
    cbn [app] in *. change (whitespace (quotation :: ?s)) with (quotation :: s). cbv beta iota.
    change (negb (quotation =? quotation)%N) with false. cbv iota.
    rewrite (Hb (key_path path')), Hk. change (whitespace (colon_unit :: ?s)) with (colon_unit :: s).
    cbv beta iota. change (negb (colon_unit =? colon_unit)%N) with false. cbv iota.
    cbn [length] in Hfuel. rewrite !length_app in Hfuel. cbn [length] in Hfuel.
    rewrite length_app in Hfuel. cbn [length] in Hfuel. rewrite length_app in Hfuel. cbn [length] in Hfuel.
    rewrite (Hv _ _ _ _ _ Ht); [| done | rewrite length_app; cbn [length]; rewrite length_app; cbn [length]; lia].
    cbn [pbind whitespace].
    change (readFields fuel path' (acc ++ [(k, json_normal v)])
      (join comma (t' :: ts) ++ close_brace :: rest)
      = Some (Return (Jobj (acc ++ (k, json_normal v) :: map (fun kv => (kv.1, json_normal kv.2)) (kw :: l)), rest))).
    rewrite (IH kw (acc ++ [(k, json_normal v)]) (t' :: ts)).
    + by rewrite <- app_assoc.
    + done.
    + rewrite map_app, <- app_assoc. exact Hnd.
    + cbn [map sequence]. by rewrite Ht', Hts.
    + rewrite length_app. cbn [length]. lia.
Qed.

Lemma join_texts_start (c : N) (t : jsstring) (ts : list jsstring) :
  exists s : jsstring, join_texts ((c :: t : jsstring) :: ts) = c :: s.
Proof. unfold join_texts. destruct ts; by eexists. Qed.

Lemma canonical_reads_back v : json_wf v = true -> reads_back_value v.
Proof.
  induction v as [| b | x | s | l IH | f IH] using json_ind_nested; intros Hwf path path' t rest fuel Ht Hr Hfuel;
    (destruct fuel as [| fuel]; [lia |]).
  - cbn in Ht. injection Ht as <-. done.
  - cbn in Ht. injection Ht as <-. by destruct b.
  - cbn [canonicalize json_normal json_wf] in *. pose proof Ht as Hx.
    apply serialize_Return in Ht as (Hf & Htx & _).
    destruct (number_text_start x Hwf Hf) as (c & t' & Hc & Hn).
    destruct (number_start_spec c Hn) as (Hs & Hq & Hb & Hk & _).
    cbn [readValue]. rewrite Htx, Hc. cbn [app]. rewrite whitespace_start by done. rewrite Hq, Hb, Hk.
    change (c :: t' ++ rest) with ((c :: t') ++ rest). rewrite <- Hc, <- Htx.
    by rewrite (read_literal_number _ _ _ _ _ Hwf Hx Hr).
  - cbn [canonicalize] in Ht. destruct (readString_quoted _ _ _ rest Ht) as (body & -> & Hb).
    cbn [app readValue]. change (whitespace (quotation :: ?s)) with (quotation :: s). cbv beta iota.
    change (quotation =? quotation)%N with true. cbv iota. by rewrite (Hb path').
  - rewrite canonicalize_array in Ht. destruct (sequence _) as [texts |] eqn:Hseq; [| done].
    cbn in Ht. injection Ht as <-. cbn [app] in *. rewrite <- app_assoc in *. cbn [app] in *.
    destruct l as [| v l]; [by injection Hseq as <- |].
    change (json_wf (Jarr (v :: l))) with (forallb json_wf (v :: l)) in Hwf. apply forallb_Forall in Hwf.
    assert (Forall reads_back_value (v :: l)) as Hall.
    { rewrite list.Forall_forall in IH, Hwf |- *. intros w Hw. by apply IH, Hwf. }
    pose proof Hseq as Hstart. cbn [element_texts sequence] in Hstart.
    destruct (canonicalize v (at_index path 0)) as [t0 |] eqn:Ht0; [| done]. cbn in Hstart.
    destruct (sequence (element_texts path 1 l)) as [ts |]; [| done]. cbn in Hstart. injection Hstart as <-.
    assert (json_wf v = true) as Hv by by inversion Hwf.
    destruct (canonicalize_start _ _ _ Hv Ht0) as (c & t' & -> & Hc).
    cbn [readValue]. change (whitespace (open_bracket :: ?s)) with (open_bracket :: s). cbv beta iota.
    change (open_bracket =? quotation)%N with false. change (open_bracket =? open_brace)%N with false.
    change (open_bracket =? open_bracket)%N with true. cbv iota.
    destruct (join_texts_start c t' ts) as [s Hs].
    rewrite Hs. cbn [app]. rewrite whitespace_start by done.
    destruct (value_start_brackets c Hc) as [-> _].
    change (c :: s ++ close_bracket :: rest) with ((c :: s) ++ close_bracket :: rest). rewrite <- Hs.
    rewrite (read_elements path path' l 0 v []); [done | done | done |].
    cbn [length] in Hfuel. rewrite Hs in *. cbn [app length] in *. lia.
  - rewrite canonicalize_object in Ht. destruct (field_texts path f) as [texts |] eqn:Hseq; [| done].
    cbn in Ht. injection Ht as <-. cbn [app] in *. rewrite <- app_assoc in *. cbn [app] in *.
    rewrite json_normal_object. unfold field_texts in Hseq.
    cbn [json_wf] in Hwf. apply andb_true_iff in Hwf as [Hnd Hwf]. apply bool_decide_eq_true in Hnd.
    apply forallb_Forall in Hwf.
    assert (Forall (fun kv => reads_back_value kv.2) (sort_fields f)) as Hall.
    { rewrite sort_fields_perm. rewrite list.Forall_forall in IH, Hwf |- *. intros w Hw. by apply IH, Hwf. }
    assert (NoDup (map fst (sort_fields f))) as Hnds by (by rewrite (Permutation_map fst (sort_fields_perm f))).
    destruct (sort_fields f) as [| kv l]; [by injection Hseq as <- |].
    assert (exists s, join_texts texts = quotation :: s) as [s Hs].
    { cbn [map sequence] in Hseq. destruct (field_text path kv.1 _) as [t0 |] eqn:Ht0; [| done].
      cbn in Hseq. destruct (sequence _) as [ts |]; [| done]. cbn in Hseq. injection Hseq as <-.
      unfold field_text in Ht0. destruct (quote kv.1 _) as [q |] eqn:Hq; [| done].
      apply quote_Return in Hq as [_ ->]. cbn in Ht0. destruct (canonicalize _ _); [| done].
      cbn in Ht0. injection Ht0 as <-. unfold join_texts. destruct ts; by eexists. }
    cbn [readValue]. change (whitespace (open_brace :: ?s)) with (open_brace :: s). cbv beta iota.
    change (open_brace =? quotation)%N with false. change (open_brace =? open_brace)%N with true. cbv iota.
    rewrite Hs. cbn [app]. change (whitespace (quotation :: ?s)) with (quotation :: s). cbv beta iota.
    change (quotation =? close_brace)%N with false. cbv iota.
    change (quotation :: s ++ close_brace :: rest) with ((quotation :: s) ++ close_brace :: rest).
    rewrite <- Hs. rewrite (read_fields path path' l kv []); [done | done | done | done |].
    cbn [length] in Hfuel. lia.
Qed.
