(* ===== verification/JsonRoundTrip.v ===== *)
(** * Canonical JSON: the round trip

    The canonical text of a value depends only on its normal form, the strict
    parser reads it back as that normal form, and whatever the strict parser
    accepts has a canonical text. *)

From Stdlib Require Import Sorted.
From S2P Require Import Prelude JsonValue JsNumber JsNumberFacts Unicode JsonText JsonFacts.

Local Open Scope Z_scope.

(** ** The order of keys *)

Lemma key_lt_irrefl a : key_lt a a = false.
Proof. induction a as [| x a IH]; [done |]. cbn. by rewrite N.ltb_irrefl, N.eqb_refl, IH. Qed.

Lemma key_lt_cons x a y b : key_lt (x :: a) (y :: b) = true <-> (x < y)%N \/ (x = y /\ key_lt a b = true).
Proof. cbn. by rewrite orb_true_iff, andb_true_iff, N.ltb_lt, N.eqb_eq. Qed.

Lemma key_lt_trans a b c : key_lt a b = true -> key_lt b c = true -> key_lt a c = true.
Proof.
  revert b c. induction a as [| x a IH]; intros [| y b] [| z c]; try done.
  rewrite !key_lt_cons. intros [Hxy | [-> Hab]] [Hyz | [-> Hbc]]; [left; lia | left; lia | left; lia |].
  right. split; [done |]. by apply (IH b).
Qed.

Lemma key_lt_total a b : key_lt a b = false -> a <> b -> key_lt b a = true.
Proof.
  revert b. induction a as [| x a IH]; intros [| y b] Hlt Hne; try done.
  rewrite key_lt_cons. apply not_true_iff_false in Hlt. rewrite key_lt_cons in Hlt.
  destruct (N.lt_total x y) as [| [-> |]]; [naive_solver | | naive_solver].
  right. split; [done |]. apply IH; [| congruence]. destruct (key_lt a b); naive_solver.
Qed.

(** Fields in strictly increasing order of their keys. *)
Definition ordered {V} (f : list (jsstring * V)) : Prop :=
  StronglySorted (fun a b => key_lt a.1 b.1 = true) f.

Lemma insert_field_ordered {V} k (v : V) f :
  ordered f -> k ∉ map fst f -> ordered (insert_field k v f).
Proof.
  unfold ordered. induction f as [| [k' v'] f IH]; cbn; intros Hf Hk; [by repeat constructor |].
  inversion Hf as [| ? ? Hs Hall]; subst. rewrite not_elem_of_cons in Hk. destruct Hk as [Hne Hk].
  destruct (key_lt k k') eqn:Hlt.
  - constructor; [done |]. constructor; [done |]. eapply list.Forall_impl; [exact Hall |].
    cbn. intros [k2 v2] H2. by apply (key_lt_trans _ k').
  - constructor; [by apply IH |]. rewrite insert_field_perm. constructor; [| done].
    cbn. by apply key_lt_total.
Qed.

Lemma sort_fields_ordered {V} (f : list (jsstring * V)) : NoDup (map fst f) -> ordered (sort_fields f).
Proof.
  unfold sort_fields. induction f as [| [k v] f IH]; cbn; [by constructor |].
  intros [Hk Hnd]%list.NoDup_cons. apply insert_field_ordered; [by apply IH |].
  intros Hin. apply Hk. by rewrite <- (Permutation_map fst (sort_fields_perm f)).
Qed.

Lemma sort_fields_id {V} (f : list (jsstring * V)) : ordered f -> sort_fields f = f.
Proof.
  unfold ordered, sort_fields. induction f as [| [k v] f IH]; [done |].
  intros Hf. inversion Hf as [| ? ? Hs Hall]; subst. cbn. rewrite IH by done.
  destruct f as [| [k' v'] f]; [done |]. inversion Hall as [| ? ? Hlt]; subst. cbn in *. by rewrite Hlt.
Qed.

Lemma map_ordered {V W} (h : jsstring -> V -> W) f :
  ordered f -> ordered (map (fun kv => (kv.1, h kv.1 kv.2)) f).
Proof.
  unfold ordered. induction 1 as [| kv f Hf IH Hall]; cbn; constructor; [done |].
  rewrite Forall_map. eapply list.Forall_impl; [exact Hall | done].
Qed.

(** ** The canonical text depends on the normal form alone *)

Lemma serialize_normal x path :
  serializeCanonicalNumber (number_normal x) path = serializeCanonicalNumber x path.
Proof. by destruct x as [[] | | |]. Qed.

Lemma json_wf_object f :
  json_wf (Jobj f) = true -> NoDup (map fst f) /\ Forall (fun kv => json_wf kv.2 = true) f.
Proof.
  cbn [json_wf]. intros [Hnd Hf]%andb_true_iff. split; [by apply bool_decide_eq_true in Hnd |].
  by apply forallb_Forall.
Qed.

Lemma json_wf_array l : json_wf (Jarr l) = true -> Forall (fun v => json_wf v = true) l.
Proof. cbn [json_wf]. apply forallb_Forall. Qed.

Lemma canonicalize_normal v : forall path,
  json_wf v = true -> canonicalize (json_normal v) path = canonicalize v path.
Proof.
  induction v as [| b | x | s | l IH | f IH] using json_ind_nested; intros path Hwf; try done.
  - apply serialize_normal.
  - apply json_wf_array in Hwf. cbn [json_normal]. rewrite !canonicalize_array. do 2 f_equal.
    generalize O. induction l as [| v l IHl]; intros i; [done |].
    inversion IH; inversion Hwf; subst. cbn [map element_texts]. by rewrite IHl; [f_equal; auto |..].
  - apply json_wf_object in Hwf as [Hnd Hwf]. rewrite json_normal_object, !canonicalize_object.
    enough (field_texts path (map (fun kv => (kv.1, json_normal kv.2)) (sort_fields f))
      = field_texts path f) as -> by done. unfold field_texts.
    rewrite sort_fields_id by (apply (map_ordered (fun _ => json_normal)), sort_fields_ordered, Hnd).
    rewrite map_map. f_equal. apply map_ext_in. intros kv Hin%list_elem_of_In. cbn [fst snd].
    rewrite sort_fields_perm in Hin. rewrite list.Forall_forall in IH, Hwf. by rewrite IH by auto.
Qed.

Lemma canonical_text_read v s :
  json_wf v = true -> canonicalJsonStringify v = Return s ->
  parseJsonStrict s = Some (Return (json_normal v)).
Proof.
  intros Hwf Hs. pose proof (canonical_reads_back v Hwf root_path root_path s [] (2 * length s + 1)%nat) as Hr.
  rewrite app_nil_r in Hr. unfold parseJsonStrict. by rewrite Hr by first [done | lia].
Qed.

(** C20: canonical JSON round-trips: the strict parser accepts the canonical text
    of every value, number precision, escapes and key order included, and returns
    the value with its keys sorted and negative zero read as zero. *)
Theorem canonical_round_trip v s :
  json_wf v = true -> canonicalJsonStringify v = Return s ->
  parseJsonStrict s = Some (Return (json_normal v)).
Proof. apply canonical_text_read. Qed.

(** C21: two values that have a canonical text have the same one exactly when they
    are the same JSON value; the comparison of canonical texts used throughout
    (sameJson, digests) neither confuses nor separates values. *)
Theorem canonical_text_determines v w s t :
  json_wf v = true -> json_wf w = true ->
  canonicalJsonStringify v = Return s -> canonicalJsonStringify w = Return t ->
  s = t <-> sameJson v w = true.
Proof.
  intros Hv Hw Hs Ht. unfold sameJson. rewrite bool_decide_eq_true. split.
  - intros <-. apply canonical_text_read in Hs, Ht; [| done..]. congruence.
  - intros Heq. unfold canonicalJsonStringify in *.
    rewrite <- canonicalize_normal in Hs, Ht by done. congruence.
Qed.

(** ** Which values have a canonical text *)

(** A finite number; an integer beyond the safe range only where it is written
    with an exponent. *)
Definition i_json_number (x : spec_float) : bool :=
  is_finite x && (negb (is_integer x) || is_safe_number x || has_exponent (number_text x)).

(** I-JSON: such numbers, and strings and keys without lone surrogates. *)
Fixpoint i_json (v : JsonValue) : bool :=
  match v with
  | Jnum x => i_json_number x
  | Jstr s => valid_unicode s
  | Jarr l => forallb i_json l
  | Jobj f => forallb (fun kv => valid_unicode kv.1 && i_json kv.2) f
  | _ => true
  end.

Fixpoint distinct_keys (v : JsonValue) : bool :=
  match v with
  | Jarr l => forallb distinct_keys l
  | Jobj f => bool_decide (NoDup (map fst f)) && forallb (fun kv => distinct_keys kv.2) f
  | _ => true
  end.

Definition returns {E A} (o : outcome E A) : Prop := exists a, o = Return a.

Lemma returns_Return {E A} (a : A) : returns (Return a : outcome E A).
Proof. by exists a. Qed.

Lemma returns_bind {E A B} (o : outcome E A) (k : A -> outcome E B) :
  (forall a, returns (k a)) -> returns (o ≫= k) <-> returns o.
Proof.
  intros Hk. split; [intros [b Hb] | intros [a ->]; apply Hk].
  destruct o as [a | e]; [by exists a | done].
Qed.

Lemma returns_sequence {E A} (l : list (outcome E A)) :
  returns (sequence l) <-> Forall returns l.
Proof.
  induction l as [| o l IH]; [split; [by constructor | intros _; by exists []] |].
  rewrite Forall_cons_iff, <- IH. cbn [sequence]. split.
  - intros [r Hr]. destruct o as [a | e]; [| done]. destruct (sequence l) as [as' |]; [| done].
    split; by eexists.
  - intros [[a ->] [r ->]]. by eexists.
Qed.

Lemma returns_serialize x path : returns (serializeCanonicalNumber x path) <-> i_json_number x = true.
Proof.
  unfold serializeCanonicalNumber, i_json_number.
  destruct (is_finite x); [| by split; [intros [] |]]. cbn [negb orb andb].
  destruct (is_integer x), (is_safe_number x), (has_exponent (number_text x)); cbn;
    split; first [done | by intros [] | by eexists].
Qed.

Lemma returns_quote s path : returns (quote s path) <-> valid_unicode s = true.
Proof.
  unfold quote, assertValidUnicode. destruct (valid_unicode s); cbn; split; try done;
    [by eexists | by intros []].
Qed.

Lemma returns_field path k o :
  returns (field_text path k o) <-> valid_unicode k = true /\ returns o.
Proof.
  unfold field_text. rewrite <- (returns_quote k (key_path path)).
  destruct (quote k _) as [q |]; cbn; [| by split; [intros [] | intros [[] _]]].
  rewrite returns_bind by (intros; apply returns_Return). split; [| naive_solver].
  intros Ho. split; [by eexists | done].
Qed.

Lemma returns_canonicalize v : forall path, returns (canonicalize v path) <-> i_json v = true.
Proof.
  induction v as [| b | x | s | l IH | f IH] using json_ind_nested; intros path.
  - split; [done | intros _; apply returns_Return].
  - split; [done | intros _; apply returns_Return].
  - apply returns_serialize.
  - apply returns_quote.
  - rewrite canonicalize_array, returns_bind by (intros; apply returns_Return).
    rewrite returns_sequence. cbn [i_json]. generalize O.
    induction l as [| v l IHl]; intros i; [split; [done | by constructor] |].
    inversion IH as [| ? ? Hv Hl]; subst. cbn [element_texts forallb].
    by rewrite Forall_cons_iff, Hv, IHl, andb_true_iff.
  - rewrite canonicalize_object, returns_bind by (intros; apply returns_Return).
    unfold field_texts. rewrite returns_sequence. cbn [i_json].
    rewrite Forall_map, forallb_Forall, sort_fields_perm, !list.Forall_forall in *.
    setoid_rewrite returns_field. setoid_rewrite andb_true_iff. naive_solver.
Qed.

(** ** What the strict parser accepts *)

Definition accepted (v : JsonValue) : bool := i_json v && distinct_keys v.

(** A reading that returns only accepted values. *)
Definition yields (p : parser JsonValue) : Prop :=
  forall v rest, p = Some (Return (v, rest)) -> accepted v = true.

Lemma yields_fail e : yields (Some (Throw e)).
Proof. done. Qed.

Lemma yields_Return v rest : accepted v = true -> yields (Some (Return (v, rest))).
Proof. by intros Hv ? ? [= <- _]. Qed.

Lemma yields_pbind m (k : JsonValue -> jsstring -> parser JsonValue) :
  yields m -> (forall v rest, accepted v = true -> yields (k v rest)) -> yields (pbind m k).
Proof.
  intros Hm Hk. destruct m as [[[v rest] | e] |]; cbn; [| done | done].
  by apply Hk, (Hm v rest).
Qed.

Lemma accepted_snoc_array acc v :
  accepted (Jarr acc) = true -> accepted v = true -> accepted (Jarr (acc ++ [v])) = true.
Proof.
  unfold accepted. cbn [i_json distinct_keys]. rewrite !forallb_app. cbn [forallb].
  rewrite !andb_true_iff. naive_solver.
Qed.

Lemma accepted_snoc_object acc k v :
  accepted (Jobj acc) = true -> valid_unicode k = true -> bool_decide (k ∈ map fst acc) = false ->
  accepted v = true -> accepted (Jobj (acc ++ [(k, v)])) = true.
Proof.
  unfold accepted. cbn [i_json distinct_keys]. rewrite !forallb_app, map_app. cbn [forallb map fst snd].
  rewrite !andb_true_iff, !bool_decide_eq_true, bool_decide_eq_false. intros Hacc Hk Hnew Hv.
  split_and!; try naive_solver. apply list.NoDup_app. split_and!; [naive_solver | | apply NoDup_singleton].
  intros x Hx ->%list_elem_of_singleton. done.
Qed.

Lemma readString_valid path s v rest : readString path s = Return (v, rest) -> valid_unicode v = true.
Proof.
  unfold readString. destruct (scan_string s) as [[body r] |]; [| done].
  destruct (decode_body body); [| done]. unfold assertValidUnicode.
  destruct (valid_unicode _) eqn:Hv; [| done]. by intros [= <- _].
Qed.

Lemma read_literal_accepted path s v rest :
  read_literal path s = Return (v, rest) -> accepted v = true.
Proof.
  unfold read_literal. destruct (starts (js "true") s); [by intros [= <- _] |].
  destruct (starts (js "false") s); [by intros [= <- _] |].
  destruct (starts (js "null") s); [by intros [= <- _] |].
  unfold readNumber. destruct (scan_number s) as [[t r] |]; [| done].
  destruct (serializeCanonicalNumber (token_value t) path) as [text |] eqn:Ht; [| done]. cbn.
  destruct (assertUnroundedIntegerToken _ _ _ _); [| done]. cbn. intros [= <- _].
  unfold accepted. cbn. rewrite andb_true_r. apply (returns_serialize _ path). by eexists.
Qed.

Lemma read_yields fuel :
  (forall path s, yields (readValue fuel path s))
  /\ (forall path acc s, accepted (Jarr acc) = true -> yields (readElements fuel path acc s))
  /\ (forall path acc s, accepted (Jobj acc) = true -> yields (readFields fuel path acc s)).
Proof.
  induction fuel as [| fuel (IHv & IHe & IHf)]; [done |]. split_and!.
  - intros path s. cbn [readValue]. destruct (whitespace s) as [| c s']; [done |].
    destruct (c =? quotation)%N.
    { intros v rest Hr. destruct (readString path s') as [[x r] |] eqn:Hs; [| done].
      injection Hr as <- _. apply readString_valid in Hs. unfold accepted. cbn. by rewrite Hs. }
    destruct (c =? open_brace)%N; [| destruct (c =? open_bracket)%N].
    + destruct (whitespace s') as [| d s'']; [by apply IHf |].
      destruct (d =? close_brace)%N; [by apply yields_Return | by apply IHf].
    + destruct (whitespace s') as [| d s'']; [by apply IHe |].
      destruct (d =? close_bracket)%N; [by apply yields_Return | by apply IHe].
    + intros v rest [= Hr]. by apply read_literal_accepted in Hr.
  - intros path acc s Hacc. cbn [readElements]. apply yields_pbind; [apply IHv |]. intros v rest Hv.
    destruct (whitespace rest) as [| c rest']; [done |].
    destruct (c =? close_bracket)%N; [by apply yields_Return, accepted_snoc_array |].
    destruct (c =? comma)%N; [| done]. by apply IHe, accepted_snoc_array.
  - intros path acc s Hacc. cbn [readFields]. destruct (whitespace s) as [| c s1]; [done |].
    destruct (negb _); [done |]. destruct (readString (key_path path) s1) as [[key s2] |] eqn:Hs; [| done].
    apply readString_valid in Hs. destruct (bool_decide _) eqn:Hk; [done |].
    destruct (whitespace s2) as [| c2 s3]; [done |]. destruct (negb _); [done |].
    apply yields_pbind; [apply IHv |]. intros v rest Hv.
    destruct (whitespace rest) as [| c3 rest']; [done |].
    destruct (c3 =? close_brace)%N; [by apply yields_Return, accepted_snoc_object |].
    destruct (c3 =? comma)%N; [| done]. by apply IHf, accepted_snoc_object.
Qed.

(** What the strict parser accepts is canonical data: the keys of every
    object are distinct and the value has a canonical text; a parsed document
    never fails to canonicalize. *)
Theorem parsed_is_canonicalizable source v :
  parseJsonStrict source = Some (Return v) ->
  distinct_keys v = true /\ exists text, canonicalJsonStringify v = Return text.
Proof.
  unfold parseJsonStrict.
  destruct (readValue _ root_path source) as [[[w rest] | e] |] eqn:Hr; [| done | done].
  destruct (whitespace rest); [| done]. intros [= <-].
  apply (proj1 (read_yields _)) in Hr. apply andb_true_iff in Hr as [Hi Hd].
  split; [done |]. by apply (returns_canonicalize w root_path).
Qed.

(** A value has a canonical text exactly when it is I-JSON: finite numbers,
    no plainly written integer beyond the safe range, no lone surrogate in a
    string or a key. *)
Theorem canonical_text_exists_iff v :
  (exists text, canonicalJsonStringify v = Return text) <-> i_json v = true.
Proof. apply returns_canonicalize. Qed.

(** ** Fields of canonical objects *)

(** The value of a key: the first field with it. *)
Fixpoint field_of (k : jsstring) (f : list (jsstring * JsonValue)) : option JsonValue :=
  match f with
  | [] => None
  | (k', v) :: f' => if bool_decide (k = k') then Some v else field_of k f'
  end.

Lemma field_of_elem k v f : NoDup (map fst f) -> field_of k f = Some v <-> (k, v) ∈ f.
Proof.
  induction f as [| [k' v'] f IH]; cbn; [set_solver |].
  intros [Hk Hnd]%list.NoDup_cons. rewrite elem_of_cons. case_bool_decide as Heq.
  - subst k'. split; [intros [= <-]; by left |]. intros [[= ->] | Hin]; [done |].
    exfalso. apply Hk. apply list_elem_of_In, in_map_iff. exists (k, v). by rewrite <- list_elem_of_In.
  - rewrite IH by done. split; [by right | intros [[= ? ?] | ?]; done].
Qed.

Lemma field_of_perm k f g : NoDup (map fst f) -> f ≡ₚ g -> field_of k f = field_of k g.
Proof.
  intros Hf Hfg. assert (NoDup (map fst g)) as Hg by (by rewrite <- (Permutation_map fst Hfg)).
  apply option_eq. intros v. by rewrite !field_of_elem, Hfg by done.
Qed.

Lemma field_of_map k f : field_of k (map (fun kv => (kv.1, json_normal kv.2)) f) = json_normal <$> field_of k f.
Proof. induction f as [| [k' v] f IH]; cbn; [done |]. by case_bool_decide. Qed.

(** Objects with the same normal form have the same fields. *)
Lemma json_normal_field k f g :
  NoDup (map fst f) -> NoDup (map fst g) -> json_normal (Jobj f) = json_normal (Jobj g) ->
  json_normal <$> field_of k f = json_normal <$> field_of k g.
Proof.
  intros Hf Hg Heq. rewrite !json_normal_object in Heq. injection Heq as Heq.
  apply (f_equal (field_of k)) in Heq. rewrite !field_of_map in Heq.
  by rewrite !(field_of_perm k (sort_fields _) _) in Heq
    by (by rewrite ?(Permutation_map fst (sort_fields_perm _)) || apply sort_fields_perm).
Qed.

(** ** Canonical JSON at concrete inputs

    Evaluations of the writer and the strict parser, and the witnesses of the
    theorems of the canonical JSON files. *)

Definition parsed (s : string) : option (outcome CanonicalJsonError JsonValue) := parseJsonStrict (js s).
Definition refused (code : CanonicalJsonErrorCode) (path : string)
  : option (outcome CanonicalJsonError JsonValue) := Some (json_throw code (js path)).

Definition num_1500 : spec_float := S754_finite false 6597069766656000 (-42).
Definition num_tenth : spec_float := S754_finite false 7205759403792794 (-56).

(** [{"b": [1500, 0.1, -0], "a": "x\ny"}] *)
Definition sample : JsonValue :=
  Jobj [ (js "b", Jarr [Jnum num_1500; Jnum num_tenth; Jnum (S754_zero true)]);
         (js "a", Jstr [120; 10; 121]%N) ].

Definition sample_normal : JsonValue :=
  Jobj [ (js "a", Jstr [120; 10; 121]%N);
         (js "b", Jarr [Jnum num_1500; Jnum num_tenth; Jnum (S754_zero false)]) ].

Definition dq (s : string) : jsstring := map (fun c => if (c =? 39)%N then quotation else c) (js s).

Definition sample_text : jsstring := dq "{'a':'x\ny','b':[1500,0.1,0]}".

Example sample_writes : canonicalJsonStringify sample = Return sample_text.
Proof. vm_compute. reflexivity. Qed.

Example duplicate_key_refused :
  parseJsonStrict (dq "{'a':1,'b':{'a':2,'a':3}}") = refused KAF_SERIALIZATION_DUPLICATE_KEY "$.b".
Proof. vm_compute. reflexivity. Qed.

Example lone_surrogate_refused :
  parseJsonStrict (dq "['\ud800']") = refused KAF_SERIALIZATION_INVALID_UNICODE "$[0]".
Proof. vm_compute. reflexivity. Qed.

Example rounded_integer_refused :
  parsed "9007199254740993" = refused KAF_SERIALIZATION_NON_I_JSON_NUMBER "$"
  /\ parsed "1.0000000000000000001" = refused KAF_SERIALIZATION_NON_I_JSON_NUMBER "$"
  /\ parsed "1e400" = refused KAF_SERIALIZATION_NON_I_JSON_NUMBER "$".
Proof. split_and!; vm_compute; reflexivity. Qed.

Example trailing_text_refused :
  parsed "1 2" = refused KAF_SERIALIZATION_INVALID_JSON "$"
  /\ parsed "[1,]" = refused KAF_SERIALIZATION_INVALID_JSON "$"
  /\ parsed "01" = refused KAF_SERIALIZATION_INVALID_JSON "$".
Proof. split_and!; vm_compute; reflexivity. Qed.

Example large_numbers_write :
  canonicalJsonStringify (Jnum (decimal_value false 1 21)) = Return (js "1e+21")
  /\ canonicalJsonStringify (Jnum (decimal_value false 1 20))
     = json_throw KAF_SERIALIZATION_NON_I_JSON_NUMBER root_path
  /\ canonicalJsonStringify (Jnum (decimal_value true 123456789 (-15))) = Return (js "-1.23456789e-7").
Proof. split_and!; vm_compute; reflexivity. Qed.

Lemma canonical_round_trip_witness :
  json_wf sample = true /\ canonicalJsonStringify sample = Return sample_text
  /\ parseJsonStrict sample_text = Some (Return sample_normal).
Proof.
  split; [vm_compute; reflexivity |]. split; [exact sample_writes |].
  exact (canonical_round_trip sample sample_text eq_refl sample_writes).
Defined.

Lemma canonical_text_determines_witness :
  sample_text = sample_text <-> sameJson sample sample_normal = true.
Proof.
  apply (canonical_text_determines sample sample_normal sample_text sample_text);
    vm_compute; reflexivity.
Defined.

Lemma parsed_is_canonicalizable_witness :
  parseJsonStrict sample_text = Some (Return sample_normal)
  /\ distinct_keys sample_normal = true
  /\ exists text, canonicalJsonStringify sample_normal = Return text.
Proof.
  assert (parseJsonStrict sample_text = Some (Return sample_normal)) as H by (vm_compute; reflexivity).
  split; [exact H |]. exact (parsed_is_canonicalizable sample_text sample_normal H).
Defined.
