(* ===== verification/Digest.v ===== *)
(** * SHA-256 and digests (packages/core/src/serialization.ts)

    The digest function of the repository on bytes, and the functions of FIPS
    180-4 it is meant to be.  Numbers are mathematical integers: the source's
    sums stay below 2^53; its bitwise operators convert to signed 32-bit words,
    [>>>] to unsigned ones.  Typed arrays are lists of fixed length. *)

From S2P Require Import Prelude Errors Schema JsonValue Unicode JsonText.

Local Open Scope Z_scope.

(** ** Bitwise operators of the host language *)

Definition to_uint32 (z : Z) : Z := Z.land z 0xffffffff.
Definition to_int32 (z : Z) : Z :=
  let w := to_uint32 z in if w <? 0x80000000 then w else w - 0x100000000.

Definition js_shr_u (z n : Z) : Z := Z.shiftr (to_uint32 z) n.
Definition js_shl (z n : Z) : Z := to_int32 (Z.shiftl (to_int32 z) n).
Definition js_or (a b : Z) : Z := Z.lor (to_int32 a) (to_int32 b).
Definition js_xor (a b : Z) : Z := Z.lxor (to_int32 a) (to_int32 b).
Definition js_and (a b : Z) : Z := Z.land (to_int32 a) (to_int32 b).
Definition js_not (a : Z) : Z := Z.lnot (to_int32 a).

Definition rotateRight (value amount : Z) : Z :=
  js_or (js_shr_u value amount) (js_shl value (32 - amount)).

Definition uint32At (values : list Z) (index : nat) : outcome js_error Z :=
  orThrow (values !! index) (RangeError "SHA-256 word index is out of bounds").

Definition SHA256_CONSTANTS : list Z :=
  Eval cbv in concat [
    [ 0x428a2f98; 0x71374491; 0xb5c0fbcf; 0xe9b5dba5; 0x3956c25b; 0x59f111f1; 0x923f82a4; 0xab1c5ed5 ];
    [ 0xd807aa98; 0x12835b01; 0x243185be; 0x550c7dc3; 0x72be5d74; 0x80deb1fe; 0x9bdc06a7; 0xc19bf174 ];
    [ 0xe49b69c1; 0xefbe4786; 0x0fc19dc6; 0x240ca1cc; 0x2de92c6f; 0x4a7484aa; 0x5cb0a9dc; 0x76f988da ];
    [ 0x983e5152; 0xa831c66d; 0xb00327c8; 0xbf597fc7; 0xc6e00bf3; 0xd5a79147; 0x06ca6351; 0x14292967 ];
    [ 0x27b70a85; 0x2e1b2138; 0x4d2c6dfc; 0x53380d13; 0x650a7354; 0x766a0abb; 0x81c2c92e; 0x92722c85 ];
    [ 0xa2bfe8a1; 0xa81a664b; 0xc24b8b70; 0xc76c51a3; 0xd192e819; 0xd6990624; 0xf40e3585; 0x106aa070 ];
    [ 0x19a4c116; 0x1e376c08; 0x2748774c; 0x34b0bcb5; 0x391c0cb3; 0x4ed8aa4a; 0x5b9cca4f; 0x682e6ff3 ];
    [ 0x748f82ee; 0x78a5636f; 0x84c87814; 0x8cc70208; 0x90befffa; 0xa4506ceb; 0xbef9a3f7; 0xc67178f2 ] ].

Definition initial_hash : list Z :=
  [ 0x6a09e667; 0xbb67ae85; 0x3c6ef372; 0xa54ff53a; 0x510e527f; 0x9b05688c; 0x1f83d9ab; 0x5be0cd19 ].

(** ** Loops and typed arrays *)

(** [for (let index = i; index < i + n; index += 1) body] *)
Fixpoint for_range {S} (i n : nat) (body : nat -> S -> outcome js_error S) (s : S)
  : outcome js_error S :=
  match n with
  | O => Return s
  | S n => s' ← body i s; for_range (i + 1) n body s'
  end.

(** The four bytes of [setUint32], most significant first. *)
Definition word_bytes (value : Z) : list Z :=
  let w := to_uint32 value in
  [Z.shiftr w 24; Z.shiftr w 16 mod 256; Z.shiftr w 8 mod 256; w mod 256].

Definition setUint32 (view : list Z) (offset : nat) (value : Z) : list Z :=
  list_inserts offset (word_bytes value) view.

Definition bytes_word (bytes : list Z) : Z := fold_left (fun w b => w * 256 + b) bytes 0.

(** [view.getUint32(offset)], which throws beyond the end of the view. *)
Definition getUint32 (view : list Z) (offset : nat) : outcome js_error Z :=
  if Nat.ltb (length view) (offset + 4)%nat
  then Throw (RangeError "Offset is outside the bounds of the DataView")
  else Return (bytes_word (take 4 (drop offset view))).

(** ** The function *)

Definition paddedLength (bytes : list Z) : nat := (((length bytes + 9) + 63) / 64 * 64)%nat.

Definition pad_message (bytes : list Z) : list Z :=
  let bitLength := Z.of_nat (length bytes) * 8 in
  let n := paddedLength bytes in
  let padded := list_inserts 0 bytes (replicate n 0) in
  let padded := <[length bytes := 0x80]> padded in
  let view := setUint32 padded (n - 8)%nat (bitLength / 0x100000000) in
  setUint32 view (n - 4)%nat (js_shr_u bitLength 0).

(** The body of the loop that extends the message schedule. *)
Definition schedule_word (index : nat) (schedule : list Z) : outcome js_error (list Z) :=
  a ← uint32At schedule (index - 15);
  b ← uint32At schedule (index - 2);
  let s0 := js_xor (js_xor (rotateRight a 7) (rotateRight a 18)) (js_shr_u a 3) in
  let s1 := js_xor (js_xor (rotateRight b 17) (rotateRight b 19)) (js_shr_u b 10) in
  w16 ← uint32At schedule (index - 16);
  w7 ← uint32At schedule (index - 7);
  Return (<[index := js_shr_u (w16 + s0 + w7 + s1) 0]> schedule).

Definition load_word (padded : list Z) (offset index : nat) (schedule : list Z)
  : outcome js_error (list Z) :=
  w ← getUint32 padded (offset + index * 4);
  Return (<[index := w]> schedule).

(** The eight working variables. *)
Record working := { wa : Z; wb : Z; wc : Z; wd : Z; we : Z; wf : Z; wg : Z; wh : Z }.

(** The body of the compression loop. *)
Definition sha_round (schedule : list Z) (index : nat) (v : working) : outcome js_error working :=
  let '{| wa := a; wb := b; wc := c; wd := d; we := e; wf := f; wg := g; wh := h |} := v in
  let s1 := js_xor (js_xor (rotateRight e 6) (rotateRight e 11)) (rotateRight e 25) in
  let choose := js_xor (js_and e f) (js_and (js_not e) g) in
  k ← uint32At SHA256_CONSTANTS index;
  w ← uint32At schedule index;
  let temp1 := js_shr_u (h + s1 + choose + k + w) 0 in
  let s0 := js_xor (js_xor (rotateRight a 2) (rotateRight a 13)) (rotateRight a 22) in
  let majority := js_xor (js_xor (js_and a b) (js_and a c)) (js_and b c) in
  let temp2 := js_shr_u (s0 + majority) 0 in
  Return {| wh := g; wg := f; wf := e; we := js_shr_u (d + temp1) 0; wd := c; wc := b; wb := a;
            wa := js_shr_u (temp1 + temp2) 0 |}.

Definition load_working (hash : list Z) : outcome js_error working :=
  a ← uint32At hash 0; b ← uint32At hash 1; c ← uint32At hash 2; d ← uint32At hash 3;
  e ← uint32At hash 4; f ← uint32At hash 5; g ← uint32At hash 6; h ← uint32At hash 7;
  Return {| wa := a; wb := b; wc := c; wd := d; we := e; wf := f; wg := g; wh := h |}.

(** [hash[index] = (uint32At(hash, index) + value) >>> 0] *)
Definition add_word (index : nat) (value : Z) (hash : list Z) : outcome js_error (list Z) :=
  w ← uint32At hash index;
  Return (<[index := js_shr_u (w + value) 0]> hash).

Definition add_working (v : working) (hash : list Z) : outcome js_error (list Z) :=
  hash ← add_word 0 (wa v) hash; hash ← add_word 1 (wb v) hash;
  hash ← add_word 2 (wc v) hash; hash ← add_word 3 (wd v) hash;
  hash ← add_word 4 (we v) hash; hash ← add_word 5 (wf v) hash;
  hash ← add_word 6 (wg v) hash; add_word 7 (wh v) hash.

(** One block: the state is the hash and the schedule, which is not cleared. *)
Definition sha_block (padded : list Z) (block : nat) (s : list Z * list Z)
  : outcome js_error (list Z * list Z) :=
  let '(hash, schedule) := s in
  schedule ← for_range 0 16 (load_word padded (block * 64)) schedule;
  schedule ← for_range 16 48 schedule_word schedule;
  v ← load_working hash;
  v ← for_range 0 64 (sha_round schedule) v;
  hash ← add_working v hash;
  Return (hash, schedule).

Definition sha256 (bytes : list Z) : outcome js_error (list Z) :=
  let padded := pad_message bytes in
  '(hash, _) ← for_range 0 (paddedLength bytes / 64) (sha_block padded)
                  (initial_hash, replicate 64 0);
  Return (flat_map word_bytes hash).

(** ** FIPS 180-4

    The same function as the standard states it, on unsigned 32-bit words. *)

Module Fips.

Definition word_size : Z := 2 ^ 32.
Definition plus (x y : Z) : Z := (x + y) mod word_size.
Definition ROTR (n x : Z) : Z := Z.lor (Z.shiftr x n) (Z.shiftl x (32 - n) mod word_size).
Definition SHR (n x : Z) : Z := Z.shiftr x n.
Definition complement (x : Z) : Z := word_size - 1 - x.

Definition Ch (x y z : Z) : Z := Z.lxor (Z.land x y) (Z.land (complement x) z).
Definition Maj (x y z : Z) : Z := Z.lxor (Z.lxor (Z.land x y) (Z.land x z)) (Z.land y z).
Definition Sigma0 (x : Z) : Z := Z.lxor (Z.lxor (ROTR 2 x) (ROTR 13 x)) (ROTR 22 x).
Definition Sigma1 (x : Z) : Z := Z.lxor (Z.lxor (ROTR 6 x) (ROTR 11 x)) (ROTR 25 x).
Definition sigma0 (x : Z) : Z := Z.lxor (Z.lxor (ROTR 7 x) (ROTR 18 x)) (SHR 3 x).
Definition sigma1 (x : Z) : Z := Z.lxor (Z.lxor (ROTR 17 x) (ROTR 19 x)) (SHR 10 x).

(** Padding (5.1.1): a one bit, the fewest zeros that leave 64 bits in the last
    block, the length in bits. *)
Definition pad (message : list Z) : list Z :=
  let l := Z.of_nat (length message) * 8 in
  message ++ [0x80] ++ replicate (Z.to_nat ((55 - Z.of_nat (length message)) mod 64)) 0
  ++ map (fun i => Z.shiftr l (8 * i) mod 256) [7; 6; 5; 4; 3; 2; 1; 0].

Fixpoint words (bytes : list Z) : list Z :=
  match bytes with
  | a :: b :: c :: d :: rest => (((a * 256 + b) * 256 + c) * 256 + d) :: words rest
  | _ => []
  end.

(** The message schedule (6.2.2, step 1): its first [16 + n] words. *)
Fixpoint schedule (block : list Z) (n : nat) : list Z :=
  match n with
  | O => block
  | S n =>
      let W := schedule block n in
      let t := (16 + n)%nat in
      W ++ [plus (plus (plus (sigma1 (nth (t - 2) W 0)) (nth (t - 7) W 0)) (sigma0 (nth (t - 15) W 0)))
              (nth (t - 16) W 0)]
  end.

(** One round (6.2.2, step 3). *)
Definition round (v : working) (kw : Z * Z) : working :=
  let '{| wa := a; wb := b; wc := c; wd := d; we := e; wf := f; wg := g; wh := h |} := v in
  let T1 := plus (plus (plus (plus h (Sigma1 e)) (Ch e f g)) kw.1) kw.2 in
  let T2 := plus (Sigma0 a) (Maj a b c) in
  {| wh := g; wg := f; wf := e; we := plus d T1; wd := c; wc := b; wb := a; wa := plus T1 T2 |}.

Definition to_working (H : list Z) : working :=
  {| wa := nth 0 H 0; wb := nth 1 H 0; wc := nth 2 H 0; wd := nth 3 H 0;
     we := nth 4 H 0; wf := nth 5 H 0; wg := nth 6 H 0; wh := nth 7 H 0 |}.
Definition of_working (v : working) : list Z :=
  [wa v; wb v; wc v; wd v; we v; wf v; wg v; wh v].

Definition compress (H block : list Z) : list Z :=
  let v := fold_left round (combine SHA256_CONSTANTS (schedule block 48)) (to_working H) in
  zip_with plus H (of_working v).

Fixpoint hash_blocks (n : nat) (H : list Z) (message_words : list Z) : list Z :=
  match n with
  | O => H
  | S n => hash_blocks n (compress H (take 16 message_words)) (drop 16 message_words)
  end.

Definition sha256 (message : list Z) : list Z :=
  let M := words (pad message) in
  flat_map word_bytes (hash_blocks (length M / 16) initial_hash M).

End Fips.

(** ** Digests (packages/core/src/serialization.ts, lines 436-443)

    [digestBytes] and [digestCanonicalJson]: the lowercase hexadecimal SHA-256
    of the UTF-8 encoding of a value's canonical text. *)

Local Open Scope N_scope.

(** ** TextEncoder *)

(** UTF-8; a lone surrogate is encoded as U+FFFD. *)
Definition utf8_code (cp : N) : list N :=
  let cp := if in_range 55296 57343 cp then 65533 else cp in
  if cp <? 128 then [cp]
  else if cp <? 2048 then [192 + cp / 64; 128 + cp mod 64]
  else if cp <? 65536 then [224 + cp / 4096; 128 + (cp / 64) mod 64; 128 + cp mod 64]
  else [240 + cp / 262144; 128 + (cp / 4096) mod 64; 128 + (cp / 64) mod 64; 128 + cp mod 64].

Definition utf8 (s : jsstring) : list N := flat_map utf8_code (code_points s).

(** ** Digests *)

Definition hex_char (d : Z) : Ascii.ascii :=
  Ascii.ascii_of_N (if (d <? 10)%Z then 48 + Z.to_N d else 87 + Z.to_N d).

(** [byte.toString(16).padStart(2, "0")] *)
Fixpoint hex_text (bytes : list Z) : string :=
  match bytes with
  | [] => EmptyString
  | b :: bytes' => String (hex_char (b / 16)%Z) (String (hex_char (b mod 16)%Z) (hex_text bytes'))
  end.

Definition digestBytes (bytes : list Z) : outcome js_error string :=
  hash ← sha256 bytes;
  parse DigestSchema (String.append "sha256:" (hex_text hash)).

Definition canonical_code_name (code : CanonicalJsonErrorCode) : string :=
  match code with
  | KAF_SERIALIZATION_INVALID_JSON => "KAF_SERIALIZATION_INVALID_JSON"
  | KAF_SERIALIZATION_DUPLICATE_KEY => "KAF_SERIALIZATION_DUPLICATE_KEY"
  | KAF_SERIALIZATION_INVALID_UNICODE => "KAF_SERIALIZATION_INVALID_UNICODE"
  | KAF_SERIALIZATION_NON_I_JSON_NUMBER => "KAF_SERIALIZATION_NON_I_JSON_NUMBER"
  | KAF_SERIALIZATION_UNSUPPORTED_VALUE => "KAF_SERIALIZATION_UNSUPPORTED_VALUE"
  | KAF_SERIALIZATION_CYCLIC_VALUE => "KAF_SERIALIZATION_CYCLIC_VALUE"
  end.

(** A serialization error among the other errors of the program. *)
Definition lift_json {A} (o : outcome CanonicalJsonError A) : outcome js_error A :=
  match o with
  | Return a => Return a
  | Throw e => Throw (PolicyError "CanonicalJsonError" (canonical_code_name (cje_code e)))
  end.

Definition encode (s : jsstring) : list Z := map Z.of_N (utf8 s).

Definition digestCanonicalJson (value : JsonValue) : outcome js_error string :=
  text ← lift_json (canonicalJsonStringify value);
  digestBytes (encode text).
