(* ===== verification/Sha256Facts.v ===== *)
(** * SHA-256 is the function of FIPS 180-4

    On signed and unsigned 32-bit words the operators of the source are those of
    the standard; the schedule, the rounds and the padding follow. *)

From S2P Require Import Prelude Errors Digest.

Local Open Scope Z_scope.

(** ** Words *)

Definition is_word (x : Z) : Prop := 0 <= x < 2 ^ 32.

Lemma to_uint32_mod z : to_uint32 z = z mod 2 ^ 32.
Proof. unfold to_uint32. change 0xffffffff with (Z.ones 32). by apply Z.land_ones. Qed.

Lemma to_uint32_bits z i : 0 <= i -> Z.testbit (to_uint32 z) i = (i <? 32) && Z.testbit z i.
Proof.
  intros Hi. rewrite to_uint32_mod. destruct (i <? 32) eqn:H32; bools.
  - by rewrite Z.mod_pow2_bits_low.
  - by rewrite Z.mod_pow2_bits_high by lia.
Qed.

Lemma to_uint32_int32 z : to_uint32 (to_int32 z) = to_uint32 z.
Proof.
  unfold to_int32. rewrite !to_uint32_mod. destruct (_ <? _); [by rewrite Z.mod_mod |].
  change 0x100000000 with (2 ^ 32).
  rewrite <- (Zminus_mod_idemp_r _ (2 ^ 32)), Z_mod_same_full, Z.sub_0_r. by apply Z.mod_mod.
Qed.

Lemma to_int32_bits z i : 0 <= i < 32 -> Z.testbit (to_int32 z) i = Z.testbit z i.
Proof.
  intros Hi. pose proof (f_equal (fun w => Z.testbit w i) (to_uint32_int32 z)) as H. cbn beta in H.
  rewrite !to_uint32_bits in H by lia. destruct (i <? 32) eqn:H32; [done | bools; lia].
Qed.

Lemma to_uint32_word z : is_word (to_uint32 z).
Proof. rewrite to_uint32_mod. apply Z.mod_pos_bound. lia. Qed.

Lemma to_uint32_id z : is_word z -> to_uint32 z = z.
Proof. rewrite to_uint32_mod. apply Z.mod_small. Qed.

Lemma word_bits z i : is_word z -> 32 <= i -> Z.testbit z i = false.
Proof. intros Hz Hi. rewrite <- (to_uint32_id z Hz), to_uint32_bits by lia. by rewrite (proj2 (Z.ltb_ge _ _)). Qed.

(** Equality of words bit by bit. *)
Ltac by_bits :=
  apply Z.bits_inj'; intros i Hi; rewrite ?to_uint32_bits by lia;
  destruct (i <? 32) eqn:H32; bools; cbn [andb].

Lemma js_xor_word a b : to_uint32 (js_xor a b) = Z.lxor (to_uint32 a) (to_uint32 b).
Proof.
  by_bits; rewrite Z.lxor_spec, ?to_uint32_bits by lia.
  - unfold js_xor. rewrite Z.lxor_spec, !to_int32_bits by lia. by rewrite (proj2 (Z.ltb_lt _ _)).
  - by rewrite !(proj2 (Z.ltb_ge _ _)) by lia.
Qed.

Lemma js_or_word a b : to_uint32 (js_or a b) = Z.lor (to_uint32 a) (to_uint32 b).
Proof.
  by_bits; rewrite Z.lor_spec, ?to_uint32_bits by lia.
  - unfold js_or. rewrite Z.lor_spec, !to_int32_bits by lia. by rewrite (proj2 (Z.ltb_lt _ _)).
  - by rewrite !(proj2 (Z.ltb_ge _ _)) by lia.
Qed.

Lemma js_and_word a b : to_uint32 (js_and a b) = Z.land (to_uint32 a) (to_uint32 b).
Proof.
  by_bits; rewrite Z.land_spec, ?to_uint32_bits by lia.
  - unfold js_and. rewrite Z.land_spec, !to_int32_bits by lia. by rewrite (proj2 (Z.ltb_lt _ _)).
  - by rewrite !(proj2 (Z.ltb_ge _ _)) by lia.
Qed.

Lemma js_not_word a : to_uint32 (js_not a) = Fips.complement (to_uint32 a).
Proof.
  unfold js_not, Fips.complement, Fips.word_size.
  rewrite <- (to_uint32_int32 a), !to_uint32_mod. generalize (to_int32 a). intros z.
  pose proof (Z.mod_pos_bound z (2 ^ 32)). symmetry.
  apply (Z.mod_unique_pos _ _ (-1 - z / 2 ^ 32)); [lia |].
  pose proof (Z.div_mod z (2 ^ 32)). unfold Z.lnot. lia.
Qed.

Lemma js_shr_word a n : 0 <= n -> is_word (js_shr_u a n).
Proof.
  intros Hn. unfold js_shr_u, is_word. pose proof (to_uint32_word a) as [H0 H1].
  rewrite Z.shiftr_div_pow2 by lia. split; [apply Z.div_pos; lia |].
  apply Z.le_lt_trans with (to_uint32 a); [| done]. apply Z.div_le_upper_bound; [lia |]. nia.
Qed.

Lemma js_shl_word a n : 0 <= n -> to_uint32 (js_shl a n) = Z.shiftl (to_uint32 a) n mod 2 ^ 32.
Proof.
  intros Hn. unfold js_shl. rewrite to_uint32_int32, !to_uint32_mod.
  rewrite !Z.shiftl_mul_pow2 by lia. rewrite Zmult_mod, (Zmult_mod (a mod 2 ^ 32)).
  rewrite <- !to_uint32_mod, to_uint32_int32, !to_uint32_mod. by rewrite Z.mod_mod by lia.
Qed.

Lemma rotateRight_word a n : 0 <= n <= 32 -> to_uint32 (rotateRight a n) = Fips.ROTR n (to_uint32 a).
Proof.
  intros Hn. unfold rotateRight. rewrite js_or_word, js_shl_word by lia.
  by rewrite (to_uint32_id _ (js_shr_word a n ltac:(lia))).
Qed.

Lemma js_shr_zero a : js_shr_u a 0 = to_uint32 a.
Proof. unfold js_shr_u. by rewrite Z.shiftr_0_r. Qed.

Lemma to_uint32_plus a b : to_uint32 (a + b) = Fips.plus (to_uint32 a) (to_uint32 b).
Proof. unfold Fips.plus, Fips.word_size. rewrite !to_uint32_mod. apply Zplus_mod. Qed.

Lemma plus_word a b : is_word (Fips.plus a b).
Proof. apply Z.mod_pos_bound. reflexivity. Qed.

Lemma plus_uint32 a b : to_uint32 (Fips.plus a b) = Fips.plus a b.
Proof. apply to_uint32_id, plus_word. Qed.

Lemma plus_comm a b : Fips.plus a b = Fips.plus b a.
Proof. unfold Fips.plus. by rewrite Z.add_comm. Qed.

Lemma plus_assoc a b c : Fips.plus a (Fips.plus b c) = Fips.plus (Fips.plus a b) c.
Proof.
  unfold Fips.plus. rewrite Zplus_mod_idemp_r, Zplus_mod_idemp_l. f_equal. lia.
Qed.

Create Rewrite HintDb words.
#[export] Hint Rewrite js_xor_word js_and_word js_not_word js_shr_zero to_uint32_plus plus_uint32 : words.
#[export] Hint Rewrite rotateRight_word using lia : words.
#[export] Hint Resolve to_uint32_word plus_word js_shr_word : words.

Lemma mod_idemp_middle a b c n : (a mod n + b + c) mod n = (a + b + c) mod n.
Proof. rewrite <- !Z.add_assoc. apply Zplus_mod_idemp_l. Qed.

(** Sums of words in any order and grouping. *)
Ltac sum_words :=
  unfold Fips.plus; repeat (rewrite Zplus_mod_idemp_l || rewrite Zplus_mod_idemp_r
    || rewrite mod_idemp_middle);
  f_equal; lia.

Lemma js_shr_SHR x n : is_word x -> js_shr_u x n = Fips.SHR n x.
Proof. intros Hx. unfold js_shr_u. by rewrite to_uint32_id. Qed.

Lemma schedule_sum a b w7 w16 :
  is_word a -> is_word b -> is_word w7 -> is_word w16 ->
  js_shr_u (w16 + js_xor (js_xor (rotateRight a 7) (rotateRight a 18)) (js_shr_u a 3) + w7
            + js_xor (js_xor (rotateRight b 17) (rotateRight b 19)) (js_shr_u b 10)) 0
  = Fips.plus (Fips.plus (Fips.plus (Fips.sigma1 b) w7) (Fips.sigma0 a)) w16.
Proof.
  intros Ha Hb H7 H16. autorewrite with words.
  rewrite (to_uint32_id (js_shr_u a 3)), (to_uint32_id (js_shr_u b 10)) by (apply js_shr_word; lia).
  rewrite !js_shr_SHR, !to_uint32_id by done. unfold Fips.sigma0, Fips.sigma1. sum_words.
Qed.

Definition working_words (v : working) : Prop := Forall is_word (Fips.of_working v).

Lemma round_words v index k w :
  working_words v -> is_word k -> is_word w ->
  SHA256_CONSTANTS !! index = Some k ->
  forall schedule, schedule !! index = Some w ->
  sha_round schedule index v = Return (Fips.round v (k, w)).
Proof.
  intros Hv Hk Hw Hki schedule Hwi. destruct v as [a b c d e f g h].
  unfold working_words, Fips.of_working in Hv. cbn in Hv.
  repeat match goal with H : Forall _ (_ :: _) |- _ => inversion H; subst; clear H end.
  unfold sha_round, uint32At. rewrite Hki, Hwi. cbn [orThrow mbind outcome_bind].
  unfold Fips.round. cbn [fst snd]. f_equal.
  autorewrite with words. rewrite !to_uint32_id by done.
  done.
Qed.

Lemma round_keeps_words v kw : working_words v -> working_words (Fips.round v kw).
Proof.
  destruct v as [a b c d e f g h]. unfold working_words, Fips.of_working. cbn. intros Hv.
  repeat match goal with H : Forall _ (_ :: _) |- _ => inversion H; subst; clear H end.
  repeat apply list.Forall_cons_2; try apply list.Forall_nil_2; try done; apply plus_word.
Qed.

(** ** Loops *)

Lemma for_range_invariant {S} (P : nat -> S -> Prop) i n (body : nat -> S -> outcome js_error S) s :
  P i s ->
  (forall j s, (i <= j < i + n)%nat -> P j s -> exists s', body j s = Return s' /\ P (j + 1)%nat s') ->
  exists s', for_range i n body s = Return s' /\ P (i + n)%nat s'.
Proof.
  revert i s. induction n as [| n IH]; intros i s Hs Hbody; cbn.
  - exists s. by rewrite Nat.add_0_r.
  - destruct (Hbody i s) as (s1 & -> & H1); [lia | done |]. cbn.
    destruct (IH (i + 1)%nat s1 H1) as (s2 & H2 & HP); [intros j s' Hj; apply Hbody; lia |].
    exists s2. split; [done |]. by replace (i + Datatypes.S n)%nat with (i + 1 + n)%nat by lia.
Qed.

Lemma take_insert_end {A} (l : list A) j x : (j < length l)%nat -> take (j + 1) (<[j := x]> l) = take j l ++ [x].
Proof.
  intros Hj. rewrite Nat.add_1_r, (list.take_S_r _ _ x).
  - by rewrite take_insert_ge.
  - by apply list_lookup_insert_eq.
Qed.

Lemma uint32At_Some l i x : l !! i = Some x -> uint32At l i = Return x.
Proof. unfold uint32At. by intros ->. Qed.

Lemma nth_Some (l : list Z) i : (i < length l)%nat -> l !! i = Some (nth i l 0).
Proof.
  intros Hi. destruct (lookup_lt_is_Some_2 l i Hi) as [x Hx]. rewrite Hx. f_equal.
  rewrite nth_lookup. by rewrite Hx.
Qed.

Lemma words_length n : forall bytes, length bytes = (4 * n)%nat -> length (Fips.words bytes) = n.
Proof.
  induction n as [| n IH]; intros bytes Hn; [by destruct bytes |].
  destruct bytes as [| a [| b [| c [| d bytes]]]]; cbn in Hn; try lia. cbn. f_equal. apply IH. lia.
Qed.

Lemma words_lookup k : forall bytes,
  (4 * k + 4 <= length bytes)%nat ->
  Fips.words bytes !! k = Some (bytes_word (take 4 (drop (4 * k) bytes))).
Proof.
  induction k as [| k IH]; intros bytes Hk;
    destruct bytes as [| a [| b [| c [| d bytes]]]]; cbn in Hk; try lia; [done |].
  cbn [Fips.words lookup list_lookup]. rewrite IH by lia. do 3 f_equal.
  by replace (4 * S k)%nat with (S (S (S (S (4 * k))))) by lia.
Qed.

(** ** One block *)

Lemma schedule_length block n : length block = 16%nat -> length (Fips.schedule block n) = (16 + n)%nat.
Proof. intros Hb. induction n as [| n IH]; [done |]. cbn [Fips.schedule]. rewrite length_app, IH. cbn. lia. Qed.

Lemma schedule_words block n : Forall is_word block -> Forall is_word (Fips.schedule block n).
Proof.
  intros Hb. induction n as [| n IH]; [done |]. cbn [Fips.schedule].
  apply Forall_app_2; [done |]. repeat constructor; apply plus_word.
Qed.

Lemma nth_word l i : Forall is_word l -> is_word (nth i l 0).
Proof.
  intros Hl. rewrite nth_lookup. destruct (l !! i) as [x |] eqn:Hx; [| done].
  by apply (list.Forall_lookup_1 _ _ _ _ Hl Hx).
Qed.

Lemma lookup_prefix (s W : list Z) j i :
  take j s = W -> length W = j -> (i < j)%nat -> s !! i = Some (nth i W 0).
Proof.
  intros <- Hj Hi. rewrite <- nth_Some by lia. symmetry. by apply lookup_take_lt.
Qed.

Lemma schedule_word_spec block j s :
  length block = 16%nat -> Forall is_word block -> length s = 64%nat -> (16 <= j < 64)%nat ->
  take j s = Fips.schedule block (j - 16) ->
  exists s', schedule_word j s = Return s' /\ length s' = 64%nat
    /\ take (j + 1) s' = Fips.schedule block (j + 1 - 16).
Proof.
  intros Hb Hw Hs Hj Htake. pose proof (schedule_length block (j - 16) Hb) as HW.
  pose proof (schedule_words block (j - 16) Hw) as HWw.
  assert (forall i, (i < j)%nat -> s !! i = Some (nth i (Fips.schedule block (j - 16)) 0)) as Hlook.
  { intros i Hi. apply (lookup_prefix _ _ j); [done | lia | done]. }
  assert (forall i, (i < j)%nat -> uint32At s i = Return (nth i (Fips.schedule block (j - 16)) 0)) as Hat
    by (intros i Hi; by apply uint32At_Some, Hlook).
  unfold schedule_word. rewrite !Hat by lia. cbn [mbind outcome_bind].
  rewrite schedule_sum by (by apply nth_word).
  eexists. split; [done |]. split; [by rewrite length_insert |].
  rewrite take_insert_end by lia. rewrite Htake.
  replace (j + 1 - 16)%nat with (S (j - 16)) by lia. cbn [Fips.schedule].
  by replace (16 + (j - 16))%nat with j by lia.
Qed.

Lemma load_word_spec padded b j s :
  length s = 64%nat -> (j < 16)%nat -> (64 * b + 64 <= length padded)%nat ->
  take j s = take j (drop (16 * b) (Fips.words padded)) ->
  exists s', load_word padded (b * 64) j s = Return s' /\ length s' = 64%nat
    /\ take (j + 1) s' = take (j + 1) (drop (16 * b) (Fips.words padded)).
Proof.
  intros Hs Hj Hp Htake. unfold load_word, getUint32.
  rewrite (proj2 (Nat.ltb_ge _ _)) by lia. cbn [mbind outcome_bind].
  eexists. split; [done |]. split; [by rewrite length_insert |].
  rewrite take_insert_end, Htake by lia. rewrite Nat.add_1_r. symmetry. apply list.take_S_r.
  rewrite lookup_drop, words_lookup by lia. do 4 f_equal. lia.
Qed.

Lemma combine_lookup {A B} (l : list A) : forall (k : list B) i a b,
  l !! i = Some a -> k !! i = Some b -> combine l k !! i = Some (a, b).
Proof.
  induction l as [| x l IH]; intros [| y k] [| i] a b; cbn; try done; [congruence | apply IH].
Qed.

Lemma constants_words : Forall is_word SHA256_CONSTANTS.
Proof. repeat (apply list.Forall_cons_2; [by split |]). apply list.Forall_nil_2. Qed.

Lemma rounds_spec W v :
  length W = 64%nat -> Forall is_word W -> working_words v ->
  exists v', for_range 0 64 (sha_round W) v = Return v'
    /\ v' = fold_left Fips.round (combine SHA256_CONSTANTS W) v /\ working_words v'.
Proof.
  intros HW HWw Hv.
  destruct (for_range_invariant (fun j u => u = fold_left Fips.round (take j (combine SHA256_CONSTANTS W)) v
    /\ working_words u) 0 64 (sha_round W) v) as (v' & Hr & -> & Hw').
  - done.
  - intros j u Hj [Hu Hw]. pose proof (nth_Some SHA256_CONSTANTS j ltac:(cbn; lia)) as Hk.
    pose proof (nth_Some W j ltac:(lia)) as HWj.
    rewrite (round_words u j (nth j SHA256_CONSTANTS 0) (nth j W 0)
      Hw (nth_word _ _ constants_words) (nth_word _ _ HWw) Hk W HWj).
    eexists. split; [done |]. split; [| by apply round_keeps_words].
    rewrite Nat.add_1_r, (list.take_S_r _ _ _ (combine_lookup _ _ _ _ _ Hk HWj)), fold_left_app.
    by rewrite <- Hu.
  - eexists. split; [exact Hr |]. rewrite firstn_all2 in Hw' |- *; [done | |];
      rewrite length_combine, HW; cbn; lia.
Qed.

Lemma add_working_spec v H :
  length H = 8%nat -> add_working v H = Return (zip_with Fips.plus H (Fips.of_working v)).
Proof.
  intros Hl. destruct v, H as [| h0 [| h1 [| h2 [| h3 [| h4 [| h5 [| h6 [| h7 [|]]]]]]]]]; try done.
  cbn -[js_shr_u Fips.plus]. unfold Fips.plus. by rewrite !js_shr_zero, !to_uint32_mod.
Qed.

Lemma load_working_spec H :
  length H = 8%nat -> load_working H = Return (Fips.to_working H).
Proof. intros Hl. by destruct H as [| h0 [| h1 [| h2 [| h3 [| h4 [| h5 [| h6 [| h7 [|]]]]]]]]]. Qed.

Lemma to_working_words H : Forall is_word H -> working_words (Fips.to_working H).
Proof. intros HH. repeat apply list.Forall_cons_2; try apply list.Forall_nil_2; by apply nth_word. Qed.

Lemma zip_plus_words H k : Forall is_word (zip_with Fips.plus H k).
Proof.
  revert k. induction H as [| h H IH]; intros [| x k]; cbn; try apply list.Forall_nil_2.
  apply list.Forall_cons_2; [apply plus_word | apply IH].
Qed.

Lemma compress_length H block : length H = 8%nat -> length (Fips.compress H block) = 8%nat.
Proof. intros Hl. unfold Fips.compress. rewrite length_zip_with, Hl. done. Qed.

(** One iteration of the outer loop is one compression. *)
Lemma sha_block_spec padded b H s :
  length s = 64%nat -> length H = 8%nat -> Forall is_word H ->
  Forall is_word (Fips.words padded) -> (64 * b + 64 <= length padded)%nat ->
  (16 * b + 16 <= length (Fips.words padded))%nat ->
  exists s', sha_block padded b (H, s)
    = Return (Fips.compress H (take 16 (drop (16 * b) (Fips.words padded))), s')
    /\ length s' = 64%nat.
Proof.
  intros Hs Hl HH HM Hp HMl. set (block := take 16 (drop (16 * b) (Fips.words padded))).
  assert (length block = 16%nat) as Hb by (unfold block; rewrite length_take, length_drop; lia).
  assert (Forall is_word block) as Hbw by (by apply list.Forall_take, list.Forall_drop).
  unfold sha_block.
  destruct (for_range_invariant (fun j s => length s = 64%nat
    /\ take j s = take j (drop (16 * b) (Fips.words padded))) 0 16 (load_word padded (b * 64)) s)
    as (s1 & -> & Hs1 & Ht1); [done | |].
  { intros j u Hj [Hu Ht]. apply load_word_spec; [done | lia | done | done]. }
  cbn [mbind outcome_bind].
  destruct (for_range_invariant (fun j s => length s = 64%nat /\ take j s = Fips.schedule block (j - 16))
    16 48 schedule_word s1) as (s2 & -> & Hs2 & Ht2); [by split | |].
  { intros j u Hj [Hu Ht]. apply schedule_word_spec; [done | done | done | lia | done]. }
  cbn [mbind outcome_bind]. rewrite load_working_spec by done. cbn [mbind outcome_bind].
  assert (s2 = Fips.schedule block 48) as ->.
  { change (16 + 48 - 16)%nat with 48%nat in Ht2. rewrite <- Ht2. symmetry. apply firstn_all2. cbn. lia. }
  destruct (rounds_spec (Fips.schedule block 48) (Fips.to_working H)) as (v & -> & Hv & Hvw);
    [exact Hs2 | by apply schedule_words | by apply to_working_words |].
  cbn [mbind outcome_bind]. rewrite add_working_spec by done. cbn [mbind outcome_bind].
  eexists. split; [| exact Hs2]. do 2 f_equal. unfold Fips.compress. by rewrite Hv.
Qed.

Lemma hash_blocks_step n : forall H M,
  Fips.hash_blocks (S n) H M = Fips.compress (Fips.hash_blocks n H M) (take 16 (drop (16 * n) M)).
Proof.
  induction n as [| n IH]; intros H M; [done |].
  change (Fips.hash_blocks (S (S n)) H M) with (Fips.hash_blocks (S n) (Fips.compress H (take 16 M)) (drop 16 M)).
  rewrite IH, drop_drop. by replace (16 + 16 * n)%nat with (16 * S n)%nat by lia.
Qed.

(** ** Padding *)

Lemma list_inserts_middle (a x y c : list Z) :
  length x = length y -> list_inserts (length a) x (a ++ y ++ c) = a ++ x ++ c.
Proof.
  intros Hxy. rewrite <- (Nat.add_0_r (length a)), list_inserts_app_r. f_equal.
  by apply list_inserts_0_r.
Qed.

Lemma paddedLength_spec bytes :
  paddedLength bytes
  = (length bytes + 9 + Z.to_nat ((55 - Z.of_nat (length bytes)) mod 64))%nat
  /\ exists n, paddedLength bytes = (64 * n)%nat.
Proof.
  unfold paddedLength. set (L := length bytes). split; [| by eexists; rewrite Nat.mul_comm].
  apply Nat2Z.inj. rewrite !Nat2Z.inj_add, Nat2Z.inj_mul, Nat2Z.inj_div, Z2Nat.id by (apply Z.mod_pos_bound; lia).
  rewrite !Nat2Z.inj_add. generalize (Z.of_nat L). intros z. cbn. Z.div_mod_to_equations. lia.
Qed.

Lemma shiftr_shiftr_mod l a b : 0 <= a -> 0 <= b -> Z.shiftr (Z.shiftr l a) b mod 256 = Z.shiftr l (a + b) mod 256.
Proof. intros. by rewrite Z.shiftr_shiftr by lia. Qed.

Lemma shiftr_word_mod l b : 0 <= b <= 24 -> Z.shiftr (to_uint32 l) b mod 256 = Z.shiftr l b mod 256.
Proof.
  intros Hb. apply Z.bits_inj'. intros i Hi. change 256 with (2 ^ 8).
  destruct (Z.ltb_spec i 8).
  - rewrite !Z.mod_pow2_bits_low, !Z.shiftr_spec, to_uint32_bits by lia. by rewrite (proj2 (Z.ltb_lt _ _)) by lia.
  - by rewrite !Z.mod_pow2_bits_high by lia.
Qed.

Lemma word_bytes_mod w :
  word_bytes w = map (fun i => Z.shiftr w (8 * i) mod 256) [3; 2; 1; 0].
Proof.
  unfold word_bytes. cbn [map].
  assert (Z.shiftr (to_uint32 w) 24 = Z.shiftr (to_uint32 w) 24 mod 256) as ->.
  { symmetry. apply Z.mod_small. pose proof (to_uint32_word w) as [H0 H1].
    rewrite Z.shiftr_div_pow2 by lia. split; [apply Z.div_pos; lia | apply Z.div_lt_upper_bound; lia]. }
  assert (to_uint32 w mod 256 = Z.shiftr w 0 mod 256) as ->
    by (rewrite <- shiftr_word_mod by lia; by rewrite Z.shiftr_0_r).
  by rewrite !shiftr_word_mod by lia.
Qed.

Lemma length_bytes l :
  0 <= l -> word_bytes (l / 0x100000000) ++ word_bytes (js_shr_u l 0)
  = map (fun i => Z.shiftr l (8 * i) mod 256) [7; 6; 5; 4; 3; 2; 1; 0].
Proof.
  intros Hl. rewrite js_shr_zero, !word_bytes_mod. change 0x100000000 with (2 ^ 32).
  rewrite <- Z.shiftr_div_pow2 by lia. cbn [map app]. rewrite !shiftr_shiftr_mod, !shiftr_word_mod by lia.
  done.
Qed.

Lemma pad_message_spec bytes : pad_message bytes = Fips.pad bytes.
Proof.
  unfold pad_message, Fips.pad. destruct (paddedLength_spec bytes) as [Hn _]. rewrite Hn.
  set (L := length bytes). set (k := Z.to_nat ((55 - Z.of_nat L) mod 64)).
  set (l := Z.of_nat L * 8).
  replace (L + 9 + k)%nat with (L + (1 + (k + (4 + 4))))%nat by lia.
  rewrite !replicate_add. unfold setUint32.
  pose proof (list_inserts_middle [] bytes (replicate L 0)
    (replicate 1 0 ++ replicate k 0 ++ replicate 4 0 ++ replicate 4 0)) as H1. cbn [length app] in H1.
  rewrite H1 by (by rewrite length_replicate). clear H1.
  rewrite insert_app_r_alt, Nat.sub_diag by lia. cbn [replicate app insert list_insert].
  change (0 :: 0 :: 0 :: 0 :: 0 :: 0 :: 0 :: [0]) with (replicate 4 0 ++ replicate 4 0).
  set (front := bytes ++ 128 :: replicate k 0).
  assert (length front = (L + 1 + k)%nat) as Hf
    by (unfold front; rewrite length_app; cbn [length]; rewrite length_replicate; unfold L; lia).
  replace (bytes ++ 128 :: replicate k 0 ++ replicate 4 0 ++ replicate 4 0)
    with (front ++ replicate 4 0 ++ replicate 4 0) by (unfold front; by rewrite <- app_assoc).
  replace (L + (1 + (k + (4 + 4))) - 8)%nat with (length front) by lia.
  rewrite list_inserts_middle by done.
  replace (L + (1 + (k + (4 + 4))) - 4)%nat with (length (front ++ word_bytes (l / 4294967296)))
    by (rewrite length_app; cbn [length word_bytes]; lia).
  rewrite app_assoc, <- (app_nil_r (replicate 4 0)), list_inserts_middle by done.
  rewrite app_nil_r, <- app_assoc, length_bytes by lia.
  unfold front. by rewrite <- app_assoc.
Qed.

Lemma pad_length bytes : length (Fips.pad bytes) = paddedLength bytes.
Proof.
  destruct (paddedLength_spec bytes) as [-> _]. unfold Fips.pad.
  rewrite !length_app, length_replicate, length_map. cbn. lia.
Qed.

Definition is_byte (b : Z) : Prop := 0 <= b < 256.

Lemma words_are_words n : forall bytes,
  length bytes = (4 * n)%nat -> Forall is_byte bytes -> Forall is_word (Fips.words bytes).
Proof.
  induction n as [| n IH]; intros bytes Hn Hb; [destruct bytes; [apply list.Forall_nil_2 | done] |].
  destruct bytes as [| a [| b [| c [| d bytes]]]]; cbn in Hn; try lia. cbn [Fips.words].
  rewrite !list.Forall_cons in Hb. destruct Hb as (Ha & Hb & Hc & Hd & Hr).
  apply list.Forall_cons_2; [unfold is_word, is_byte in *; lia | apply IH; [lia | done]].
Qed.

Lemma pad_bytes bytes : Forall is_byte bytes -> Forall is_byte (Fips.pad bytes).
Proof.
  intros Hb. unfold Fips.pad. apply Forall_app_2; [done |].
  apply Forall_app_2; [by apply list.Forall_cons_2; [| apply list.Forall_nil_2] |].
  apply Forall_app_2; [by apply Forall_replicate |].
  apply Forall_map. apply Forall_forall. intros i _. by apply Z.mod_pos_bound.
Qed.

Lemma hash_blocks_word n : forall H M, Forall is_word H -> Forall is_word (Fips.hash_blocks n H M).
Proof.
  induction n as [| n IH]; intros H M HH; [done |]. cbn [Fips.hash_blocks]. apply IH, zip_plus_words.
Qed.

Lemma hash_blocks_length n : forall H M, length H = 8%nat -> length (Fips.hash_blocks n H M) = 8%nat.
Proof. induction n as [| n IH]; intros H M Hl; [done |]. cbn [Fips.hash_blocks]. by apply IH, compress_length. Qed.

Lemma sha256_fips bytes : Forall is_byte bytes -> sha256 bytes = Return (Fips.sha256 bytes).
Proof.
  intros Hb. destruct (paddedLength_spec bytes) as [_ [n Hn]].
  unfold sha256, Fips.sha256. rewrite pad_message_spec. pose proof (pad_length bytes) as Hpl.
  set (padded := Fips.pad bytes) in *.
  assert (length (Fips.words padded) = (16 * n)%nat) as HM by (apply words_length; lia).
  assert (Forall is_word (Fips.words padded)) as HMw
    by (apply (words_are_words (16 * n)); [lia | by apply pad_bytes]).
  rewrite HM, Hn, (Nat.mul_comm 64 n), (Nat.mul_comm 16 n), !Nat.div_mul by lia.
  destruct (for_range_invariant (fun b (s : list Z * list Z) =>
      length s.2 = 64%nat /\ s.1 = Fips.hash_blocks b initial_hash (Fips.words padded))
    0 n (sha_block padded) (initial_hash, replicate 64 0)) as ([H s] & -> & Hs & HH).
  - done.
  - intros b [H s] Hbn [Hs HH]. cbn in Hs, HH. subst H.
    destruct (sha_block_spec padded b (Fips.hash_blocks b initial_hash (Fips.words padded)) s)
      as (s' & -> & Hs'); try done || lia.
    + by apply hash_blocks_length.
    + apply hash_blocks_word. repeat (apply list.Forall_cons_2; [by split |]). apply list.Forall_nil_2.
    + eexists. split; [done |]. split; [exact Hs' |]. by rewrite Nat.add_1_r, hash_blocks_step.
  - cbn in HH. by rewrite HH.
Qed.

(** C27: the digest function is SHA-256: on every sequence of bytes the loop over
    typed arrays and signed 32-bit operators returns, and returns what FIPS 180-4
    specifies with unsigned words, its padding and its message schedule. *)
Theorem sha256_is_fips bytes : Forall is_byte bytes -> sha256 bytes = Return (Fips.sha256 bytes).
Proof. apply sha256_fips. Qed.
