(* ===== verification/DigestFacts.v ===== *)
(** * Digests determine values

    UTF-8 decodes to what was encoded, a digest is always a well-formed digest,
    and two values with the same digest are the same value unless SHA-256
    collides on their canonical texts. *)

From S2P Require Import Prelude Errors Schema JsonValue JsNumber JsNumberFacts Unicode JsonText JsonFacts.
From S2P Require Import JsonRoundTrip Digest Sha256Facts.

Local Open Scope N_scope.

#[local] Ltac Zify.zify_post_hook ::= Z.to_euclidean_division_equations.

(** ** UTF-8 *)

Definition is_scalar (cp : N) : Prop := cp <= 1114111 /\ in_range 55296 57343 cp = false.

Ltac ranges :=
  unfold is_scalar, is_continuation, is_high_surrogate, is_low_surrogate, in_range in *;
  repeat match goal with
  | H : _ /\ _ |- _ => destruct H
  | H : _ && _ = true |- _ => apply andb_true_iff in H
  | H : _ && _ = false |- _ => apply andb_false_iff in H
  | H : (_ <=? _) = true |- _ => apply N.leb_le in H
  | H : (_ <=? _) = false |- _ => apply N.leb_gt in H
  | H : (_ <? _) = true |- _ => apply N.ltb_lt in H
  | H : (_ <? _) = false |- _ => apply N.ltb_ge in H
  end.

Lemma in_range_true lo hi c : lo <= c <= hi -> in_range lo hi c = true.
Proof. intros [H1 H2]. unfold in_range. by rewrite (proj2 (N.leb_le _ _) H1), (proj2 (N.leb_le _ _) H2). Qed.

Lemma in_range_false lo hi c : c < lo \/ hi < c -> in_range lo hi c = false.
Proof.
  unfold in_range. intros [H | H]; [by rewrite (proj2 (N.leb_gt _ _) H) |].
  by rewrite (proj2 (N.leb_gt _ _) H), andb_false_r.
Qed.

Lemma continuation n : is_continuation (128 + n mod 64) = true.
Proof. apply in_range_true. pose proof (N.mod_lt n 64 ltac:(done)). lia. Qed.

Lemma assemble_utf8_code cp l :
  is_scalar cp ->
  assemble (map Byte (utf8_code cp) ++ l) = (s ← assemble l; Some (utf16 cp ++ s)).
Proof.
  intros [Hmax Hs]. unfold utf8_code. rewrite Hs.
  pose proof (N.div_mod cp 64 ltac:(done)) as D1. pose proof (N.mod_lt cp 64 ltac:(done)) as M1.
  pose proof (N.div_mod (cp / 64) 64 ltac:(done)) as D2. pose proof (N.mod_lt (cp / 64) 64 ltac:(done)) as M2.
  rewrite N.Div0.div_div in D2. change (64 * 64) with 4096 in D2.
  pose proof (N.div_mod (cp / 4096) 64 ltac:(done)) as D3.
  pose proof (N.mod_lt (cp / 4096) 64 ltac:(done)) as M3.
  rewrite N.Div0.div_div in D3. change (4096 * 64) with 262144 in D3.
  destruct (cp <? 128) eqn:H1; [| destruct (cp <? 2048) eqn:H2; [| destruct (cp <? 65536) eqn:H3]];
    cbn [map app assemble].
  - rewrite H1. unfold utf16. apply N.ltb_lt in H1. by rewrite (proj2 (N.ltb_lt _ _)) by lia.
  - ranges. rewrite (proj2 (N.ltb_ge _ _)) by lia. unfold cp2.
    rewrite continuation, in_range_true by lia. cbn [andb].
    by replace ((192 + cp / 64 - 192) * 64 + (128 + cp mod 64 - 128)) with cp by lia.
  - apply N.ltb_lt in H3. apply N.ltb_ge in H1, H2. rewrite (proj2 (N.ltb_ge _ _)) by lia.
    unfold cp2 at 1. rewrite (in_range_false 194 223) by lia. cbn [andb].
    unfold cp3. rewrite !continuation, (in_range_true 224 239) by lia.
    replace ((224 + cp / 4096 - 224) * 4096 + (128 + (cp / 64) mod 64 - 128) * 64 + (128 + cp mod 64 - 128))
      with cp by lia.
    by rewrite (proj2 (N.leb_le _ _)), Hs by lia.
  - apply N.ltb_ge in H1, H2, H3. rewrite (proj2 (N.ltb_ge _ _)) by lia.
    unfold cp2 at 1. rewrite (in_range_false 194 223) by lia. cbn [andb].
    unfold cp3 at 1. rewrite (in_range_false 224 239) by lia. cbn [andb].
    unfold cp4. rewrite !continuation, (in_range_true 240 244) by lia. cbn [andb].
    replace ((240 + cp / 262144 - 240) * 262144 + (128 + (cp / 4096) mod 64 - 128) * 4096
      + (128 + (cp / 64) mod 64 - 128) * 64 + (128 + cp mod 64 - 128)) with cp by lia.
    by rewrite in_range_true by lia.
Qed.

(** A text of UTF-16 code units without lone surrogates. *)
Definition is_text (s : jsstring) : Prop := valid_unicode s = true /\ Forall (fun c => c < 65536) s.

Lemma text_ind (P : jsstring -> Prop) :
  P [] ->
  (forall c s, c < 65536 -> in_range 55296 57343 c = false -> is_text s -> P s -> P (c :: s)) ->
  (forall c d s, is_high_surrogate c = true -> is_low_surrogate d = true -> is_text s -> P s -> P (c :: d :: s)) ->
  forall s, is_text s -> P s.
Proof.
  intros Hnil Hone Htwo s. induction s as [s IH] using (induction_ltof1 _ (@length N)). unfold ltof in IH.
  intros [Hv Hu]. destruct s as [| c s]; [done |]. cbn [valid_unicode] in Hv.
  apply list.Forall_cons in Hu as [Hc Hu].
  destruct (is_high_surrogate c) eqn:Hh.
  - destruct s as [| d s]; [done |]. apply andb_true_iff in Hv as [Hd Hv].
    apply list.Forall_cons in Hu as [_ Hu]. apply Htwo; [done | done | by split | apply IH; [cbn; lia | by split]].
  - apply andb_true_iff in Hv as [Hd%negb_true_iff Hv].
    apply Hone; [done | | by split | apply IH; [cbn; lia | by split]].
    revert Hh Hd. unfold is_high_surrogate, is_low_surrogate, in_range.
    destruct (55296 <=? c) eqn:?, (c <=? 57343) eqn:?; try done. cbn. intros Hh Hd.
    apply N.leb_gt in Hh. rewrite (proj2 (N.leb_le _ _)) in Hd by lia. done.
Qed.

Lemma code_points_one c s :
  in_range 55296 57343 c = false -> code_points (c :: s) = c :: code_points s.
Proof.
  intros Hc. destruct s as [| d s]; [done |]. cbn [code_points].
  replace (is_high_surrogate c) with false; [done |]. symmetry. unfold is_high_surrogate.
  revert Hc. unfold in_range. destruct (55296 <=? c); [| done]. cbn. intros Hc%N.leb_gt.
  apply N.leb_gt. lia.
Qed.

Lemma assemble_utf8 s : is_text s -> assemble (map Byte (utf8 s)) = Some s.
Proof.
  revert s. apply text_ind; [done | |].
  - intros c s Hc Hns _ IH. unfold utf8 in *. rewrite code_points_one by done. cbn [flat_map].
    rewrite map_app, assemble_utf8_code by (split; [lia | done]). rewrite IH. cbn.
    unfold utf16. by rewrite (proj2 (N.ltb_lt _ _)) by lia.
  - intros c d s Hc Hd _ IH. unfold utf8 in *. cbn [code_points]. rewrite Hc, Hd. cbn [andb flat_map].
    ranges. set (cp := 65536 + (c - 55296) * 1024 + (d - 56320)).
    assert (is_scalar cp) as Hs by (split; [unfold cp; lia | apply in_range_false; unfold cp; lia]).
    rewrite map_app, assemble_utf8_code, IH by done. cbn. do 2 f_equal.
    unfold utf16. rewrite (proj2 (N.ltb_ge _ _)) by (unfold cp; lia).
    replace (cp - 65536) with ((c - 55296) * 1024 + (d - 56320)) by (unfold cp; lia).
    rewrite N.div_add_l, N.div_small, (N.add_comm ((c - 55296) * 1024)), N.Div0.mod_add, N.mod_small by lia.
    cbn. f_equal; [lia | f_equal; lia].
Qed.

Lemma utf8_inj s t : is_text s -> is_text t -> utf8 s = utf8 t -> s = t.
Proof. intros Hs%assemble_utf8 Ht%assemble_utf8 Heq. rewrite Heq in Hs. congruence. Qed.

(** ** Canonical texts *)

Lemma valid_unicode_one c s :
  in_range 55296 57343 c = false -> valid_unicode (c :: s) = valid_unicode s.
Proof.
  cbn [valid_unicode]. unfold is_high_surrogate, is_low_surrogate, in_range.
  destruct (N.leb_spec 55296 c), (N.leb_spec c 57343), (N.leb_spec c 56319), (N.leb_spec 56320 c);
    intros Hc; try done; lia.
Qed.

Lemma is_text_app s t : is_text s -> is_text t -> is_text (s ++ t).
Proof.
  intros Hs [Ht Hu]. revert s Hs. apply text_ind; [done | |].
  - intros c s Hc Hns _ [IH IHu]. split; [| by apply list.Forall_cons_2].
    cbn [app]. by rewrite valid_unicode_one.
  - intros c d s Hc Hd _ [IH IHu]. split; [cbn [app valid_unicode]; by rewrite Hc, Hd |].
    ranges. repeat (apply list.Forall_cons_2; [lia |]). done.
Qed.

Lemma ascii_text s : Forall (fun c => c < 128) s -> is_text s.
Proof.
  intros Hs. split; [| eapply list.Forall_impl; [exact Hs | intros c Hc; cbn beta in Hc; lia]].
  induction Hs as [| c s Hc Hs IH]; [done |]. cbn [valid_unicode].
  unfold is_high_surrogate, is_low_surrogate. by rewrite !in_range_false by lia.
Qed.

Lemma ascii_cons c s : c < 128 -> is_text s -> is_text (c :: s).
Proof. intros Hc Hs. apply (is_text_app [c] s); [apply ascii_text | done]. by repeat constructor. Qed.

Lemma escape_units_text s : is_text s -> is_text (escape_units s).
Proof.
  unfold escape_units. revert s. apply text_ind; [done | |].
  - intros c s Hc Hns _ IH. cbn [flat_map]. apply is_text_app; [| done].
    assert (is_text [c]) by (split; [by rewrite valid_unicode_one | by repeat constructor]).
    unfold escape_unit. repeat case_match; try (apply ascii_text; repeat constructor; done).
    + by apply ascii_cons.
    + apply ascii_text. assert (c < 32) by (by apply N.ltb_lt).
      unfold hex_unit. repeat (apply list.Forall_cons_2; [try done; repeat case_match; ranges; lia |]).
      apply list.Forall_nil_2.
    + done.
  - intros c d s Hc Hd Htext IH. cbn [flat_map].
    assert (escape_unit c = [c] /\ escape_unit d = [d]) as [-> ->].
    { unfold escape_unit, quotation, reverse_solidus. ranges.
      rewrite !(proj2 (N.eqb_neq c _)), !(proj2 (N.eqb_neq d _)) by lia. cbn [orb].
      by rewrite !(proj2 (N.ltb_ge _ _)) by lia. }
    change ([c] ++ [d] ++ flat_map escape_unit s) with ([c; d] ++ flat_map escape_unit s).
    apply is_text_app; [| done]. split; [cbn [valid_unicode]; by rewrite Hc, Hd |].
    ranges. repeat (apply list.Forall_cons_2; [lia |]). apply list.Forall_nil_2.
Qed.

Lemma scan_digits_ascii s ds rest :
  scan_digits s = (ds, rest) -> Forall (fun c => c < 128) rest -> Forall (fun c => c < 128) s.
Proof.
  revert ds rest. induction s as [| c s IH]; cbn; intros ds rest; [by intros [= _ <-] |].
  unfold is_digit_unit. destruct ((48 <=? c) && (c <=? 57)) eqn:Hc; [| by intros [= _ <-]].
  destruct (scan_digits s) as [ds' rest']. intros [= _ <-] Hr. ranges.
  apply list.Forall_cons_2; [lia | by eapply IH].
Qed.

Lemma scan_number_ascii s t : scan_number s = Some (t, []) -> Forall (fun c => c < 128) s.
Proof.
  assert (forall neg int u, scan_tail neg int u = (t, []) -> Forall (fun c => c < 128) u) as Htail.
  { intros neg int u. unfold scan_tail. destruct (scan_fraction u) as [f u1] eqn:Hf.
    destruct (scan_exponent u1) as [e u2] eqn:He. intros [= _ ->].
    assert (Forall (fun c => c < 128) u1) as H1.
    { destruct u1 as [| c u1]; [apply list.Forall_nil_2 |]. cbn [scan_exponent] in He.
      destruct ((c =? 101) || (c =? 69)) eqn:Hc; [| done].
      destruct (scan_sign u1) as [sg u'] eqn:Hs. destruct (scan_digits u') as [ds r] eqn:Hd.
      destruct ds as [| d ds]; [done |]. injection He as _ ->.
      apply scan_digits_ascii in Hd; [| apply list.Forall_nil_2].
      apply list.Forall_cons_2; [apply orb_true_iff in Hc as [->%N.eqb_eq | ->%N.eqb_eq]; done |].
      destruct u1 as [| x u1]; [apply list.Forall_nil_2 |]. cbn [scan_sign] in Hs.
      destruct (x =? minus) eqn:Hm; [| destruct (x =? plus) eqn:Hp]; injection Hs as _ <-; [| | done];
        (apply list.Forall_cons_2; [| done]); [apply N.eqb_eq in Hm as -> | apply N.eqb_eq in Hp as ->]; done. }
    destruct u as [| c u]; [apply list.Forall_nil_2 |]. cbn [scan_fraction] in Hf.
    destruct (c =? dot) eqn:Hc; [| by injection Hf as _ <-].
    apply N.eqb_eq in Hc as ->. destruct (scan_digits u) as [ds r] eqn:Hd.
    destruct ds; injection Hf as _ <-; [done |]. apply list.Forall_cons_2; [done |].
    by eapply scan_digits_ascii. }
  unfold scan_number. set (p := match s with [] => _ | _ => _ end). intros Hs.
  assert (Forall (fun c => c < 128) p.2 -> Forall (fun c => c < 128) s) as Hp.
  { unfold p. destruct s as [| c s]; [done |]. destruct (c =? minus) eqn:Hm; [| done].
    apply N.eqb_eq in Hm as ->. cbn. intros. by apply list.Forall_cons_2. }
  apply Hp. clear Hp. destruct p as [neg s1]. cbn [snd]. destruct s1 as [| c s2]; [done |].
  destruct (c =? 48) eqn:H0.
  - apply N.eqb_eq in H0 as ->. injection Hs as Hs. apply list.Forall_cons_2; [done | by eapply Htail].
  - destruct (scan_digits (c :: s2)) as [ds r] eqn:Hd. destruct ds as [| d ds]; [done |].
    injection Hs as Hs. eapply scan_digits_ascii; [exact Hd | by eapply Htail].
Qed.

Lemma number_text_ascii x : is_double x = true -> is_finite x = true -> is_text (number_text x).
Proof.
  intros Hd Hf. destruct (scan_number_text x Hd Hf) as (t & Ht & _).
  specialize (Ht [] eq_refl). rewrite app_nil_r in Ht. by eapply ascii_text, scan_number_ascii.
Qed.

(** A value whose strings and keys are made of 16-bit code units. *)
Fixpoint json_units (v : JsonValue) : bool :=
  match v with
  | Jstr s => forallb (fun c => c <? 65536) s
  | Jarr l => forallb json_units l
  | Jobj f => forallb (fun kv => forallb (fun c => c <? 65536) kv.1 && json_units kv.2) f
  | _ => true
  end.

Lemma quote_text s path t :
  forallb (fun c => c <? 65536) s = true -> quote s path = Return t -> is_text t.
Proof.
  intros Hu [Hv ->]%quote_Return. apply ascii_cons; [done |]. apply is_text_app; [| by apply ascii_text; repeat constructor].
  apply escape_units_text. split; [done |]. apply forallb_Forall in Hu.
  eapply list.Forall_impl; [exact Hu |]. intros c Hc. by apply N.ltb_lt.
Qed.

Lemma join_text texts : Forall is_text texts -> is_text (join_texts texts).
Proof.
  unfold join_texts. induction 1 as [| t texts Ht Hts IH]; [by apply ascii_text, list.Forall_nil_2 |].
  destruct texts as [| u texts]; [done |].
  change (join comma (t :: u :: texts)) with (t ++ comma :: join comma (u :: texts)).
  apply is_text_app; [done | by apply ascii_cons].
Qed.

Lemma sequence_Return {E A} (l : list (outcome E A)) r :
  sequence l = Return r -> Forall2 (fun o a => o = Return a) l r.
Proof.
  revert r. induction l as [| o l IH]; intros r; [by intros [= <-] |]. cbn [sequence].
  destruct o as [a | e]; [| done]. cbn. destruct (sequence l) as [r' |]; [| done]. cbn.
  intros [= <-]. constructor; [done | by apply IH].
Qed.

Lemma canonicalize_text v : forall path t,
  json_wf v = true -> json_units v = true -> canonicalize v path = Return t -> is_text t.
Proof.
  induction v as [| b | x | s | l IH | f IH] using json_ind_nested; intros path t Hwf Hu Ht.
  - injection Ht as <-. apply ascii_text. by repeat constructor.
  - injection Ht as <-. destruct b; apply ascii_text; by repeat constructor.
  - apply serialize_Return in Ht as (Hf & -> & _). by apply number_text_ascii.
  - by eapply quote_text.
  - rewrite canonicalize_array in Ht. destruct (sequence _) as [texts |] eqn:Hs; [| done].
    injection Ht as <-. apply ascii_cons; [done |]. apply is_text_app; [| by apply ascii_text; repeat constructor].
    apply join_text. apply sequence_Return in Hs. revert Hs. generalize O. apply json_wf_array in Hwf.
    cbn [json_units] in Hu. apply forallb_Forall in Hu. revert texts.
    induction l as [| v l IHl]; intros texts i Hs; inversion Hs; subst; [by apply list.Forall_nil_2 |].
    inversion IH; inversion Hwf; inversion Hu; subst. apply list.Forall_cons_2; [by eauto | by eapply IHl].
  - rewrite canonicalize_object in Ht. destruct (field_texts path f) as [texts |] eqn:Hs; [| done].
    injection Ht as <-. apply ascii_cons; [done |]. apply is_text_app; [| by apply ascii_text; repeat constructor].
    apply join_text. apply json_wf_object in Hwf as [_ Hwf]. cbn [json_units] in Hu. apply forallb_Forall in Hu.
    unfold field_texts in Hs. apply sequence_Return in Hs.
    rewrite <- (sort_fields_perm f) in IH, Hwf, Hu. clear -Hs IH Hwf Hu. revert texts Hs.
    induction (sort_fields f) as [| kv l IHl]; intros texts Hs; inversion Hs as [| ? t ? ? Hf Hr]; subst;
      [by apply list.Forall_nil_2 |].
    inversion IH; inversion Hwf; inversion Hu; subst. apply list.Forall_cons_2; [| by apply IHl].
    apply field_text_Return in Hf as (q & t' & Hq & Ht & ->). bools.
    apply is_text_app; [by eapply quote_text |]. apply ascii_cons; [done |]. eauto.
Qed.

(** ** Hexadecimal *)

Lemma hex_char_code d :
  (0 <= d < 16)%Z ->
  Ascii.N_of_ascii (hex_char d) = if (d <? 10)%Z then 48 + Z.to_N d else 87 + Z.to_N d.
Proof. intros Hd. unfold hex_char. apply Ascii.N_ascii_embedding. destruct (d <? 10)%Z; lia. Qed.

Lemma hex_char_spec d :
  (0 <= d < 16)%Z -> is_hex_digit (hex_char d) = true
  /\ forall d', (0 <= d' < 16)%Z -> hex_char d = hex_char d' -> d = d'.
Proof.
  intros Hd. assert (In d (map Z.of_nat (seq 0 16))) as Hin.
  { apply in_map_iff. exists (Z.to_nat d). split; [lia |]. apply in_seq. lia. }
  split.
  - cbn in Hin. repeat destruct Hin as [<- | Hin]; try done; by vm_compute.
  - intros d' Hd' Heq. apply (f_equal Ascii.N_of_ascii) in Heq.
    rewrite (hex_char_code d), (hex_char_code d') in Heq by done.
    destruct (d <? 10)%Z eqn:H1, (d' <? 10)%Z eqn:H2; bools; lia.
Qed.

Lemma nibbles b : is_byte b -> (0 <= b / 16 < 16)%Z /\ (0 <= b mod 16 < 16)%Z.
Proof. unfold is_byte. lia. Qed.

Lemma hex_text_inj a : forall b,
  Forall is_byte a -> Forall is_byte b -> hex_text a = hex_text b -> a = b.
Proof.
  induction a as [| x a IH]; intros [| y b] Ha Hb Heq; try done.
  apply list.Forall_cons in Ha as [Hx Ha], Hb as [Hy Hb]. cbn in Heq. injection Heq as H1 H2 H3.
  destruct (nibbles x Hx) as [Hx1 Hx2], (nibbles y Hy) as [Hy1 Hy2].
  apply (proj2 (hex_char_spec _ Hx1)) in H1; [| done]. apply (proj2 (hex_char_spec _ Hx2)) in H2; [| done].
  f_equal; [| by apply IH]. lia.
Qed.

Lemma hex_text_digest bytes :
  Forall is_byte bytes ->
  all_chars is_hex_digit (hex_text bytes) = true /\ String.length (hex_text bytes) = (2 * length bytes)%nat.
Proof.
  induction 1 as [| b bytes Hb Hbs [IH1 IH2]]; [done |]. destruct (nibbles b Hb) as [H1 H2]. cbn.
  rewrite (proj1 (hex_char_spec _ H1)), (proj1 (hex_char_spec _ H2)), IH1, IH2. split; [done | lia].
Qed.

Lemma word_bytes_are_bytes w : Forall is_byte (word_bytes w) /\ length (word_bytes w) = 4%nat.
Proof.
  split; [| done]. rewrite word_bytes_mod. apply Forall_map, Forall_forall.
  intros i _. by apply Z.mod_pos_bound.
Qed.

Lemma flat_words_bytes ws :
  Forall is_byte (flat_map word_bytes ws) /\ length (flat_map word_bytes ws) = (4 * length ws)%nat.
Proof.
  induction ws as [| w ws [IH1 IH2]]; [by split; [apply list.Forall_nil_2 |] |].
  cbn [flat_map]. destruct (word_bytes_are_bytes w) as [H1 H2]. split; [by apply Forall_app_2 |].
  rewrite length_app, IH2, H2. cbn. lia.
Qed.

Lemma fips_output bytes : Forall is_byte (Fips.sha256 bytes) /\ length (Fips.sha256 bytes) = 32%nat.
Proof.
  unfold Fips.sha256. destruct (flat_words_bytes (Fips.hash_blocks (length (Fips.words (Fips.pad bytes)) / 16)
    initial_hash (Fips.words (Fips.pad bytes)))) as [H1 H2].
  split; [exact H1 |]. by rewrite H2, hash_blocks_length.
Qed.

Lemma digestBytes_Return bytes :
  Forall is_byte bytes ->
  digestBytes bytes = Return (String.append "sha256:" (hex_text (Fips.sha256 bytes)))
  /\ DigestSchema (String.append "sha256:" (hex_text (Fips.sha256 bytes))) = true.
Proof.
  intros Hb. unfold digestBytes. rewrite sha256_fips by done. cbn [mbind outcome_bind].
  destruct (fips_output bytes) as [Ho Hl]. destruct (hex_text_digest _ Ho) as [Hhex Hlen].
  assert (DigestSchema (String.append "sha256:" (hex_text (Fips.sha256 bytes))) = true) as Hs.
  { change (DigestSchema (String.append "sha256:" ?h)) with ((js_length h =? 64)%Z && all_chars is_hex_digit h).
    unfold js_length. by rewrite Hhex, Hlen, Hl. }
  split; [unfold parse; by rewrite Hs | done].
Qed.

Lemma encode_bytes s : is_text s -> Forall is_byte (encode s).
Proof.
  unfold encode, utf8. revert s. apply text_ind; [by apply list.Forall_nil_2 | |].
  - intros c s Hc Hns _ IH. rewrite code_points_one by done. cbn [flat_map]. rewrite map_app.
    apply Forall_app_2; [| done]. unfold utf8_code. rewrite Hns. unfold is_byte.
    repeat case_match; ranges; cbn [map]; repeat (apply list.Forall_cons_2; [lia |]); apply list.Forall_nil_2.
  - intros c d s Hc Hd _ IH. cbn [code_points]. rewrite Hc, Hd. cbn [andb flat_map]. rewrite map_app.
    apply Forall_app_2; [| done]. ranges. unfold utf8_code. rewrite in_range_false by lia. unfold is_byte.
    repeat case_match; ranges; cbn [map]; repeat (apply list.Forall_cons_2; [lia |]); apply list.Forall_nil_2.
Qed.

(** ** Digests *)

(** The canonical texts of the two values are different messages with the same hash. *)
Definition digest_clash (v w : JsonValue) : Prop :=
  exists s t, canonicalJsonStringify v = Return s /\ canonicalJsonStringify w = Return t
    /\ encode s <> encode t /\ Fips.sha256 (encode s) = Fips.sha256 (encode t).

Lemma digestCanonicalJson_Return v d :
  json_wf v = true -> json_units v = true -> digestCanonicalJson v = Return d ->
  exists text, canonicalJsonStringify v = Return text /\ is_text text
    /\ d = String.append "sha256:" (hex_text (Fips.sha256 (encode text))) /\ DigestSchema d = true.
Proof.
  intros Hwf Hu. unfold digestCanonicalJson.
  destruct (canonicalJsonStringify v) as [text | e] eqn:Ht; [| done]. cbn [lift_json mbind outcome_bind].
  pose proof (canonicalize_text v root_path text Hwf Hu Ht) as Htext.
  destruct (digestBytes_Return _ (encode_bytes _ Htext)) as [-> Hs]. intros [= <-]. by exists text.
Qed.

Lemma digest_text_inj a b : String.append "sha256:" a = String.append "sha256:" b -> a = b.
Proof. cbn. by intros [=]. Qed.

Lemma digest_same v w d :
  json_wf v = true -> json_units v = true -> json_wf w = true -> json_units w = true ->
  digestCanonicalJson v = Return d -> digestCanonicalJson w = Return d ->
  json_normal v = json_normal w \/ digest_clash v w.
Proof.
  intros Hv Huv Hw Huw Hdv Hdw.
  destruct (digestCanonicalJson_Return v d Hv Huv Hdv) as (s & Hs & Hts & Hd & _).
  destruct (digestCanonicalJson_Return w d Hw Huw Hdw) as (t & Ht & Htt & Hd' & _).
  destruct (decide (s = t)) as [<- | Hne].
  { left. apply canonical_text_read in Hs, Ht; [| done..]. congruence. }
  right. exists s, t. split_and!; [done | done | |].
  - intros Heq. apply Hne, utf8_inj; [done..|]. unfold encode in Heq.
    assert (forall l, map Z.to_N (map Z.of_N l) = l) as Hid
      by (induction l as [| x l IH]; cbn; [done | by rewrite N2Z.id, IH]).
    by rewrite <- (Hid (utf8 s)), Heq, Hid.
  - rewrite Hd in Hd'. apply digest_text_inj, hex_text_inj in Hd';
      [done | apply fips_output | apply fips_output].
Qed.

(** C28: digests bind: two JSON values with the same digest are the same value up
    to key order and the sign of zero, unless their own canonical texts are
    different messages that SHA-256 sends to the same hash. *)
Theorem digest_determines v w d :
  json_wf v = true -> json_units v = true -> json_wf w = true -> json_units w = true ->
  digestCanonicalJson v = Return d -> digestCanonicalJson w = Return d ->
  sameJson v w = true \/ digest_clash v w.
Proof. unfold sameJson. rewrite bool_decide_eq_true. apply digest_same. Qed.

(** A digest is computed for exactly the values that have a canonical text,
    it is then a well-formed digest, and it does not depend on key order: values
    that are the same JSON value have the same digest. *)
Theorem digest_total v :
  json_wf v = true -> json_units v = true -> i_json v = true ->
  exists d, digestCanonicalJson v = Return d /\ DigestSchema d = true
    /\ forall w, json_wf w = true -> sameJson v w = true -> digestCanonicalJson w = Return d.
Proof.
  intros Hwf Hu Hi. destruct (proj2 (returns_canonicalize v root_path) Hi) as [text Ht].
  destruct (digestBytes_Return _ (encode_bytes _ (canonicalize_text v root_path text Hwf Hu Ht))) as [Hd Hs].
  eexists. split; [| split; [exact Hs |]].
  - unfold digestCanonicalJson, canonicalJsonStringify. by rewrite Ht.
  - intros w Hw Heq. unfold sameJson in Heq. bools. unfold digestCanonicalJson, canonicalJsonStringify.
    rewrite <- canonicalize_normal, <- Heq, canonicalize_normal, Ht by done. done.
Qed.

(** ** Digests at concrete inputs

    Published SHA-256 values, digests of canonical texts, and the witnesses of
    the digest theorems. *)

Local Open Scope Z_scope.

Definition abc : list Z := [97; 98; 99].

Example sha256_abc :
  digestBytes abc = Return "sha256:ba7816bf8f01cfea414140de5dae2223b00361a396177a9cb410ff61f20015ad".
Proof. vm_compute. reflexivity. Qed.

Example sha256_empty :
  digestBytes [] = Return "sha256:e3b0c44298fc1c149afbf4c8996fb92427ae41e4649b934ca495991b7852b855".
Proof. vm_compute. reflexivity. Qed.

(** Fifty-six bytes need a second block for the length. *)
Example sha256_two_blocks :
  digestBytes (replicate 56 97)
  = Return "sha256:b35439a4ac6f0948b6d6f9e3c6af0f5f590ce20f1bde7090ef7970686ec6738a".
Proof. vm_compute. reflexivity. Qed.

Definition sample_digest : string :=
  "sha256:fb08471c576c192948005879a4ebe2b42ee93364b78fae63e2bf12ac0405f53a".

Example sample_digest_ok : digestCanonicalJson sample = Return sample_digest.
Proof. vm_compute. reflexivity. Qed.

(** The euro sign, a character beyond the basic plane and an accented letter. *)
Example utf8_digest :
  digestCanonicalJson (Jstr [0x20ac; 0xd834; 0xdd1e; 0xe9]%N)
  = Return "sha256:6a453c34d7f457c4e7c6f472500cd87b520c2b6c34432ed492c5f04e3d295887".
Proof. vm_compute. reflexivity. Qed.

Lemma bytes_checked l : forallb (fun b => (0 <=? b) && (b <? 256)) l = true -> Forall is_byte l.
Proof.
  rewrite forallb_Forall. intros H. eapply list.Forall_impl; [exact H |].
  intros b Hb. cbn in Hb. apply andb_true_iff in Hb as [H1%Z.leb_le H2%Z.ltb_lt]. by split.
Qed.

Lemma sha256_is_fips_witness :
  Forall is_byte abc /\ sha256 abc = Return (Fips.sha256 abc).
Proof.
  assert (Forall is_byte abc) as H by (apply bytes_checked; reflexivity).
  split; [exact H | exact (sha256_is_fips abc H)].
Defined.

Lemma digest_determines_witness :
  digestCanonicalJson sample = Return sample_digest
  /\ digestCanonicalJson sample_normal = Return sample_digest
  /\ (sameJson sample sample_normal = true \/ digest_clash sample sample_normal).
Proof.
  assert (digestCanonicalJson sample_normal = Return sample_digest) as H by (vm_compute; reflexivity).
  split; [exact sample_digest_ok |]. split; [exact H |].
  apply (digest_determines sample sample_normal sample_digest);
    [reflexivity .. | exact sample_digest_ok | exact H].
Defined.

Lemma digest_total_witness :
  i_json sample = true
  /\ exists d, digestCanonicalJson sample = Return d /\ DigestSchema d = true
     /\ forall w, json_wf w = true -> sameJson sample w = true -> digestCanonicalJson w = Return d.
Proof.
  assert (i_json sample = true) as H by (vm_compute; reflexivity).
  split; [exact H |]. exact (digest_total sample eq_refl eq_refl H).
Defined.
