(* ===== verification/EffectLedger.v ===== *)
(** * The effect ledger (packages/store-memory/src/effect-ledger.ts)

    Authorization reservations and effect records of a tenant's runs.  A record
    is bound to a stored reservation, its digest is that of its identity, its
    keys are unique, and it is replaced only along the transition table.  Every
    method awaits once and then runs to its end. *)

From S2P Require Import Prelude JsTime Errors Schema JsonValue Unicode Contracts WorkOrder Authorization.
From S2P Require Import Effects StoreInternal JsonText Digest.

Local Open Scope Z_scope.
Local Open Scope js_scope.

(** The parts of the record keys: tenant and identifier; tenant, run and effect. *)
Notation IdKey := (string * string)%type (only parsing).
Notation EffectKey := (string * string * string)%type (only parsing).

Record EffectLedger := {
  el_reservations : gmap IdKey AuthorizationReservation;
  el_reservationKeys : gmap IdKey IdKey;
  el_effects : gmap EffectKey EffectRecord;
  el_effectKeys : gmap EffectKey EffectKey;
  el_operationKeys : gmap IdKey EffectKey;
}.

Definition empty_ledger : EffectLedger :=
  {| el_reservations := ∅; el_reservationKeys := ∅; el_effects := ∅; el_effectKeys := ∅;
     el_operationKeys := ∅ |}.

(** ** Identities as JSON *)

Definition jstr (s : string) : JsonValue := Jstr (js s).

Definition execution_definition_json (d : ExecutionDefinitionRef) : JsonValue :=
  match d with
  | agent_definition a =>
      Jobj [(js "kind", jstr "agent"); (js "id", jstr (ad_id a)); (js "version", jstr (ad_version a));
            (js "agentDefinitionDigest", jstr (ad_agentDefinitionDigest a))]
  | compensation_definition c =>
      Jobj [(js "kind", jstr "compensation"); (js "id", jstr (cd_id c)); (js "version", jstr (cd_version c));
            (js "compensationRunDefinitionDigest", jstr (cd_compensationRunDefinitionDigest c));
            (js "originalAgentDefinitionDigest", jstr (cd_originalAgentDefinitionDigest c));
            (js "originalEffectDigest", jstr (cd_originalEffectDigest c));
            (js "compensationStrategyRegistrationDigest", jstr (cd_compensationStrategyRegistrationDigest c));
            (js "compensationToolRegistrationDigest", jstr (cd_compensationToolRegistrationDigest c))]
  end.

Definition strategy_name (s : EffectStrategyKind) : string :=
  match s with
  | strategy_native => "native" | strategy_transactional => "transactional"
  | strategy_reconcilable => "reconcilable" | strategy_none => "none"
  end.

(** [...(value === undefined ? {} : { key: value })] *)
Definition optional_field (key : string) (value : option string) : list (jsstring * JsonValue) :=
  match value with Some s => [(js key, jstr s)] | None => [] end.

Definition effectIdentity (i : EffectIdentity) : JsonValue :=
  Jobj ([(js "schemaVersion", jstr "1"); (js "effectId", jstr (eff_effectId i));
         (js "tenantId", jstr (eff_tenantId i)); (js "runId", jstr (eff_runId i));
         (js "stepId", jstr (eff_stepId i)); (js "toolCallId", jstr (eff_toolCallId i));
         (js "effectKey", jstr (eff_effectKey i))]
        ++ optional_field "operationKey" (eff_operationKey i)
        ++ [(js "executionDefinition", execution_definition_json (eff_executionDefinition i));
            (js "executionDefinitionDigest", jstr (eff_executionDefinitionDigest i));
            (js "workOrderBindingDigest", jstr (eff_workOrderBindingDigest i));
            (js "toolId", jstr (eff_toolId i)); (js "toolVersion", jstr (eff_toolVersion i));
            (js "toolRegistrationDigest", jstr (eff_toolRegistrationDigest i));
            (js "strategy", jstr (strategy_name (eff_strategy i)));
            (js "strategyRegistrationDigest", jstr (eff_strategyRegistrationDigest i));
            (js "authorizationReservationId", jstr (eff_authorizationReservationId i));
            (js "argumentsDigest", jstr (eff_argumentsDigest i));
            (js "normalizedTargetDigest", jstr (eff_normalizedTargetDigest i));
            (js "createdAt", jstr (eff_createdAt i))]).

Definition assertEffectDigest (record : EffectRecord) : outcome js_error unit :=
  digest ← digestCanonicalJson (effectIdentity (eff_identity record));
  require (bool_decide (eff_effectDigest record = digest))
    (KafReason KAF_AUTHORIZATION_BINDING_MISMATCH "effect_digest_mismatch").

(** ** Binding an effect to its authorization *)

Record EffectBinding := {
  eb_tenantId : string;
  eb_runId : string;
  eb_stepId : string;
  eb_toolCallId : string;
  eb_effectKey : string;
  eb_executionDefinition : ExecutionDefinitionRef;
  eb_executionDefinitionDigest : string;
  eb_workOrderBindingDigest : string;
  eb_toolId : string;
  eb_toolVersion : string;
  eb_toolRegistrationDigest : string;
  eb_argumentsDigest : string;
  eb_normalizedTargetDigest : string;
}.

#[export] Instance EffectBinding_eq_dec : EqDecision EffectBinding.
Proof. solve_decision. Defined.

Definition effectBinding (i : EffectIdentity) : EffectBinding :=
  {| eb_tenantId := eff_tenantId i; eb_runId := eff_runId i; eb_stepId := eff_stepId i;
     eb_toolCallId := eff_toolCallId i; eb_effectKey := eff_effectKey i;
     eb_executionDefinition := eff_executionDefinition i;
     eb_executionDefinitionDigest := eff_executionDefinitionDigest i;
     eb_workOrderBindingDigest := eff_workOrderBindingDigest i; eb_toolId := eff_toolId i;
     eb_toolVersion := eff_toolVersion i; eb_toolRegistrationDigest := eff_toolRegistrationDigest i;
     eb_argumentsDigest := eff_argumentsDigest i;
     eb_normalizedTargetDigest := eff_normalizedTargetDigest i |}.

(** A reservation without effect key has no canonical binding: its field is
    present and undefined, which canonicalization refuses. *)
Definition authorizationBinding (r : AuthorizationReservation) : outcome js_error EffectBinding :=
  match res_effectKey r with
  | None => Throw (PolicyError "CanonicalJsonError"
              (canonical_code_name KAF_SERIALIZATION_UNSUPPORTED_VALUE))
  | Some effectKey =>
      Return {| eb_tenantId := res_tenantId r; eb_runId := res_runId r; eb_stepId := res_stepId r;
                eb_toolCallId := res_toolCallId r; eb_effectKey := effectKey;
                eb_executionDefinition := res_executionDefinition r;
                eb_executionDefinitionDigest := res_executionDefinitionDigest r;
                eb_workOrderBindingDigest := res_workOrderBindingDigest r; eb_toolId := res_toolId r;
                eb_toolVersion := res_toolVersion r;
                eb_toolRegistrationDigest := res_toolRegistrationDigest r;
                eb_argumentsDigest := res_argumentsDigest r;
                eb_normalizedTargetDigest := res_normalizedTargetDigest r |}
  end.

Definition hasValidLifecycleState (r : AuthorizationReservation) : bool :=
  (bool_decide (res_state r = reservation_reserved) && bool_decide (res_consumedAt r = None))
  || (bool_decide (res_state r = reservation_consumed) && negb (bool_decide (res_consumedAt r = None))).

Definition assertEffectAuthorizationBinding (record : EffectRecord)
    (reservation : AuthorizationReservation) : outcome js_error unit :=
  let i := eff_identity record in
  let mismatch := KafReason KAF_AUTHORIZATION_BINDING_MISMATCH "effect_authorization_binding_mismatch" in
  if negb (bool_decide (res_authorizationReservationId reservation = eff_authorizationReservationId i))
     || negb (hasValidLifecycleState reservation)
  then Throw mismatch
  else
    binding ← authorizationBinding reservation;
    require (bool_decide (effectBinding i = binding)) mismatch.

(** Equality of records as JSON values: receipt metadata is an object. *)
Definition effect_variant_normal (v : EffectVariant) : EffectVariant :=
  match v with
  | effect_acknowledged d a => effect_acknowledged d (acknowledgement_normal a)
  | effect_compensated d a run digest => effect_compensated d (acknowledgement_normal a) run digest
  | _ => v
  end.

Definition sameEffect (left right : EffectRecord) : bool :=
  bool_decide (eff_identity left = eff_identity right)
  && bool_decide (eff_effectDigest left = eff_effectDigest right)
  && bool_decide (eff_updatedAt left = eff_updatedAt right)
  && bool_decide (effect_variant_normal (eff_variant left) = effect_variant_normal (eff_variant right)).

(** ** Keys *)

Definition effect_id_key (i : EffectIdentity) : EffectKey :=
  (eff_tenantId i, eff_runId i, eff_effectId i).
Definition effect_key_key (i : EffectIdentity) : EffectKey :=
  (eff_tenantId i, eff_runId i, eff_effectKey i).
Definition operation_key (i : EffectIdentity) : option IdKey :=
  (fun k => (eff_tenantId i, k)) <$> eff_operationKey i.

(** ** Operations *)

Section Operations.
Context `{Zod}.

Definition putAuthorizationReservation (input : AuthorizationReservation)
  : method EffectLedger js_error unit :=
  let! reservation := mlift (parse AuthorizationReservationSchema input) in
  let idKey := (res_tenantId reservation, res_authorizationReservationId reservation) in
  let authorizationKey := (res_tenantId reservation, res_authorizationKey reservation) in
  let! s := mget in
  match el_reservations s !! idKey with
  | Some existing =>
      if bool_decide (existing = reservation) then mreturn tt
      else mlift (conflict "authorization_reservation_changed")
  | None =>
      match el_reservationKeys s !! authorizationKey with
      | Some priorId =>
          if bool_decide (priorId = idKey) then mreturn tt
          else mlift (conflict "authorization_key_reused")
      | None => mreturn tt
      end ;;!
      mput {| el_reservations := <[idKey := reservation]> (el_reservations s);
              el_reservationKeys := <[authorizationKey := idKey]> (el_reservationKeys s);
              el_effects := el_effects s; el_effectKeys := el_effectKeys s;
              el_operationKeys := el_operationKeys s |}
  end.

Definition getAuthorizationReservation (tenantId authorizationReservationId : string) (s : EffectLedger)
  : option AuthorizationReservation :=
  el_reservations s !! (tenantId, authorizationReservationId).

(** The guard against a key that already names another effect. *)
Definition assertKeyFree (prior : option EffectKey) (idKey : EffectKey) (reason : string)
  : outcome js_error unit :=
  match prior with
  | Some p => if bool_decide (p = idKey) then Return tt else conflict reason
  | None => Return tt
  end.

Definition store_effect (idKey : EffectKey) (record : EffectRecord) (s : EffectLedger) : EffectLedger :=
  {| el_reservations := el_reservations s; el_reservationKeys := el_reservationKeys s;
     el_effects := <[idKey := record]> (el_effects s);
     el_effectKeys := <[effect_key_key (eff_identity record) := idKey]> (el_effectKeys s);
     el_operationKeys := match operation_key (eff_identity record) with
                         | Some k => <[k := idKey]> (el_operationKeys s)
                         | None => el_operationKeys s
                         end |}.

Definition putEffectRecord (input : EffectRecord) : method EffectLedger js_error unit :=
  let! record := mlift (parse EffectRecordSchema input) in
  mlift (assertEffectDigest record) ;;!
  let i := eff_identity record in
  let idKey := effect_id_key i in
  let! s := mget in
  let! reservation := mlift
    (match el_reservations s !! (eff_tenantId i, eff_authorizationReservationId i) with
     | Some r => Return r
     | None => conflict "effect_authorization_reservation_missing"
     end) in
  mlift (assertEffectAuthorizationBinding record reservation) ;;!
  mlift (assertKeyFree (el_effectKeys s !! effect_key_key i) idKey "effect_key_reused") ;;!
  mlift (assertKeyFree (k ← operation_key i; el_operationKeys s !! k) idKey
           "effect_operation_key_reused") ;;!
  match el_effects s !! idKey with
  | Some existing =>
      if sameEffect existing record then mreturn tt
      else if negb (bool_decide (eff_effectDigest existing = eff_effectDigest record))
              || negb (isEffectTransitionAllowed (eff_state existing) (eff_state record) (eff_strategy i))
              || nan_lt (Date_parse (eff_updatedAt record)) (Date_parse (eff_updatedAt existing))
      then mlift (conflict "effect_record_changed")
      else mput (store_effect idKey record s)
  | None => mput (store_effect idKey record s)
  end.

Definition getByEffectId (tenantId runId effectId : string) (s : EffectLedger) : option EffectRecord :=
  el_effects s !! (tenantId, runId, effectId).

Definition getByEffectKey (tenantId runId effectKey : string) (s : EffectLedger) : option EffectRecord :=
  id ← el_effectKeys s !! (tenantId, runId, effectKey); el_effects s !! id.

(** The deep copies of a transaction. *)
Definition ledger_snapshot (s : EffectLedger) : EffectLedger := s.
Definition ledger_restore (snapshot : EffectLedger) : method EffectLedger js_error unit := mput snapshot.
End Operations.
