(* ===== verification/EffectLedgerFacts.v ===== *)
(** * Properties of the effect ledger

    What one call does, the invariant of the ledger, and what holds along every
    execution: unique keys, bound authorizations, histories that follow the
    transition table, identities that never change. *)

From S2P Require Import Prelude JsTime Errors Schema JsonValue Unicode Contracts WorkOrder Authorization.
From S2P Require Import Effects StoreInternal JsNumberFacts JsonText JsonFacts JsonRoundTrip Sha256Facts.
From S2P Require Import Digest DigestFacts EffectLedger.

Local Open Scope Z_scope.

(** ** Identities are determined by their canonical form *)

Lemma string_units_small s : forallb (fun c => (c <? 65536)%N) (js s) = true.
Proof.
  induction s as [| c s IH]; [done |]. cbn [js forallb]. rewrite IH, andb_true_r. apply N.ltb_lt.
  pose proof (Ascii.N_ascii_bounded c). lia.
Qed.


(** [k] names the same string in both objects. *)
Ltac distinct_keys := apply (bool_decide_unpack _); vm_compute; exact I.




Lemma effectIdentity_object i : exists f, effectIdentity i = Jobj f /\ NoDup (map fst f).
Proof.
  eexists. split; [done |]. destruct (eff_operationKey i) as [k |]; cbn [optional_field app];
    distinct_keys.
Qed.




Lemma js_units s : forallb (fun c => (c <? 65536)%N) (js s) = true.
Proof. apply string_units_small. Qed.



(** ** One call *)

Section Calls.
Context `{Zod}.

(** What the guards of [putEffectRecord] let through. *)
Record admitted (record : EffectRecord) (s : EffectLedger) : Prop := {
  ad_schema : EffectRecordSchema record = true;
  ad_digest : digestCanonicalJson (effectIdentity (eff_identity record)) = Return (eff_effectDigest record);
  ad_reservation : exists r,
    el_reservations s !! (eff_tenantId (eff_identity record),
                          eff_authorizationReservationId (eff_identity record)) = Some r
    /\ assertEffectAuthorizationBinding record r = Return tt;
  ad_effectKey : forall k, el_effectKeys s !! effect_key_key (eff_identity record) = Some k ->
    k = effect_id_key (eff_identity record);
  ad_operationKey : forall o k, operation_key (eff_identity record) = Some o ->
    el_operationKeys s !! o = Some k -> k = effect_id_key (eff_identity record);
}.

(** A record that may take the place of a stored one. *)
Definition replaces (record existing : EffectRecord) : bool :=
  bool_decide (eff_effectDigest existing = eff_effectDigest record)
  && isEffectTransitionAllowed (eff_state existing) (eff_state record) (eff_strategy (eff_identity record))
  && negb (nan_lt (Date_parse (eff_updatedAt record)) (Date_parse (eff_updatedAt existing))).

Lemma assertKeyFree_Return prior idKey reason u :
  assertKeyFree prior idKey reason = Return u -> forall k, prior = Some k -> k = idKey.
Proof. unfold assertKeyFree. intros Hr k ->. by case_bool_decide. Qed.

Lemma putEffectRecord_cases record s o s' :
  putEffectRecord record s = (o, s') ->
  (s' = s /\ forall u, o = Return u -> admitted record s /\ exists e,
     el_effects s !! effect_id_key (eff_identity record) = Some e /\ sameEffect e record = true)
  \/ (o = Return tt /\ s' = store_effect (effect_id_key (eff_identity record)) record s
      /\ admitted record s
      /\ forall e, el_effects s !! effect_id_key (eff_identity record) = Some e -> replaces record e = true).
Proof.
  unfold putEffectRecord. rewrite mthen_mlift.
  destruct (parse EffectRecordSchema record) as [r |] eqn:Hp; [| by intros [= <- <-]; left].
  apply parse_Return in Hp as [Hschema ->]. rewrite mthen_mlift.
  destruct (assertEffectDigest record) as [[] |] eqn:Hd; [| by intros [= <- <-]; left].
  assert (digestCanonicalJson (effectIdentity (eff_identity record)) = Return (eff_effectDigest record)) as Hdig.
  { unfold assertEffectDigest, require in Hd. destruct (digestCanonicalJson _) as [d |]; [| done].
    cbn in Hd. by case_bool_decide; [f_equal |]. }
  rewrite mthen_mget, mthen_mlift.
  destruct (el_reservations s !! _) as [res |] eqn:Hres; [| by intros [= <- <-]; left].
  rewrite mthen_mlift. destruct (assertEffectAuthorizationBinding record res) as [[] |] eqn:Hb;
    [| by intros [= <- <-]; left].
  rewrite mthen_mlift. destruct (assertKeyFree _ _ "effect_key_reused") as [[] |] eqn:Hk;
    [| by intros [= <- <-]; left].
  rewrite mthen_mlift. destruct (assertKeyFree _ _ "effect_operation_key_reused") as [[] |] eqn:Ho;
    [| by intros [= <- <-]; left].
  assert (admitted record s) as Had.
  { split; [done | done | by exists res | by eapply assertKeyFree_Return |].
    intros op k Hop Hlook. apply (assertKeyFree_Return _ _ _ _ Ho). by rewrite Hop. }
  destruct (el_effects s !! _) as [e |] eqn:He.
  - destruct (sameEffect e record) eqn:Hs; [intros [= <- <-]; left; split; [done | intros _ _; by eauto] |].
    destruct (_ || _) eqn:Hc; [by intros [= <- <-]; left |]. intros [= <- <-]. right.
    split_and!; [done | done | done |]. intros e' [= <-]. unfold replaces.
    apply orb_false_iff in Hc as [[H1 H2]%orb_false_iff H3]. by rewrite negb_false_iff in H1, H2; rewrite H1, H2, H3.
  - intros [= <- <-]. right. by split_and!.
Qed.

Lemma putAuthorizationReservation_cases r s o s' :
  putAuthorizationReservation r s = (o, s') ->
  s' = s \/ (o = Return tt
    /\ el_reservations s !! (res_tenantId r, res_authorizationReservationId r) = None
    /\ el_reservations s' = <[(res_tenantId r, res_authorizationReservationId r) := r]> (el_reservations s)
    /\ el_effects s' = el_effects s /\ el_effectKeys s' = el_effectKeys s
    /\ el_operationKeys s' = el_operationKeys s).
Proof.
  unfold putAuthorizationReservation. rewrite mthen_mlift.
  destruct (parse AuthorizationReservationSchema r) as [r' |] eqn:Hp; [| by intros [= <- <-]; left].
  apply parse_Return in Hp as [_ ->]. rewrite mthen_mget.
  destruct (el_reservations s !! _) as [e |] eqn:He.
  { destruct (bool_decide _); intros [= <- <-]; by left. }
  destruct (el_reservationKeys s !! _) as [p |]; [destruct (bool_decide _) |];
    intros [= <- <-]; [right; by split_and! | by left | right; by split_and!].
Qed.
End Calls.

(** ** Executions *)

Section Executions.
Context `{Zod}.

(** Any call with any arguments. *)
Inductive ledger_step : EffectLedger -> EffectLedger -> Prop :=
| step_reservation r s : ledger_step s (putAuthorizationReservation r s).2
| step_effect record s : ledger_step s (putEffectRecord record s).2.

Definition ledger_reachable : EffectLedger -> Prop := steps ledger_step empty_ledger.

(** The effects after a step: an admitted record has been stored, or nothing changed. *)
Lemma ledger_step_effects s s' :
  ledger_step s s' ->
  (forall k r, el_reservations s !! k = Some r -> el_reservations s' !! k = Some r)
  /\ ((el_effects s' = el_effects s /\ el_effectKeys s' = el_effectKeys s
       /\ el_operationKeys s' = el_operationKeys s)
      \/ exists record, s' = store_effect (effect_id_key (eff_identity record)) record s
         /\ admitted record s
         /\ forall e, el_effects s !! effect_id_key (eff_identity record) = Some e ->
              replaces record e = true).
Proof.
  intros Hs. destruct Hs as [r s | record s].
  - destruct (putAuthorizationReservation r s) as [o s'] eqn:Hp. cbn.
    apply putAuthorizationReservation_cases in Hp as [-> | (_ & Hnone & Hr & He & Hk & Ho)]; [by auto |].
    split; [| by left]. intros k r' Hk'. rewrite Hr, lookup_insert_ne; [done |]. intros <-. congruence.
  - destruct (putEffectRecord record s) as [o s'] eqn:Hp. cbn.
    apply putEffectRecord_cases in Hp as [[-> _] | (_ & -> & Had & Hrep)]; [by auto |].
    split; [done |]. right. by exists record.
Qed.

(** Every stored effect is indexed by its keys, digested by its identity and bound
    to a stored reservation. *)
Record stored_ok (s : EffectLedger) (k : EffectKey) (r : EffectRecord) : Prop := {
  so_key : k = effect_id_key (eff_identity r);
  so_digest : digestCanonicalJson (effectIdentity (eff_identity r)) = Return (eff_effectDigest r);
  so_effectKey : el_effectKeys s !! effect_key_key (eff_identity r) = Some k;
  so_operationKey : forall o, operation_key (eff_identity r) = Some o -> el_operationKeys s !! o = Some k;
  so_reservation : exists res,
    el_reservations s !! (eff_tenantId (eff_identity r), eff_authorizationReservationId (eff_identity r)) = Some res
    /\ assertEffectAuthorizationBinding r res = Return tt;
}.

Definition ledger_wf (s : EffectLedger) : Prop :=
  forall k r, el_effects s !! k = Some r -> stored_ok s k r.

Lemma ledger_wf_store s record :
  ledger_wf s -> admitted record s ->
  ledger_wf (store_effect (effect_id_key (eff_identity record)) record s).
Proof.
  intros Hwf Had k r Hk. cbn [store_effect el_effects] in Hk.
  destruct (decide (k = effect_id_key (eff_identity record))) as [-> | Hne].
  - rewrite lookup_insert_eq in Hk. injection Hk as <-. split; cbn [store_effect el_effectKeys el_operationKeys
      el_reservations]; [done | apply Had | by rewrite lookup_insert_eq | | apply Had].
    intros o ->. by rewrite lookup_insert_eq.
  - rewrite lookup_insert_ne in Hk by done. destruct (Hwf k r Hk) as [Hkey Hd He Ho Hr].
    split; cbn [store_effect el_effectKeys el_operationKeys el_reservations]; [done | done | | | done].
    + rewrite lookup_insert_ne; [done |]. intros Heq. rewrite <- Heq in He. apply Had in He. congruence.
    + intros o Hop. destruct (operation_key (eff_identity record)) as [o' |] eqn:Hor; [| by apply Ho].
      rewrite lookup_insert_ne; [by apply Ho |]. intros ->.
      apply (ad_operationKey _ _ Had _ k) in Hor; [congruence | by apply Ho].
Qed.

Lemma ledger_step_wf s s' : ledger_wf s -> ledger_step s s' -> ledger_wf s'.
Proof.
  intros Hwf [Hres [(He & Hk & Ho) | (record & -> & Had & _)]]%ledger_step_effects;
    [| by apply ledger_wf_store].
  intros k r Hr. rewrite He in Hr. destruct (Hwf k r Hr) as [? ? ? ? (res & ? & ?)].
  split; rewrite ?Hk, ?Ho; try done. by eauto.
Qed.

Lemma ledger_reachable_wf s : ledger_reachable s -> ledger_wf s.
Proof.
  intros Hs. refine (steps_invariant ledger_step ledger_wf _ _ _ _ Hs); [apply ledger_step_wf |].
  intros k r Hk. cbn [empty_ledger el_effects] in Hk. by rewrite lookup_empty in Hk.
Qed.

(** ** Histories *)

(** A stored record stays or is replaced by an admitted one. *)
Lemma ledger_step_at s s' k r :
  ledger_wf s -> ledger_step s s' -> el_effects s !! k = Some r ->
  exists r', el_effects s' !! k = Some r' /\ (r' = r \/ (replaces r' r = true /\ admitted r' s)).
Proof.
  intros Hwf [_ [(He & _ & _) | (record & -> & Had & Hrep)]]%ledger_step_effects Hk.
  - exists r. rewrite He. by auto.
  - cbn [store_effect el_effects].
    destruct (decide (k = effect_id_key (eff_identity record))) as [-> | Hne].
    + exists record. rewrite lookup_insert_eq. split; [done |]. right. by auto.
    + exists r. rewrite lookup_insert_ne by done. by auto.
Qed.

(** A relation between a record and its replacements that composes holds along
    every execution. *)
Lemma ledger_steps_at (R : EffectRecord -> EffectRecord -> Prop) s s' k r :
  (forall r, R r r) ->
  (forall s r1 r2 r3, ledger_wf s -> el_effects s !! k = Some r1 -> replaces r2 r1 = true -> admitted r2 s ->
     R r2 r3 -> R r1 r3) ->
  ledger_wf s -> steps ledger_step s s' -> el_effects s !! k = Some r ->
  exists r', el_effects s' !! k = Some r' /\ R r r'.
Proof.
  intros Hrefl Hstep Hwf Hs. revert r. induction Hs as [s | s1 s2 s3 H12 H23 IH]; intros r Hk; [by eauto |].
  destruct (ledger_step_at _ _ _ _ Hwf H12 Hk) as (r2 & Hk2 & Hr).
  destruct (IH (ledger_step_wf _ _ Hwf H12) r2 Hk2) as (r3 & Hk3 & HR).
  exists r3. split; [done |]. destruct Hr as [-> | [Hrep Had]]; [done | by eapply Hstep].
Qed.

Lemma replaces_spec r e :
  replaces r e = true ->
  eff_effectDigest e = eff_effectDigest r
  /\ isEffectTransitionAllowed (eff_state e) (eff_state r) (eff_strategy (eff_identity r)) = true.
Proof. unfold replaces. intros Hr. by bools. Qed.



(** C30: an acknowledged effect is never dispatched again: whatever calls follow,
    its record stays as it is or is replaced by a compensated one; an abandoned or
    compensated record never changes. *)
Theorem acknowledged_never_redispatched s s' k r :
  ledger_reachable s -> steps ledger_step s s' -> el_effects s !! k = Some r ->
  eff_state r = acknowledged \/ eff_state r = abandoned \/ eff_state r = compensated ->
  exists r', el_effects s' !! k = Some r'
    /\ (r' = r \/ (eff_state r = acknowledged /\ eff_state r' = compensated)).
Proof.
  intros Hs Hss Hk. revert r Hk. intros r Hk Hst.
  destruct (ledger_steps_at (fun r r' =>
    eff_state r = acknowledged \/ eff_state r = abandoned \/ eff_state r = compensated ->
    r' = r \/ (eff_state r = acknowledged /\ eff_state r' = compensated)) s s' k r) as (r' & Hk' & Hr); try done.
  - by left.
  - intros t r1 r2 r3 _ _ [_ Ht]%replaces_spec _ Hr3 Hst1.
    assert (eff_state r1 = acknowledged /\ eff_state r2 = compensated) as [H1 H2].
    { destruct (eff_strategy (eff_identity r2)), (eff_state r1), (eff_state r2);
        try discriminate Ht; naive_solver. }
    destruct Hr3 as [-> | [Ha _]]; [by auto | by right | congruence].
  - by apply ledger_reachable_wf.
  - by eauto.
Qed.

(** The keys of effects are unique: of the effects a reachable ledger holds,
    two of one run with the same effect key, or two of one tenant with the same
    operation key, are the same effect. *)
Theorem effect_keys_unique s k1 k2 r1 r2 :
  ledger_reachable s -> el_effects s !! k1 = Some r1 -> el_effects s !! k2 = Some r2 ->
  effect_key_key (eff_identity r1) = effect_key_key (eff_identity r2)
  \/ (exists o, operation_key (eff_identity r1) = Some o /\ operation_key (eff_identity r2) = Some o) ->
  k1 = k2 /\ r1 = r2.
Proof.
  intros Hs%ledger_reachable_wf H1 H2 Hkeys. assert (k1 = k2) as ->; [| split; [done | congruence]].
  destruct (Hs _ _ H1) as [_ _ He1 Ho1 _], (Hs _ _ H2) as [_ _ He2 Ho2 _].
  destruct Hkeys as [Heq | (o & Hop1 & Hop2)]; [rewrite Heq in He1; congruence |].
  apply Ho1 in Hop1. apply Ho2 in Hop2. congruence.
Qed.

(** Every effect of a reachable ledger is bound to a stored reservation of the
    same tenant, run, step, tool call, effect key, execution definition, tool and
    arguments, which is reserved or consumed. *)
Theorem effect_is_authorized s k r :
  ledger_reachable s -> el_effects s !! k = Some r ->
  exists res, el_reservations s !! (eff_tenantId (eff_identity r),
                                    eff_authorizationReservationId (eff_identity r)) = Some res
    /\ res_authorizationReservationId res = eff_authorizationReservationId (eff_identity r)
    /\ authorizationBinding res = Return (effectBinding (eff_identity r))
    /\ (res_state res = reservation_reserved \/ res_state res = reservation_consumed).
Proof.
  intros Hs%ledger_reachable_wf Hk. destruct (Hs _ _ Hk) as [_ _ _ _ (res & Hres & Hb)].
  exists res. split; [done |]. unfold assertEffectAuthorizationBinding in Hb.
  destruct (negb _ || negb _) eqn:Hg; [done |]. apply orb_false_iff in Hg as [Hid Hst]. bools.
  destruct (authorizationBinding res) as [b |] eqn:Hab; [| done]. cbn in Hb. unfold require in Hb.
  destruct (bool_decide (effectBinding (eff_identity r) = b)) eqn:Heq; [bools; subst b | done].
  split_and!; [done | done |]. unfold hasValidLifecycleState in Hst.
  apply orb_true_iff in Hst as [Hst | Hst]; bools; by auto.
Qed.

Lemma assertKeyFree_ok prior idKey reason :
  (forall k, prior = Some k -> k = idKey) -> assertKeyFree prior idKey reason = Return tt.
Proof. destruct prior as [k |]; [| done]. intros Hk. cbn. by rewrite bool_decide_eq_true_2 by auto. Qed.

(** An admitted record is compared with the stored one, if there is one. *)
Lemma putEffectRecord_admitted record s :
  admitted record s ->
  putEffectRecord record s
  = match el_effects s !! effect_id_key (eff_identity record) with
    | Some e =>
        if sameEffect e record then (Return tt, s)
        else if replaces record e then (Return tt, store_effect (effect_id_key (eff_identity record)) record s)
        else (conflict "effect_record_changed", s)
    | None => (Return tt, store_effect (effect_id_key (eff_identity record)) record s)
    end.
Proof.
  intros [Hs Hd (res & Hres & Hb) He Ho]. unfold putEffectRecord, parse. rewrite mthen_mlift, Hs.
  rewrite mthen_mlift. unfold assertEffectDigest. rewrite Hd. cbn [mbind outcome_bind require].
  rewrite bool_decide_eq_true_2, mthen_mget, mthen_mlift, Hres, mthen_mlift, Hb, mthen_mlift by done.
  cbn [require]. rewrite assertKeyFree_ok, mthen_mlift, assertKeyFree_ok; [| | done].
  - destruct (el_effects s !! _) as [e |]; [| done]. destruct (sameEffect e record); [done |].
    unfold replaces. by destruct (bool_decide _), (isEffectTransitionAllowed _ _ _), (nan_lt _ _).
  - intros k Hop. destruct (operation_key _) as [o |] eqn:Hopk; [| done]. by apply (Ho o).
Qed.

Lemma putEffectRecord_again record s e :
  admitted record s -> el_effects s !! effect_id_key (eff_identity record) = Some e ->
  sameEffect e record = true -> putEffectRecord record s = (Return tt, s).
Proof. intros Had Hk Hsame. by rewrite putEffectRecord_admitted, Hk, Hsame by done. Qed.

(** A call the ledger refuses changes nothing, and a record that was accepted
    is accepted again, at once, without a change. *)
Theorem effect_write_atomic record s o s' :
  putEffectRecord record s = (o, s') ->
  (isReturn o = false -> s' = s)
  /\ (isReturn o = true -> putEffectRecord record s' = (Return tt, s')).
Proof.
  intros [[-> Hret] | (-> & -> & Had & _)]%putEffectRecord_cases.
  - split; [done |]. destruct o as [u | e]; [| done]. intros _.
    destruct (Hret u eq_refl) as (Had & e & He & Hsame). by eapply putEffectRecord_again.
  - split; [done |]. intros _. apply (putEffectRecord_again _ _ record).
    + destruct Had as [Hs Hd Hr He Ho]. split; [done | done | done | |];
        cbn [store_effect el_effectKeys el_operationKeys].
      * intros k. rewrite lookup_insert_eq. by intros [= <-].
      * intros op k ->. rewrite lookup_insert_eq. by intros [= <-].
    + cbn [store_effect el_effects]. by rewrite lookup_insert_eq.
    + unfold sameEffect. by rewrite !bool_decide_eq_true_2.
Qed.
End Executions.

(** ** Examples of the effect ledger

    An effect that is reserved, prepared, dispatched and acknowledged, with the
    properties of the ledger applied to it. *)

#[local] Existing Instance zod_reference.

Definition at0 : string := "2026-09-04T10:00:00.000Z".
Definition at1 : string := "2026-09-04T10:00:01.000Z".

Definition ledger_reservation : AuthorizationReservation :=
  {| res_authorizationReservationId := "reservation-1"; res_authorizationKey := "key-1";
     res_tenantId := "tenant-1"; res_runId := "run-1"; res_stepId := "step-1";
     res_toolCallId := "call-1"; res_effectKey := Some "effect-key-1";
     res_workOrderBindingDigest := example_digest; res_executionDefinition := example_agent;
     res_executionDefinitionDigest := example_digest; res_toolId := "tool"; res_toolVersion := "1.0.0";
     res_toolRegistrationDigest := example_digest; res_policyRegistrationDigest := example_digest;
     res_argumentsDigest := example_digest; res_normalizedTargetDigest := example_digest;
     res_grantId := "grant-1"; res_approvalId := None; res_secretRefIds := [];
     res_purposeCode := "support"; res_purposeRegistryVersion := "1";
     res_state := reservation_consumed; res_createdAt := at0;
     res_expiresAt := "2026-09-04T11:00:00.000Z"; res_consumedAt := Some at0 |}.

Definition ledger_identity : EffectIdentity :=
  {| eff_effectId := "effect-1"; eff_tenantId := "tenant-1"; eff_runId := "run-1";
     eff_stepId := "step-1"; eff_toolCallId := "call-1"; eff_effectKey := "effect-key-1";
     eff_operationKey := Some "operation-1"; eff_executionDefinition := example_agent;
     eff_executionDefinitionDigest := example_digest; eff_workOrderBindingDigest := example_digest;
     eff_toolId := "tool"; eff_toolVersion := "1.0.0"; eff_toolRegistrationDigest := example_digest;
     eff_strategy := strategy_native; eff_strategyRegistrationDigest := example_digest;
     eff_authorizationReservationId := "reservation-1"; eff_argumentsDigest := example_digest;
     eff_normalizedTargetDigest := example_digest; eff_createdAt := at0 |}.

Definition ledger_acknowledgement : EffectAcknowledgement :=
  {| ack_acknowledgementId := "ack-1"; ack_proofKind := receiver_receipt;
     ack_effectKey := "effect-key-1"; ack_operationKey := Some "operation-1";
     ack_toolRegistrationDigest := example_digest; ack_strategyRegistrationDigest := example_digest;
     ack_normalizedTargetDigest := example_digest; ack_resultSchemaDigest := example_digest;
     ack_resultDigest := example_digest; ack_proofDigest := example_digest;
     ack_safeReceiptMetadata := None; ack_acknowledgedAt := at1 |}.

Definition ledger_digest : string :=
  "sha256:4f256040d027b2ffe64b2fdd99bf2e49e5b2db03eab82160e1d82a57d3d277e0".

Definition ledger_record (v : EffectVariant) : EffectRecord :=
  {| eff_identity := ledger_identity; eff_effectDigest := ledger_digest; eff_updatedAt := at1;
     eff_variant := v |}.

Definition record_prepared : EffectRecord := ledger_record effect_prepared.
Definition record_dispatched : EffectRecord := ledger_record (effect_dispatched at1).
Definition record_acknowledged : EffectRecord :=
  ledger_record (effect_acknowledged example_digest ledger_acknowledgement).

Lemma ledger_digest_ok : digestCanonicalJson (effectIdentity ledger_identity) = Return ledger_digest.
Proof. vm_compute. reflexivity. Qed.

Definition ledger_key : EffectKey := ("tenant-1", "run-1", "effect-1").

Definition ledger1 : EffectLedger := (putAuthorizationReservation ledger_reservation empty_ledger).2.
Definition ledger2 : EffectLedger := store_effect ledger_key record_prepared ledger1.
Definition ledger3 : EffectLedger := store_effect ledger_key record_dispatched ledger2.
Definition ledger4 : EffectLedger := store_effect ledger_key record_acknowledged ledger3.

(** The guards at the example's records; only the digest is not evaluated again. *)
Lemma example_admitted v s :
  EffectVariantSchema v = true ->
  el_reservations s !! ("tenant-1", "reservation-1") = Some ledger_reservation ->
  el_effectKeys s !! ("tenant-1", "run-1", "effect-key-1") = None
    \/ el_effectKeys s !! ("tenant-1", "run-1", "effect-key-1") = Some ledger_key ->
  el_operationKeys s !! ("tenant-1", "operation-1") = None
    \/ el_operationKeys s !! ("tenant-1", "operation-1") = Some ledger_key ->
  admitted (ledger_record v) s.
Proof.
  intros Hv Hr He Ho. split.
  - unfold EffectRecordSchema. cbn [eff_variant ledger_record]. by rewrite Hv.
  - exact ledger_digest_ok.
  - exists ledger_reservation. split; [exact Hr | vm_compute; reflexivity].
  - intros k Hk. change (el_effectKeys s !! ("tenant-1", "run-1", "effect-key-1") = Some k) in Hk.
    destruct He as [He | He]; rewrite He in Hk; by inversion Hk.
  - intros o k [= <-] Hk. destruct Ho as [Ho | Ho]; rewrite Ho in Hk; by inversion Hk.
Qed.

Lemma put_prepared : putEffectRecord record_prepared ledger1 = (Return tt, ledger2).
Proof.
  unfold record_prepared. rewrite putEffectRecord_admitted;
    [reflexivity | apply example_admitted; [reflexivity .. | by left | by left]].
Qed.

Lemma put_dispatched : putEffectRecord record_dispatched ledger2 = (Return tt, ledger3).
Proof.
  unfold record_dispatched. rewrite putEffectRecord_admitted;
    [reflexivity | apply example_admitted; [reflexivity .. | by right | by right]].
Qed.

Lemma put_acknowledged : putEffectRecord record_acknowledged ledger3 = (Return tt, ledger4).
Proof.
  unfold record_acknowledged. rewrite putEffectRecord_admitted;
    [reflexivity | apply example_admitted; [reflexivity .. | by right | by right]].
Qed.

(** An effect is not acknowledged before it was dispatched, nor dispatched again. *)
Example ledger_refuses :
  (putEffectRecord record_acknowledged ledger2).1 = conflict "effect_record_changed"
  /\ (putEffectRecord record_dispatched ledger4).1 = conflict "effect_record_changed".
Proof.
  unfold record_acknowledged at 1, record_dispatched at 1.
  rewrite !putEffectRecord_admitted; [by split | |];
    apply example_admitted; by (reflexivity || right).
Qed.

Lemma ledger2_reachable : ledger_reachable ledger2.
Proof.
  eapply steps_cons; [apply (step_reservation ledger_reservation) |].
  pose proof (step_effect record_prepared ledger1) as Hs. rewrite put_prepared in Hs.
  eapply steps_cons; [exact Hs | apply steps_refl].
Qed.

Lemma ledger2_to_4 : steps ledger_step ledger2 ledger4.
Proof.
  apply (steps_cons _ _ ledger3).
  - pose proof (step_effect record_dispatched ledger2) as Hs. by rewrite put_dispatched in Hs.
  - pose proof (step_effect record_acknowledged ledger3) as Hs. rewrite put_acknowledged in Hs.
    eapply steps_cons; [exact Hs | apply steps_refl].
Qed.

Lemma ledger4_reachable : ledger_reachable ledger4.
Proof. exact (steps_trans _ _ _ _ ledger2_reachable ledger2_to_4). Qed.


Lemma ledger4_record : el_effects ledger4 !! ledger_key = Some record_acknowledged.
Proof. vm_compute. reflexivity. Qed.


Lemma acknowledged_never_redispatched_witness :
  exists r', el_effects ledger4 !! ledger_key = Some r'
    /\ (r' = record_acknowledged \/ (acknowledged = acknowledged /\ eff_state r' = compensated)).
Proof.
  exact (acknowledged_never_redispatched _ _ _ _ ledger4_reachable (steps_refl _ _) ledger4_record
    (or_introl eq_refl)).
Defined.

Lemma effect_keys_unique_witness : ledger_key = ledger_key /\ record_acknowledged = record_acknowledged.
Proof.
  exact (effect_keys_unique _ _ _ _ _ ledger4_reachable ledger4_record ledger4_record (or_introl eq_refl)).
Defined.

Lemma effect_is_authorized_witness :
  exists res, el_reservations ledger4 !! ("tenant-1", "reservation-1") = Some res
    /\ res_authorizationReservationId res = "reservation-1"
    /\ authorizationBinding res = Return (effectBinding ledger_identity)
    /\ (res_state res = reservation_reserved \/ res_state res = reservation_consumed).
Proof. exact (effect_is_authorized _ _ _ ledger4_reachable ledger4_record). Defined.

Lemma effect_write_atomic_witness :
  putEffectRecord record_acknowledged ledger4 = (Return tt, ledger4).
Proof. exact (proj2 (effect_write_atomic _ _ _ _ put_acknowledged) eq_refl). Defined.
