(* ===== verification/JsMap.v ===== *)
(** * Maps in insertion order

    The host language's [Map] where the source iterates over it and the order
    shows: a list of entries; [set] replaces an entry in place or appends it. *)

From S2P Require Import Prelude.

Local Open Scope Z_scope.

Definition JsMap (K V : Type) : Type := list (K * V).

Section JsMap.
Context {K V : Type} `{!EqDecision K}.
Implicit Types (m : JsMap K V) (k : K) (v : V).

Fixpoint map_get k m : option V :=
  match m with
  | [] => None
  | (k', v) :: m' => if decide (k' = k) then Some v else map_get k m'
  end.

Fixpoint map_set k v m : JsMap K V :=
  match m with
  | [] => [(k, v)]
  | (k', v') :: m' => if decide (k' = k) then (k', v) :: m' else (k', v') :: map_set k v m'
  end.

Definition map_values m : list V := m.*2.

Lemma map_get_set_eq k v m : map_get k (map_set k v m) = Some v.
Proof.
  induction m as [| [k' v'] m IH]; cbn; [by rewrite decide_True |].
  case_decide; cbn; [by rewrite decide_True | by rewrite decide_False].
Qed.

Lemma map_get_set_ne k k' v m : k' <> k -> map_get k' (map_set k v m) = map_get k' m.
Proof.
  intros Hne. induction m as [| [k2 v2] m IH]; cbn; [by rewrite decide_False |].
  destruct (decide (k2 = k)) as [-> |]; cbn; [by rewrite !decide_False by congruence |].
  by rewrite IH.
Qed.

Lemma map_get_set k k' v m : map_get k' (map_set k v m) = if decide (k' = k) then Some v else map_get k' m.
Proof. case_decide as H; [subst; apply map_get_set_eq | by apply map_get_set_ne]. Qed.

Lemma map_set_keys k v m : (map_set k v m).*1 = if decide (k ∈ m.*1) then m.*1 else m.*1 ++ [k].
Proof.
  induction m as [| [k' v'] m IH]; [done |]. cbn [map_set].
  destruct (decide (k' = k)) as [-> | Hne]; cbn [fmap list_fmap fst].
  - by rewrite decide_True by set_solver.
  - rewrite IH. destruct (decide (k ∈ m.*1)); [by rewrite decide_True by set_solver |].
    by rewrite decide_False by set_solver.
Qed.

Lemma map_set_NoDup k v m : NoDup m.*1 -> NoDup (map_set k v m).*1.
Proof.
  intros Hm. rewrite map_set_keys. case_decide; [done |]. apply list.NoDup_app. split_and!; [done | set_solver |].
  apply list.NoDup_singleton.
Qed.

Lemma map_get_Some k v m : map_get k m = Some v -> (k, v) ∈ m.
Proof.
  induction m as [| [k' v'] m IH]; [done |]. cbn. case_decide as He; [intros [= ->]; subst; by left |].
  intros Hg. right. by apply IH.
Qed.

Lemma elem_map_get k v m : NoDup m.*1 -> (k, v) ∈ m -> map_get k m = Some v.
Proof.
  induction m as [| [k' v'] m IH]; cbn; intros Hm Hin; [by apply not_elem_of_nil in Hin |].
  apply list.NoDup_cons in Hm as [Hk Hm]. apply elem_of_cons in Hin as [[= -> ->] | Hin].
  - by rewrite decide_True.
  - rewrite decide_False; [by apply IH |]. intros ->. apply Hk, list_elem_of_fmap. by exists (k, v).
Qed.

Lemma map_get_None k m : map_get k m = None <-> k ∉ m.*1.
Proof.
  induction m as [| [k' v'] m IH]; cbn; [split; [set_solver | done] |].
  case_decide; [split; [done | set_solver] |]. rewrite IH. set_solver.
Qed.

Lemma map_values_elem v m : NoDup m.*1 -> v ∈ map_values m <-> exists k, map_get k m = Some v.
Proof.
  intros Hm. unfold map_values. rewrite list_elem_of_fmap. split.
  - intros ([k v'] & -> & Hin). exists k. by apply elem_map_get.
  - intros [k Hk]. exists (k, v). split; [done | by apply map_get_Some].
Qed.

(** ** Sums over the values *)

Lemma map_sum_new (f : V -> Z) k v m :
  map_get k m = None -> sum_of f (map_values (map_set k v m)) = sum_of f (map_values m) + f v.
Proof.
  induction m as [| [k' v'] m IH]; cbn; [lia |]. case_decide; [done |]. cbn. intros H'.
  unfold map_values in IH. rewrite IH by done. lia.
Qed.

Lemma map_sum_replace (f : V -> Z) k v w m :
  map_get k m = Some w -> sum_of f (map_values (map_set k v m)) = sum_of f (map_values m) + f v - f w.
Proof.
  induction m as [| [k' v'] m IH]; cbn; [done |]. case_decide; cbn.
  - intros [= ->]. lia.
  - intros H'. unfold map_values in IH. rewrite IH by done. lia.
Qed.

(** A property of all stored entries, kept by [set]. *)
Definition map_all (P : K -> V -> Prop) m : Prop := forall k v, map_get k m = Some v -> P k v.

Lemma map_all_set P k v m : map_all P m -> P k v -> map_all P (map_set k v m).
Proof.
  intros Hm Hv k' v'. rewrite map_get_set. case_decide; [intros [= <-]; by subst | apply Hm].
Qed.

Lemma map_all_nil P : map_all P [].
Proof. done. Qed.
End JsMap.
