(* ===== verification/JsArithmetic.v ===== *)
(** * Sums of numbers of the host language

    The addition and comparison of doubles, and where they are those of the
    integers: below 2^53.  The stores that add numbers up do it with [js_plus],
    in the order of the source. *)

From S2P Require Import Prelude JsonValue JsNumber JsNumberFacts.

Local Open Scope Z_scope.

Definition js_plus : spec_float -> spec_float -> spec_float := SFadd 53 1024.

(** [x > y] *)
Definition js_gt (x y : spec_float) : bool := SFltb y x.

(** The number whose value is the integer [z]. *)
Definition number (z : Z) : spec_float := binary_normalize 53 1024 z 0 false.

(** [numbers.reduce((sum, x) => sum + x, 0)] *)
Definition js_sum (l : list spec_float) : spec_float := fold_left js_plus l (number 0).

(** The integers that doubles represent without gap. *)
Definition small (z : Z) : Prop := 0 <= z < 2 ^ 53.

Definition canonical (z : Z) : spec_float :=
  let d := Zdigits2 z in S754_finite false (Z.to_pos (z * 2 ^ (53 - d))) (d - 53).

Lemma iter_xO p d : Zpos (Pos.iter xO p d) = Zpos p * 2 ^ Zpos d.
Proof.
  induction d as [| d IH] using Pos.peano_ind; [cbn; lia |].
  rewrite Pos.iter_succ, Pos2Z.inj_succ, Z.pow_succ_r by lia. lia.
Qed.

Lemma shl_align_spec p e e' : e' <= e -> Zpos (fst (shl_align p e e')) = Zpos p * 2 ^ (e - e').
Proof.
  intros He. unfold shl_align. destruct (e' - e) as [| d | d] eqn:Hd; cbn [fst].
  - replace (e - e') with 0 by lia. lia.
  - lia.
  - rewrite iter_xO. do 2 f_equal. lia.
Qed.

Lemma digits_pos z : 0 < z -> 1 <= Zdigits2 z /\ 2 ^ (Zdigits2 z - 1) <= z < 2 ^ Zdigits2 z.
Proof. destruct z as [| p | p]; try lia. intros _. split; [cbn; lia | apply digits2_pos_bounds]. Qed.

Lemma digits_small z : 0 < z < 2 ^ 53 -> 1 <= Zdigits2 z <= 53.
Proof.
  intros Hz. destruct (digits_pos z) as (H1 & H2 & _); [lia |]. split; [done |].
  assert (Zdigits2 z - 1 < 53); [| lia]. apply (Z.pow_lt_mono_r_iff 2); lia.
Qed.

Lemma fexp_small d : 1 <= d <= 53 -> fexp 53 1024 d = d - 53.
Proof. unfold fexp, emin. lia. Qed.

Lemma canonical_bounded z :
  0 < z < 2 ^ 53 -> bounded 53 1024 (Z.to_pos (z * 2 ^ (53 - Zdigits2 z))) (Zdigits2 z - 53) = true.
Proof.
  intros Hz. pose proof (digits_small z Hz) as Hd. unfold bounded, canonical_mantissa.
  assert (Zpos (digits2_pos (Z.to_pos (z * 2 ^ (53 - Zdigits2 z)))) = 53) as ->.
  { change (Zdigits2 (Zpos (Z.to_pos (z * 2 ^ (53 - Zdigits2 z)))) = 53).
    rewrite Z2Pos.id by lia. destruct z as [| p | p]; try lia. rewrite digits2_shift by lia. cbn in *. lia. }
  replace (53 + (Zdigits2 z - 53)) with (Zdigits2 z) by lia. rewrite fexp_small by done.
  rewrite Z.eqb_refl. apply Z.leb_le. lia.
Qed.

(** Any way of writing an integer below 2^53 rounds to its double. *)
Lemma normalize_integer p e z :
  e <= 0 -> 0 < z < 2 ^ 53 -> Zpos p = z * 2 ^ (- e) ->
  binary_normalize 53 1024 (Zpos p) e false = canonical z.
Proof.
  intros He Hz Hp. pose proof (digits_small z Hz) as Hd. cbn [binary_normalize]. unfold binary_round.
  assert (Zpos (digits2_pos p) = Zdigits2 z - e) as ->.
  { change (Zdigits2 (Zpos p) = Zdigits2 z - e). rewrite Hp. destruct z as [| q | q]; try lia.
    rewrite digits2_shift by lia. cbn. lia. }
  replace (Zdigits2 z - e + e) with (Zdigits2 z) by lia. rewrite fexp_small by done.
  destruct (Z.le_gt_cases e (Zdigits2 z - 53)) as [Hle | Hgt].
  - unfold shl_align. replace (match Zdigits2 z - 53 - e with Zneg d => (Pos.iter xO p d, Zdigits2 z - 53) | _ => (p, e) end)
      with (p, e) by (destruct (Zdigits2 z - 53 - e) eqn:?; [done | done | lia]).
    rewrite Hp. unfold canonical.
    rewrite <- (round_exact false (Z.to_pos (z * 2 ^ (53 - Zdigits2 z))) (Zdigits2 z - 53) e)
      by (done || by apply canonical_bounded).
    rewrite Z2Pos.id by lia. rewrite <- Z.mul_assoc, <- Z.pow_add_r by lia. do 3 f_equal. lia.
  - destruct (shl_align p e (Zdigits2 z - 53)) as [mz ez] eqn:Hs.
    pose proof (shl_align_spec p e (Zdigits2 z - 53) ltac:(lia)) as Hm. rewrite Hs in Hm. cbn [fst] in Hm.
    assert (ez = Zdigits2 z - 53) as ->.
    { unfold shl_align in Hs. destruct (Zdigits2 z - 53 - e) eqn:?; [lia | lia | congruence]. }
    rewrite Hm, Hp. unfold canonical.
    rewrite <- (round_exact false (Z.to_pos (z * 2 ^ (53 - Zdigits2 z))) (Zdigits2 z - 53) (Zdigits2 z - 53))
      by (lia || by apply canonical_bounded).
    rewrite Z2Pos.id by lia. rewrite <- !Z.mul_assoc, <- !Z.pow_add_r by lia. do 3 f_equal. lia.
Qed.

Lemma number_canonical z : 0 < z < 2 ^ 53 -> number z = canonical z.
Proof.
  intros Hz. destruct z as [| p | p]; try lia. unfold number.
  apply normalize_integer; [lia | done | rewrite Z.mul_1_r; done].
Qed.

Lemma number_add a b : small a -> small b -> small (a + b) -> js_plus (number a) (number b) = number (a + b).
Proof.
  unfold small. intros Ha Hb Hab.
  destruct (decide (a = 0)) as [-> |]; [| destruct (decide (b = 0)) as [-> |]].
  - destruct (decide (b = 0)) as [-> |]; [done |].
    rewrite Z.add_0_l, (number_canonical b) by lia. done.
  - rewrite Z.add_0_r, (number_canonical a) by lia. done.
  - rewrite (number_canonical a), (number_canonical b), (number_canonical (a + b)) by lia.
    unfold js_plus, canonical at 1 2, SFadd. cbn [cond_Zopp].
    pose proof (digits_small a ltac:(lia)) as Hda. pose proof (digits_small b ltac:(lia)) as Hdb.
    set (ez := Z.min _ _). rewrite !shl_align_spec by (unfold ez; lia).
    rewrite !Z2Pos.id by lia.
    replace (a * 2 ^ (53 - Zdigits2 a) * 2 ^ (Zdigits2 a - 53 - ez)
             + b * 2 ^ (53 - Zdigits2 b) * 2 ^ (Zdigits2 b - 53 - ez)) with ((a + b) * 2 ^ (- ez)).
    + assert (0 < (a + b) * 2 ^ (- ez)) as Hpos by (unfold ez; lia).
      destruct ((a + b) * 2 ^ (- ez)) as [| p | p] eqn:Hp; try lia.
      apply normalize_integer; [unfold ez; lia | lia | done].
    + rewrite <- !Z.mul_assoc, <- !Z.pow_add_r by (unfold ez; lia).
      replace (53 - Zdigits2 a + (Zdigits2 a - 53 - ez)) with (- ez) by lia.
      replace (53 - Zdigits2 b + (Zdigits2 b - 53 - ez)) with (- ez) by lia. lia.
Qed.

Lemma number_gt a b : small a -> small b -> js_gt (number a) (number b) = (b <? a).
Proof.
  unfold small, js_gt, SFltb. intros Ha Hb.
  destruct (decide (a = 0)) as [-> |]; [| destruct (decide (b = 0)) as [-> |]].
  - rewrite (proj2 (Z.ltb_ge b 0)) by lia. destruct (decide (b = 0)) as [-> |]; [done |].
    by rewrite (number_canonical b) by lia.
  - rewrite (proj2 (Z.ltb_lt 0 a)), (number_canonical a) by lia. done.
  - rewrite (number_canonical a), (number_canonical b) by lia. unfold canonical, SFcompare.
    destruct (digits_pos a) as (Hda & Hla & Hua); [lia |]. destruct (digits_pos b) as (Hdb & Hlb & Hub); [lia |].
    set (da := Zdigits2 a) in *. set (db := Zdigits2 b) in *.
    destruct (Z.compare_spec (db - 53) (da - 53)) as [He | Hlt | Hgt].
    + assert (db = da) as -> by lia.
      assert (forall p q, Pos.compare_cont Eq p q = (Zpos p ?= Zpos q)) as -> by done.
      pose proof (digits_small a ltac:(lia)) as Hd. fold da in Hd.
      assert (0 < 2 ^ (53 - da)) by (apply Z.pow_pos_nonneg; lia).
      rewrite !Z2Pos.id by nia. rewrite <- Zmult_compare_compat_r by lia. unfold Z.ltb. by destruct (b ?= a).
    + symmetry. apply Z.ltb_lt. assert (2 ^ db <= 2 ^ (da - 1)) by (apply Z.pow_le_mono_r; lia). lia.
    + symmetry. apply Z.ltb_ge. assert (2 ^ da <= 2 ^ (db - 1)) by (apply Z.pow_le_mono_r; lia). lia.
Qed.

(** A sum that stays below 2^53 is exact, in whatever order. *)
Lemma js_sum_exact l :
  (forall z, z ∈ l -> 0 <= z) -> sum_of (fun z => z) l < 2 ^ 53 ->
  js_sum (number <$> l) = number (sum_of (fun z => z) l).
Proof.
  unfold js_sum. intros Hl Hs.
  assert (forall acc, 0 <= acc -> acc + sum_of (fun z => z) l < 2 ^ 53 ->
    fold_left js_plus (number <$> l) (number acc) = number (acc + sum_of (fun z => z) l)) as Hgen;
    [| rewrite (Hgen 0) by lia; by rewrite Z.add_0_l].
  clear Hs. induction l as [| z l IH]; intros acc Hacc Hsum; cbn [fmap list_fmap fold_left sum_of] in *.
  - by rewrite Z.add_0_r.
  - assert (0 <= z) by (apply Hl; by left).
    assert (0 <= sum_of (fun z => z) l) by (apply sum_of_nonneg; intros; apply Hl; by right).
    rewrite number_add by (unfold small; lia). rewrite IH; [f_equal; lia | | lia | lia].
    intros y Hy. apply Hl. by right.
Qed.
