(* ===== verification/Commands.v ===== *)
(** * Command identifiers, scopes and records (packages/core/src/commands.ts)

    A command identifier carries the millisecond at which it was made and 16
    random bytes; a runtime admits it only inside a window around its clock. *)

From S2P Require Import Prelude JsTime Errors Schema JsonValue Unicode Contracts WorkOrder Digest Sha256Facts.
From S2P Require Import DigestFacts.

Local Open Scope Z_scope.

(** ** Identifiers *)

(** [COMMAND_ID_PATTERN]: the timestamp of an identifier of that form. *)
Definition commandIdTimestamp (commandId : string) : option Z :=
  rest ← strip_prefix "kafcmd_" commandId;
  '(timestamp, rest) ← digits 13 0 rest;
  suffix ← strip_prefix "_" rest;
  if (js_length suffix =? 32) && all_chars is_hex_digit suffix then Some timestamp else None.

Definition CommandIdSchema (commandId : string) : bool :=
  match commandIdTimestamp commandId with Some _ => true | None => false end.

(** [timestamp] is the clock's [getTime()], NaN being [None], and [random] the
    bytes the entropy source returns; a timestamp that passes the guard has 13
    digits. *)
Definition createCommandId (timestamp : option Z) (random : list Z) : outcome js_error string :=
  let refused := RangeError "Command timestamp must be a 13-digit Unix epoch millisecond value" in
  ms ← orThrow timestamp refused;
  _ ← require (is_safe_integer ms && (1000000000000 <=? ms) && (ms <=? 9999999999999)) refused;
  _ ← require (Z.of_nat (length random) =? 16)
        (RangeError "Command ID entropy source must return exactly 16 bytes");
  parse CommandIdSchema ("kafcmd_" +:+ pad 13 ms +:+ "_" +:+ hex_text random).

Inductive CommandIdWindowResult :=
| window_valid (timestamp : Z)
| window_malformed
| window_future_skew
| window_expired.

Definition validateCommandIdWindow (commandId : string) (now : option Z)
    (maximumFutureSkewMs idempotencyHorizonMs : Z) : CommandIdWindowResult :=
  match commandIdTimestamp commandId with
  | None => window_malformed
  | Some timestamp =>
      if nan_gt (Some timestamp) (Z.add maximumFutureSkewMs <$> now) then window_future_skew
      else if nan_le (Some (timestamp + idempotencyHorizonMs)) now then window_expired
      else window_valid timestamp
  end.

(** ** Scopes and records *)

Record CommandScope := {
  cs_issuerId : string;
  cs_tenant : Tenant;
  cs_principal : Principal;
  cs_operation : string;
  cs_normalizedResourceScope : list ResourceScope;
  cs_commandId : string;
}.

Record CommandContext := {
  cc_commandId : string;
  cc_operation : string;
  cc_normalizedResourceScope : list ResourceScope;
  cc_requestDigest : string;
}.

Inductive CommandResultReference :=
| result_run (runId : string)
| result_event (runId eventId : string)
| result_effect (runId effectId : string)
| result_decision_challenge (challengeId : string)
| result_input_submission (submissionId : string)
| result_response (responseReference : string).

Inductive CommandStatus := command_in_progress | command_committed.

Record CommandRecord := {
  cr_scope : CommandScope;
  cr_requestDigest : string;
  cr_status : CommandStatus;
  cr_resultReference : option CommandResultReference;
  cr_safeResponseDigest : option string;
  cr_firstSeenAt : string;
  cr_committedAt : option string;
  cr_detailRetentionExpiresAt : string;
  cr_idempotencyExpiresAt : string;
}.

#[export] Instance CommandScope_eq_dec : EqDecision CommandScope.
Proof. solve_decision. Defined.
#[export] Instance CommandResultReference_eq_dec : EqDecision CommandResultReference.
Proof. solve_decision. Defined.
#[export] Instance CommandStatus_eq_dec : EqDecision CommandStatus.
Proof. solve_decision. Defined.
#[export] Instance CommandRecord_eq_dec : EqDecision CommandRecord.
Proof. solve_decision. Defined.

Section Schemas.
Context `{Zod}.

Definition CommandContextSchema (c : CommandContext) : option CommandContext :=
  operation ← trimmed 256 (cc_operation c);
  scopes ← array_of 0 256 ResourceScopeSchema (cc_normalizedResourceScope c);
  checked (CommandIdSchema (cc_commandId c) && DigestSchema (cc_requestDigest c))
    {| cc_commandId := cc_commandId c; cc_operation := operation; cc_normalizedResourceScope := scopes;
       cc_requestDigest := cc_requestDigest c |}.

Definition createCommandContext (commandId operation : string) (payload : JsonValue)
    (normalizedResourceScope : option (list ResourceScope)) : outcome js_error CommandContext :=
  requestDigest ← digestCanonicalJson payload;
  orThrow (CommandContextSchema
    {| cc_commandId := commandId; cc_operation := operation;
       cc_normalizedResourceScope := default [] normalizedResourceScope;
       cc_requestDigest := requestDigest |}) ZodError.

Definition CommandScopeSchema (s : CommandScope) : option CommandScope :=
  issuerId ← trimmed 256 (cs_issuerId s);
  tenant ← TenantSchema (cs_tenant s);
  principal ← PrincipalSchema (cs_principal s);
  operation ← trimmed 256 (cs_operation s);
  scopes ← array_of 0 256 ResourceScopeSchema (cs_normalizedResourceScope s);
  checked (CommandIdSchema (cs_commandId s))
    {| cs_issuerId := issuerId; cs_tenant := tenant; cs_principal := principal;
       cs_operation := operation; cs_normalizedResourceScope := scopes;
       cs_commandId := cs_commandId s |}.

Definition CommandResultReferenceSchema (r : CommandResultReference) : option CommandResultReference :=
  match r with
  | result_run runId => result_run <$> trimmed 256 runId
  | result_event runId eventId => r ← trimmed 256 runId; e ← trimmed 256 eventId; Some (result_event r e)
  | result_effect runId effectId => r ← trimmed 256 runId; e ← trimmed 256 effectId; Some (result_effect r e)
  | result_decision_challenge c => result_decision_challenge <$> trimmed 256 c
  | result_input_submission s => result_input_submission <$> trimmed 256 s
  | result_response r => result_response <$> trimmed 1024 r
  end.

Definition CommandRecordSchema (r : CommandRecord) : option CommandRecord :=
  scope ← CommandScopeSchema (cr_scope r);
  reference ← match cr_resultReference r with
              | None => Some None
              | Some ref => Some <$> CommandResultReferenceSchema ref
              end;
  checked (DigestSchema (cr_requestDigest r) && optional DigestSchema (cr_safeResponseDigest r)
           && zod_datetime (cr_firstSeenAt r) && optional zod_datetime (cr_committedAt r)
           && zod_datetime (cr_detailRetentionExpiresAt r) && zod_datetime (cr_idempotencyExpiresAt r))
    {| cr_scope := scope; cr_requestDigest := cr_requestDigest r; cr_status := cr_status r;
       cr_resultReference := reference; cr_safeResponseDigest := cr_safeResponseDigest r;
       cr_firstSeenAt := cr_firstSeenAt r; cr_committedAt := cr_committedAt r;
       cr_detailRetentionExpiresAt := cr_detailRetentionExpiresAt r;
       cr_idempotencyExpiresAt := cr_idempotencyExpiresAt r |}.
End Schemas.

(** ** Properties of identifiers *)

Lemma strip_prefix_app p s : strip_prefix p (p +:+ s) = Some s.
Proof. induction p as [| c p IH]; [done |]. rewrite string_app_cons. cbn. by rewrite Ascii.eqb_refl. Qed.

Lemma commandIdTimestamp_text ms random :
  1000000000000 <= ms <= 9999999999999 -> length random = 16%nat -> Forall is_byte random ->
  commandIdTimestamp ("kafcmd_" +:+ pad 13 ms +:+ "_" +:+ hex_text random) = Some ms.
Proof.
  intros Hms Hlen Hb. unfold commandIdTimestamp. rewrite strip_prefix_app. cbn [mbind option_bind].
  rewrite pad_digits by lia. cbn [mbind option_bind]. rewrite strip_prefix_app. cbn [mbind option_bind].
  destruct (hex_text_digest random Hb) as [Hh Hl]. unfold js_length. rewrite Hh, Hl, Hlen. cbn. done.
Qed.

(** C40: command identifiers round-trip.  For a clock reading of 13 digits and
    16 random bytes an identifier is made, its timestamp reads back, and no
    other reading or bytes give the same identifier; for any other input none is
    made. *)
Theorem command_id_round_trip timestamp random :
  Forall is_byte random ->
  (forall ms, timestamp = Some ms -> 1000000000000 <= ms <= 9999999999999 -> length random = 16%nat ->
     exists id, createCommandId timestamp random = Return id /\ CommandIdSchema id = true
       /\ commandIdTimestamp id = Some ms
       /\ forall timestamp' random', Forall is_byte random' ->
            createCommandId timestamp' random' = Return id -> timestamp' = timestamp /\ random' = random)
  /\ (forall id, createCommandId timestamp random = Return id -> exists ms,
        timestamp = Some ms /\ 1000000000000 <= ms <= 9999999999999 /\ length random = 16%nat).
Proof.
  assert (forall t r id, createCommandId t r = Return id -> exists ms, t = Some ms
    /\ 1000000000000 <= ms <= 9999999999999 /\ length r = 16%nat
    /\ id = "kafcmd_" +:+ pad 13 ms +:+ "_" +:+ hex_text r) as Hinv.
  { intros t r id. unfold createCommandId. destruct t as [ms |]; cbn [orThrow mbind outcome_bind]; [| done].
    destruct (_ && _) eqn:Hms; cbn [require]; [| done]. destruct (_ =? 16) eqn:Hlen; cbn [require]; [| done].
    cbn [mbind outcome_bind]. intros [_ ->]%parse_Return. bools. exists ms. split_and!; [done | lia | lia | lia | done]. }
  intros Hb. split.
  - intros ms -> Hms Hlen. set (id := "kafcmd_" +:+ pad 13 ms +:+ "_" +:+ hex_text random).
    assert (commandIdTimestamp id = Some ms) as Hts by (by apply commandIdTimestamp_text).
    assert (CommandIdSchema id = true) as Hok by (unfold CommandIdSchema; by rewrite Hts).
    exists id. split_and!; [| done | done |].
    + unfold createCommandId. cbn [orThrow mbind outcome_bind]. rewrite Hlen.
      rewrite (proj2 (is_safe_integer_spec ms)) by (unfold MAX_SAFE_INTEGER; lia).
      rewrite !(proj2 (Z.leb_le _ _)) by lia. cbn. fold id. by apply parse_Return.
    + intros t' r' Hb' Hid. destruct (Hinv _ _ _ Hid) as (ms' & -> & Hms' & Hlen' & Heq).
      pose proof (commandIdTimestamp_text ms' r' Hms' Hlen' Hb') as Hts'. rewrite <- Heq, Hts in Hts'.
      injection Hts' as <-. split; [done |]. apply hex_text_inj; [done | done |].
      unfold id in Heq. repeat (apply (inj (String.app _)) in Heq). done.
  - intros id Hid. destruct (Hinv _ _ _ Hid) as (ms & -> & ? & ? & _). by exists ms.
Qed.

(** The replay window.  A command identifier is admitted exactly when it
    is well formed, at most the permitted skew ahead of the clock and younger
    than the horizon; once expired it stays refused as time passes. *)
Theorem command_window commandId now skew horizon :
  (forall ts, validateCommandIdWindow commandId (Some now) skew horizon = window_valid ts <->
     commandIdTimestamp commandId = Some ts /\ ts <= now + skew /\ now < ts + horizon)
  /\ (forall later, validateCommandIdWindow commandId (Some now) skew horizon = window_expired ->
        now <= later -> validateCommandIdWindow commandId (Some later) skew horizon = window_expired).
Proof.
  unfold validateCommandIdWindow, nan_gt, nan_le, nan_lt, nan_compare. cbn [fmap option_fmap option_map].
  destruct (commandIdTimestamp commandId) as [t |]; [| split; [intros; split; [done | by intros [? _]] | done]].
  split.
  - intros ts. destruct (_ <? _) eqn:H1; [| destruct (_ <=? _) eqn:H2]; bools.
    + split; [done | intros ([= ->] & ? & _); lia].
    + split; [done | intros ([= ->] & _ & ?); lia].
    + split; [intros [= ->]; split_and!; [done | lia | lia] | by intros ([= ->] & _)].
  - intros later. destruct (skew + now <? t) eqn:H1; [done |]. destruct (t + horizon <=? now) eqn:H2; [| done].
    intros _ Hle. bools. rewrite (proj2 (Z.ltb_ge _ _)), (proj2 (Z.leb_le _ _)) by lia. done.
Qed.
