(* ===== verification/Admission.v ===== *)
(** * Quotas and reservations of admission (packages/core/src/admission.ts, model.ts)

    The limits a host configures, the requests and reservations of admission,
    the reservation of a model call with its settlement, and the state of a
    circuit breaker, with their schemas. *)

From S2P Require Import Prelude JsTime Errors Schema JsonValue Contracts WorkOrder Commands.

Local Open Scope Z_scope.

(** ** Limits *)

Inductive AdmissionCategory :=
| request_start | queued_run | active_run | model_call | tool_call | active_execution | cost_window
| sse_connection.

Inductive QuotaMetric :=
| metric_of (c : AdmissionCategory)
| model_tokens | model_io_bytes | model_cost_minor.

Inductive QuotaScope := quota_tenant | quota_principal.

Record QuotaLimit := {
  ql_scope : QuotaScope;
  ql_metric : QuotaMetric;
  ql_resourceKey : string;
  ql_maximum : spec_float;
  ql_retryAfterSeconds : Z;
}.

#[export] Instance AdmissionCategory_eq_dec : EqDecision AdmissionCategory.
Proof. solve_decision. Defined.
#[export] Instance QuotaMetric_eq_dec : EqDecision QuotaMetric.
Proof. solve_decision. Defined.
#[export] Instance QuotaScope_eq_dec : EqDecision QuotaScope.
Proof. solve_decision. Defined.

(** [z.number().positive()]: a finite number above zero. *)
Definition number_positive (x : spec_float) : bool :=
  match x with S754_finite false _ _ => true | _ => false end.

Definition QuotaLimitSchema (l : QuotaLimit) : option QuotaLimit :=
  resourceKey ← trimmed 512 (ql_resourceKey l);
  checked (number_positive (ql_maximum l)
           && (1 <=? ql_retryAfterSeconds l) && (ql_retryAfterSeconds l <=? 3600))
    {| ql_scope := ql_scope l; ql_metric := ql_metric l; ql_resourceKey := resourceKey;
       ql_maximum := ql_maximum l; ql_retryAfterSeconds := ql_retryAfterSeconds l |}.

(** The limit of a metric for a resource, or for every resource. *)
Definition limit_covers (resourceKey : string) (l : QuotaLimit) : bool :=
  bool_decide (ql_resourceKey l = resourceKey) || bool_decide (ql_resourceKey l = "*").

(** ** Admission *)

Record AdmissionRequest := {
  aq_tenant : Tenant;
  aq_principal : Principal;
  aq_commandId : option string;
  aq_category : AdmissionCategory;
  aq_resourceKey : string;
  aq_amount : spec_float;
  aq_leaseDurationMs : Z;
}.

Inductive AdmissionState := admission_reserved | admission_released | admission_expired.

Record AdmissionReservation := {
  ar_id : string;
  ar_tenant : Tenant;
  ar_principal : Principal;
  ar_commandId : option string;
  ar_category : AdmissionCategory;
  ar_resourceKey : string;
  ar_amount : spec_float;
  ar_state : AdmissionState;
  ar_fencingToken : Z;
  ar_reservedAtServerTime : string;
  ar_leaseExpiresAt : string;
  ar_releasedAt : option string;
}.

Inductive AdmissionDecision :=
| admitted (reservation : AdmissionReservation)
| not_admitted (code : KafErrorCode) (retryAfterSeconds : Z).

#[export] Instance AdmissionState_eq_dec : EqDecision AdmissionState.
Proof. solve_decision. Defined.
#[export] Instance AdmissionRequest_eq_dec : EqDecision AdmissionRequest.
Proof. solve_decision. Defined.
#[export] Instance AdmissionReservation_eq_dec : EqDecision AdmissionReservation.
Proof. solve_decision. Defined.

(** ** Model calls *)

Record ModelCallSettlement := {
  mst_inputBytes : Z;
  mst_inputTokenLowerBound : Z;
  mst_outputBytes : Z;
  mst_outputTokenLowerBound : Z;
  mst_chargedTokens : Z;
  mst_chargedIoBytes : Z;
  mst_chargedCostMinor : option Z;
  mst_currency : option string;
  mst_settledAt : string;
}.

Inductive ModelCallStatus := call_accepted | call_dispatched | call_settled | call_uncertain | call_expired.

(** The fields of a reservation other than its status and settlement. *)
Record ModelCallIdentity := {
  mc_reservationId : string;
  mc_tenantId : string;
  mc_runId : string;
  mc_stepId : string;
  mc_attempt : Z;
  mc_workOrderBindingDigest : string;
  mc_agentDefinitionDigest : string;
  mc_modelSecurityProfileDigest : string;
  mc_modelResourceProfileDigest : string;
  mc_modelAdapterRegistrationDigest : string;
  mc_inputBytes : Z;
  mc_inputTokenUpperBound : Z;
  mc_outputTokenMaximum : Z;
  mc_outputBytesMaximum : option Z;
  mc_maximumCallCostMinor : option Z;
  mc_currency : option string;
  mc_expiresAt : string;
  mc_createdAt : string;
}.

Record ModelCallReservation := {
  mc_identity : ModelCallIdentity;
  mc_status : ModelCallStatus;
  mc_settlement : option ModelCallSettlement;
}.

#[export] Instance ModelCallSettlement_eq_dec : EqDecision ModelCallSettlement.
Proof. solve_decision. Defined.
#[export] Instance ModelCallStatus_eq_dec : EqDecision ModelCallStatus.
Proof. solve_decision. Defined.
#[export] Instance ModelCallIdentity_eq_dec : EqDecision ModelCallIdentity.
Proof. solve_decision. Defined.
#[export] Instance ModelCallReservation_eq_dec : EqDecision ModelCallReservation.
Proof. solve_decision. Defined.

Definition is_capital (c : Ascii.ascii) : bool :=
  let n := Ascii.N_of_ascii c in (65 <=? n)%N && (n <=? 90)%N.

(** [/^[A-Z]{3}$/] *)
Definition currency_code (s : string) : bool := (js_length s =? 3) && all_chars is_capital s.

(** Two optional values are given together or not at all. *)
Definition both_or_none {A B} (a : option A) (b : option B) : bool :=
  match a, b with Some _, Some _ | None, None => true | _, _ => false end.

(** ** Circuit breakers *)

Inductive CircuitState := circuit_closed | circuit_open | circuit_half_open.

Record CircuitBreakerState := {
  cb_tenantId : string;
  cb_providerKey : string;
  cb_state : CircuitState;
  cb_failureCount : Z;
  cb_openedAt : option string;
  cb_probeLeaseId : option string;
  cb_probeFencingToken : option Z;
  cb_updatedAt : string;
}.

#[export] Instance CircuitState_eq_dec : EqDecision CircuitState.
Proof. solve_decision. Defined.
#[export] Instance CircuitBreakerState_eq_dec : EqDecision CircuitBreakerState.
Proof. solve_decision. Defined.

(** ** Schemas *)

Section Schemas.
Context `{Zod}.

Definition AdmissionRequestSchema (r : AdmissionRequest) : option AdmissionRequest :=
  tenant ← TenantSchema (aq_tenant r);
  principal ← PrincipalSchema (aq_principal r);
  resourceKey ← trimmed 512 (aq_resourceKey r);
  checked (optional CommandIdSchema (aq_commandId r) && number_positive (aq_amount r)
           && int_positive (aq_leaseDurationMs r))
    {| aq_tenant := tenant; aq_principal := principal; aq_commandId := aq_commandId r;
       aq_category := aq_category r; aq_resourceKey := resourceKey; aq_amount := aq_amount r;
       aq_leaseDurationMs := aq_leaseDurationMs r |}.

Definition AdmissionReservationSchema (r : AdmissionReservation) : option AdmissionReservation :=
  id ← trimmed 256 (ar_id r);
  tenant ← TenantSchema (ar_tenant r);
  principal ← PrincipalSchema (ar_principal r);
  resourceKey ← trimmed 512 (ar_resourceKey r);
  checked (optional CommandIdSchema (ar_commandId r) && number_positive (ar_amount r)
           && int_nonnegative (ar_fencingToken r) && zod_datetime (ar_reservedAtServerTime r)
           && zod_datetime (ar_leaseExpiresAt r) && optional zod_datetime (ar_releasedAt r))
    {| ar_id := id; ar_tenant := tenant; ar_principal := principal; ar_commandId := ar_commandId r;
       ar_category := ar_category r; ar_resourceKey := resourceKey; ar_amount := ar_amount r;
       ar_state := ar_state r; ar_fencingToken := ar_fencingToken r;
       ar_reservedAtServerTime := ar_reservedAtServerTime r;
       ar_leaseExpiresAt := ar_leaseExpiresAt r; ar_releasedAt := ar_releasedAt r |}.

Definition ModelCallSettlementSchema (s : ModelCallSettlement) : bool :=
  int_positive (mst_inputBytes s) && int_positive (mst_inputTokenLowerBound s)
  && int_nonnegative (mst_outputBytes s) && int_nonnegative (mst_outputTokenLowerBound s)
  && int_positive (mst_chargedTokens s) && int_positive (mst_chargedIoBytes s)
  && optional int_nonnegative (mst_chargedCostMinor s) && optional currency_code (mst_currency s)
  && zod_datetime (mst_settledAt s) && both_or_none (mst_chargedCostMinor s) (mst_currency s).

Definition ModelCallIdentitySchema (i : ModelCallIdentity) : bool :=
  min1max 200 (mc_reservationId i) && min1max 200 (mc_tenantId i) && min1max 200 (mc_runId i)
  && min1max 200 (mc_stepId i) && int_positive (mc_attempt i)
  && DigestSchema (mc_workOrderBindingDigest i) && DigestSchema (mc_agentDefinitionDigest i)
  && DigestSchema (mc_modelSecurityProfileDigest i) && DigestSchema (mc_modelResourceProfileDigest i)
  && DigestSchema (mc_modelAdapterRegistrationDigest i) && int_positive (mc_inputBytes i)
  && int_positive (mc_inputTokenUpperBound i) && int_positive (mc_outputTokenMaximum i)
  && optional int_positive (mc_outputBytesMaximum i) && optional int_nonnegative (mc_maximumCallCostMinor i)
  && optional currency_code (mc_currency i) && zod_datetime (mc_expiresAt i)
  && zod_datetime (mc_createdAt i) && both_or_none (mc_maximumCallCostMinor i) (mc_currency i).

Definition ModelCallReservationSchema (r : ModelCallReservation) : bool :=
  ModelCallIdentitySchema (mc_identity r) && optional ModelCallSettlementSchema (mc_settlement r)
  && Bool.eqb (bool_decide (mc_status r = call_settled)) (negb (bool_decide (mc_settlement r = None))).

Definition CircuitBreakerStateSchema (c : CircuitBreakerState) : option CircuitBreakerState :=
  tenantId ← trimmed 256 (cb_tenantId c);
  providerKey ← trimmed 512 (cb_providerKey c);
  probeLeaseId ← match cb_probeLeaseId c with
                 | None => Some None
                 | Some l => Some <$> trimmed 256 l
                 end;
  checked (int_nonnegative (cb_failureCount c) && optional zod_datetime (cb_openedAt c)
           && optional int_nonnegative (cb_probeFencingToken c) && zod_datetime (cb_updatedAt c)
           && both_or_none probeLeaseId (cb_probeFencingToken c)
           && Bool.eqb (bool_decide (cb_state c = circuit_half_open)) (negb (bool_decide (probeLeaseId = None))))
    {| cb_tenantId := tenantId; cb_providerKey := providerKey; cb_state := cb_state c;
       cb_failureCount := cb_failureCount c; cb_openedAt := cb_openedAt c;
       cb_probeLeaseId := probeLeaseId; cb_probeFencingToken := cb_probeFencingToken c;
       cb_updatedAt := cb_updatedAt c |}.
End Schemas.
