(* ===== verification/ModelCalls.v ===== *)
(** * Model-call reservations (packages/store-memory/src/resource-reservations.ts)

    What a model call may cost at most, held against the tenant's limits from
    its acceptance until it is settled with what it did cost.  Sums are made in
    the order of the reservations, with the host's addition. *)

From S2P Require Import Prelude JsTime Errors Schema JsonValue Contracts StoreInternal.
From S2P Require Import JsMap JsArithmetic Admission.

Local Open Scope Z_scope.
Local Open Scope js_scope.

(** Tenant, run, step and attempt. *)
Definition CallKey : Type := string * string * string * Z.

Definition call_key (i : ModelCallIdentity) : CallKey :=
  (mc_tenantId i, mc_runId i, mc_stepId i, mc_attempt i).

(** The private map of [MemoryModelCallReservationStore]. *)
Notation ModelCallStore := (JsMap CallKey ModelCallReservation) (only parsing).

(** ** What a call counts for *)

(** The largest amount of a metric a call may use: absent for a cost without
    maximum. *)
Definition call_maximum (metric : QuotaMetric) (i : ModelCallIdentity) : option spec_float :=
  match metric with
  | model_tokens => Some (js_plus (number (mc_inputTokenUpperBound i)) (number (mc_outputTokenMaximum i)))
  | model_io_bytes =>
      Some (js_plus (number (mc_inputBytes i)) (number (default 0 (mc_outputBytesMaximum i))))
  | model_cost_minor => number <$> mc_maximumCallCostMinor i
  | metric_of _ => None
  end.

Definition settled_amount (metric : QuotaMetric) (s : ModelCallSettlement) : Z :=
  match metric with
  | model_tokens => mst_chargedTokens s
  | model_io_bytes => mst_chargedIoBytes s
  | _ => default 0 (mst_chargedCostMinor s)
  end.

(** The summand of a reservation; an expired one is skipped. *)
Definition call_amount (metric : QuotaMetric) (r : ModelCallReservation) : option spec_float :=
  match mc_status r, mc_settlement r with
  | call_expired, _ => None
  | call_settled, Some s => Some (number (settled_amount metric s))
  | _, _ => Some (default (number 0) (call_maximum metric (mc_identity r)))
  end.

Definition same_profile (i : ModelCallIdentity) (r : ModelCallReservation) : bool :=
  bool_decide (mc_tenantId (mc_identity r) = mc_tenantId i)
  && bool_decide (mc_modelSecurityProfileDigest (mc_identity r) = mc_modelSecurityProfileDigest i).

Definition calls_used (metric : QuotaMetric) (i : ModelCallIdentity) (s : ModelCallStore) : spec_float :=
  js_sum (omap (call_amount metric) (filter (fun r => same_profile i r = true) (map_values s))).

(** The metrics in the order of the source. *)
Definition call_metrics : list QuotaMetric := [model_tokens; model_io_bytes; model_cost_minor].

(** The name of a metric in the details of an error. *)
Definition metric_name (metric : QuotaMetric) : string :=
  match metric with
  | model_tokens => "model_tokens" | model_io_bytes => "model_io_bytes"
  | model_cost_minor => "model_cost_minor" | metric_of _ => "admission"
  end.

(** The constructor checks the limits it is given. *)
Definition parse_limits (limits : list QuotaLimit) : outcome js_error (list QuotaLimit) :=
  orThrow (mapM QuotaLimitSchema limits) ZodError.

Section Store.
Context `{Zod} (limits : list QuotaLimit).

Definition call_limit (metric : QuotaMetric) (i : ModelCallIdentity) : option QuotaLimit :=
  List.find (fun l => bool_decide (ql_scope l = quota_tenant) && bool_decide (ql_metric l = metric)
                      && limit_covers (mc_modelSecurityProfileDigest i) l) limits.

(** One turn of the loop over the maximums. *)
Definition assert_metric (i : ModelCallIdentity) (s : ModelCallStore) (metric : QuotaMetric)
  : outcome js_error unit :=
  match call_maximum metric i, call_limit metric i with
  | Some maximum, Some limit =>
      require (negb (js_gt (js_plus (calls_used metric i s) maximum) (ql_maximum limit)))
        (KafError KAF_ADMISSION_DENIED
           [("retryAfterSeconds", DNum (ql_retryAfterSeconds limit)); ("metric", DStr (metric_name metric))])
  | _, _ => Return tt
  end.

Fixpoint assert_metrics (i : ModelCallIdentity) (s : ModelCallStore) (metrics : list QuotaMetric)
  : outcome js_error unit :=
  match metrics with
  | [] => Return tt
  | m :: rest => _ ← assert_metric i s m; assert_metrics i s rest
  end.

Definition call_transition_allowed (prior next : ModelCallStatus) : bool :=
  match prior, next with
  | call_accepted, (call_dispatched | call_settled | call_expired) => true
  | call_dispatched, (call_settled | call_uncertain) => true
  | _, _ => false
  end.

(** The check of a settlement against the maximums of its call. *)
Definition settlement_exceeds (i : ModelCallIdentity) (s : ModelCallSettlement) : bool :=
  js_gt (number (mst_chargedTokens s))
    (js_plus (number (mc_inputTokenUpperBound i)) (number (mc_outputTokenMaximum i)))
  || (negb (bool_decide (mc_outputBytesMaximum i = None))
      && js_gt (number (mst_chargedIoBytes s))
           (js_plus (number (mc_inputBytes i)) (number (default 0 (mc_outputBytesMaximum i)))))
  || match mc_maximumCallCostMinor i with
     | None => false
     | Some maximum =>
         match mst_chargedCostMinor s with
         | None => true
         | Some charged => (maximum <? charged) || negb (bool_decide (mst_currency s = mc_currency i))
         end
     end.

Definition put_call (input : ModelCallReservation) : method ModelCallStore js_error ModelCallReservation :=
  let! next := mlift (parse ModelCallReservationSchema input) in
  let i := mc_identity next in
  let key := call_key i in
  let! s := mget in
  match map_get key s with
  | None =>
      if negb (bool_decide (mc_status next = call_accepted))
      then mlift (conflict "model_reservation_must_start_accepted")
      else if bool_decide (mc_outputBytesMaximum i = None)
      then mlift (conflict "model_reservation_io_maximum_required")
      else
        mlift (assert_metrics i s call_metrics) ;;!
        mput (map_set key next s) ;;!
        mreturn next
  | Some prior =>
      if bool_decide (prior = next) then mreturn prior
      else if negb (bool_decide (mc_identity prior = i))
      then mlift (conflict "model_reservation_binding_changed")
      else if negb (call_transition_allowed (mc_status prior) (mc_status next))
      then mlift (conflict "model_reservation_transition_changed")
      else if match mc_settlement next with Some s => settlement_exceeds i s | None => false end
      then mlift (conflict "model_reservation_settlement_exceeds_maximum")
      else
        mput (map_set key next s) ;;!
        mreturn next
  end.

(** The deep copies of a transaction. *)
Definition call_snapshot (s : ModelCallStore) : ModelCallStore := s.
Definition call_restore (snapshot : ModelCallStore) : method ModelCallStore js_error unit := mput snapshot.

(** ** The services over the store ([MemoryModelCallReservationServices]) *)

Record TrustedUsage := {
  tu_inputTokens : Z;
  tu_outputTokens : Z;
  tu_callCostMinor : option Z;
  tu_currency : option string;
}.

Record ModelSettlementInput := {
  msi_inputBytes : Z;
  msi_inputTokenLowerBound : Z;
  msi_outputBytes : Z;
  msi_outputTokenLowerBound : Z;
  msi_trustedProviderUsage : option TrustedUsage;
}.

(** [{ ...identity, status }], without settlement. *)
Definition with_call_status (status : ModelCallStatus) (r : ModelCallReservation) : ModelCallReservation :=
  {| mc_identity := mc_identity r; mc_status := status; mc_settlement := None |}.

(** [reserve], [markDispatched] and [markUncertain]: the parsed record is put
    and returned. *)
Definition put_call_status (status : ModelCallStatus) (r : ModelCallReservation)
  : method ModelCallStore js_error ModelCallReservation :=
  let! next := mlift (parse ModelCallReservationSchema (with_call_status status r)) in
  put_call next ;;!
  mreturn next.

(** The charge is the larger of the local floor and the provider's count; the
    sums are of integers the schema bounds afterwards. *)
Definition call_settlement (now : string) (i : ModelCallIdentity) (usage : ModelSettlementInput)
  : ModelCallSettlement :=
  let trusted := msi_trustedProviderUsage usage in
  let local := msi_inputTokenLowerBound usage + msi_outputTokenLowerBound usage in
  let provider := match trusted with Some t => tu_inputTokens t + tu_outputTokens t | None => 0 end in
  let charged :=
    (fun maximum => Z.max (default maximum (t ← trusted; tu_callCostMinor t)) 0)
      <$> mc_maximumCallCostMinor i in
  {| mst_inputBytes := msi_inputBytes usage;
     mst_inputTokenLowerBound := msi_inputTokenLowerBound usage;
     mst_outputBytes := msi_outputBytes usage;
     mst_outputTokenLowerBound := msi_outputTokenLowerBound usage;
     mst_chargedTokens := Z.max local provider;
     mst_chargedIoBytes := msi_inputBytes usage + msi_outputBytes usage;
     mst_chargedCostMinor := charged;
     mst_currency := match charged with
                     | None => None
                     | Some _ => match t ← trusted; tu_currency t with
                                 | Some c => Some c
                                 | None => mc_currency i
                                 end
                     end;
     mst_settledAt := now |}.

Definition settle_call (now : string) (r : ModelCallReservation) (usage : ModelSettlementInput)
  : method ModelCallStore js_error ModelCallReservation :=
  let! next := mlift (parse ModelCallReservationSchema
    {| mc_identity := mc_identity r; mc_status := call_settled;
       mc_settlement := Some (call_settlement now (mc_identity r) usage) |}) in
  put_call next ;;!
  mreturn next.

Definition get_call (tenantId runId stepId : string) (attempt : Z) (s : ModelCallStore)
  : option ModelCallReservation :=
  map_get (tenantId, runId, stepId, attempt) s.
End Store.
