(* ===== verification/ModelCallFacts.v ===== *)
(** * Properties of the model-call reservations

    What one call does, the invariant, the limits of a tenant's profile and the
    finality of settlements. *)

From S2P Require Import Prelude JsTime Errors Schema JsonValue Contracts StoreInternal.
From S2P Require Import JsMap JsArithmetic Admission ModelCalls.

Local Open Scope Z_scope.

Section Facts.
Context `{Zod} (limits : list QuotaLimit).

(** ** Integer charges *)

(** The two metrics every call has a maximum of. *)
Definition counted (metric : QuotaMetric) : Prop := metric = model_tokens \/ metric = model_io_bytes.

Definition maximum_of (metric : QuotaMetric) (i : ModelCallIdentity) : Z :=
  match metric with
  | model_tokens => mc_inputTokenUpperBound i + mc_outputTokenMaximum i
  | _ => mc_inputBytes i + default 0 (mc_outputBytesMaximum i)
  end.

Definition amount_of (metric : QuotaMetric) (r : ModelCallReservation) : option Z :=
  match mc_status r, mc_settlement r with
  | call_expired, _ => None
  | call_settled, Some s => Some (settled_amount metric s)
  | _, _ => Some (maximum_of metric (mc_identity r))
  end.

(** A call whose maximums are exact as numbers. *)
Definition small_call (i : ModelCallIdentity) : Prop :=
  maximum_of model_tokens i < 2 ^ 52 /\ maximum_of model_io_bytes i < 2 ^ 52.

(** What is stored. *)
Record stored_ok (k : CallKey) (r : ModelCallReservation) : Prop := {
  so_key : call_key (mc_identity r) = k;
  so_typed : ModelCallReservationSchema r = true;
  so_output : mc_outputBytesMaximum (mc_identity r) <> None;
  so_small : small_call (mc_identity r);
  so_settled : forall s, mc_settlement r = Some s -> settlement_exceeds (mc_identity r) s = false;
}.

Definition calls_ok (s : JsMap CallKey ModelCallReservation) : Prop := NoDup s.*1 /\ map_all stored_ok s.

Lemma identity_counts i :
  ModelCallIdentitySchema i = true ->
  0 < mc_inputBytes i <= MAX_SAFE_INTEGER /\ 0 < mc_inputTokenUpperBound i <= MAX_SAFE_INTEGER
  /\ 0 < mc_outputTokenMaximum i <= MAX_SAFE_INTEGER
  /\ 0 <= default 0 (mc_outputBytesMaximum i) <= MAX_SAFE_INTEGER.
Proof.
  unfold ModelCallIdentitySchema, int_positive, is_safe_integer. intros Hi.
  destruct (mc_outputBytesMaximum i) as [o |]; cbn [optional default from_option id] in *; bools; unfold id;
    unfold MAX_SAFE_INTEGER in *; lia.
Qed.

Lemma maximum_exact metric i :
  counted metric -> ModelCallIdentitySchema i = true -> small_call i ->
  0 < maximum_of metric i < 2 ^ 52
  /\ call_maximum metric i = Some (number (maximum_of metric i)).
Proof.
  intros Hm (H1 & H2 & H3 & H4)%identity_counts [Hs1 Hs2]. unfold MAX_SAFE_INTEGER in *.
  destruct Hm as [-> | ->]; cbn in *; (split; [lia |]); f_equal; apply number_add; unfold small; lia.
Qed.

Lemma typed_identity r : ModelCallReservationSchema r = true -> ModelCallIdentitySchema (mc_identity r) = true.
Proof. unfold ModelCallReservationSchema. intros. by bools. Qed.

Lemma typed_settlement r s :
  ModelCallReservationSchema r = true -> mc_settlement r = Some s ->
  0 < mst_chargedTokens s <= MAX_SAFE_INTEGER /\ 0 < mst_chargedIoBytes s <= MAX_SAFE_INTEGER.
Proof.
  unfold ModelCallReservationSchema. intros Hr Hs. rewrite Hs in Hr. cbn [optional] in Hr.
  unfold ModelCallSettlementSchema, int_positive, is_safe_integer in Hr. bools. lia.
Qed.

(** A settlement that does not exceed its call charges at most the maximums. *)
Lemma settlement_within r s metric :
  counted metric -> ModelCallReservationSchema r = true -> small_call (mc_identity r) ->
  mc_outputBytesMaximum (mc_identity r) <> None ->
  mc_settlement r = Some s -> settlement_exceeds (mc_identity r) s = false ->
  0 <= settled_amount metric s <= maximum_of metric (mc_identity r).
Proof.
  intros Hm Hr Hsm Ho Hs He. destruct (typed_settlement r s Hr Hs) as [Ht Hio].
  pose proof (typed_identity r Hr) as Hi. unfold settlement_exceeds in He.
  apply orb_false_iff in He as [[He1 He2]%orb_false_iff _].
  pose proof (maximum_exact model_tokens _ (or_introl eq_refl) Hi Hsm) as [Hb1 [= E1]].
  pose proof (maximum_exact model_io_bytes _ (or_intror eq_refl) Hi Hsm) as [Hb2 [= E2]].
  rewrite E1 in He1. rewrite E2, bool_decide_eq_false_2 in He2 by done. cbn [negb andb] in He2.
  cbn [maximum_of] in Hb1, Hb2. unfold MAX_SAFE_INTEGER in *.
  rewrite number_gt in He1, He2 by (unfold small; lia).
  apply Z.ltb_ge in He1, He2. destruct Hm as [-> | ->]; cbn [settled_amount maximum_of]; lia.
Qed.

Lemma amount_bounds metric k r :
  counted metric -> stored_ok k r ->
  0 <= default 0 (amount_of metric r) <= maximum_of metric (mc_identity r)
  /\ call_amount metric r = number <$> amount_of metric r.
Proof.
  intros Hm [_ Ht Ho Hs Hset]. pose proof (maximum_exact metric _ Hm (typed_identity r Ht) Hs) as [Hb He].
  assert (mc_status r = call_settled <-> mc_settlement r <> None) as Hst.
  { unfold ModelCallReservationSchema in Ht. apply andb_true_iff in Ht as [_ Ht%Bool.eqb_prop].
    destruct (mc_status r); repeat case_bool_decide; naive_solver. }
  unfold amount_of, call_amount. rewrite He.
  destruct (mc_status r) eqn:Hstat; cbn [default from_option fmap option_fmap option_map id];
    try (split; [lia | done]).
  destruct (mc_settlement r) as [s |] eqn:Hse; cbn [default from_option fmap option_fmap option_map]; [| by destruct (proj1 Hst eq_refl)].
  split; [| done]. unfold id. apply settlement_within; auto.
Qed.

(** ** Use of a profile *)

Definition of_profile (t p : string) (r : ModelCallReservation) : bool :=
  bool_decide (mc_tenantId (mc_identity r) = t)
  && bool_decide (mc_modelSecurityProfileDigest (mc_identity r) = p).

Definition amount_to (metric : QuotaMetric) (t p : string) (r : ModelCallReservation) : Z :=
  if of_profile t p r then default 0 (amount_of metric r) else 0.

(** The integers a tenant's profile uses of a metric. *)
Definition profile_usage (metric : QuotaMetric) (t p : string) (s : JsMap CallKey ModelCallReservation) : Z :=
  sum_of (amount_to metric t p) (map_values s).

Lemma sum_omap {A} (f : A -> option Z) l : sum_of (fun z => z) (omap f l) = sum_of (fun a => default 0 (f a)) l.
Proof. induction l as [| a l IH]; [done |]. cbn. destruct (f a); cbn; by rewrite IH. Qed.

Lemma calls_used_exact metric i s :
  counted metric -> calls_ok s ->
  profile_usage metric (mc_tenantId i) (mc_modelSecurityProfileDigest i) s < 2 ^ 53 ->
  calls_used metric i s
  = number (profile_usage metric (mc_tenantId i) (mc_modelSecurityProfileDigest i) s).
Proof.
  intros Hm [Hnd Hok] Hlt. unfold calls_used, profile_usage in *.
  set (l := filter _ _).
  assert (sum_of (fun z => z) (omap (amount_of metric) l)
          = sum_of (amount_to metric (mc_tenantId i) (mc_modelSecurityProfileDigest i)) (map_values s)) as Hsum.
  { rewrite sum_omap. unfold l. apply sum_of_filter. }
  assert (forall r, r ∈ l -> exists k, stored_ok k r) as Hl.
  { intros r [_ [k Hk]%map_values_elem]%list_elem_of_filter; [| done]. exists k. by apply Hok. }
  assert (omap (call_amount metric) l = number <$> omap (amount_of metric) l) as ->.
  { clear Hsum. induction l as [| r l IH]; [done |]. cbn. destruct (Hl r) as [k Hr]; [by left |].
    destruct (amount_bounds metric k r Hm Hr) as [_ ->]. rewrite IH by (intros; apply Hl; by right).
    by destruct (amount_of metric r). }
  rewrite js_sum_exact, Hsum; [done | | lia].
  intros z (r & Hr & Hz)%list_elem_of_omap. destruct (Hl r Hr) as [k Hk].
  destruct (amount_bounds metric k r Hm Hk) as [Hb _]. rewrite Hz in Hb. cbn in Hb. unfold id in Hb. lia.
Qed.

(** ** One call *)

(** What a call of the store returns and writes. *)
Inductive call_outcome (input : ModelCallReservation) (s : JsMap CallKey ModelCallReservation)
  : outcome js_error ModelCallReservation -> JsMap CallKey ModelCallReservation -> Prop :=
| call_refused e : call_outcome input s (Throw e) s
| call_replayed : map_get (call_key (mc_identity input)) s = Some input ->
    call_outcome input s (Return input) s
| call_started : ModelCallReservationSchema input = true ->
    map_get (call_key (mc_identity input)) s = None -> mc_status input = call_accepted ->
    mc_outputBytesMaximum (mc_identity input) <> None ->
    assert_metrics limits (mc_identity input) s call_metrics = Return tt ->
    call_outcome input s (Return input) (map_set (call_key (mc_identity input)) input s)
| call_moved prior : ModelCallReservationSchema input = true ->
    map_get (call_key (mc_identity input)) s = Some prior -> mc_identity prior = mc_identity input ->
    call_transition_allowed (mc_status prior) (mc_status input) = true ->
    (forall t, mc_settlement input = Some t -> settlement_exceeds (mc_identity input) t = false) ->
    call_outcome input s (Return input) (map_set (call_key (mc_identity input)) input s).

Lemma put_call_outcome input s o s' : put_call limits input s = (o, s') -> call_outcome input s o s'.
Proof.
  unfold put_call. rewrite mthen_mlift.
  destruct (parse ModelCallReservationSchema input) as [next |] eqn:Hp; [| intros [= <- <-]; constructor].
  apply parse_Return in Hp as [Ht ->]. rewrite mthen_mget.
  destruct (map_get _ s) as [prior |] eqn:Hk.
  - case_bool_decide as Heq; [intros [= <- <-]; subst; by constructor |].
    case_bool_decide as Hid; cbn [negb]; [| intros [= <- <-]; constructor].
    destruct (call_transition_allowed _ _) eqn:Htr; cbn [negb]; [| intros [= <- <-]; constructor].
    destruct (mc_settlement input) as [t |] eqn:Hs.
    + destruct (settlement_exceeds _ t) eqn:Hx; intros [= <- <-]; [constructor |].
      eapply call_moved; eauto. intros t' Ht'. rewrite Hs in Ht'. by injection Ht' as <-.
    + intros [= <- <-]. eapply call_moved; eauto. intros t' Ht'. congruence.
  - case_bool_decide as Hst; cbn [negb]; [| intros [= <- <-]; constructor].
    case_bool_decide as Ho; [intros [= <- <-]; constructor |].
    rewrite mthen_mlift. destruct (assert_metrics _ _ _ _) as [[] |] eqn:Ha; intros [= <- <-]; by constructor.
Qed.

Lemma assert_metrics_in i s metrics metric :
  assert_metrics limits i s metrics = Return tt -> metric ∈ metrics -> assert_metric limits i s metric = Return tt.
Proof.
  induction metrics as [| m rest IH]; cbn; [set_solver |].
  destruct (assert_metric limits i s m) as [[] |] eqn:Ha; cbn; [| done].
  intros Hr [-> | Hin]%elem_of_cons; [done | by apply IH].
Qed.

(** ** Executions of calls with exact maximums *)

Inductive call_step (s s' : JsMap CallKey ModelCallReservation) : Prop :=
| step_call input o :
    small_call (mc_identity input) -> put_call limits input s = (o, s') -> call_step s s'.

Definition calls_reachable (s : JsMap CallKey ModelCallReservation) : Prop := steps call_step [] s.

(** A settlement or expiry only frees what the call held. *)
Lemma moved_amount metric k prior next :
  counted metric -> stored_ok k prior -> stored_ok k next -> mc_identity prior = mc_identity next ->
  call_transition_allowed (mc_status prior) (mc_status next) = true ->
  default 0 (amount_of metric next) <= default 0 (amount_of metric prior).
Proof.
  intros Hm Hp Hn Hid Htr. destruct (amount_bounds metric k next Hm Hn) as [[_ Hb] _].
  rewrite <- Hid in Hb. assert (amount_of metric prior = Some (maximum_of metric (mc_identity prior))) as ->; [| done].
  unfold amount_of. by destruct (mc_status prior), (mc_status next).
Qed.

Lemma call_step_ok s s' : calls_ok s -> call_step s s' -> calls_ok s'.
Proof.
  intros [Hnd Hok] [input o Hsm Hp%put_call_outcome].
  destruct Hp as [e | Hk | Ht Hk Hst Ho Ha | prior Ht Hk Hid Htr Hse]; try done;
    (split; [by apply map_set_NoDup | apply map_all_set; [done |]]).
  - split; try done. intros t Hs. exfalso. unfold ModelCallReservationSchema in Ht.
    rewrite Hst, Hs, andb_comm in Ht. done.
  - destruct (Hok _ _ Hk) as [_ _ Ho _ _]. split; try done. by rewrite <- Hid.
Qed.

Lemma calls_reachable_ok s : calls_reachable s -> calls_ok s.
Proof.
  apply (steps_invariant call_step calls_ok).
  - intros s1 s2. apply call_step_ok.
  - split; [apply base.NoDup_nil_2 | apply map_all_nil].
Qed.

Lemma amount_to_moved metric t p k prior next :
  counted metric -> stored_ok k prior -> stored_ok k next -> mc_identity prior = mc_identity next ->
  call_transition_allowed (mc_status prior) (mc_status next) = true ->
  amount_to metric t p next <= amount_to metric t p prior.
Proof.
  intros Hm Hp Hn Hid Htr. unfold amount_to, of_profile. rewrite Hid. case_match; [| done].
  by eapply moved_amount.
Qed.

(** What one call adds to the use of a profile that has an exact limit. *)
Lemma call_step_usage metric t p maximum limit s s' :
  counted metric -> calls_ok s -> call_step s s' ->
  (forall i, mc_tenantId i = t -> mc_modelSecurityProfileDigest i = p -> call_limit limits metric i = Some limit) ->
  ql_maximum limit = number maximum -> 0 <= maximum <= 2 ^ 52 ->
  profile_usage metric t p s <= maximum -> profile_usage metric t p s' <= maximum.
Proof.
  intros Hm Hok Hstep Hlim Hmax Hb Hu. pose proof (call_step_ok _ _ Hok Hstep) as Hok'.
  destruct Hstep as [input o Hsm Hp%put_call_outcome].
  destruct Hp as [e | Hk | Ht Hk Hst Ho Ha | prior Ht Hk Hid Htr Hse]; try done.
  - unfold profile_usage. rewrite map_sum_new by done. fold (profile_usage metric t p s).
    unfold amount_to. destruct (of_profile t p input) eqn:Hof; [| lia].
    unfold of_profile in Hof. bools. subst t p.
    apply (assert_metrics_in _ _ _ metric) in Ha; [| destruct Hm; subst; set_solver].
    destruct (maximum_exact metric _ Hm (typed_identity _ Ht) Hsm) as [Hpos Hmx].
    unfold assert_metric in Ha. rewrite Hmx, (Hlim (mc_identity input)), Hmax in Ha by done.
    rewrite calls_used_exact in Ha by (done || lia).
    assert (0 <= profile_usage metric (mc_tenantId (mc_identity input))
              (mc_modelSecurityProfileDigest (mc_identity input)) s) as Hnn.
    { apply sum_of_nonneg. intros r [k Hr]%map_values_elem; [| apply Hok]. unfold amount_to.
      destruct (of_profile _ _ r); [| done]. apply Hok in Hr. by destruct (amount_bounds metric k r Hm Hr) as [[? _] _]. }
    rewrite number_add, number_gt in Ha by (unfold small; lia).
    unfold amount_of. rewrite Hst. cbn [default from_option id]. unfold id.
    destruct (maximum <? _) eqn:Hlt in Ha; [done |]. bools. lia.
  - unfold profile_usage. rewrite (map_sum_replace _ _ _ prior) by done.
    fold (profile_usage metric t p s).
    assert (amount_to metric t p input <= amount_to metric t p prior); [| lia].
    eapply amount_to_moved; [done | by apply Hok | | done | done].
    apply (proj2 Hok' (call_key (mc_identity input))), map_get_set_eq.
Qed.

(** C34: model calls stay within the tenant's limits.  For a limit that is an
    integer up to 2^52 on the tokens or the transferred bytes of a profile, the
    settled charges and outstanding maximums of the tenant's calls under that
    profile never exceed it, in whatever order calls are accepted, dispatched,
    settled, expired and repeated. *)
Theorem model_usage_within_limit s metric t p limit maximum :
  calls_reachable s -> counted metric ->
  (forall i, mc_tenantId i = t -> mc_modelSecurityProfileDigest i = p -> call_limit limits metric i = Some limit) ->
  ql_maximum limit = number maximum -> 0 <= maximum <= 2 ^ 52 ->
  profile_usage metric t p s <= maximum.
Proof.
  intros Hs Hm Hlim Hmax Hb.
  assert (calls_ok s /\ profile_usage metric t p s <= maximum) as [_ ?]; [| done].
  revert Hs. apply (steps_invariant call_step (fun s => calls_ok s /\ profile_usage metric t p s <= maximum)).
  - intros s1 s2 [Hok Hu] Hstep. split; [by eapply call_step_ok | by eapply call_step_usage].
  - split; [split; [apply base.NoDup_nil_2 | apply map_all_nil] | cbn; lia].
Qed.

(** The record of a model call only moves forward.  It keeps its identity,
    its status follows the path accepted, dispatched, settled or uncertain, or
    expired, and a settled, uncertain or expired call never changes again. *)
Theorem model_call_history s s' k r :
  map_get k s = Some r -> steps call_step s s' ->
  exists r' trace, map_get k s' = Some r' /\ mc_identity r' = mc_identity r
    /\ list.last (mc_status r :: trace) = Some (mc_status r')
    /\ (forall n a b, (mc_status r :: trace) !! n = Some a -> (mc_status r :: trace) !! S n = Some b ->
          call_transition_allowed a b = true)
    /\ (mc_status r <> call_accepted -> mc_status r <> call_dispatched -> r' = r).
Proof.
  intros Hk Hs. revert r Hk. induction Hs as [s | s1 s2 s3 [input o Hsm Hp%put_call_outcome] Hs IH];
    intros r Hk.
  { exists r, []. split_and!; [done | done | done | | done]. intros [| n] a b; [| done]. by cbn. }
  assert (map_get k s2 = Some r \/ map_get k s2 = Some input /\ mc_identity input = mc_identity r
          /\ call_transition_allowed (mc_status r) (mc_status input) = true) as [Hsame | (Hnew & Hid & Htr)].
  { destruct Hp as [e | Hk' | Ht Hk' Hst Ho Ha | prior Ht Hk' Hid Htr Hse]; try (by left);
      (destruct (decide (k = call_key (mc_identity input))) as [-> | Hne];
        [| left; by rewrite map_get_set_ne]); [congruence |].
    right. rewrite map_get_set_eq. assert (prior = r) as -> by congruence. by split_and!. }
  - by apply IH.
  - destruct (IH input Hnew) as (r' & trace & Hr' & Hid' & Hl & Htrace & Hfin).
    exists r', (mc_status input :: trace). split_and!; [done | congruence | done | |].
    + intros [| n] a b; [cbn; intros [= <-] [= <-]; done | apply Htrace].
    + intros H1 H2. exfalso. by destruct (mc_status r), (mc_status input).
Qed.
End Facts.
