(* ===== verification/Quota.v ===== *)
(** * Admission quotas and circuit breakers (packages/store-memory/src/resource-reservations.ts)

    [MemoryQuotaStore] admits a request when the reservations it competes with
    leave room under the first limit of its category; a reservation holds its
    amount until it is released or its lease expires.  Its methods run one after
    the other on the store's queue, each to its end. *)

From stdpp Require Import pretty.
From S2P Require Import Prelude JsTime Errors Schema JsonValue Unicode Contracts StoreInternal JsonText Digest.
From S2P Require Import JsMap JsArithmetic Commands Admission.

Local Open Scope Z_scope.
Local Open Scope js_scope.

(** ** Requests as JSON *)

Definition jstring (s : string) : JsonValue := Jstr (js s).

Definition principal_type_name (t : PrincipalType) : string :=
  match t with user => "user" | service => "service" | system_worker => "system_worker" end.

Definition category_name (c : AdmissionCategory) : string :=
  match c with
  | request_start => "request_start" | queued_run => "queued_run" | active_run => "active_run"
  | model_call => "model_call" | tool_call => "tool_call" | active_execution => "active_execution"
  | cost_window => "cost_window" | sse_connection => "sse_connection"
  end.

Definition admission_request_json (r : AdmissionRequest) : JsonValue :=
  Jobj ([(js "schemaVersion", jstring "1");
         (js "tenant", Jobj [(js "id", jstring (tenant_id (aq_tenant r)))]);
         (js "principal", Jobj [(js "type", jstring (principal_type_name (principal_type (aq_principal r))));
                                (js "id", jstring (principal_id (aq_principal r)))])]
        ++ match aq_commandId r with Some c => [(js "commandId", jstring c)] | None => [] end
        ++ [(js "category", jstring (category_name (aq_category r)));
            (js "resourceKey", jstring (aq_resourceKey r)); (js "amount", Jnum (aq_amount r));
            (js "leaseDurationMs", Jnum (number (aq_leaseDurationMs r)))]).

(** ** The store *)

(** Tenant, type and identifier of the principal, command, category, resource. *)
Definition ReplayKey : Type := string * PrincipalType * string * string * AdmissionCategory * string.

Record QuotaStore := {
  qs_reservations : JsMap string AdmissionReservation;
  qs_replays : JsMap ReplayKey string;
  qs_nextReservation : Z;
}.

Definition empty_quota_store : QuotaStore :=
  {| qs_reservations := []; qs_replays := []; qs_nextReservation := 1 |}.

Definition with_reservations (m : JsMap string AdmissionReservation) (s : QuotaStore) : QuotaStore :=
  {| qs_reservations := m; qs_replays := qs_replays s; qs_nextReservation := qs_nextReservation s |}.

Definition admissionReplayKey (r : AdmissionRequest) : option ReplayKey :=
  (fun commandId => (tenant_id (aq_tenant r), principal_type (aq_principal r), principal_id (aq_principal r),
                     commandId, aq_category r, aq_resourceKey r)) <$> aq_commandId r.

Definition with_admission_state (state : AdmissionState) (releasedAt : option string)
    (r : AdmissionReservation) : AdmissionReservation :=
  {| ar_id := ar_id r; ar_tenant := ar_tenant r; ar_principal := ar_principal r;
     ar_commandId := ar_commandId r; ar_category := ar_category r; ar_resourceKey := ar_resourceKey r;
     ar_amount := ar_amount r; ar_state := state; ar_fencingToken := ar_fencingToken r;
     ar_reservedAtServerTime := ar_reservedAtServerTime r; ar_leaseExpiresAt := ar_leaseExpiresAt r;
     ar_releasedAt := releasedAt |}.

Definition admission_lapsed (at_ : string) (r : AdmissionReservation) : bool :=
  bool_decide (ar_state r = admission_reserved) && date_le (ar_leaseExpiresAt r) at_.

(** The entry of a reservation once the expired ones are closed. *)
Definition expire_entry (at_ : string) (entry : string * AdmissionReservation)
  : string * AdmissionReservation :=
  (entry.1, if admission_lapsed at_ entry.2
            then with_admission_state admission_expired (ar_releasedAt entry.2) entry.2
            else entry.2).

(** [reconcileExpiredInTransaction]: each entry is replaced in place, so the
    loop over the live map is a pass over its entries. *)
Definition reconcileExpiredInTransaction (at_ : string) : method QuotaStore js_error Z :=
  let! s := mget in
  mput (with_reservations (expire_entry at_ <$> qs_reservations s) s) ;;!
  mreturn (Z.of_nat (length (filter (fun e => admission_lapsed at_ e.2 = true) (qs_reservations s)))).

(** ** Admission *)

Definition quota_limit (limits : list QuotaLimit) (category : AdmissionCategory) (resourceKey : string)
  : option QuotaLimit :=
  List.find (fun l => bool_decide (ql_metric l = metric_of category) && limit_covers resourceKey l) limits.

(** The reservations whose amounts count against a request under a limit. *)
Definition competes (limit : option QuotaLimit) (request : AdmissionRequest) (r : AdmissionReservation) : bool :=
  bool_decide (ar_state r = admission_reserved)
  && bool_decide (tenant_id (ar_tenant r) = tenant_id (aq_tenant request))
  && (match limit with
      | Some l => negb (bool_decide (ql_scope l = quota_principal))
      | None => true
      end
      || bool_decide (principal_type (ar_principal r) = principal_type (aq_principal request))
         && bool_decide (principal_id (ar_principal r) = principal_id (aq_principal request)))
  && bool_decide (ar_category r = aq_category request)
  && bool_decide (ar_resourceKey r = aq_resourceKey request).

Definition quota_used (limit : option QuotaLimit) (request : AdmissionRequest) (s : QuotaStore) : spec_float :=
  js_sum (ar_amount <$> filter (fun r => competes limit request r = true) (map_values (qs_reservations s))).

(** The fields a replay must repeat. *)
Definition admission_identity (tenant : Tenant) (principal : Principal) (commandId : option string)
    (category : AdmissionCategory) (resourceKey : string) (amount : spec_float) :=
  (tenant, principal, commandId, category, resourceKey, amount).

(** The canonical text of a number, or its refusal. *)
Definition assert_canonical_number (x : spec_float) : outcome js_error unit :=
  _ ← lift_json (canonicalJsonStringify (Jnum x)); Return tt.

Definition replay_admission (request : AdmissionRequest) (priorId : string) (s : QuotaStore)
  : outcome js_error AdmissionDecision :=
  match map_get priorId (qs_reservations s) with
  | None => conflict "admission_replay_missing"
  | Some prior =>
      _ ← assert_canonical_number (aq_amount request);
      _ ← assert_canonical_number (ar_amount prior);
      if bool_decide (admission_identity (aq_tenant request) (aq_principal request) (aq_commandId request)
                        (aq_category request) (aq_resourceKey request) (aq_amount request)
                      = admission_identity (ar_tenant prior) (ar_principal prior) (ar_commandId prior)
                          (ar_category prior) (ar_resourceKey prior) (ar_amount prior))
      then Return (admitted prior)
      else conflict "admission_replay_changed"
  end.

Section Operations.
Context `{Zod} (limits : list QuotaLimit).

(** The record of a new reservation; its identifier is unique by its number. *)
Definition new_admission (now : string) (request : AdmissionRequest) (n : Z)
  : outcome js_error AdmissionReservation :=
  requestDigest ← digestCanonicalJson (admission_request_json request);
  ms ← orThrow (Date_parse now) (RangeError "Invalid time value");
  leaseExpiresAt ← isoOrThrow (ms + aq_leaseDurationMs request);
  orThrow (AdmissionReservationSchema
    {| ar_id := "admission:" +:+ requestDigest +:+ ":" +:+ pretty n;
       ar_tenant := aq_tenant request; ar_principal := aq_principal request;
       ar_commandId := aq_commandId request; ar_category := aq_category request;
       ar_resourceKey := aq_resourceKey request; ar_amount := aq_amount request;
       ar_state := admission_reserved; ar_fencingToken := 1; ar_reservedAtServerTime := now;
       ar_leaseExpiresAt := leaseExpiresAt; ar_releasedAt := None |}) ZodError.

Definition store_admission (request : AdmissionRequest) (reservation : AdmissionReservation) (s : QuotaStore)
  : QuotaStore :=
  {| qs_reservations := map_set (ar_id reservation) reservation (qs_reservations s);
     qs_replays := match admissionReplayKey request with
                   | Some k => map_set k (ar_id reservation) (qs_replays s)
                   | None => qs_replays s
                   end;
     qs_nextReservation := qs_nextReservation s + 1 |}.

(** [now] is the reading of the injected clock. *)
Definition reserveInTransaction (now : string) (input : AdmissionRequest)
  : method QuotaStore js_error AdmissionDecision :=
  let! request := mlift (orThrow (AdmissionRequestSchema input) ZodError) in
  reconcileExpiredInTransaction now ;;!
  let! s := mget in
  match k ← admissionReplayKey request; map_get k (qs_replays s) with
  | Some priorId => mlift (replay_admission request priorId s)
  | None =>
      let limit := quota_limit limits (aq_category request) (aq_resourceKey request) in
      let over := match limit with
                  | Some l => js_gt (js_plus (quota_used limit request s) (aq_amount request)) (ql_maximum l)
                  | None => false
                  end in
      match limit, over with
      | Some l, true => mreturn (not_admitted KAF_ADMISSION_DENIED (ql_retryAfterSeconds l))
      | _, _ =>
          let! reservation := mlift (new_admission now request (qs_nextReservation s)) in
          match map_get (ar_id reservation) (qs_reservations s) with
          | Some sameId =>
              if bool_decide (sameId = reservation) then mreturn tt
              else mlift (conflict "admission_reservation_id_collision")
          | None => mreturn tt
          end ;;!
          mput (store_admission request reservation s) ;;!
          mreturn (admitted reservation)
      end
  end.

Definition quota_release (tenantId reservationId : string) (fencingToken : Z) (releasedAt : string)
  : method QuotaStore js_error unit :=
  let! s := mget in
  match map_get reservationId (qs_reservations s) with
  | None => mlift (conflict "admission_missing")
  | Some prior =>
      if negb (bool_decide (tenant_id (ar_tenant prior) = tenantId))
      then mlift (conflict "admission_missing")
      else if negb (ar_fencingToken prior =? fencingToken)
      then mlift (conflict "admission_fence_changed")
      else match ar_state prior with
           | admission_released =>
               if bool_decide (ar_releasedAt prior = Some releasedAt) then mreturn tt
               else mlift (conflict "admission_release_changed")
           | admission_expired => mlift (conflict "admission_not_releasable")
           | admission_reserved =>
               let! next := mlift (orThrow (AdmissionReservationSchema
                              (with_admission_state admission_released (Some releasedAt) prior)) ZodError) in
               mput (with_reservations (map_set reservationId next (qs_reservations s)) s)
           end
  end.

(** The deep copies of a transaction. *)
Definition quota_snapshot (s : QuotaStore) : QuotaStore := s.
Definition quota_restore (snapshot : QuotaStore) : method QuotaStore js_error unit := mput snapshot.

(** ** Circuit breakers *)

Notation CircuitStore := (JsMap (string * string) CircuitBreakerState) (only parsing).

Definition circuit_key (c : CircuitBreakerState) : string * string := (cb_tenantId c, cb_providerKey c).

Definition circuit_get (tenantId providerKey : string) (s : CircuitStore) : option CircuitBreakerState :=
  map_get (tenantId, providerKey) s.

Definition compareAndSet (expectedInput : option CircuitBreakerState) (nextInput : CircuitBreakerState)
  : method CircuitStore js_error bool :=
  let! expected := mlift match expectedInput with
                         | None => Return None
                         | Some e => Some <$> orThrow (CircuitBreakerStateSchema e) ZodError
                         end in
  let! next := mlift (orThrow (CircuitBreakerStateSchema nextInput) ZodError) in
  let! s := mget in
  let prior := map_get (circuit_key next) s in
  if negb (bool_decide (prior = expected)) then mreturn false
  else if bool_decide (cb_state next = circuit_half_open)
          && match cb_probeLeaseId next, cb_probeFencingToken next with
             | Some _, Some token =>
                 match p ← prior; cb_probeFencingToken p with
                 | Some priorToken => token <=? priorToken
                 | None => false
                 end
             | _, _ => true
             end
  then mlift (Throw (KafReason KAF_STORAGE_CONCURRENCY_CONFLICT "circuit_probe_fence_not_advanced"))
  else
    mput (map_set (circuit_key next) next s) ;;!
    mreturn true.
End Operations.
