(* ===== verification/ActiveExecution.v ===== *)
(** * Active-execution reservations (packages/store-memory/src/resource-reservations.ts)

    The time a run may spend at its boundaries (model calls, tools, verifiers,
    backoff, the runtime itself).  A reservation holds its whole charge until it
    is settled with what was used, or closed with all of it when its holder is
    gone.  Every method runs to its end without awaiting. *)

From S2P Require Import Prelude JsTime Errors Schema Contracts WorkOrder StoreInternal.

Local Open Scope Z_scope.
Local Open Scope js_scope.

(** ** Records (packages/core/src/admission.ts) *)

Inductive ExecutionBoundary :=
| boundary_model | boundary_tool | boundary_verifier | boundary_scheduled_backoff
| boundary_runtime_internal.

Inductive ExecutionState := execution_reserved | execution_settled | execution_closed_uncertain.

(** The fields of a reservation that [activeExecutionIdentity] keeps. *)
Record ActiveExecutionIdentity := {
  ae_id : string;
  ae_tenant : Tenant;
  ae_runId : string;
  ae_stepId : string;
  ae_boundary : ExecutionBoundary;
  ae_boundaryKey : string;
  ae_leaseId : string;
  ae_fencingToken : Z;
  ae_maxChargeMs : Z;
}.

Record ActiveExecutionReservation := {
  activeExecutionIdentity : ActiveExecutionIdentity;
  ae_startedAtServerTime : string;
  ae_state : ExecutionState;
  ae_settledChargeMs : option Z;
  ae_refundedMs : option Z;
  ae_settledAtServerTime : option string;
  ae_expiresAt : string;
}.

#[export] Instance ExecutionBoundary_eq_dec : EqDecision ExecutionBoundary.
Proof. solve_decision. Defined.
#[export] Instance ExecutionState_eq_dec : EqDecision ExecutionState.
Proof. solve_decision. Defined.
#[export] Instance ActiveExecutionIdentity_eq_dec : EqDecision ActiveExecutionIdentity.
Proof. solve_decision. Defined.
#[export] Instance ActiveExecutionReservation_eq_dec : EqDecision ActiveExecutionReservation.
Proof. solve_decision. Defined.

Definition boundary_name (b : ExecutionBoundary) : string :=
  match b with
  | boundary_model => "model" | boundary_tool => "tool" | boundary_verifier => "verifier"
  | boundary_scheduled_backoff => "scheduled_backoff"
  | boundary_runtime_internal => "runtime_internal"
  end.

(** Tenant, run, step, the boundary's name and its key. *)
Definition ExecutionKey : Type := string * string * string * string * string.

(** The private map of [MemoryActiveExecutionReservationStore]. *)
Notation ExecutionStore := (gmap ExecutionKey ActiveExecutionReservation).

Section Schemas.
Context `{Zod}.

Definition ActiveExecutionIdentitySchema (i : ActiveExecutionIdentity)
  : option ActiveExecutionIdentity :=
  id ← trimmed 256 (ae_id i);
  tenant ← TenantSchema (ae_tenant i);
  runId ← trimmed 256 (ae_runId i);
  stepId ← trimmed 256 (ae_stepId i);
  boundaryKey ← trimmed 512 (ae_boundaryKey i);
  leaseId ← trimmed 256 (ae_leaseId i);
  checked (int_nonnegative (ae_fencingToken i) && int_positive (ae_maxChargeMs i))
    {| ae_id := id; ae_tenant := tenant; ae_runId := runId; ae_stepId := stepId;
       ae_boundary := ae_boundary i; ae_boundaryKey := boundaryKey; ae_leaseId := leaseId;
       ae_fencingToken := ae_fencingToken i; ae_maxChargeMs := ae_maxChargeMs i |}.

(** The refinement of the schema on the settlement fields. *)
Definition settlement_consistent (r : ActiveExecutionReservation) : bool :=
  match ae_state r, ae_settledChargeMs r, ae_refundedMs r, ae_settledAtServerTime r with
  | execution_reserved, None, None, None => true
  | execution_reserved, _, _, _ => false
  | state, Some settled, Some refunded, Some _ =>
      (settled + refunded =? ae_maxChargeMs (activeExecutionIdentity r))
      && match state with
         | execution_closed_uncertain =>
             (settled =? ae_maxChargeMs (activeExecutionIdentity r)) && (refunded =? 0)
         | _ => true
         end
  | _, _, _, _ => false
  end.

Definition ActiveExecutionReservationSchema (r : ActiveExecutionReservation)
  : option ActiveExecutionReservation :=
  i ← ActiveExecutionIdentitySchema (activeExecutionIdentity r);
  checked (zod_datetime (ae_startedAtServerTime r)
           && optional int_nonnegative (ae_settledChargeMs r)
           && optional int_nonnegative (ae_refundedMs r)
           && optional zod_datetime (ae_settledAtServerTime r)
           && zod_datetime (ae_expiresAt r)
           && settlement_consistent r)
    {| activeExecutionIdentity := i; ae_startedAtServerTime := ae_startedAtServerTime r;
       ae_state := ae_state r; ae_settledChargeMs := ae_settledChargeMs r;
       ae_refundedMs := ae_refundedMs r; ae_settledAtServerTime := ae_settledAtServerTime r;
       ae_expiresAt := ae_expiresAt r |}.

(** ** The store *)

Definition execution_key (i : ActiveExecutionIdentity) : ExecutionKey :=
  (tenant_id (ae_tenant i), ae_runId i, ae_stepId i, boundary_name (ae_boundary i), ae_boundaryKey i).

Definition of_run (tenantId runId : string) (r : ActiveExecutionReservation) : bool :=
  bool_decide (tenant_id (ae_tenant (activeExecutionIdentity r)) = tenantId)
  && bool_decide (ae_runId (activeExecutionIdentity r) = runId).

(** What a reservation counts for: the charge of a settled one, else its maximum. *)
Definition charge (r : ActiveExecutionReservation) : Z :=
  match ae_state r with
  | execution_settled => default (ae_maxChargeMs (activeExecutionIdentity r)) (ae_settledChargeMs r)
  | _ => ae_maxChargeMs (activeExecutionIdentity r)
  end.

Definition consumedMilliseconds (tenantId runId : string) (s : ExecutionStore) : Z :=
  sum_of charge (filter (fun r => of_run tenantId runId r = true) (map_to_list s).*2).

Definition with_start (startedAt expiresAt : string) (r : ActiveExecutionReservation)
  : ActiveExecutionReservation :=
  {| activeExecutionIdentity := activeExecutionIdentity r; ae_startedAtServerTime := startedAt;
     ae_state := ae_state r; ae_settledChargeMs := ae_settledChargeMs r;
     ae_refundedMs := ae_refundedMs r; ae_settledAtServerTime := ae_settledAtServerTime r;
     ae_expiresAt := expiresAt |}.

Definition with_settlement (state : ExecutionState) (settled : Z) (settledAt : string)
    (r : ActiveExecutionReservation) : ActiveExecutionReservation :=
  {| activeExecutionIdentity := activeExecutionIdentity r;
     ae_startedAtServerTime := ae_startedAtServerTime r; ae_state := state;
     ae_settledChargeMs := Some settled;
     ae_refundedMs := Some (ae_maxChargeMs (activeExecutionIdentity r) - settled);
     ae_settledAtServerTime := Some settledAt; ae_expiresAt := ae_expiresAt r |}.

(** [now] is the reading of the injected clock. *)

(** The charge of a settlement; NaN when an instant is not one, and then the
    schema refuses the record. *)
Definition settled_charge (now : string) (state : ExecutionState) (prior : ActiveExecutionReservation)
  : outcome js_error Z :=
  let maximum := ae_maxChargeMs (activeExecutionIdentity prior) in
  match state with
  | execution_closed_uncertain => Return maximum
  | _ =>
      match Date_parse now, Date_parse (ae_startedAtServerTime prior) with
      | Some settled, Some started => Return (Z.min maximum (Z.max 0 (settled - started)))
      | _, _ => Throw ZodError
      end
  end.

Definition put_execution (key : ExecutionKey) (r : ActiveExecutionReservation)
  : method ExecutionStore js_error ActiveExecutionReservation :=
  let! next := mlift (orThrow (ActiveExecutionReservationSchema r) ZodError) in
  let! s := mget in
  mput (<[key := next]> s) ;;!
  mreturn next.

(** The branch of a key without reservation. *)
Definition start_execution (now : string) (requested : ActiveExecutionReservation)
    (runMaximumActiveExecutionMs : Z) : method ExecutionStore js_error ActiveExecutionReservation :=
  let i := activeExecutionIdentity requested in
  if negb (bool_decide (ae_state requested = execution_reserved))
  then mlift (conflict "active_execution_must_start_reserved")
  else
    let! s := mget in
    let consumed := consumedMilliseconds (tenant_id (ae_tenant i)) (ae_runId i) s in
    if runMaximumActiveExecutionMs <? consumed + ae_maxChargeMs i
    then mthrow (KafError KAF_RUNTIME_CAPABILITY_MISSING
           [("reason", DStr "active_execution_budget_exhausted"); ("consumedMs", DNum consumed);
            ("requestedMs", DNum (ae_maxChargeMs i)); ("maximumMs", DNum runMaximumActiveExecutionMs)])
    else
      let! started := mlift (orThrow (Date_parse now) (RangeError "Invalid time value")) in
      let! expiresAt := mlift (isoOrThrow (started + ae_maxChargeMs i)) in
      put_execution (execution_key i) (with_start now expiresAt requested).

Definition putInTransaction (now : string) (input : ActiveExecutionReservation)
    (runMaximumActiveExecutionMs : Z) : method ExecutionStore js_error ActiveExecutionReservation :=
  mlift (require (int_positive runMaximumActiveExecutionMs)
    (KafError KAF_SCHEMA_INVALID [("path", DStr "runMaximumActiveExecutionMs");
                                  ("issue", DStr "positive_safe_integer_required")])) ;;!
  let! requested := mlift (orThrow (ActiveExecutionReservationSchema input) ZodError) in
  let i := activeExecutionIdentity requested in
  let! s := mget in
  match s !! execution_key i with
  | None => start_execution now requested runMaximumActiveExecutionMs
  | Some prior =>
      let p := activeExecutionIdentity prior in
      if bool_decide (prior = requested) then mreturn prior
      else if negb (bool_decide (ae_id p = ae_id i)) || negb (bool_decide (ae_leaseId p = ae_leaseId i))
              || negb (ae_fencingToken p =? ae_fencingToken i) || negb (bool_decide (p = i))
      then mlift (conflict "active_execution_binding_changed")
      else if negb (bool_decide (ae_state prior = execution_reserved)) then
        if bool_decide (ae_state requested = ae_state prior) then mreturn prior
        else mlift (conflict "active_execution_transition_changed")
      else if bool_decide (ae_state requested = execution_reserved) then mreturn prior
      else
        let! settled := mlift (settled_charge now (ae_state requested) prior) in
        put_execution (execution_key i) (with_settlement (ae_state requested) settled now prior)
  end.

Definition execution_get (tenantId runId stepId boundary boundaryKey : string) (s : ExecutionStore)
  : option ActiveExecutionReservation :=
  s !! (tenantId, runId, stepId, boundary, boundaryKey).

(** The test of [reconcileExpired]. *)
Definition execution_expired (now : string) (r : ActiveExecutionReservation) : bool :=
  bool_decide (ae_state r = execution_reserved) && date_le (ae_expiresAt r) now.

(** The record an expired reservation becomes. *)
Definition closed_uncertain (now : string) (r : ActiveExecutionReservation) : ActiveExecutionReservation :=
  with_settlement execution_closed_uncertain (ae_maxChargeMs (activeExecutionIdentity r)) now r.

Definition close_expired (now : string) (changed : Z) (entry : ExecutionKey * ActiveExecutionReservation)
  : method ExecutionStore js_error Z :=
  if execution_expired now entry.2
  then put_execution entry.1 (closed_uncertain now entry.2) ;;! mreturn (changed + 1)
  else mreturn changed.

(** The argument of the source is ignored; the clock decides. *)
Definition reconcileExpired (now : string) : method ExecutionStore js_error Z :=
  let! s := mget in mfold (close_expired now) 0 (map_to_list s).

(** The deep copies of a transaction. *)
Definition execution_snapshot (s : ExecutionStore) : ExecutionStore := s.
Definition execution_restore (snapshot : ExecutionStore) : method ExecutionStore js_error unit :=
  mput snapshot.
End Schemas.
