(* ===== verification/ActiveExecutionFacts.v ===== *)
(** * Properties of the active-execution store

    What one call does in every branch, the typing of the stored records, the
    budget of a run, the finality of settlements and the reclaiming of abandoned
    reservations. *)

From S2P Require Import Prelude JsTime Errors Schema Contracts WorkOrder StoreInternal ActiveExecution.

Local Open Scope Z_scope.

Section Facts.
Context `{Zod}.

(** ** Schemas *)

Lemma identity_schema_inv i j :
  ActiveExecutionIdentitySchema i = Some j ->
  ActiveExecutionIdentitySchema j = Some j /\ ae_maxChargeMs j = ae_maxChargeMs i
  /\ int_positive (ae_maxChargeMs j) = true.
Proof.
  unfold ActiveExecutionIdentitySchema, checked.
  destruct (trimmed 256 (ae_id i)) as [id |] eqn:H1; cbn; [| done].
  destruct (TenantSchema (ae_tenant i)) as [t |] eqn:H2; cbn; [| done].
  destruct (trimmed 256 (ae_runId i)) as [r |] eqn:H3; cbn; [| done].
  destruct (trimmed 256 (ae_stepId i)) as [st |] eqn:H4; cbn; [| done].
  destruct (trimmed 512 (ae_boundaryKey i)) as [b |] eqn:H5; cbn; [| done].
  destruct (trimmed 256 (ae_leaseId i)) as [l |] eqn:H6; cbn; [| done].
  destruct (_ && _) eqn:H7; [| done]. intros [= <-]. cbn.
  rewrite (trimmed_idem _ _ _ H1), (TenantSchema_idem _ _ H2), (trimmed_idem _ _ _ H3),
    (trimmed_idem _ _ _ H4), (trimmed_idem _ _ _ H5), (trimmed_idem _ _ _ H6). cbn. rewrite H7.
  split_and!; [done | done |]. by apply andb_true_iff in H7 as [_ ?].
Qed.

(** A record a store may hold: one its schema returns. *)
Definition well_typed (r : ActiveExecutionReservation) : Prop :=
  ActiveExecutionReservationSchema r = Some r.

(** The conditions of the schema on the fields other than the identity. *)
Definition fields_ok (r : ActiveExecutionReservation) : bool :=
  zod_datetime (ae_startedAtServerTime r) && optional int_nonnegative (ae_settledChargeMs r)
  && optional int_nonnegative (ae_refundedMs r) && optional zod_datetime (ae_settledAtServerTime r)
  && zod_datetime (ae_expiresAt r) && settlement_consistent r.

Lemma well_typed_spec r :
  well_typed r <-> ActiveExecutionIdentitySchema (activeExecutionIdentity r) = Some (activeExecutionIdentity r)
                   /\ fields_ok r = true.
Proof.
  unfold well_typed, ActiveExecutionReservationSchema, checked. fold (fields_ok r).
  destruct (ActiveExecutionIdentitySchema (activeExecutionIdentity r)) as [i |]; cbn;
    [| by split; [| intros []]].
  destruct r as [j ? ? ? ? ? ?]; cbn. destruct (fields_ok _); [| by split; [| intros []]].
  split; [intros [= ->]; done | by intros [[= ->] _]].
Qed.

Lemma fields_instants r :
  fields_ok r = true -> zod_datetime (ae_startedAtServerTime r) = true /\ zod_datetime (ae_expiresAt r) = true.
Proof. unfold fields_ok. intros. by bools. Qed.

Lemma schema_well_typed r r' : ActiveExecutionReservationSchema r = Some r' -> well_typed r'.
Proof.
  unfold ActiveExecutionReservationSchema, checked. fold (fields_ok r).
  destruct (ActiveExecutionIdentitySchema (activeExecutionIdentity r)) as [i |] eqn:Hi; cbn; [| done].
  destruct (fields_ok r) eqn:Hf; [| done]. intros [= <-]. apply well_typed_spec.
  apply identity_schema_inv in Hi as (Hj & Hm & _). split; [done |]. destruct r as [k ? st ? ? ? ?].
  unfold fields_ok, settlement_consistent in *. cbn in *.
  by rewrite Hm.
Qed.

Lemma maximum_typed r : well_typed r -> int_positive (ae_maxChargeMs (activeExecutionIdentity r)) = true.
Proof. by intros [(_ & _ & ?)%identity_schema_inv _]%well_typed_spec. Qed.

Lemma int_positive_spec n : int_positive n = true <-> 0 < n <= MAX_SAFE_INTEGER.
Proof. unfold int_positive, is_safe_integer. rewrite andb_true_iff, Z.leb_le, Z.ltb_lt. lia. Qed.

Lemma int_nonnegative_spec n : int_nonnegative n = true <-> 0 <= n <= MAX_SAFE_INTEGER.
Proof. unfold int_nonnegative, is_safe_integer. rewrite andb_true_iff, !Z.leb_le. lia. Qed.

Lemma maximum_positive r :
  well_typed r -> 0 < ae_maxChargeMs (activeExecutionIdentity r) <= MAX_SAFE_INTEGER.
Proof. intros Hw. by apply int_positive_spec, maximum_typed. Qed.

(** ** Charges *)

Lemma charge_bounds r : well_typed r -> 0 <= charge r <= ae_maxChargeMs (activeExecutionIdentity r).
Proof.
  intros Hw. pose proof (maximum_positive r Hw). apply well_typed_spec in Hw as [_ Hf].
  unfold charge. destruct (ae_state r) eqn:Hst; [lia | | lia].
  unfold fields_ok, settlement_consistent in Hf. rewrite Hst in Hf.
  destruct (ae_settledChargeMs r), (ae_refundedMs r), (ae_settledAtServerTime r); bools; try done.
  unfold optional, int_nonnegative in *. cbn [default from_option]. bools. unfold id. lia.
Qed.

(** The charge of a reservation to one run. *)
Definition charge_to (t r : string) (e : ActiveExecutionReservation) : Z :=
  if of_run t r e then charge e else 0.

Lemma consumed_sum t r s :
  consumedMilliseconds t r s = sum_of (charge_to t r) (map_to_list s).*2.
Proof. apply sum_of_filter. Qed.

(** ** The invariant *)

Definition execution_wf (s : ExecutionStore) : Prop :=
  map_Forall (fun k e => execution_key (activeExecutionIdentity e) = k /\ well_typed e) s.

Lemma consumed_new t r k e s :
  s !! k = None -> consumedMilliseconds t r (<[k := e]> s) = consumedMilliseconds t r s + charge_to t r e.
Proof. intros Hk. rewrite !consumed_sum, sum_of_insert_new by done. lia. Qed.

Lemma consumed_replace t r k e d s :
  s !! k = Some d ->
  consumedMilliseconds t r (<[k := e]> s) = consumedMilliseconds t r s + charge_to t r e - charge_to t r d.
Proof. intros Hk. by rewrite !consumed_sum, (sum_of_insert_old _ _ _ _ d). Qed.

(** ** One call *)

(** A reservation after its settlement or closing. *)
Record settles (now : string) (d e : ActiveExecutionReservation) : Prop := {
  st_reserved : ae_state d = execution_reserved;
  st_identity : activeExecutionIdentity e = activeExecutionIdentity d;
  st_started : ae_startedAtServerTime e = ae_startedAtServerTime d;
  st_expires : ae_expiresAt e = ae_expiresAt d;
  st_state : ae_state e <> execution_reserved;
  st_at : ae_settledAtServerTime e = Some now;
  st_typed : well_typed e;
  st_key : execution_key (activeExecutionIdentity e) = execution_key (activeExecutionIdentity d);
}.

(** What a call of [putInTransaction] returns and writes. *)
Inductive put_outcome (now : string) (input : ActiveExecutionReservation) (maximum : Z) (s : ExecutionStore)
  : outcome js_error ActiveExecutionReservation -> ExecutionStore -> Prop :=
| put_refused e : put_outcome now input maximum s (Throw e) s
| put_replayed requested d :
    ActiveExecutionReservationSchema input = Some requested ->
    s !! execution_key (activeExecutionIdentity requested) = Some d ->
    (d = requested \/ activeExecutionIdentity d = activeExecutionIdentity requested
                      /\ (ae_state requested = execution_reserved \/ ae_state requested = ae_state d)) ->
    put_outcome now input maximum s (Return d) s
| put_started requested i ms expires e :
    ActiveExecutionReservationSchema input = Some requested ->
    i = activeExecutionIdentity requested -> ae_state requested = execution_reserved ->
    s !! execution_key i = None -> int_positive maximum = true ->
    consumedMilliseconds (tenant_id (ae_tenant i)) (ae_runId i) s + ae_maxChargeMs i <= maximum ->
    Date_parse now = Some ms -> toISOString (ms + ae_maxChargeMs i) = Some expires ->
    e = with_start now expires requested -> well_typed e ->
    put_outcome now input maximum s (Return e) (<[execution_key i := e]> s)
| put_settled requested d e :
    ActiveExecutionReservationSchema input = Some requested ->
    s !! execution_key (activeExecutionIdentity requested) = Some d ->
    activeExecutionIdentity d = activeExecutionIdentity requested ->
    ae_state requested <> execution_reserved -> ae_state e = ae_state requested ->
    settles now d e ->
    put_outcome now input maximum s (Return e)
      (<[execution_key (activeExecutionIdentity requested) := e]> s).

Lemma put_execution_typed k r s :
  put_execution k r s = (match ActiveExecutionReservationSchema r with
                         | Some next => (Return next, <[k := next]> s)
                         | None => (Throw ZodError, s)
                         end).
Proof. unfold put_execution. rewrite mthen_mlift. by destruct (ActiveExecutionReservationSchema r). Qed.

(** The schema keeps a record whose identity is already typed. *)
Lemma schema_fixed r r' :
  ActiveExecutionIdentitySchema (activeExecutionIdentity r) = Some (activeExecutionIdentity r) ->
  ActiveExecutionReservationSchema r = Some r' -> r' = r.
Proof.
  unfold ActiveExecutionReservationSchema, checked. intros ->. cbn. destruct (_ && _); [| done].
  intros [= <-]. by destruct r.
Qed.

Lemma start_execution_outcome now input requested maximum s o s' :
  ActiveExecutionReservationSchema input = Some requested -> int_positive maximum = true ->
  s !! execution_key (activeExecutionIdentity requested) = None ->
  start_execution now requested maximum s = (o, s') -> put_outcome now input maximum s o s'.
Proof.
  intros Hr Hm Hk. unfold start_execution. case_bool_decide as Hst; cbn [negb];
    [| intros [= <- <-]; constructor].
  rewrite mthen_mget. destruct (_ <? _) eqn:Hb; [intros [= <- <-]; constructor |]. bools.
  rewrite mthen_mlift. destruct (Date_parse now) as [ms |] eqn:Hnow; cbn [orThrow];
    [| intros [= <- <-]; constructor].
  rewrite mthen_mlift. unfold isoOrThrow. destruct (toISOString _) as [expires |] eqn:Hiso; cbn [orThrow];
    [| intros [= <- <-]; constructor].
  rewrite put_execution_typed. destruct (ActiveExecutionReservationSchema (with_start _ _ _)) as [e |] eqn:He;
    [| intros [= <- <-]; constructor].
  intros [= <- <-]. destruct (proj1 (well_typed_spec _) (schema_well_typed _ _ Hr)) as [Hi _].
  pose proof (schema_well_typed _ _ He) as Hw. apply schema_fixed in He as ->; [| done].
  by apply (put_started _ _ _ _ requested (activeExecutionIdentity requested) ms expires).
Qed.

Lemma putInTransaction_outcome now input maximum s o s' :
  execution_wf s -> putInTransaction now input maximum s = (o, s') -> put_outcome now input maximum s o s'.
Proof.
  intros Hwf. unfold putInTransaction. rewrite mthen_mlift. unfold require at 1.
  destruct (int_positive maximum) eqn:Hm; [| intros [= <- <-]; constructor].
  rewrite mthen_mlift. destruct (ActiveExecutionReservationSchema input) as [requested |] eqn:Hr; cbn [orThrow];
    [| intros [= <- <-]; constructor].
  rewrite mthen_mget. destruct (s !! _) as [d |] eqn:Hk; [| by apply start_execution_outcome].
  case_bool_decide as Heq; [intros [= <- <-]; eapply put_replayed; eauto |].
  destruct (_ || _) eqn:Hb; [intros [= <- <-]; constructor |].
  assert (activeExecutionIdentity d = activeExecutionIdentity requested) as Hid.
  { apply orb_false_iff in Hb as [_ Hb]. by bools. }
  clear Hb. destruct (decide (ae_state d = execution_reserved)) as [Hst | Hst];
    [rewrite (bool_decide_eq_true_2 _ Hst) | rewrite (bool_decide_eq_false_2 _ Hst)]; cbn [negb].
  - case_bool_decide as Hreq; [intros [= <- <-]; eapply put_replayed; eauto |].
    rewrite mthen_mlift. destruct (settled_charge _ _ _) as [c |]; [| intros [= <- <-]; constructor].
    rewrite put_execution_typed. destruct (ActiveExecutionReservationSchema (with_settlement _ _ _ _)) as [e |] eqn:He;
      [| intros [= <- <-]; constructor].
    intros [= <- <-]. destruct (Hwf _ _ Hk) as [Hkey [Hi _]%well_typed_spec].
    pose proof (schema_well_typed _ _ He) as Hw. apply schema_fixed in He as ->; [| done].
    by eapply put_settled.
  - case_bool_decide; intros [= <- <-]; [eapply put_replayed; eauto | constructor].
Qed.

(** ** Reconciliation *)

(** The state after all expired reservations are closed. *)
Definition close (now : string) (r : ActiveExecutionReservation) : ActiveExecutionReservation :=
  if execution_expired now r then closed_uncertain now r else r.

Lemma closed_typed now r :
  well_typed r -> ActiveExecutionReservationSchema (closed_uncertain now r)
                  = (if zod_datetime now then Some (closed_uncertain now r) else None).
Proof.
  intros Hw. pose proof (maximum_positive r Hw) as Hm. apply well_typed_spec in Hw as [Hi Hf].
  unfold ActiveExecutionReservationSchema. cbn [activeExecutionIdentity closed_uncertain with_settlement].
  rewrite Hi. cbn. unfold checked. destruct (zod_datetime now); [| by rewrite !andb_false_r].
  destruct (fields_instants r Hf) as [-> ->].
  unfold settlement_consistent. cbn -[Z.sub Z.add int_nonnegative].
  rewrite Z.sub_diag, (proj2 (int_nonnegative_spec (ae_maxChargeMs _))) by lia.
  unfold closed_uncertain, with_settlement. by rewrite Z.sub_diag, Z.add_0_r, Z.eqb_refl.
Qed.

Lemma close_all now l c s :
  NoDup l.*1 -> zod_datetime now = true ->
  (forall k e, (k, e) ∈ l -> s !! k = Some e /\ well_typed e) ->
  exists s', mfold (close_expired now) c l s
             = (Return (c + Z.of_nat (length (filter (fun p => execution_expired now p.2 = true) l))), s')
    /\ forall k, s' !! k = (if bool_decide (k ∈ l.*1) then close now <$> s !! k else s !! k).
Proof.
  intros Hnd Hz. revert c s. induction l as [| [k e] l IH]; intros c s Hl.
  { exists s. cbn. rewrite Z.add_0_r. split; [done |]. intros k. by rewrite bool_decide_eq_false_2 by set_solver. }
  apply list.NoDup_cons in Hnd as [Hk Hnd]. destruct (Hl k e) as [Hs Hw]; [by left |].
  assert (forall k', k' ∈ l.*1 -> k' <> k) as Hne by (intros k' Hk' ->; done).
  cbn [mfold]. unfold close_expired at 1. cbn [fst snd]. rewrite filter_cons.
  destruct (execution_expired now e) eqn:He;
    [rewrite decide_True by done | rewrite decide_False by (cbn; congruence)].
  - unfold mthen at 1 2. rewrite put_execution_typed, closed_typed, Hz by done. cbn.
    destruct (IH Hnd (c + 1) (<[k := closed_uncertain now e]> s)) as (s' & Hr & Hs').
    { intros k' e' Hin. rewrite lookup_insert_ne; [apply Hl; by right |].
      intros <-. apply Hk, list_elem_of_fmap. by exists (k, e'). }
    exists s'. rewrite Hr. split; [do 2 f_equal; cbn [length]; lia |]. intros k'. rewrite Hs'.
    destruct (decide (k' = k)) as [-> | Hn].
    + rewrite bool_decide_eq_false_2, bool_decide_eq_true_2, lookup_insert_eq, Hs by set_solver.
      cbn. unfold close. by rewrite He.
    + rewrite lookup_insert_ne by done. erewrite bool_decide_ext; [done |]. set_solver.
  - destruct (IH Hnd c s) as (s' & Hr & Hs'); [intros; apply Hl; by right |].
    exists s'. unfold mthen at 1. cbn [mreturn]. rewrite Hr. split; [done |]. intros k'. rewrite Hs'.
    destruct (decide (k' = k)) as [-> | Hn].
    + rewrite bool_decide_eq_false_2, bool_decide_eq_true_2, Hs by set_solver. cbn. unfold close. by rewrite He.
    + erewrite bool_decide_ext; [done |]. set_solver.
Qed.

Lemma reconcileExpired_closes now s :
  execution_wf s -> zod_datetime now = true ->
  reconcileExpired now s
  = (Return (Z.of_nat (length (filter (fun p => execution_expired now p.2 = true) (map_to_list s)))), close now <$> s).
Proof.
  intros Hwf Hz. unfold reconcileExpired. rewrite mthen_mget.
  destruct (close_all now (map_to_list s) 0 s) as (s' & -> & Hs'); [apply NoDup_fst_map_to_list | done | |].
  - intros k e Hin%elem_of_map_to_list. split; [done |]. by apply Hwf in Hin as [_ ?].
  - f_equal. apply map_eq. intros k. rewrite Hs', lookup_fmap. case_bool_decide as Hin; [done |].
    destruct (s !! k) as [e |] eqn:Hk; [| done]. contradict Hin. apply list_elem_of_fmap.
    exists (k, e). split; [done |]. by apply elem_of_map_to_list.
Qed.

(** A clock reading the schema refuses closes nothing. *)
Lemma reconcile_refused now l c s :
  zod_datetime now = false -> (forall k e, (k, e) ∈ l -> well_typed e) ->
  snd (mfold (close_expired now) c l s) = s.
Proof.
  intros Hz. revert c. induction l as [| [k e] l IH]; intros c Hl; [done |].
  cbn [mfold]. unfold close_expired at 1, mthen at 1. cbn [fst snd]. destruct (execution_expired now e).
  - unfold mthen. rewrite put_execution_typed, closed_typed, Hz by (apply (Hl k); by left). done.
  - cbn. apply IH. intros k' e' Hin. apply (Hl k'). by right.
Qed.

(** ** Executions

    [limit] bounds the maximum a caller may name for a run. *)

Section Steps.
Context (limit : string -> string -> Z).

Definition within_limit (input : ActiveExecutionReservation) (maximum : Z) : Prop :=
  forall r, ActiveExecutionReservationSchema input = Some r ->
    let i := activeExecutionIdentity r in maximum <= limit (tenant_id (ae_tenant i)) (ae_runId i).

Inductive execution_step (s s' : ExecutionStore) : Prop :=
| step_execution_put now input maximum o :
    within_limit input maximum -> putInTransaction now input maximum s = (o, s') -> execution_step s s'
| step_execution_reconcile now o : reconcileExpired now s = (o, s') -> execution_step s s'.

(** A reservation later: as it was, or settled once. *)
Definition later (d e : ActiveExecutionReservation) : Prop := d = e \/ exists now, settles now d e.

(** The reservations of [s] are still there in [s'], and a run for which none
    was started consumes no more. *)
Record evolves (s s' : ExecutionStore) : Prop := {
  ev_kept : forall k d, s !! k = Some d -> exists e, s' !! k = Some e /\ later d e;
  ev_consumed : forall t r, consumedMilliseconds t r s' <= consumedMilliseconds t r s
                  \/ consumedMilliseconds t r s' <= Z.min MAX_SAFE_INTEGER (limit t r);
}.

Lemma evolves_refl s : evolves s s.
Proof. split; [intros k d Hd; exists d; split; [done | by left] | intros; left; lia]. Qed.

Lemma of_run_true t r e :
  of_run t r e = true <-> tenant_id (ae_tenant (activeExecutionIdentity e)) = t
                          /\ ae_runId (activeExecutionIdentity e) = r.
Proof. unfold of_run. by rewrite andb_true_iff, !bool_decide_eq_true. Qed.

(** A settlement only frees time. *)
Lemma settles_charge now d e t r : settles now d e -> charge_to t r e <= charge_to t r d.
Proof.
  intros [Hr Hi _ _ _ _ Hw _]. unfold charge_to, of_run. rewrite Hi. case_match; [| done].
  pose proof (charge_bounds e Hw) as Hb. unfold charge at 2. rewrite Hr. rewrite Hi in Hb. lia.
Qed.

Lemma settled_evolves now k d e s :
  s !! k = Some d -> settles now d e -> evolves s (<[k := e]> s).
Proof.
  intros Hk Hst. split.
  - intros k0 d0 H0. destruct (decide (k0 = k)) as [-> | Hn].
    + exists e. rewrite lookup_insert_eq. split; [done |]. right. exists now. congruence.
    + exists d0. rewrite lookup_insert_ne by done. split; [done | by left].
  - intros t r. left. rewrite (consumed_replace _ _ _ _ d) by done.
    pose proof (settles_charge _ _ _ t r Hst). lia.
Qed.

Lemma put_evolves now input maximum s o s' :
  execution_wf s -> within_limit input maximum -> putInTransaction now input maximum s = (o, s') ->
  execution_wf s' /\ evolves s s'.
Proof.
  intros Hwf Hlim Hp%putInTransaction_outcome; [| done].
  destruct Hp as [e | | requested i ms expires e Hr -> Hst Hk Hm Hb Hnow Hiso -> Hw
                  | requested d e Hr Hk Hid Hreq Hse Hst]; try (split; [done | apply evolves_refl]).
  - split; [by apply map_Forall_insert_2 |]. split.
    + intros k d Hd. exists d. rewrite lookup_insert_ne by congruence. split; [done | by left].
    + intros t r. rewrite consumed_new by done.
      assert (charge_to t r (with_start now expires requested)
              = if of_run t r requested then ae_maxChargeMs (activeExecutionIdentity requested) else 0) as ->.
      { unfold charge_to, charge. cbn. by rewrite Hst. }
      destruct (of_run t r requested) eqn:Hrun; [| left; lia]. right.
      apply of_run_true in Hrun as [<- <-].
      apply int_positive_spec in Hm. specialize (Hlim _ Hr). cbn in Hlim. lia.
  - split; [| by eapply settled_evolves].
    apply map_Forall_insert_2; [| done]. destruct Hst as [_ Hi _ _ _ _ Hw Hk']. split; [| done]. congruence.
Qed.

Lemma close_settles now e :
  execution_expired now e = true -> well_typed e -> zod_datetime now = true ->
  settles now e (closed_uncertain now e).
Proof.
  intros He Hw Hz. unfold execution_expired in He. bools. split; try done.
  unfold well_typed. by rewrite closed_typed, Hz.
Qed.

Lemma close_later now e : well_typed e -> zod_datetime now = true -> later e (close now e).
Proof.
  intros Hw Hz. unfold close, later. destruct (execution_expired now e) eqn:He; [right | by left].
  exists now. by apply close_settles.
Qed.

Lemma close_typed now e : well_typed e -> zod_datetime now = true -> well_typed (close now e).
Proof. intros Hw Hz. by destruct (close_later now e Hw Hz) as [<- | (? & [])]. Qed.

Lemma close_charge now t r e : well_typed e -> zod_datetime now = true -> charge_to t r (close now e) = charge_to t r e.
Proof.
  intros Hw Hz. unfold close. destruct (execution_expired now e) eqn:He; [| done].
  unfold charge_to, of_run, charge. cbn. unfold execution_expired in He. bools. by rewrite H0.
Qed.

Lemma reconcile_evolves now s o s' :
  execution_wf s -> reconcileExpired now s = (o, s') -> execution_wf s' /\ evolves s s'.
Proof.
  intros Hwf Hr. destruct (zod_datetime now) eqn:Hz.
  - rewrite reconcileExpired_closes in Hr by done. injection Hr as <- <-. split.
    + intros k e He. rewrite lookup_fmap in He. apply fmap_Some in He as (d & Hd & ->).
      apply Hwf in Hd as [Hk Hw]. split; [| by apply close_typed].
      unfold close. by destruct (execution_expired now d).
    + split.
      * intros k d Hd. exists (close now d). rewrite lookup_fmap, Hd. split; [done |].
        apply close_later; [| done]. by apply Hwf in Hd as [_ ?].
      * intros t r. left. rewrite !consumed_sum, map_to_list_fmap, <- list_fmap_compose. apply Z.eq_le_incl.
        rewrite (list_fmap_ext (snd ∘ prod_map id (close now)) (close now ∘ snd)) by done.
        rewrite list_fmap_compose. apply sum_of_fmap_eq.
        intros e (p & -> & Hp%elem_of_map_to_list')%list_elem_of_fmap.
        apply close_charge; [| done]. by apply Hwf in Hp as [_ ?].
  - unfold reconcileExpired in Hr. rewrite mthen_mget in Hr. apply (f_equal snd) in Hr. cbn [snd] in Hr.
    rewrite reconcile_refused in Hr; [subst; split; [done | apply evolves_refl] | done |].
    intros k e Hin%elem_of_map_to_list. by apply Hwf in Hin as [_ ?].
Qed.

Lemma later_trans d e g : later d e -> later e g -> later d g.
Proof.
  intros [-> | [now Hs]] [<- | [now' Hs']]; [by left | by right; exists now' | by right; exists now |].
  destruct (st_state _ _ _ Hs (st_reserved _ _ _ Hs')).
Qed.

Lemma evolves_trans s1 s2 s3 : evolves s1 s2 -> evolves s2 s3 -> evolves s1 s3.
Proof.
  intros [H1 C1] [H2 C2]. split.
  - intros k d Hd. destruct (H1 _ _ Hd) as (e & He & Hl). destruct (H2 _ _ He) as (g & Hg & Hl').
    exists g. split; [done | by eapply later_trans].
  - intros t r. destruct (C1 t r), (C2 t r); [left; lia | right; lia | right; lia | right; lia].
Qed.

Lemma steps_evolve s s' :
  execution_wf s -> steps execution_step s s' -> execution_wf s' /\ evolves s s'.
Proof.
  intros Hwf Hs. induction Hs as [s | s1 s2 s3 Hstep Hs IH]; [split; [done | apply evolves_refl] |].
  assert (execution_wf s2 /\ evolves s1 s2) as [Hwf2 H12].
  { destruct Hstep as [now input maximum o Hlim Hp | now o Hr];
      [by eapply put_evolves | by eapply reconcile_evolves]. }
  destruct (IH Hwf2) as [Hwf3 H23]. split; [done | by eapply evolves_trans].
Qed.

Definition execution_reachable (s : ExecutionStore) : Prop := steps execution_step ∅ s.

Lemma execution_reachable_wf s : execution_reachable s -> execution_wf s /\ evolves ∅ s.
Proof. apply steps_evolve. apply map_Forall_empty. Qed.

(** C32: the store only holds what the schema describes.  Every stored
    reservation is one its schema returns unchanged, under the key of its own
    fields; one that is no longer reserved splits its maximum exactly into what
    was charged and what was refunded, and one closed as uncertain is charged in
    full. *)
Theorem stored_executions_typed s k e :
  execution_reachable s -> s !! k = Some e ->
  execution_key (activeExecutionIdentity e) = k /\ ActiveExecutionReservationSchema e = Some e
  /\ (ae_state e <> execution_reserved -> exists settled refunded,
        ae_settledChargeMs e = Some settled /\ ae_refundedMs e = Some refunded
        /\ 0 <= settled /\ 0 <= refunded /\ settled + refunded = ae_maxChargeMs (activeExecutionIdentity e)
        /\ (ae_state e = execution_closed_uncertain -> refunded = 0)).
Proof.
  intros [Hwf _]%execution_reachable_wf Hk. destruct (Hwf _ _ Hk) as [Hkey Hw]. split_and!; [done | done |].
  intros Hst. apply well_typed_spec in Hw as [_ Hf]. unfold fields_ok, settlement_consistent in Hf.
  destruct (ae_state e) eqn:He; [done | |];
    destruct (ae_settledChargeMs e) as [a |], (ae_refundedMs e) as [b |], (ae_settledAtServerTime e);
    bools; try done; exists a, b; cbn in *; rewrite ?int_nonnegative_spec in *; split_and!; done || lia || (intros; lia) || done.
Qed.

(** C31: a run stays within its budget.  If no call names a maximum above
    [limit] for a run, the run's settled charges and outstanding maxima never
    exceed that limit; and no partial sum exceeds the largest integer up to
    which the source's numbers are exact, so its sums are the true ones. *)
Theorem run_budget_respected s t r :
  execution_reachable s ->
  0 <= consumedMilliseconds t r s <= Z.max 0 (limit t r)
  /\ forall part, part ⊆+ filter (fun e => of_run t r e = true) (map_to_list s).*2 ->
       0 <= sum_of charge part <= MAX_SAFE_INTEGER.
Proof.
  intros [Hwf [_ Hc]]%execution_reachable_wf.
  assert (forall e, e ∈ filter (fun e => of_run t r e = true) (map_to_list s).*2 -> 0 <= charge e) as Hpos.
  { intros e [_ (p & -> & Hp%elem_of_map_to_list')%list_elem_of_fmap]%list_elem_of_filter.
    apply Hwf in Hp as [_ Hw]. by apply charge_bounds. }
  assert (consumedMilliseconds t r s <= Z.max 0 (Z.min MAX_SAFE_INTEGER (limit t r))) as Hb.
  { destruct (Hc t r) as [H0 | H0]; [| lia]. assert (consumedMilliseconds t r ∅ = 0) as Hz by done. lia. }
  split.
  - split; [by apply sum_of_nonneg | unfold MAX_SAFE_INTEGER in *; lia].
  - intros part Hpart. split.
    + apply sum_of_nonneg. intros e He. apply Hpos. by eapply elem_of_submseteq.
    + etrans; [by apply sum_of_submseteq |]. unfold consumedMilliseconds in Hb. unfold MAX_SAFE_INTEGER in *. lia.
Qed.

(** A settlement is final.  A reservation that has been settled or closed
    keeps its record for ever, and a call for its key returns that record or
    fails, changing nothing. *)
Theorem settlement_is_final s s' k d :
  execution_reachable s -> s !! k = Some d -> ae_state d <> execution_reserved ->
  steps execution_step s s' ->
  s' !! k = Some d /\
  forall now input requested maximum o s'',
    ActiveExecutionReservationSchema input = Some requested ->
    execution_key (activeExecutionIdentity requested) = k ->
    putInTransaction now input maximum s' = (o, s'') -> s'' = s' /\ forall e, o = Return e -> e = d.
Proof.
  intros [Hwf _]%execution_reachable_wf Hk Hst Hs. apply steps_evolve in Hs as [Hwf' [Hkept _]]; [| done].
  destruct (Hkept _ _ Hk) as (e & He & [<- | (now & Hse)]); [| by destruct (Hst (st_reserved _ _ _ Hse))].
  split; [done |]. intros now input requested maximum o s'' Hr Hkey Hp%putInTransaction_outcome; [| done].
  destruct Hp as [e | r' d' Hr' Hd' | r' i ms expires e Hr' -> _ Hn _ _ _ _ _ _ | r' d' e Hr' Hd' _ _ _ Hse].
  - by split.
  - split; [done |]. intros e [= <-]. congruence.
  - congruence.
  - assert (d' = d) as -> by congruence. by destruct (Hst (st_reserved _ _ _ Hse)).
Qed.

(** C33: abandoned time is reclaimed.  One reconciliation at a valid clock
    reading succeeds, closes every reservation that has expired by then with
    its whole charge, counts them, leaves every other reservation as it was, and
    leaves no expired reservation open. *)
Theorem abandoned_executions_reclaimed s now :
  execution_reachable s -> zod_datetime now = true ->
  exists n s', reconcileExpired now s = (Return n, s')
    /\ n = Z.of_nat (length (filter (fun p => execution_expired now p.2 = true) (map_to_list s)))
    /\ (forall k e, s !! k = Some e -> execution_expired now e = true ->
          exists e', s' !! k = Some e' /\ ae_state e' = execution_closed_uncertain
            /\ ae_settledAtServerTime e' = Some now
            /\ charge e' = ae_maxChargeMs (activeExecutionIdentity e))
    /\ (forall k, (forall e, s !! k = Some e -> execution_expired now e = false) -> s' !! k = s !! k)
    /\ (forall k e, s' !! k = Some e -> execution_expired now e = false).
Proof.
  intros [Hwf _]%execution_reachable_wf Hz. rewrite (reconcileExpired_closes _ _ Hwf Hz).
  do 2 eexists. split; [done |]. split_and!.
  - done.
  - intros k e Hk He. rewrite lookup_fmap, Hk. eexists. split; [done |]. unfold close. by rewrite He.
  - intros k Hk. rewrite lookup_fmap. destruct (s !! k) as [e |]; [| done]. cbn. unfold close. by rewrite Hk.
  - intros k e He. rewrite lookup_fmap in He. apply fmap_Some in He as (d & Hd & ->).
    unfold close. by destruct (execution_expired now d) eqn:Hx.
Qed.

Lemma settlement_typed now d c :
  well_typed d -> zod_datetime now = true -> 0 <= c <= ae_maxChargeMs (activeExecutionIdentity d) ->
  well_typed (with_settlement execution_settled c now d).
Proof.
  intros Hw Hz Hc. pose proof (maximum_positive d Hw). apply well_typed_spec in Hw as [Hi Hf].
  apply well_typed_spec. split; [done |]. unfold fields_ok at 1. cbn -[Z.sub int_nonnegative]. rewrite Hz.
  rewrite (proj2 (int_nonnegative_spec c)), (proj2 (int_nonnegative_spec (_ - c))) by lia.
  unfold settlement_consistent. cbn -[Z.sub]. rewrite (proj2 (Z.eqb_eq _ _)) by lia.
  destruct (fields_instants d Hf) as [-> ->]. done.
Qed.

(** A settlement charges the time that passed.  The holder of an open
    reservation settles it for the milliseconds between its start and the
    clock's reading, never less than nothing and never more than its maximum;
    the rest goes back to the run. *)
Theorem settlement_charges_elapsed s now started ended input requested maximum d :
  execution_reachable s -> int_positive maximum = true ->
  ActiveExecutionReservationSchema input = Some requested ->
  s !! execution_key (activeExecutionIdentity requested) = Some d ->
  activeExecutionIdentity d = activeExecutionIdentity requested ->
  ae_state d = execution_reserved -> ae_state requested = execution_settled ->
  zod_datetime now = true -> Date_parse now = Some ended ->
  Date_parse (ae_startedAtServerTime d) = Some started ->
  let i := activeExecutionIdentity d in
  let used := Z.min (ae_maxChargeMs i) (Z.max 0 (ended - started)) in
  exists e s', putInTransaction now input maximum s = (Return e, s')
    /\ s' !! execution_key i = Some e /\ activeExecutionIdentity e = i
    /\ ae_state e = execution_settled /\ ae_settledChargeMs e = Some used
    /\ ae_refundedMs e = Some (ae_maxChargeMs i - used)
    /\ consumedMilliseconds (tenant_id (ae_tenant i)) (ae_runId i) s'
       = consumedMilliseconds (tenant_id (ae_tenant i)) (ae_runId i) s - (ae_maxChargeMs i - used).
Proof.
  intros [Hwf _]%execution_reachable_wf Hm Hr Hk Hid Hd Hreq Hz Hnow Hst i used.
  destruct (Hwf _ _ Hk) as [_ Hw]. pose proof (maximum_positive d Hw) as Hpos. fold i in Hid, Hpos.
  assert (0 <= used <= ae_maxChargeMs i) as Hu by (unfold used; lia).
  pose proof (settlement_typed now d used Hw Hz Hu) as Hs.
  exists (with_settlement execution_settled used now d), (<[execution_key i := with_settlement execution_settled used now d]> s).
  split_and!; try done.
  - unfold putInTransaction. rewrite mthen_mlift, Hm. cbn [require].
    rewrite mthen_mlift, Hr. cbn [orThrow]. rewrite mthen_mget, Hk.
    rewrite (bool_decide_eq_false_2 (d = requested)) by congruence.
    fold i. rewrite Hid, !bool_decide_eq_true_2, Z.eqb_refl by done. cbn [negb orb].
    rewrite Hreq, bool_decide_eq_false_2 by done. rewrite mthen_mlift. unfold settled_charge.
    rewrite Hnow, Hst. fold i. fold used. rewrite put_execution_typed, Hs. done.
  - apply lookup_insert_eq.
  - rewrite <- Hid in Hk. rewrite (consumed_replace _ _ _ _ d) by done. unfold charge_to.
    assert (forall c, of_run (tenant_id (ae_tenant i)) (ae_runId i) (with_settlement execution_settled c now d) = true) as ->
      by (intros; by apply of_run_true).
    assert (of_run (tenant_id (ae_tenant i)) (ae_runId i) d = true) as -> by (by apply of_run_true).
    unfold charge. rewrite Hd. cbn. fold i. lia.
Qed.
End Steps.
End Facts.

(** ** Resource stores on concrete inputs

    A run with a budget of a second: two reservations, a settlement, a refusal,
    a replay and a reconciliation; the theorems of the store applied to them. *)

#[local] Existing Instance zod_reference.

Definition example_boundary (key : string) (maximum : Z) : ActiveExecutionIdentity :=
  {| ae_id := "reservation-" +:+ key; ae_tenant := {| tenant_id := "tenant" |}; ae_runId := "run";
     ae_stepId := "step"; ae_boundary := boundary_tool; ae_boundaryKey := key; ae_leaseId := "lease";
     ae_fencingToken := 1; ae_maxChargeMs := maximum |}.

Definition clock0 : string := "2026-01-01T00:00:00.000Z".
Definition clock1 : string := "2026-01-01T00:00:00.150Z".
Definition clock2 : string := "2026-01-01T00:00:02.000Z".

Definition open_request (i : ActiveExecutionIdentity) : ActiveExecutionReservation :=
  {| activeExecutionIdentity := i; ae_startedAtServerTime := clock0; ae_state := execution_reserved;
     ae_settledChargeMs := None; ae_refundedMs := None; ae_settledAtServerTime := None;
     ae_expiresAt := clock2 |}.

Definition settle_request (i : ActiveExecutionIdentity) : ActiveExecutionReservation :=
  with_settlement execution_settled 0 clock1 (open_request i).

Definition budget (t r : string) : Z := 1000.

Definition put (now : string) (r : ActiveExecutionReservation) (s : ExecutionStore) : ExecutionStore :=
  snd (putInTransaction now r 1000 s).

Definition executions0 : ExecutionStore := ∅.
Definition executions1 := put clock0 (open_request (example_boundary "a" 400)) executions0.
Definition executions2 := put clock0 (open_request (example_boundary "b" 500)) executions1.
Definition executions3 := put clock1 (settle_request (example_boundary "a" 400)) executions2.

(** The third reservation is refused before the settlement and admitted after. *)
Example budget_is_enforced :
  consumedMilliseconds "tenant" "run" executions2 = 900
  /\ fst (putInTransaction clock0 (open_request (example_boundary "c" 300)) 1000 executions2)
     = Throw (KafError KAF_RUNTIME_CAPABILITY_MISSING
         [("reason", DStr "active_execution_budget_exhausted"); ("consumedMs", DNum 900);
          ("requestedMs", DNum 300); ("maximumMs", DNum 1000)])
  /\ consumedMilliseconds "tenant" "run" executions3 = 650
  /\ isReturn (fst (putInTransaction clock1 (open_request (example_boundary "c" 300)) 1000 executions3)) = true.
Proof. by vm_compute. Qed.

(** ** The executions of the example *)

Lemma put_step now r s : within_limit budget r 1000 -> execution_step budget s (put now r s).
Proof. intros Hl. eapply step_execution_put; [done |]. unfold put. apply surjective_pairing. Qed.

Lemma within_budget r : within_limit budget r 1000.
Proof. by intros r' _. Qed.

Lemma executions2_reachable : execution_reachable budget executions2.
Proof.
  eapply steps_snoc; [eapply steps_snoc; [apply steps_refl |] |]; apply put_step, within_budget.
Defined.

Lemma executions3_reachable : execution_reachable budget executions3.
Proof. eapply steps_snoc; [apply executions2_reachable | apply put_step, within_budget]. Defined.

Definition key_of (b : string) : ExecutionKey := ("tenant", "run", "step", "tool", b).

(** The records of the example. *)
Definition execution_a : ActiveExecutionReservation :=
  with_settlement execution_settled 150 clock1
    (with_start clock0 "2026-01-01T00:00:00.400Z" (open_request (example_boundary "a" 400))).
Definition execution_b : ActiveExecutionReservation :=
  with_start clock0 "2026-01-01T00:00:00.500Z" (open_request (example_boundary "b" 500)).
Definition execution_a_open : ActiveExecutionReservation :=
  with_start clock0 "2026-01-01T00:00:00.400Z" (open_request (example_boundary "a" 400)).

Lemma executions3_a : executions3 !! key_of "a" = Some execution_a.
Proof. by vm_compute. Qed.

Lemma executions3_b : executions3 !! key_of "b" = Some execution_b.
Proof. by vm_compute. Qed.

Lemma executions2_a : executions2 !! key_of "a" = Some execution_a_open.
Proof. by vm_compute. Qed.

Lemma stored_executions_typed_witness :
  execution_reachable budget executions3 /\ exists settled refunded,
    ae_settledChargeMs execution_a = Some settled /\ ae_refundedMs execution_a = Some refunded
    /\ 0 <= settled /\ 0 <= refunded /\ settled + refunded = 400.
Proof.
  split; [apply executions3_reachable |].
  destruct (stored_executions_typed budget executions3 (key_of "a") execution_a) as (_ & _ & Hs);
    [apply executions3_reachable | apply executions3_a |].
  destruct Hs as (a & b & Ha & Hb & H1 & H2 & H3 & _); [done |]. by exists a, b.
Defined.

Lemma run_budget_respected_witness :
  0 <= consumedMilliseconds "tenant" "run" executions2 <= 1000.
Proof. exact (proj1 (run_budget_respected budget executions2 "tenant" "run" executions2_reachable)). Defined.

Lemma settlement_is_final_witness :
  executions3 !! key_of "a" = Some execution_a /\
  put clock2 (open_request (example_boundary "c" 300)) executions3 !! key_of "a" = Some execution_a.
Proof.
  split; [apply executions3_a |]. eapply (settlement_is_final budget executions3).
  - apply executions3_reachable.
  - apply executions3_a.
  - done.
  - eapply steps_snoc; [apply steps_refl | apply put_step, within_budget].
Defined.

Lemma abandoned_executions_reclaimed_witness :
  exists n s', reconcileExpired clock2 executions3 = (Return n, s') /\ s' !! key_of "a" = executions3 !! key_of "a"
    /\ exists e, s' !! key_of "b" = Some e /\ ae_state e = execution_closed_uncertain.
Proof.
  destruct (abandoned_executions_reclaimed budget executions3 clock2) as (n & s' & Hr & _ & Hc & Hk & _);
    [apply executions3_reachable | by vm_compute |].
  exists n, s'. split; [done |]. split.
  - apply Hk. intros e. rewrite executions3_a. intros [= <-]. by vm_compute.
  - destruct (Hc (key_of "b") execution_b executions3_b) as (e & He & Hst & _); [by vm_compute |].
    exists e. split; assumption.
Defined.

Lemma settlement_charges_elapsed_witness :
  exists e s', putInTransaction clock1 (settle_request (example_boundary "a" 400)) 1000 executions2 = (Return e, s')
    /\ ae_settledChargeMs e = Some 150 /\ ae_refundedMs e = Some 250.
Proof.
  destruct (settlement_charges_elapsed budget executions2 clock1 1767225600000 1767225600150
    (settle_request (example_boundary "a" 400)) (settle_request (example_boundary "a" 400)) 1000 execution_a_open)
    as (e & s' & Hp & _ & _ & _ & Hs & Hr & _).
  - apply executions2_reachable.
  - reflexivity.
  - by vm_compute.
  - exact executions2_a.
  - reflexivity.
  - reflexivity.
  - reflexivity.
  - by vm_compute.
  - by vm_compute.
  - by vm_compute.
  - exists e, s'. split; [exact Hp |]. split; [exact Hs | exact Hr].
Defined.
