(* ===== verification/QuotaFacts.v ===== *)
(** * Properties of admission quotas and circuit breakers *)

From S2P Require Import Prelude JsTime Errors Schema JsonValue Unicode Contracts WorkOrder StoreInternal.
From S2P Require Import JsonText JsNumberFacts Digest JsMap JsArithmetic Commands Admission Quota Sha256Facts.
From S2P Require Import DigestFacts ModelCalls ModelCallFacts.

Local Open Scope Z_scope.

(** The integer value of a positive double that has one. *)
Definition integer_value (x : spec_float) : Z :=
  match x with
  | S754_finite false m e => if e <=? 0 then Zpos m / 2 ^ (- e) else Zpos m * 2 ^ e
  | _ => 0
  end.

Lemma integer_value_number z : 0 < z < 2 ^ 53 -> integer_value (number z) = z.
Proof.
  intros Hz. rewrite number_canonical by done. unfold canonical, integer_value.
  pose proof (digits_small z Hz). rewrite (proj2 (Z.leb_le _ _)) by lia.
  assert (0 < 2 ^ (53 - Zdigits2 z)) by (apply Z.pow_pos_nonneg; lia).
  rewrite Z2Pos.id by nia. replace (- (Zdigits2 z - 53)) with (53 - Zdigits2 z) by lia.
  apply Z.div_mul. lia.
Qed.

(** An amount that is an integer below 2^52. *)
Definition whole (x : spec_float) : Prop := 0 < integer_value x < 2 ^ 52 /\ x = number (integer_value x).

Section Facts.
Context `{Zod} (limits : list QuotaLimit).

(** ** Use of a limit *)



(** The fields of a reservation that never change. *)
Definition admission_terms (r : AdmissionReservation) :=
  (ar_id r, admission_identity (ar_tenant r) (ar_principal r) (ar_commandId r) (ar_category r)
              (ar_resourceKey r) (ar_amount r)).

Definition reservation_replay_key (r : AdmissionReservation) : option ReplayKey :=
  (fun c => (tenant_id (ar_tenant r), principal_type (ar_principal r), principal_id (ar_principal r), c,
             ar_category r, ar_resourceKey r)) <$> ar_commandId r.

(** Parsing keeps these fields. *)
Definition terms_fixed (r : AdmissionReservation) : Prop :=
  trimmed 256 (ar_id r) = Some (ar_id r) /\ TenantSchema (ar_tenant r) = Some (ar_tenant r)
  /\ PrincipalSchema (ar_principal r) = Some (ar_principal r)
  /\ trimmed 512 (ar_resourceKey r) = Some (ar_resourceKey r).

Lemma AdmissionReservationSchema_fixed r r' :
  AdmissionReservationSchema r = Some r' -> terms_fixed r'
  /\ ar_state r' = ar_state r /\ ar_amount r' = ar_amount r
  /\ (terms_fixed r -> r' = r).
Proof.
  unfold AdmissionReservationSchema, checked.
  destruct (trimmed 256 (ar_id r)) as [id |] eqn:H1; cbn [mbind option_bind]; [| done].
  destruct (TenantSchema (ar_tenant r)) as [t |] eqn:H2; cbn [mbind option_bind]; [| done].
  destruct (PrincipalSchema (ar_principal r)) as [p |] eqn:H3; cbn [mbind option_bind]; [| done].
  destruct (trimmed 512 (ar_resourceKey r)) as [rk |] eqn:H4; cbn [mbind option_bind]; [| done].
  destruct (_ && _); [| done]. intros [= <-]. split_and!; [| done | done |].
  - split_and!; cbn; [by eapply trimmed_idem | by eapply TenantSchema_idem | by eapply PrincipalSchema_idem
                     | by eapply trimmed_idem].
  - intros (F1 & F2 & F3 & F4). destruct r; cbn in *. congruence.
Qed.

Record quota_ok (s : QuotaStore) : Prop := {
  qo_keys : NoDup (qs_reservations s).*1;
  qo_stored : map_all (fun id r => ar_id r = id /\ whole (ar_amount r) /\ terms_fixed r) (qs_reservations s);
  qo_replays : map_all (fun k id => exists r, map_get id (qs_reservations s) = Some r
                                              /\ reservation_replay_key r = Some k) (qs_replays s);
}.




(** ** Expiry *)

Lemma expire_entry_key at_ e : (expire_entry at_ e).1 = e.1.
Proof. done. Qed.

Lemma expire_keys at_ (m : JsMap string AdmissionReservation) : (expire_entry at_ <$> m).*1 = m.*1.
Proof. rewrite <- list_fmap_compose. by apply list_fmap_ext. Qed.

Definition expire (at_ : string) (r : AdmissionReservation) : AdmissionReservation :=
  (expire_entry at_ (ar_id r, r)).2.

Lemma map_get_expire at_ k (m : JsMap string AdmissionReservation) :
  map_get k (expire_entry at_ <$> m) = expire at_ <$> map_get k m.
Proof. induction m as [| [k' r] m IH]; [done |]. cbn. case_decide; [done | apply IH]. Qed.

Lemma expire_terms at_ r : admission_terms (expire at_ r) = admission_terms r.
Proof. unfold expire, expire_entry. cbn. by destruct (admission_lapsed at_ r). Qed.



(** ** One call *)

Lemma reconcile_effect at_ s o s' :
  reconcileExpiredInTransaction at_ s = (o, s') ->
  s' = with_reservations (expire_entry at_ <$> qs_reservations s) s.
Proof. by intros [= <- <-]. Qed.

(** What a call of [reserveInTransaction] returns and writes. *)
Inductive reserve_result (now : string) (input : AdmissionRequest) (s : QuotaStore)
  : outcome js_error AdmissionDecision -> QuotaStore -> Prop :=
| reserve_unparsed e : AdmissionRequestSchema input = None -> reserve_result now input s (Throw e) s
| reserve_throws e : reserve_result now input s (Throw e) (reconcileExpiredInTransaction now s).2
| reserve_denied request code n :
    AdmissionRequestSchema input = Some request ->
    (forall k, admissionReplayKey request = Some k -> map_get k (qs_replays s) = None) ->
    reserve_result now input s (Return (not_admitted code n)) (reconcileExpiredInTransaction now s).2
| reserve_again request k id r s' :
    AdmissionRequestSchema input = Some request -> s' = (reconcileExpiredInTransaction now s).2 ->
    admissionReplayKey request = Some k -> map_get k (qs_replays s) = Some id ->
    map_get id (qs_reservations s') = Some r -> reserve_result now input s (Return (admitted r)) s'
| reserve_new request r s1 :
    AdmissionRequestSchema input = Some request -> s1 = (reconcileExpiredInTransaction now s).2 ->
    (forall k, admissionReplayKey request = Some k -> map_get k (qs_replays s) = None) ->
    (forall l, quota_limit limits (aq_category request) (aq_resourceKey request) = Some l ->
       js_gt (js_plus (quota_used (Some l) request s1) (aq_amount request)) (ql_maximum l) = false) ->
    new_admission now request (qs_nextReservation s) = Return r ->
    (forall r', map_get (ar_id r) (qs_reservations s1) = Some r' -> r' = r) ->
    reserve_result now input s (Return (admitted r)) (store_admission request r s1).

Lemma reserve_admission now request s1 o s' :
  (let! reservation := mlift (new_admission now request (qs_nextReservation s1)) in
   match map_get (ar_id reservation) (qs_reservations s1) with
   | Some sameId =>
       if bool_decide (sameId = reservation) then mreturn tt
       else mlift (conflict "admission_reservation_id_collision")
   | None => mreturn tt
   end ;;!
   mput (store_admission request reservation s1) ;;!
   mreturn (admitted reservation))%js s1 = (o, s') ->
  (exists e, o = Throw e /\ s' = s1)
  \/ exists r, new_admission now request (qs_nextReservation s1) = Return r /\ o = Return (admitted r)
       /\ s' = store_admission request r s1
       /\ forall r', map_get (ar_id r) (qs_reservations s1) = Some r' -> r' = r.
Proof.
  rewrite mthen_mlift. destruct (new_admission _ _ _) as [r | e]; [| intros [= <- <-]; left; by exists e].
  unfold mthen at 1. destruct (map_get _ _) as [sameId |] eqn:Hk.
  - case_bool_decide as Hs; intros [= <- <-]; [right; exists r; split_and!; try done | left; by eexists].
    intros r' Hr'. congruence.
  - intros [= <- <-]. right. exists r. split_and!; try done. intros r' Hr'. congruence.
Qed.

Lemma reserveInTransaction_result now input s o s' :
  reserveInTransaction limits now input s = (o, s') -> reserve_result now input s o s'.
Proof.
  unfold reserveInTransaction. rewrite mthen_mlift.
  destruct (AdmissionRequestSchema input) as [request |] eqn:Hr; cbn [orThrow];
    [| intros [= <- <-]; by constructor].
  unfold mthen at 1. destruct (reconcileExpiredInTransaction now s) as [n s1] eqn:Hc.
  assert (s1 = (reconcileExpiredInTransaction now s).2) as Hs1 by (by rewrite Hc).
  assert (exists z, n = Return z) as [z ->] by (unfold reconcileExpiredInTransaction in Hc; injection Hc as <- _; eauto).
  rewrite mthen_mget.
  assert (qs_replays s1 = qs_replays s /\ qs_nextReservation s1 = qs_nextReservation s) as [Hrep Hnext]
    by (rewrite Hs1; done).
  clear Hc. destruct (k ← admissionReplayKey request; map_get k (qs_replays s1)) as [id |] eqn:Hk.
  - destruct (admissionReplayKey request) as [k |] eqn:Hkey; cbn in Hk; [| done]. rewrite Hrep in Hk.
    unfold mlift, replay_admission. destruct (map_get id (qs_reservations s1)) as [r |] eqn:Hg;
      [| intros [= <- <-]; subst s1; constructor].
    destruct (assert_canonical_number (aq_amount request)) as [[] |]; cbn [mbind outcome_bind];
      [| intros [= <- <-]; subst s1; constructor].
    destruct (assert_canonical_number (ar_amount r)) as [[] |]; cbn [mbind outcome_bind];
      [| intros [= <- <-]; subst s1; constructor].
    case_bool_decide; intros [= <- <-]; [by eapply reserve_again | subst s1; constructor].
  - assert (forall k, admissionReplayKey request = Some k -> map_get k (qs_replays s) = None) as Hno.
    { intros k Hkey. by rewrite Hkey, Hrep in Hk. }
    destruct (quota_limit limits _ _) as [l |] eqn:Hl; [destruct (js_gt _ _) eqn:Hgt |].
    + intros [= <- <-]. rewrite Hs1. by eapply reserve_denied.
    + intros [(e & -> & ->) | (r & Hnew & -> & -> & Hid)]%reserve_admission; [subst s1; constructor |].
      rewrite Hnext in Hnew. eapply reserve_new; try done. intros l' Hl'. congruence.
    + intros [(e & -> & ->) | (r & Hnew & -> & -> & Hid)]%reserve_admission; [subst s1; constructor |].
      rewrite Hnext in Hnew. eapply reserve_new; try done. intros l' Hl'. congruence.
Qed.

(** What a new reservation takes from its request. *)
Record takes (request : AdmissionRequest) (r : AdmissionReservation) : Prop := {
  tk_identity : admission_identity (ar_tenant r) (ar_principal r) (ar_commandId r) (ar_category r)
                  (ar_resourceKey r) (ar_amount r)
                = admission_identity (aq_tenant request) (aq_principal request) (aq_commandId request)
                    (aq_category request) (aq_resourceKey request) (aq_amount request);
  tk_state : ar_state r = admission_reserved;
}.

Lemma new_admission_takes now input request n r :
  AdmissionRequestSchema input = Some request -> new_admission now request n = Return r -> takes request r.
Proof.
  unfold AdmissionRequestSchema, checked.
  destruct (TenantSchema (aq_tenant input)) as [t |] eqn:Ht; cbn [mbind option_bind]; [| done].
  destruct (PrincipalSchema (aq_principal input)) as [p |] eqn:Hp; cbn [mbind option_bind]; [| done].
  destruct (trimmed 512 (aq_resourceKey input)) as [rk |] eqn:Hk; cbn [mbind option_bind]; [| done].
  destruct (_ && _); [| done]. intros [= <-]. unfold new_admission.
  destruct (digestCanonicalJson _) as [d |]; cbn [mbind outcome_bind]; [| done].
  destruct (Date_parse now) as [ms |]; cbn [orThrow mbind outcome_bind]; [| done].
  destruct (isoOrThrow _) as [e |]; cbn [mbind outcome_bind]; [| done].
  unfold AdmissionReservationSchema, checked. cbn [ar_id ar_tenant ar_principal ar_resourceKey aq_tenant
    aq_principal aq_resourceKey].
  destruct (trimmed 256 _) as [id |]; cbn [mbind option_bind orThrow]; [| done].
  rewrite (TenantSchema_idem _ _ Ht), (PrincipalSchema_idem _ _ Hp), (trimmed_idem _ _ _ Hk).
  cbn [mbind option_bind]. destruct (_ && _); cbn [orThrow]; [| done]. intros [= <-]. by split.
Qed.

Lemma new_admission_fixed now request n r : new_admission now request n = Return r -> terms_fixed r.
Proof.
  unfold new_admission. destruct (digestCanonicalJson _); cbn [mbind outcome_bind]; [| done].
  destruct (Date_parse now); cbn [orThrow mbind outcome_bind]; [| done].
  destruct (isoOrThrow _); cbn [mbind outcome_bind]; [| done].
  destruct (AdmissionReservationSchema _) as [r' |] eqn:Hr; cbn [orThrow]; [| done]. intros [= <-].
  by apply AdmissionReservationSchema_fixed in Hr as [? _].
Qed.

Lemma takes_replay_key request r : takes request r -> reservation_replay_key r = admissionReplayKey request.
Proof. intros [[= H1 H2 H3 H4 H5 H6] _]. unfold reservation_replay_key, admissionReplayKey. by rewrite H1, H2, H3, H4, H5. Qed.

(** ** The invariant *)

Lemma map_all_expire (P : string -> AdmissionReservation -> Prop) at_ m :
  (forall k r, P k r -> P k (expire at_ r)) -> map_all P m -> map_all P (expire_entry at_ <$> m).
Proof.
  intros HP Hm k r. rewrite map_get_expire. intros (r0 & Hr & ->)%fmap_Some. by apply HP, Hm.
Qed.

(** The reservations of [m'] are those of [m], later. *)
Definition keeps_terms (m m' : JsMap string AdmissionReservation) : Prop :=
  forall k r, map_get k m = Some r -> exists r', map_get k m' = Some r' /\ admission_terms r' = admission_terms r.

Lemma terms_replay_key r r' :
  admission_terms r' = admission_terms r -> reservation_replay_key r' = reservation_replay_key r.
Proof. intros [= _ H1 H2 H3 H4 H5 _]. unfold reservation_replay_key. by rewrite H1, H2, H3, H4, H5. Qed.

Lemma replays_kept s m' :
  map_all (fun k id => exists r, map_get id (qs_reservations s) = Some r /\ reservation_replay_key r = Some k) (qs_replays s) ->
  keeps_terms (qs_reservations s) m' ->
  map_all (fun k id => exists r, map_get id m' = Some r /\ reservation_replay_key r = Some k) (qs_replays s).
Proof.
  intros Hr Hk k id Hid. destruct (Hr _ _ Hid) as (r & Hg & Hkey). destruct (Hk _ _ Hg) as (r' & Hg' & Ht).
  exists r'. split; [done |]. by rewrite (terms_replay_key _ _ Ht).
Qed.

Lemma keeps_terms_expire at_ m : keeps_terms m (expire_entry at_ <$> m).
Proof. intros k r Hr. exists (expire at_ r). rewrite map_get_expire, Hr. split; [done | apply expire_terms]. Qed.

Lemma reconcile_ok at_ s : quota_ok s -> quota_ok (reconcileExpiredInTransaction at_ s).2.
Proof.
  intros [Hnd Hst Hr]. split; cbn.
  - by rewrite expire_keys.
  - apply map_all_expire; [| done]. intros k r. pose proof (expire_terms at_ r) as [= Hi Ht Hp _ _ Hk Ha].
    unfold terms_fixed. by rewrite Hi, Ht, Hp, Hk, Ha.
  - eapply replays_kept; [done | apply keeps_terms_expire].
Qed.

(** The three ways a store changes: expiry, a new reservation, a release. *)
Inductive quota_change (s : QuotaStore) : QuotaStore -> Prop :=
| change_none : quota_change s s
| change_expire at_ : quota_change s (reconcileExpiredInTransaction at_ s).2
| change_reserve at_ input request r :
    AdmissionRequestSchema input = Some request -> whole (aq_amount request) ->
    takes request r -> terms_fixed r ->
    (forall l, quota_limit limits (aq_category request) (aq_resourceKey request) = Some l ->
       js_gt (js_plus (quota_used (Some l) request (reconcileExpiredInTransaction at_ s).2)
                (aq_amount request)) (ql_maximum l) = false) ->
    (forall k, admissionReplayKey request = Some k -> map_get k (qs_replays s) = None) ->
    (forall r', map_get (ar_id r) (qs_reservations (reconcileExpiredInTransaction at_ s).2) = Some r' -> r' = r) ->
    quota_change s (store_admission request r (reconcileExpiredInTransaction at_ s).2)
| change_release id at_ r r' :
    map_get id (qs_reservations s) = Some r -> ar_state r = admission_reserved ->
    AdmissionReservationSchema (with_admission_state admission_released (Some at_) r) = Some r' ->
    quota_change s (with_reservations (map_set id r' (qs_reservations s)) s).

Lemma reserve_change now input s o s' :
  whole (aq_amount input) -> reserveInTransaction limits now input s = (o, s') -> quota_change s s'.
Proof.
  intros Hw Hr%reserveInTransaction_result.
  destruct Hr as [e _ | e | request code n _ _ | request k id r s' Hin -> Hk Hid Hr | request r s1 Hin -> Hno Hl Hnew Hid];
    try constructor.
  apply (change_reserve s now input);
    [done | | by eapply new_admission_takes | by eapply new_admission_fixed | done | done | done].
  unfold AdmissionRequestSchema, checked in Hin.
  destruct (TenantSchema _); cbn in Hin; [| done]. destruct (PrincipalSchema _); cbn in Hin; [| done].
  destruct (trimmed _ _); cbn in Hin; [| done]. destruct (_ && _) in Hin; [| done]. by injection Hin as <-.
Qed.

Lemma release_change t id token at_ s o s' :
  quota_release t id token at_ s = (o, s') -> quota_change s s'.
Proof.
  unfold quota_release. rewrite mthen_mget. destruct (map_get id _) as [r |] eqn:Hr; [| intros [= <- <-]; constructor].
  destruct (negb (bool_decide _)); [intros [= <- <-]; constructor |].
  destruct (negb (_ =? _)); [intros [= <- <-]; constructor |].
  destruct (ar_state r) eqn:Hst.
  - rewrite mthen_mlift. destruct (AdmissionReservationSchema _) as [r' |] eqn:Hs; cbn [orThrow];
      intros [= <- <-]; [by eapply change_release | constructor].
  - case_bool_decide; intros [= <- <-]; constructor.
  - intros [= <- <-]. constructor.
Qed.

(** A stored release keeps the terms of its reservation. *)
Lemma release_terms id at_ r r' s :
  quota_ok s -> map_get id (qs_reservations s) = Some r ->
  AdmissionReservationSchema (with_admission_state admission_released (Some at_) r) = Some r' ->
  r' = with_admission_state admission_released (Some at_) r.
Proof.
  intros [_ Hst _] Hr Hs. apply Hst in Hr as (_ & _ & Hf).
  apply AdmissionReservationSchema_fixed in Hs as (_ & _ & _ & ->); done.
Qed.

Lemma keeps_terms_set id r r' (m : JsMap string AdmissionReservation) :
  map_get id m = Some r -> admission_terms r' = admission_terms r -> keeps_terms m (map_set id r' m).
Proof.
  intros Hr Ht k q Hq. rewrite map_get_set. case_decide as He; [subst; exists r' | exists q; done].
  split; [done |]. congruence.
Qed.

Lemma keeps_terms_new id r (m : JsMap string AdmissionReservation) : map_get id m = None \/ map_get id m = Some r -> keeps_terms m (map_set id r m).
Proof.
  intros Hn k q Hq. rewrite map_get_set. case_decide as He; [subst; exists r; split; [done |] | by exists q].
  destruct Hn; congruence.
Qed.

Lemma keeps_terms_trans a b c : keeps_terms a b -> keeps_terms b c -> keeps_terms a c.
Proof.
  intros H1 H2 k r Hr. destruct (H1 _ _ Hr) as (r1 & Hr1 & T1). destruct (H2 _ _ Hr1) as (r2 & Hr2 & T2).
  exists r2. split; [done | congruence].
Qed.

(** The state after expiry is free for the identifier, or holds the record. *)
Lemma fresh_or_same id r (m : JsMap string AdmissionReservation) :
  (forall r', map_get id m = Some r' -> r' = r) -> map_get id m = None \/ map_get id m = Some r.
Proof. intros Hid. destruct (map_get id m) as [r' |] eqn:Hr; [right; f_equal; by apply Hid | by left]. Qed.

Lemma change_keeps s s' :
  quota_ok s -> quota_change s s' ->
  keeps_terms (qs_reservations s) (qs_reservations s')
  /\ forall k id, map_get k (qs_replays s) = Some id -> map_get k (qs_replays s') = Some id.
Proof.
  intros Hok Hc. destruct Hc as [| at_ | at_ input request r Hin Hw Ht Hf Hl Hno Hid | id at_ r r' Hr Hst Hs].
  - split; [intros k r Hr; by exists r | done].
  - split; [apply keeps_terms_expire | done].
  - split.
    + eapply keeps_terms_trans; [apply (keeps_terms_expire at_) | apply keeps_terms_new, fresh_or_same, Hid].
    + intros k id Hk. cbn. destruct (admissionReplayKey request) as [k' |]; [| done].
      rewrite map_get_set_ne; [done |]. intros ->. by rewrite (Hno k' eq_refl) in Hk.
  - split; [| done]. rewrite (release_terms id at_ r r' s) by done. by eapply keeps_terms_set.
Qed.

Lemma change_ok s s' :
  quota_ok s -> quota_change s s' -> quota_ok s'.
Proof.
  intros Hok Hc. pose proof (change_keeps _ _ Hok Hc) as [Hk _].
  destruct Hc as [| at_ | at_ input request r Hin Hw Ht Hf Hl Hno Hid | id at_ r r' Hr Hst Hs];
    [done | by apply reconcile_ok | |].
  - pose proof (reconcile_ok at_ s Hok) as [Hnd1 Hst1 Hr1].
    assert (whole (ar_amount r)) as Hwr by (destruct Ht as [[= _ _ _ _ _ ->] _]; done).
    split; cbn [store_admission qs_reservations qs_replays].
    + by apply map_set_NoDup.
    + apply map_all_set; [done |]. by split_and!.
    + assert (keeps_terms (qs_reservations (reconcileExpiredInTransaction at_ s).2)
                (map_set (ar_id r) r (qs_reservations (reconcileExpiredInTransaction at_ s).2))) as Hk1
        by (apply keeps_terms_new, fresh_or_same, Hid).
      pose proof (replays_kept _ _ Hr1 Hk1) as Hr2.
      destruct (admissionReplayKey request) as [k |] eqn:Hkey; [| done]. apply map_all_set; [done |].
      exists r. rewrite map_get_set_eq. split; [done |]. by rewrite (takes_replay_key _ _ Ht).
  - destruct Hok as [Hnd Hst0 Hr0]. pose proof (release_terms id at_ r r' s ltac:(by split) Hr Hs) as ->.
    split; cbn; [by apply map_set_NoDup | | by eapply replays_kept].
    apply map_all_set; [done |]. by apply Hst0 in Hr as (? & ? & ?).
Qed.

(** ** Executions with whole amounts *)

Inductive quota_step (s s' : QuotaStore) : Prop :=
| step_quota_reserve now input o :
    whole (aq_amount input) -> reserveInTransaction limits now input s = (o, s') -> quota_step s s'
| step_quota_release t id token at_ o : quota_release t id token at_ s = (o, s') -> quota_step s s'
| step_quota_reconcile at_ o : reconcileExpiredInTransaction at_ s = (o, s') -> quota_step s s'.

Lemma step_change s s' : quota_step s s' -> quota_change s s'.
Proof.
  intros [now input o Hw Hr | t id token at_ o Hr | at_ o Hr].
  - by eapply reserve_change.
  - by eapply release_change.
  - apply reconcile_effect in Hr as ->. apply (change_expire s at_).
Qed.

Definition quota_reachable (s : QuotaStore) : Prop := steps quota_step empty_quota_store s.

Lemma quota_reachable_ok s : quota_reachable s -> quota_ok s.
Proof.
  apply (steps_invariant quota_step quota_ok).
  - intros s1 s2 Hok Hs%step_change. by eapply change_ok.
  - split; cbn; [apply base.NoDup_nil_2 | apply map_all_nil | apply map_all_nil].
Qed.




Lemma steps_keep s s' :
  quota_ok s -> steps quota_step s s' ->
  keeps_terms (qs_reservations s) (qs_reservations s')
  /\ forall k id, map_get k (qs_replays s) = Some id -> map_get k (qs_replays s') = Some id.
Proof.
  intros Hok Hs. induction Hs as [s | s1 s2 s3 Hc%step_change Hs IH].
  - split; [intros k r Hr; by exists r | done].
  - destruct (change_keeps _ _ Hok Hc) as [K1 R1]. destruct (IH (change_ok _ _ Hok Hc)) as [K2 R2].
    split; [by eapply keeps_terms_trans | auto].
Qed.

(** Admission is idempotent.  Once a command has been admitted to a
    category and resource, asking again with the same command at any later time
    returns the same reservation (whatever became of it), and takes no room; a
    different amount or tenant under that command is refused. *)
Theorem admission_is_idempotent now now' input s s1 s2 r :
  quota_reachable s -> whole (aq_amount input) -> aq_commandId input <> None ->
  reserveInTransaction limits now input s = (Return (admitted r), s1) -> steps quota_step s1 s2 ->
  forall o s3, reserveInTransaction limits now' input s2 = (o, s3) ->
    s3 = (reconcileExpiredInTransaction now' s2).2
    /\ forall d, o = Return d -> exists r', d = admitted r' /\ admission_terms r' = admission_terms r.
Proof.
  intros Hs%quota_reachable_ok Hw Hcmd Hr Hsteps o s3 Ho.
  pose proof (change_ok _ _ Hs (reserve_change _ _ _ _ _ Hw Hr)) as Hok1.
  destruct (steps_keep _ _ Hok1 Hsteps) as [Hkeep Hrep].
  assert (exists request k, AdmissionRequestSchema input = Some request /\ admissionReplayKey request = Some k
    /\ map_get k (qs_replays s1) = Some (ar_id r) /\ map_get (ar_id r) (qs_reservations s1) = Some r)
    as (request & k & Hin & Hk & Hmap & Hres).
  { apply reserveInTransaction_result in Hr.
    inversion Hr as [| | | request k id r' s' Hin Hs1 Hk Hid Hg | request r' s' Hin Hs1 Hno _ Hnew _]; subst.
    - exists request, k. destruct Hok1 as [_ Hst _]. pose proof (Hst _ _ Hg) as (Hid' & _). rewrite Hid'.
      split_and!; [done | done | done | done].
    - assert (exists k, admissionReplayKey request = Some k) as [k Hk].
      { unfold AdmissionRequestSchema, checked in Hin.
        destruct (TenantSchema _); cbn in Hin; [| done]. destruct (PrincipalSchema _); cbn in Hin; [| done].
        destruct (trimmed _ _); cbn in Hin; [| done]. destruct (_ && _) in Hin; [| done]. injection Hin as <-.
        unfold admissionReplayKey. cbn. destruct (aq_commandId input); [by eexists | done]. }
      exists request, k. cbn. rewrite Hk, !map_get_set_eq. by split_and!. }
  apply reserveInTransaction_result in Ho. specialize (Hrep _ _ Hmap).
  destruct (Hkeep _ _ Hres) as (r2 & Hr2 & Hterms).
  inversion Ho as [e Hin' | e | request' code n Hin' Hno' | request' k' id r' s' Hin' Hs' Hk' Hid' Hg'
    | request' r' s' Hin' Hs' Hno' _ _ _]; subst.
  - congruence.
  - by split.
  - assert (request' = request) as -> by congruence. by rewrite (Hno' k Hk) in Hrep.
  - assert (request' = request) as -> by congruence. assert (k' = k) as -> by congruence.
    assert (id = ar_id r) as -> by congruence. split; [done |]. intros d [= <-]. exists r'. split; [done |].
    cbn in Hg'. rewrite map_get_expire, Hr2 in Hg'. injection Hg' as <-. by rewrite expire_terms.
  - assert (request' = request) as -> by congruence. by rewrite (Hno' k Hk) in Hrep.
Qed.

Lemma mthen_reconcile {B} now (k : Z -> method QuotaStore js_error B) s :
  mthen (reconcileExpiredInTransaction now) k s
  = k (Z.of_nat (length (filter (fun e => admission_lapsed now e.2 = true) (qs_reservations s))))
      (with_reservations (expire_entry now <$> qs_reservations s) s).
Proof. done. Qed.

Lemma filter_nothing {A} (p : A -> bool) l : (forall a, a ∈ l -> p a = false) -> filter (fun a => p a = true) l = [].
Proof.
  induction l as [| a l IH]; intros Hp; [done |]. rewrite filter_cons, decide_False.
  - apply IH. intros b Hb. apply Hp. by right.
  - rewrite (Hp a) by (by left). done.
Qed.

Lemma lapsed_free now limit request r :
  (competes limit request r = true -> admission_lapsed now r = true) ->
  competes limit request (expire now r) = false.
Proof.
  unfold expire, expire_entry. cbn. destruct (admission_lapsed now r) eqn:Hl; [done |].
  destruct (competes limit request r); [| done]. intros Hx. by discriminate Hx.
Qed.

(** Abandoned leases free their room.  When the lease of every reservation
    that competes with a request has run out, a request that by itself fits
    under the limit is admitted, unless its record cannot be made or its
    identifier is taken; nobody has to release anything. *)
Theorem expired_leases_make_room now input request l s r :
  AdmissionRequestSchema input = Some request ->
  (forall k, admissionReplayKey request = Some k -> map_get k (qs_replays s) = None) ->
  quota_limit limits (aq_category request) (aq_resourceKey request) = Some l ->
  (forall r', r' ∈ map_values (qs_reservations s) -> competes (Some l) request r' = true ->
     admission_lapsed now r' = true) ->
  js_gt (aq_amount request) (ql_maximum l) = false ->
  new_admission now request (qs_nextReservation s) = Return r ->
  map_get (ar_id r) (qs_reservations s) = None ->
  exists s', reserveInTransaction limits now input s = (Return (admitted r), s')
    /\ map_get (ar_id r) (qs_reservations s') = Some r
    /\ quota_used (Some l) request s' = ar_amount r.
Proof.
  intros Hin Hno Hl Hlapsed Hfits Hnew Hfree.
  set (s1 := with_reservations (expire_entry now <$> qs_reservations s) s).
  assert (filter (fun r' => competes (Some l) request r' = true) (map_values (qs_reservations s1)) = []) as Hnone.
  { apply filter_nothing. intros r'. unfold s1, map_values. cbn. rewrite <- list_fmap_compose.
    intros ([k q] & -> & Hq)%list_elem_of_fmap. apply (lapsed_free now (Some l) request q).
    apply Hlapsed. apply list_elem_of_fmap. by exists (k, q). }
  assert (exists neg m e, aq_amount request = S754_finite neg m e) as (neg & m & e & Hamount).
  { unfold AdmissionRequestSchema, checked in Hin.
    destruct (TenantSchema _); cbn in Hin; [| done]. destruct (PrincipalSchema _); cbn in Hin; [| done].
    destruct (trimmed _ _); cbn in Hin; [| done]. destruct (_ && _) eqn:Hb in Hin; [| done].
    injection Hin as <-. cbn. bools. destruct (aq_amount input); try done. by do 3 eexists. }
  assert (js_plus (quota_used (Some l) request s1) (aq_amount request) = aq_amount request) as Hsum.
  { unfold quota_used. rewrite Hnone. by rewrite Hamount. }
  assert (map_get (ar_id r) (qs_reservations s1) = None) as Hfree1 by (unfold s1; cbn; by rewrite map_get_expire, Hfree).
  exists (store_admission request r s1). split_and!.
  - unfold reserveInTransaction. rewrite mthen_mlift, Hin. cbn [orThrow].
    rewrite mthen_reconcile. fold s1. rewrite mthen_mget.
    assert ((k ← admissionReplayKey request; map_get k (qs_replays s1)) = None) as ->.
    { destruct (admissionReplayKey request); [by apply Hno | done]. }
    rewrite Hl, Hsum, Hfits, mthen_mlift. cbn [qs_nextReservation with_reservations s1]. rewrite Hnew.
    unfold mthen. by rewrite Hfree1.
  - cbn. apply map_get_set_eq.
  - pose proof (new_admission_takes _ _ _ _ _ Hin Hnew) as [[= Ht Hp Hc Hcat Hrk Ha] Hst].
    unfold quota_used. cbn [store_admission qs_reservations].
    assert (forall m', map_get (ar_id r) m' = None -> map_values (map_set (ar_id r) r m') = map_values m' ++ [r]) as Happ.
    { clear. induction m' as [| [k v] m' IH]; [done |]. cbn. case_decide; [done |]. intros Hm. cbn.
      unfold map_values in IH. by rewrite IH. }
    rewrite Happ, list.filter_app, Hnone, filter_cons by done. rewrite decide_True.
    + cbn. rewrite Ha, Hamount. done.
    + unfold competes. rewrite Hst, Ht, Hp, Hcat, Hrk, !(bool_decide_eq_true_2 _ (eq_refl _)). cbn. by rewrite orb_true_r.
Qed.

(** ** Circuit breakers *)

(** A circuit's state changes by compare and set.  A call that succeeds
    found exactly the state it expected and stored exactly the one it was given;
    any other call changes nothing; and of two calls that expect the same state
    at most one succeeds, unless the first one stored that state again. *)
Theorem circuit_compare_and_set e n s o s' :
  compareAndSet e n s = (o, s') ->
  (o <> Return true -> s' = s) /\
  (o = Return true -> exists next, CircuitBreakerStateSchema n = Some next
     /\ map_get (circuit_key next) s = (e ≫= CircuitBreakerStateSchema)
     /\ s' = map_set (circuit_key next) next s
     /\ (forall p, map_get (circuit_key next) s = Some p -> cb_state next = circuit_half_open ->
           forall t t', cb_probeFencingToken p = Some t -> cb_probeFencingToken next = Some t' -> t < t')
     /\ forall n2 next2 s2, CircuitBreakerStateSchema n2 = Some next2 -> circuit_key next2 = circuit_key next ->
          Some next <> (e ≫= CircuitBreakerStateSchema) -> compareAndSet e n2 s' <> (Return true, s2)).
Proof.
  intros Hc. unfold compareAndSet in Hc. rewrite mthen_mlift in Hc.
  assert (match match e with None => Return None | Some e0 => Some <$> orThrow (CircuitBreakerStateSchema e0) ZodError end with
          | Return x => x = (e ≫= CircuitBreakerStateSchema)
          | Throw _ => e <> None end) as He.
  { destruct e as [e |]; [| done]. cbn. by destruct (CircuitBreakerStateSchema e). }
  destruct (match e with None => _ | Some _ => _ end) as [expected | err] eqn:Hexp;
    [| injection Hc as <- <-; by split].
  subst expected. rewrite mthen_mlift in Hc.
  destruct (CircuitBreakerStateSchema n) as [next |] eqn:Hn; cbn [orThrow] in Hc; [| injection Hc as <- <-; by split].
  rewrite mthen_mget in Hc. case_bool_decide as Hp; cbn [negb] in Hc; [| injection Hc as <- <-; by split].
  destruct (_ && _) eqn:Hf in Hc; injection Hc as <- <-; [by split |]. split; [done |]. intros _.
  exists next. split_and!; [done | done | done | |].
  - intros p Hpr Hst t t' Ht Ht'. rewrite bool_decide_eq_true_2, Hpr, Ht' in Hf by done. cbn in Hf.
    rewrite Ht in Hf. cbn in Hf.
    assert (cb_probeLeaseId next <> None) as Hlease.
    { unfold CircuitBreakerStateSchema, checked in Hn.
      destruct (trimmed 256 _); cbn in Hn; [| done]. destruct (trimmed 512 _); cbn in Hn; [| done].
      destruct (match cb_probeLeaseId n with None => _ | Some _ => _ end) as [pl |]; cbn in Hn; [| done].
      destruct (_ && _) eqn:Hb in Hn; [| done]. injection Hn as <-. cbn in *. bools. intros ->. done. }
    destruct (cb_probeLeaseId next); [bools; lia | done].
  - intros n2 next2 s2 Hn2 Hk Hne H2. unfold compareAndSet in H2. rewrite mthen_mlift, Hexp, mthen_mlift, Hn2 in H2.
    cbn [orThrow] in H2. rewrite mthen_mget, Hk, map_get_set_eq in H2.
    by rewrite bool_decide_eq_false_2 in H2.
Qed.
End Facts.

(** ** Commands, quotas, model calls and circuit breakers on concrete inputs *)

#[local] Existing Instance zod_reference.

(** ** Commands *)

Definition entropy : list Z := repeat 171 16.
Definition example_command : string := "kafcmd_1767225600000_abababababababababababababababab".

Lemma entropy_bytes : Forall is_byte entropy.
Proof. repeat constructor; lia. Qed.

Lemma command_id_round_trip_witness :
  createCommandId (Some 1767225600000) entropy = Return example_command
  /\ commandIdTimestamp example_command = Some 1767225600000.
Proof.
  destruct (command_id_round_trip (Some 1767225600000) entropy entropy_bytes) as [Hmade _].
  destruct (Hmade 1767225600000 eq_refl ltac:(lia) eq_refl) as (id & Hid & _ & Hts & _).
  assert (id = example_command) as ->; [| split; assumption].
  assert (createCommandId (Some 1767225600000) entropy = Return example_command) as H by (by vm_compute).
  congruence.
Defined.

(** ** Quotas *)

Definition q_clock0 : string := "2026-01-01T00:00:00.000Z".
Definition q_clock1 : string := "2026-01-01T00:00:30.000Z".
Definition q_clock2 : string := "2026-01-01T00:02:00.000Z".

Definition run_limit : QuotaLimit :=
  {| ql_scope := quota_tenant; ql_metric := metric_of active_run; ql_resourceKey := "*";
     ql_maximum := number 1; ql_retryAfterSeconds := 30 |}.

Definition run_request (commandId : option string) : AdmissionRequest :=
  {| aq_tenant := {| tenant_id := "tenant" |}; aq_principal := {| principal_type := user; principal_id := "alice" |};
     aq_commandId := commandId; aq_category := active_run; aq_resourceKey := "agent";
     aq_amount := number 1; aq_leaseDurationMs := 60000 |}.

Definition commanded : AdmissionRequest := run_request (Some example_command).


Definition run_reservation (id : string) (commandId : option string) (now expires : string) : AdmissionReservation :=
  {| ar_id := id; ar_tenant := {| tenant_id := "tenant" |};
     ar_principal := {| principal_type := user; principal_id := "alice" |}; ar_commandId := commandId;
     ar_category := active_run; ar_resourceKey := "agent"; ar_amount := number 1;
     ar_state := admission_reserved; ar_fencingToken := 1; ar_reservedAtServerTime := now;
     ar_leaseExpiresAt := expires; ar_releasedAt := None |}.

Definition commanded_reservation : AdmissionReservation :=
  run_reservation "admission:sha256:7b37745ee6db855e840927a1b47f7797e2a0e495d6fc6afee29fd199dcbfb488:1"
    (Some example_command) q_clock0 "2026-01-01T00:01:00.000Z".

Definition later_reservation : AdmissionReservation :=
  run_reservation "admission:sha256:4e8e9a66689f2fdac1733044866efa58033df02db2f680506a13448359c7a65e:2"
    None q_clock2 "2026-01-01T00:03:00.000Z".

Definition quota1 : QuotaStore := store_admission commanded commanded_reservation empty_quota_store.

Lemma commanded_admitted :
  reserveInTransaction [run_limit] q_clock0 commanded empty_quota_store
  = (Return (admitted commanded_reservation), quota1).
Proof. by vm_compute. Qed.

Lemma later_record : new_admission q_clock2 (run_request None) 2 = Return later_reservation.
Proof. by vm_compute. Qed.

(** The second request is denied while the first one's lease runs. *)
Example second_run_denied :
  (reserveInTransaction [run_limit] q_clock1 (run_request None) quota1).1
  = Return (not_admitted KAF_ADMISSION_DENIED 30).
Proof. by vm_compute. Qed.

Lemma one_is_whole : whole (number 1).
Proof. split; [by vm_compute | done]. Qed.



Lemma admission_is_idempotent_witness :
  exists s3 r, reserveInTransaction [run_limit] q_clock1 commanded quota1 = (Return (admitted r), s3)
    /\ s3 = (reconcileExpiredInTransaction q_clock1 quota1).2
    /\ admission_terms r = admission_terms commanded_reservation.
Proof.
  assert (reserveInTransaction [run_limit] q_clock1 commanded quota1 = (Return (admitted commanded_reservation), quota1))
    as Hagain by (by vm_compute).
  destruct (admission_is_idempotent [run_limit] q_clock0 q_clock1 commanded empty_quota_store quota1 quota1
    commanded_reservation (steps_refl _ _) one_is_whole ltac:(discriminate) commanded_admitted (steps_refl _ _)
    _ _ Hagain) as [Hs Hd].
  destruct (Hd _ eq_refl) as (r & [= <-] & Hr).
  exists quota1, commanded_reservation. split; [exact Hagain |]. split; [exact Hs | exact Hr].
Defined.

Lemma expired_leases_make_room_witness :
  exists s', reserveInTransaction [run_limit] q_clock2 (run_request None) quota1 = (Return (admitted later_reservation), s')
    /\ quota_used (Some run_limit) (run_request None) s' = number 1.
Proof.
  destruct (expired_leases_make_room [run_limit] q_clock2 (run_request None) (run_request None) run_limit quota1
    later_reservation) as (s' & Hr & _ & Hu).
  - by vm_compute.
  - discriminate.
  - reflexivity.
  - intros r' [-> | Hin]%elem_of_cons; [by vm_compute | by apply not_elem_of_nil in Hin].
  - by vm_compute.
  - exact later_record.
  - by vm_compute.
  - exists s'. split; [exact Hr | exact Hu].
Defined.

(** ** Model calls *)

Definition token_limit : QuotaLimit :=
  {| ql_scope := quota_tenant; ql_metric := model_tokens; ql_resourceKey := "*";
     ql_maximum := number 1000; ql_retryAfterSeconds := 60 |}.

Definition example_call (attempt : Z) : ModelCallIdentity :=
  {| mc_reservationId := "reservation"; mc_tenantId := "tenant"; mc_runId := "run"; mc_stepId := "step";
     mc_attempt := attempt; mc_workOrderBindingDigest := example_digest;
     mc_agentDefinitionDigest := example_digest; mc_modelSecurityProfileDigest := example_digest;
     mc_modelResourceProfileDigest := example_digest; mc_modelAdapterRegistrationDigest := example_digest;
     mc_inputBytes := 2000; mc_inputTokenUpperBound := 400; mc_outputTokenMaximum := 200;
     mc_outputBytesMaximum := Some 4000; mc_maximumCallCostMinor := None; mc_currency := None;
     mc_expiresAt := q_clock2; mc_createdAt := q_clock0 |}.

Definition call_record (attempt : Z) (status : ModelCallStatus) : ModelCallReservation :=
  {| mc_identity := example_call attempt; mc_status := status; mc_settlement := None |}.

Definition example_usage : ModelSettlementInput :=
  {| msi_inputBytes := 2000; msi_inputTokenLowerBound := 300; msi_outputBytes := 500;
     msi_outputTokenLowerBound := 50;
     msi_trustedProviderUsage := Some {| tu_inputTokens := 310; tu_outputTokens := 60; tu_callCostMinor := None;
                                         tu_currency := None |} |}.

Definition settled_call : ModelCallReservation :=
  {| mc_identity := example_call 1; mc_status := call_settled;
     mc_settlement := Some (call_settlement q_clock1 (example_call 1) example_usage) |}.

Definition put_to (r : ModelCallReservation) (s : JsMap CallKey ModelCallReservation) :=
  (put_call [token_limit] r s).2.

Definition calls1 := put_to (call_record 1 call_accepted) [].
Definition calls2 := put_to (call_record 1 call_dispatched) calls1.
Definition calls3 := put_to settled_call calls2.

(** A second call fits only once the first one is settled. *)
Example calls_compete :
  isReturn (put_call [token_limit] (call_record 2 call_accepted) calls2).1 = false
  /\ isReturn (put_call [token_limit] (call_record 2 call_accepted) calls3).1 = true
  /\ profile_usage model_tokens "tenant" example_digest calls2 = 600
  /\ profile_usage model_tokens "tenant" example_digest calls3 = 370.
Proof. by vm_compute. Qed.

Lemma put_to_step r s : small_call (mc_identity r) -> call_step [token_limit] s (put_to r s).
Proof. intros Hr. exact (step_call [token_limit] s (put_to r s) r _ Hr (surjective_pairing _)). Qed.

Lemma example_small attempt : small_call (example_call attempt).
Proof. by split; vm_compute. Qed.

Lemma calls3_reachable : calls_reachable [token_limit] calls3.
Proof.
  eapply steps_snoc; [eapply steps_snoc; [eapply steps_snoc; [apply steps_refl |] |] |];
    apply put_to_step; exact (example_small 1).
Defined.

Lemma model_usage_within_limit_witness :
  profile_usage model_tokens "tenant" example_digest calls3 <= 1000.
Proof.
  apply (model_usage_within_limit [token_limit] calls3 model_tokens "tenant" example_digest token_limit).
  - apply calls3_reachable.
  - by left.
  - intros i _ Hp. unfold call_limit, limit_covers. rewrite Hp. reflexivity.
  - reflexivity.
  - lia.
Defined.

Lemma model_call_history_witness :
  exists r', map_get (call_key (example_call 1)) calls3 = Some r' /\ mc_identity r' = example_call 1.
Proof.
  destruct (model_call_history [token_limit] calls1 calls3 (call_key (example_call 1)) (call_record 1 call_accepted))
    as (r' & trace & Hr & Hi & _).
  - by vm_compute.
  - eapply steps_snoc; [eapply steps_snoc; [apply steps_refl |] |]; apply put_to_step; exact (example_small 1).
  - exists r'. split; [exact Hr | exact Hi].
Defined.

(** ** Circuit breakers *)

Definition breaker (state : CircuitState) (probe : option (string * Z)) : CircuitBreakerState :=
  {| cb_tenantId := "tenant"; cb_providerKey := "provider"; cb_state := state; cb_failureCount := 3;
     cb_openedAt := None; cb_probeLeaseId := fst <$> probe; cb_probeFencingToken := snd <$> probe;
     cb_updatedAt := q_clock0 |}.

Definition circuits1 : JsMap (string * string) CircuitBreakerState :=
  [(("tenant", "provider"), breaker circuit_open None)].

(** Of two workers that found the circuit open only one gets to probe. *)
Lemma circuit_compare_and_set_witness :
  exists s2, compareAndSet (Some (breaker circuit_open None)) (breaker circuit_half_open (Some ("worker-1", 1))) circuits1
             = (Return true, s2)
    /\ forall s3, compareAndSet (Some (breaker circuit_open None)) (breaker circuit_half_open (Some ("worker-2", 2))) s2
                  <> (Return true, s3).
Proof.
  eexists. split; [by vm_compute |]. intros s3.
  destruct (circuit_compare_and_set (Some (breaker circuit_open None))
    (breaker circuit_half_open (Some ("worker-1", 1))) circuits1 (Return true)
    [(("tenant", "provider"), breaker circuit_half_open (Some ("worker-1", 1)))] ltac:(by vm_compute)) as [_ Hc].
  destruct (Hc eq_refl) as (next & Hn & _ & Hs & _ & Hrace).
  vm_compute in Hn. injection Hn as <-.
  apply (Hrace _ (breaker circuit_half_open (Some ("worker-2", 2)))); [by vm_compute | by vm_compute | discriminate].
Defined.
