(* ===== verification/Decisions.v ===== *)
(** * Decisions (packages/core/src/decision.ts, packages/store-memory/src/decision-store.ts)

    Gates, submission challenges, rejections and the claims of approvals, with
    their schemas, and [MemoryDecisionStore].  Each method of the store resolves
    a promise and then runs to its end, so a call is one step. *)

From S2P Require Import Prelude JsTime Errors Schema JsonValue Unicode Contracts WorkOrder.
From S2P Require Import StoreInternal Authorization JsMap.

Local Open Scope Z_scope.
Local Open Scope js_scope.

(** ** Records *)

Record DecisionGate := {
  dg_decisionId : string;
  dg_tenantId : string;
  dg_runId : string;
  dg_requestingEventId : string;
  dg_binding : ProposedEffectBinding;
  dg_decisionGateDigest : string;
  dg_requiredAuthenticationStrength : AuthenticationStrength;
  dg_createdAt : string;
}.

Record DecisionRejection := {
  dr_decisionId : string;
  dr_tenantId : string;
  dr_runId : string;
  dr_challengeId : string;
  dr_binding : ProposedEffectBinding;
  dr_rejectedBy : Principal;
  dr_authenticationStrength : AuthenticationStrength;
  dr_reasonCode : string;
  dr_rejectedAt : string;
}.

Record DecisionSubmissionChallenge := {
  ch_id : string;
  ch_issuerId : string;
  ch_proofDigest : string;
  ch_binding : ProposedEffectBinding;
  ch_requiredAuthenticationStrength : AuthenticationStrength;
  ch_issuedAt : string;
  ch_expiresAt : string;
  ch_consumingCommandId : option string;
  ch_consumedAt : option string;
}.

Record ApprovalUseClaim := {
  auc_approvalId : string;
  auc_authorizationKey : string;
  auc_claimedAt : string;
}.

#[export] Instance DecisionGate_eq_dec : EqDecision DecisionGate.
Proof. solve_decision. Defined.
#[export] Instance DecisionRejection_eq_dec : EqDecision DecisionRejection.
Proof. solve_decision. Defined.
#[export] Instance DecisionSubmissionChallenge_eq_dec : EqDecision DecisionSubmissionChallenge.
Proof. solve_decision. Defined.
#[export] Instance ApprovalUseClaim_eq_dec : EqDecision ApprovalUseClaim.
Proof. solve_decision. Defined.

(** ** Schemas *)

Definition is_reason_char (c : Ascii.ascii) : bool :=
  let n := Ascii.N_of_ascii c in is_lower_alnum c || (n =? 95)%N || (n =? 58)%N || (n =? 45)%N.

(** [/^[a-z0-9][a-z0-9_:-]{0,127}$/] *)
Definition reason_code (s : string) : bool :=
  match s with
  | String c s' => is_lower_alnum c && all_chars is_reason_char s' && (js_length s' <=? 127)
  | EmptyString => false
  end.

Section Schemas.
Context `{Zod}.

Definition DecisionGateSchema (g : DecisionGate) : option DecisionGate :=
  decisionId ← trimmed 256 (dg_decisionId g);
  tenantId ← trimmed 256 (dg_tenantId g);
  runId ← trimmed 256 (dg_runId g);
  eventId ← trimmed 256 (dg_requestingEventId g);
  binding ← ProposedEffectBindingSchema (dg_binding g);
  checked (DigestSchema (dg_decisionGateDigest g) && zod_datetime (dg_createdAt g))
    {| dg_decisionId := decisionId; dg_tenantId := tenantId; dg_runId := runId;
       dg_requestingEventId := eventId; dg_binding := binding;
       dg_decisionGateDigest := dg_decisionGateDigest g;
       dg_requiredAuthenticationStrength := dg_requiredAuthenticationStrength g;
       dg_createdAt := dg_createdAt g |}.

Definition DecisionRejectionSchema (r : DecisionRejection) : option DecisionRejection :=
  decisionId ← trimmed 256 (dr_decisionId r);
  tenantId ← trimmed 256 (dr_tenantId r);
  runId ← trimmed 256 (dr_runId r);
  challengeId ← trimmed 256 (dr_challengeId r);
  binding ← ProposedEffectBindingSchema (dr_binding r);
  rejectedBy ← PrincipalSchema (dr_rejectedBy r);
  checked (reason_code (dr_reasonCode r) && zod_datetime (dr_rejectedAt r))
    {| dr_decisionId := decisionId; dr_tenantId := tenantId; dr_runId := runId;
       dr_challengeId := challengeId; dr_binding := binding; dr_rejectedBy := rejectedBy;
       dr_authenticationStrength := dr_authenticationStrength r;
       dr_reasonCode := dr_reasonCode r; dr_rejectedAt := dr_rejectedAt r |}.

Definition DecisionSubmissionChallengeSchema (c : DecisionSubmissionChallenge)
  : option DecisionSubmissionChallenge :=
  id ← trimmed 256 (ch_id c);
  issuerId ← trimmed 256 (ch_issuerId c);
  binding ← ProposedEffectBindingSchema (ch_binding c);
  command ← optional_trimmed 256 (ch_consumingCommandId c);
  checked (DigestSchema (ch_proofDigest c) && zod_datetime (ch_issuedAt c)
           && zod_datetime (ch_expiresAt c) && optional zod_datetime (ch_consumedAt c))
    {| ch_id := id; ch_issuerId := issuerId; ch_proofDigest := ch_proofDigest c;
       ch_binding := binding;
       ch_requiredAuthenticationStrength := ch_requiredAuthenticationStrength c;
       ch_issuedAt := ch_issuedAt c; ch_expiresAt := ch_expiresAt c;
       ch_consumingCommandId := command; ch_consumedAt := ch_consumedAt c |}.

Definition ApprovalUseClaimSchema (c : ApprovalUseClaim) : option ApprovalUseClaim :=
  approvalId ← trimmed 256 (auc_approvalId c);
  authorizationKey ← trimmed 512 (auc_authorizationKey c);
  checked (zod_datetime (auc_claimedAt c))
    {| auc_approvalId := approvalId; auc_authorizationKey := authorizationKey;
       auc_claimedAt := auc_claimedAt c |}.
End Schemas.

(** ** The store *)

(** Tenant, run and decision; tenant, run and challenge in the map of challenges. *)
Definition GateKey : Type := string * string * string.

Record DecisionStore := {
  ds_gates : gmap GateKey DecisionGate;
  ds_challenges : JsMap GateKey DecisionSubmissionChallenge;
  ds_activeChallenges : gmap GateKey GateKey;
  ds_approvals : gmap (string * string) Approval;
  ds_approvalClaims : gmap (string * string) ApprovalUseClaim;
  ds_approvalAuthorizationKeys : gmap (string * string) string;
  ds_rejections : gmap GateKey DecisionRejection;
}.

Definition empty_decision_store : DecisionStore :=
  {| ds_gates := ∅; ds_challenges := []; ds_activeChallenges := ∅; ds_approvals := ∅;
     ds_approvalClaims := ∅; ds_approvalAuthorizationKeys := ∅; ds_rejections := ∅ |}.

Definition with_gates m s := {| ds_gates := m; ds_challenges := ds_challenges s;
  ds_activeChallenges := ds_activeChallenges s; ds_approvals := ds_approvals s;
  ds_approvalClaims := ds_approvalClaims s;
  ds_approvalAuthorizationKeys := ds_approvalAuthorizationKeys s; ds_rejections := ds_rejections s |}.
Definition with_challenges m active s := {| ds_gates := ds_gates s; ds_challenges := m;
  ds_activeChallenges := active; ds_approvals := ds_approvals s;
  ds_approvalClaims := ds_approvalClaims s;
  ds_approvalAuthorizationKeys := ds_approvalAuthorizationKeys s; ds_rejections := ds_rejections s |}.
Definition with_approvals m s := {| ds_gates := ds_gates s; ds_challenges := ds_challenges s;
  ds_activeChallenges := ds_activeChallenges s; ds_approvals := m;
  ds_approvalClaims := ds_approvalClaims s;
  ds_approvalAuthorizationKeys := ds_approvalAuthorizationKeys s; ds_rejections := ds_rejections s |}.
Definition with_claims m keys s := {| ds_gates := ds_gates s; ds_challenges := ds_challenges s;
  ds_activeChallenges := ds_activeChallenges s; ds_approvals := ds_approvals s;
  ds_approvalClaims := m; ds_approvalAuthorizationKeys := keys; ds_rejections := ds_rejections s |}.
Definition with_rejections m s := {| ds_gates := ds_gates s; ds_challenges := ds_challenges s;
  ds_activeChallenges := ds_activeChallenges s; ds_approvals := ds_approvals s;
  ds_approvalClaims := ds_approvalClaims s;
  ds_approvalAuthorizationKeys := ds_approvalAuthorizationKeys s; ds_rejections := m |}.

Definition binding_tenant (b : ProposedEffectBinding) : string := tenant_id (pe_tenant b).

Definition gate_key (g : DecisionGate) : GateKey := (dg_tenantId g, dg_runId g, dg_decisionId g).

(** The gate a binding belongs to, and the key of a challenge. *)
Definition binding_key (b : ProposedEffectBinding) : GateKey :=
  (binding_tenant b, pe_runId b, pe_decisionId b).
Definition challenge_key (c : DecisionSubmissionChallenge) : GateKey :=
  (binding_tenant (ch_binding c), pe_runId (ch_binding c), ch_id c).

Definition mismatch {A} (reason : string) : outcome js_error A :=
  Throw (KafReason KAF_AUTHORIZATION_BINDING_MISMATCH reason).

(** The stored challenges of a tenant under an identifier, with their keys. *)
Definition named_challenge (tenantId challengeId : string) (e : GateKey * DecisionSubmissionChallenge) : bool :=
  bool_decide (ch_id e.2 = challengeId) && bool_decide (binding_tenant (ch_binding e.2) = tenantId).

Definition challenges_named (tenantId challengeId : string) (s : DecisionStore)
  : JsMap GateKey DecisionSubmissionChallenge :=
  filter (fun e => named_challenge tenantId challengeId e = true) (ds_challenges s).

Section Store.
Context `{Zod}.

Definition putGateOnce (input : DecisionGate) : method DecisionStore js_error DecisionGate :=
  let! gate := mlift (orThrow (DecisionGateSchema input) ZodError) in
  if negb (bool_decide (dg_tenantId gate = binding_tenant (dg_binding gate))
           && bool_decide (dg_runId gate = pe_runId (dg_binding gate))
           && bool_decide (dg_decisionId gate = pe_decisionId (dg_binding gate)))
  then mthrow (KafReason KAF_STORAGE_CONCURRENCY_CONFLICT "decision_gate_binding_changed")
  else
    let! s := mget in
    match ds_gates s !! gate_key gate with
    | Some existing =>
        if bool_decide (existing = gate) then mreturn existing
        else mthrow (KafReason KAF_STORAGE_CONCURRENCY_CONFLICT "decision_gate_changed")
    | None =>
        mput (with_gates (<[gate_key gate := gate]> (ds_gates s)) s) ;;!
        mreturn gate
    end.

Definition getGate (tenantId runId decisionId : string) (s : DecisionStore) : option DecisionGate :=
  ds_gates s !! (tenantId, runId, decisionId).

Definition putChallenge (input : DecisionSubmissionChallenge) : method DecisionStore js_error unit :=
  let! challenge := mlift (orThrow (DecisionSubmissionChallengeSchema input) ZodError) in
  let! s := mget in
  if existsb (fun stored => bool_decide (binding_tenant (ch_binding stored) = binding_tenant (ch_binding challenge))
                            && bool_decide (ch_id stored = ch_id challenge)
                            && negb (bool_decide (pe_runId (ch_binding stored) = pe_runId (ch_binding challenge))))
       (map_values (ds_challenges s))
  then mthrow (KafReason KAF_STORAGE_CONCURRENCY_CONFLICT "decision_challenge_id_changed_run")
  else if changed (map_get (challenge_key challenge) (ds_challenges s)) challenge
  then mthrow (KafReason KAF_STORAGE_CONCURRENCY_CONFLICT "decision_challenge_changed")
  else mput (with_challenges (map_set (challenge_key challenge) challenge (ds_challenges s))
               (<[binding_key (ch_binding challenge) := challenge_key challenge]> (ds_activeChallenges s)) s).

Definition getActiveChallenge (tenantId runId decisionId : string) (s : DecisionStore)
  : option DecisionSubmissionChallenge :=
  key ← ds_activeChallenges s !! (tenantId, runId, decisionId); map_get key (ds_challenges s).

(** [{ ...challenge, consumingCommandId, consumedAt }] *)
Definition consumed_by (commandId consumedAt : string) (c : DecisionSubmissionChallenge)
  : DecisionSubmissionChallenge :=
  {| ch_id := ch_id c; ch_issuerId := ch_issuerId c; ch_proofDigest := ch_proofDigest c;
     ch_binding := ch_binding c;
     ch_requiredAuthenticationStrength := ch_requiredAuthenticationStrength c;
     ch_issuedAt := ch_issuedAt c; ch_expiresAt := ch_expiresAt c;
     ch_consumingCommandId := Some commandId; ch_consumedAt := Some consumedAt |}.

Definition consumeChallenge (tenantId challengeId commandId consumedAt : string)
  : method DecisionStore js_error unit :=
  let! s := mget in
  match challenges_named tenantId challengeId s with
  | [(challengeKey, challenge)] =>
      if negb (bool_decide (ds_activeChallenges s !! binding_key (ch_binding challenge) = Some challengeKey))
      then mlift (mismatch "decision_challenge_replaced")
      else match ch_consumingCommandId challenge with
           | Some prior =>
               if bool_decide (prior = commandId) then mreturn tt
               else mlift (mismatch "decision_challenge_used")
           | None =>
               if date_le (ch_expiresAt challenge) consumedAt
               then mlift (mismatch "decision_challenge_expired")
               else
                 let! next := mlift (orThrow (DecisionSubmissionChallengeSchema
                                (consumed_by commandId consumedAt challenge)) ZodError) in
                 mput (with_challenges (map_set challengeKey next (ds_challenges s)) (ds_activeChallenges s) s)
           end
  | _ => mthrow (KafError KAF_STORAGE_NOT_FOUND [])
  end.

Definition approval_key (a : Approval) : string * string := (binding_tenant (ap_binding a), ap_id a).

(** The consumed challenge an approval answers. *)
Definition answers (approval : Approval) (c : DecisionSubmissionChallenge) : bool :=
  negb (bool_decide (ch_consumingCommandId c = None))
  && bool_decide (ap_challengeProofDigest approval = ch_proofDigest c)
  && bool_decide (ap_binding approval = ch_binding c).

Definition putApproval (input : Approval) : method DecisionStore js_error unit :=
  let! approval := mlift (orThrow (ApprovalSchema input) ZodError) in
  let! s := mget in
  if negb match challenges_named (binding_tenant (ap_binding approval)) (ap_challengeId approval) s with
          | [(_, challenge)] => answers approval challenge
          | _ => false
          end
  then mlift (mismatch "approval_challenge_binding_mismatch")
  else if changed (ds_approvals s !! approval_key approval) approval
  then mthrow (KafError KAF_STORAGE_CONCURRENCY_CONFLICT [])
  else mput (with_approvals (<[approval_key approval := approval]> (ds_approvals s)) s).

Definition getApproval (tenantId approvalId : string) (s : DecisionStore) : option Approval :=
  ds_approvals s !! (tenantId, approvalId).

Definition claimApproval (tenantId approvalId authorizationKey at_ : string)
  : method DecisionStore js_error ApprovalUseClaim :=
  let! s := mget in
  match ds_approvalClaims s !! (tenantId, approvalId) with
  | Some prior =>
      if bool_decide (auc_authorizationKey prior = authorizationKey) then mreturn prior
      else mlift (mismatch "approval_already_used")
  | None =>
      match ds_approvals s !! (tenantId, approvalId) with
      | None => mlift (mismatch "approval_missing")
      | Some approval =>
          if date_le (ap_expiresAt approval) at_ then mlift (mismatch "approval_expired")
          else if changed (ds_approvalAuthorizationKeys s !! (tenantId, authorizationKey)) approvalId
          then mlift (mismatch "approval_authorization_key_reused")
          else
            let! claim := mlift (orThrow (ApprovalUseClaimSchema
                            {| auc_approvalId := approvalId; auc_authorizationKey := authorizationKey;
                               auc_claimedAt := at_ |}) ZodError) in
            mput (with_claims (<[(tenantId, approvalId) := claim]> (ds_approvalClaims s))
                    (<[(tenantId, authorizationKey) := approvalId]> (ds_approvalAuthorizationKeys s)) s) ;;!
            mreturn claim
      end
  end.

Definition rejection_key (r : DecisionRejection) : GateKey := (dr_tenantId r, dr_runId r, dr_decisionId r).

Definition putRejection (input : DecisionRejection) : method DecisionStore js_error unit :=
  let! rejection := mlift (orThrow (DecisionRejectionSchema input) ZodError) in
  let! s := mget in
  if changed (ds_rejections s !! rejection_key rejection) rejection
  then mthrow (KafError KAF_STORAGE_CONCURRENCY_CONFLICT [])
  else mput (with_rejections (<[rejection_key rejection := rejection]> (ds_rejections s)) s).
End Store.

(** The deep copies of a transaction. *)
Definition decision_snapshot (s : DecisionStore) : DecisionStore := s.
Definition decision_restore (snapshot : DecisionStore) : method DecisionStore js_error unit := mput snapshot.
