(* ===== verification/DecisionFacts.v ===== *)
(** * Decisions: theorems

    A challenge is consumed by one command, an approval answers a consumed
    challenge, an approval is claimed under one authorization key and a key
    claims one approval. *)

From S2P Require Import Prelude JsTime Errors Schema JsonValue Unicode Contracts WorkOrder StoreInternal.
From S2P Require Import Authorization JsMap Decisions.

Local Open Scope Z_scope.

Section Facts.
Context `{Zod}.

(** ** What an operation does *)

Lemma putGateOnce_effect g s o s' :
  putGateOnce g s = (o, s') ->
  (s' = s /\ forall r, o = Return r -> getGate (dg_tenantId r) (dg_runId r) (dg_decisionId r) s = Some r)
  \/ exists g', o = Return g' /\ ds_gates s !! gate_key g' = None
       /\ s' = with_gates (<[gate_key g' := g']> (ds_gates s)) s.
Proof.
  unfold putGateOnce, mthen, mlift, mget, mput, mthrow, mreturn.
  destruct (DecisionGateSchema g) as [g' |]; cbn [orThrow]; [| intros [= <- <-]; by left].
  destruct (negb _) eqn:Hb; [intros [= <- <-]; by left |].
  destruct (ds_gates s !! gate_key g') as [e |] eqn:He; [| intros [= <- <-]; right; by exists g'].
  clear Hb. case_bool_decide; intros [= <- <-]; [| by left]. left. split; [done |]. intros r [= <-]. by subst.
Qed.

Lemma putChallenge_effect c s o s' :
  putChallenge c s = (o, s') ->
  (s' = s /\ isReturn o = false)
  \/ exists c', o = Return tt /\ DecisionSubmissionChallengeSchema c = Some c'
     /\ (forall x, x ∈ map_values (ds_challenges s) -> binding_tenant (ch_binding x) = binding_tenant (ch_binding c') ->
           ch_id x = ch_id c' -> pe_runId (ch_binding x) = pe_runId (ch_binding c'))
     /\ (map_get (challenge_key c') (ds_challenges s) = None
         \/ map_get (challenge_key c') (ds_challenges s) = Some c')
     /\ s' = with_challenges (map_set (challenge_key c') c' (ds_challenges s))
               (<[binding_key (ch_binding c') := challenge_key c']> (ds_activeChallenges s)) s.
Proof.
  unfold putChallenge, mthen, mlift, mget, mput, mthrow.
  destruct (DecisionSubmissionChallengeSchema c) as [c' |]; cbn [orThrow]; [| intros [= <- <-]; by left].
  destruct (existsb _ _) eqn:Hx; [intros [= <- <-]; by left |].
  destruct (changed (map_get (challenge_key c') (ds_challenges s)) c') eqn:Hm; intros [= <- <-]; [by left | right].
  exists c'. split_and!; [done | done | | by apply changed_false | done].
  intros x Hin Ht Hi. destruct (decide (pe_runId (ch_binding x) = pe_runId (ch_binding c'))) as [| Hne]; [done |].
  exfalso. rewrite <- not_true_iff_false, existsb_exists in Hx. apply Hx. exists x.
  split; [by apply list_elem_of_In |]. by rewrite (bool_decide_eq_true_2 _ Ht), (bool_decide_eq_true_2 _ Hi), (bool_decide_eq_false_2 _ Hne).
Qed.

Lemma consumeChallenge_effect t id cmd at_ s o s' :
  consumeChallenge t id cmd at_ s = (o, s') ->
  (s' = s /\ (o = Return tt -> exists k c, challenges_named t id s = [(k, c)]
                /\ ch_consumingCommandId c = Some cmd))
  \/ exists k c c', o = Return tt /\ challenges_named t id s = [(k, c)]
     /\ ds_activeChallenges s !! binding_key (ch_binding c) = Some k
     /\ ch_consumingCommandId c = None /\ date_le (ch_expiresAt c) at_ = false
     /\ DecisionSubmissionChallengeSchema (consumed_by cmd at_ c) = Some c'
     /\ s' = with_challenges (map_set k c' (ds_challenges s)) (ds_activeChallenges s) s.
Proof.
  unfold consumeChallenge, mthen, mlift, mget, mput, mthrow, mreturn.
  destruct (challenges_named t id s) as [| [k c] [| ? ?]] eqn:Hn; try (intros [= <- <-]; by left).
  destruct (negb _) eqn:Ha; [intros [= <- <-]; by left |]. bools.
  destruct (ch_consumingCommandId c) as [prior |] eqn:Hp.
  { case_bool_decide; intros [= <- <-]; left; [| by split]. split; [done |]. intros _. exists k, c. by subst. }
  destruct (date_le _ _) eqn:He; [intros [= <- <-]; by left |].
  destruct (DecisionSubmissionChallengeSchema _) as [c' |] eqn:Hc; cbn [orThrow]; intros [= <- <-]; [| by left].
  right. exists k, c, c'. by split_and!.
Qed.

Lemma with_approvals_id s : with_approvals (ds_approvals s) s = s.
Proof. by destruct s. Qed.

Lemma putApproval_effect a s o s' :
  putApproval a s = (o, s') ->
  (s' = s /\ (o = Return tt -> exists a', ApprovalSchema a = Some a' /\ ds_approvals s !! approval_key a' = Some a'))
  \/ exists a' k c, o = Return tt /\ ApprovalSchema a = Some a'
     /\ challenges_named (binding_tenant (ap_binding a')) (ap_challengeId a') s = [(k, c)]
     /\ answers a' c = true /\ ds_approvals s !! approval_key a' = None
     /\ s' = with_approvals (<[approval_key a' := a']> (ds_approvals s)) s.
Proof.
  unfold putApproval, mthen, mlift, mget, mput, mthrow.
  destruct (ApprovalSchema a) as [a' |]; cbn [orThrow]; [| intros [= <- <-]; by left].
  destruct (challenges_named _ _ s) as [| [k c] [| ? ?]] eqn:Hn; try (intros [= <- <-]; by left).
  destruct (answers a' c) eqn:Ha; [| intros [= <- <-]; by left]. cbn [negb].
  destruct (changed (ds_approvals s !! approval_key a') a') eqn:He; intros [= <- <-]; [by left |].
  apply changed_false in He as [He | He].
  - right. exists a', k, c. by split_and!.
  - left. rewrite insert_id, with_approvals_id by done. split; [done |]. by exists a'.
Qed.

Lemma claimApproval_effect t a k at_ s o s' :
  claimApproval t a k at_ s = (o, s') ->
  (s' = s /\ forall c, o = Return c -> ds_approvalClaims s !! (t, a) = Some c /\ auc_authorizationKey c = k)
  \/ exists ap c, o = Return c /\ ds_approvalClaims s !! (t, a) = None
     /\ ds_approvals s !! (t, a) = Some ap /\ date_le (ap_expiresAt ap) at_ = false
     /\ (ds_approvalAuthorizationKeys s !! (t, k) = None \/ ds_approvalAuthorizationKeys s !! (t, k) = Some a)
     /\ c = {| auc_approvalId := js_trim a; auc_authorizationKey := js_trim k; auc_claimedAt := at_ |}
     /\ s' = with_claims (<[(t, a) := c]> (ds_approvalClaims s))
               (<[(t, k) := a]> (ds_approvalAuthorizationKeys s)) s.
Proof.
  unfold claimApproval, mthen, mlift, mget, mput, mreturn.
  destruct (ds_approvalClaims s !! (t, a)) as [prior |] eqn:Hp.
  { case_bool_decide; intros [= <- <-]; left; split; try done. intros c [= <-]. done. }
  destruct (ds_approvals s !! (t, a)) as [ap |] eqn:Ha; [| intros [= <- <-]; by left].
  destruct (date_le _ _) eqn:He; [intros [= <- <-]; by left |].
  destruct (changed (ds_approvalAuthorizationKeys s !! (t, k)) a) eqn:Hk; [intros [= <- <-]; by left |].
  destruct (ApprovalUseClaimSchema _) as [c |] eqn:Hc; cbn [orThrow]; intros [= <- <-]; [right | by left].
  exists ap, c. split_and!; try done; [by apply changed_false |].
  revert Hc. unfold ApprovalUseClaimSchema, trimmed. cbn.
  destruct (min1max 256 _); cbn; [| done]. destruct (min1max 512 _); cbn; [| done].
  unfold checked. destruct (zod_datetime _); [| done]. by intros [= <-].
Qed.

Lemma putRejection_effect r s o s' :
  putRejection r s = (o, s') ->
  s' = s \/ exists r', o = Return tt
     /\ (ds_rejections s !! rejection_key r' = None \/ ds_rejections s !! rejection_key r' = Some r')
     /\ s' = with_rejections (<[rejection_key r' := r']> (ds_rejections s)) s.
Proof.
  unfold putRejection, mthen, mlift, mget, mput, mthrow.
  destruct (DecisionRejectionSchema r) as [r' |]; cbn [orThrow]; [| intros [= <- <-]; by left].
  destruct (changed (ds_rejections s !! rejection_key r') r') eqn:Hr; intros [= <- <-]; [by left | right].
  exists r'. split_and!; [done | by apply changed_false | done].
Qed.
End Facts.

(** ** Executions

    The calls of the store; an authorization key carries no surrounding white
    space. *)

Inductive decision_step `{Zod} (s s' : DecisionStore) : Prop :=
| step_put_gate g o : putGateOnce g s = (o, s') -> decision_step s s'
| step_put_challenge c o : putChallenge c s = (o, s') -> decision_step s s'
| step_consume_challenge t id cmd at_ o : consumeChallenge t id cmd at_ s = (o, s') -> decision_step s s'
| step_put_approval a o : putApproval a s = (o, s') -> decision_step s s'
| step_claim_approval t a k at_ o : js_trim k = k -> claimApproval t a k at_ s = (o, s') -> decision_step s s'
| step_put_rejection r o : putRejection r s = (o, s') -> decision_step s s'.

Section Executions.
Context `{Zod}.

(** ** Parsed challenges *)

Lemma trimmed_js_trim n s t : trimmed n s = Some t -> t = js_trim s.
Proof. unfold trimmed. destruct (min1max _ _); [| done]. by intros [= <-]. Qed.

Lemma trimmed_stable n s : trimmed n s = Some s -> js_trim s = s.
Proof. by intros <-%trimmed_js_trim. Qed.

Lemma ApprovalSchema_trimmed a a' : ApprovalSchema a = Some a' -> trimmed 256 (ap_id a') = Some (ap_id a').
Proof.
  unfold ApprovalSchema. destruct (trimmed 256 (ap_id a)) as [i |] eqn:Hid; cbn; [| done].
  apply trimmed_idem in Hid as Hid'. unfold checked.
  destruct (trimmed 256 (ap_issuerId a)); cbn; [| done]. destruct (trimmed 256 (ap_challengeId a)); cbn; [| done].
  destruct (ProposedEffectBindingSchema _); cbn; [| done]. destruct (PrincipalSchema _); cbn; [| done].
  destruct (_ && _); [| done]. by intros [= <-].
Qed.

Lemma DecisionSubmissionChallengeSchema_idem c c' :
  DecisionSubmissionChallengeSchema c = Some c' -> DecisionSubmissionChallengeSchema c' = Some c'.
Proof.
  unfold DecisionSubmissionChallengeSchema.
  destruct (trimmed 256 (ch_id c)) as [i |] eqn:Hi; cbn; [| done].
  destruct (trimmed 256 (ch_issuerId c)) as [iss |] eqn:His; cbn; [| done].
  destruct (ProposedEffectBindingSchema _) as [b |] eqn:Hb; cbn; [| done].
  destruct (optional_trimmed 256 _) as [cmd |] eqn:Hc; cbn; [| done].
  unfold checked. destruct (_ && _) eqn:Hok; [| done]. intros [= <-]. cbn.
  rewrite (trimmed_idem _ _ _ Hi), (trimmed_idem _ _ _ His), (ProposedEffectBindingSchema_idem _ _ Hb). cbn.
  assert (optional_trimmed 256 cmd = Some cmd) as ->; [| cbn; by rewrite Hok].
  unfold optional_trimmed in *. destruct (ch_consumingCommandId c) as [x |]; [| by injection Hc as <-].
  destruct (trimmed 256 x) as [y |] eqn:Hx; [| done]. injection Hc as <-. by rewrite (trimmed_idem _ _ _ Hx).
Qed.

Lemma consumed_by_schema cmd at_ c c' :
  DecisionSubmissionChallengeSchema c = Some c ->
  DecisionSubmissionChallengeSchema (consumed_by cmd at_ c) = Some c' ->
  c' = consumed_by (js_trim cmd) at_ c /\ DecisionSubmissionChallengeSchema c' = Some c'.
Proof.
  intros Hc Hc'. split; [| by eapply DecisionSubmissionChallengeSchema_idem]. revert Hc Hc'.
  unfold DecisionSubmissionChallengeSchema. cbn [consumed_by ch_id ch_issuerId ch_binding ch_consumingCommandId].
  destruct (trimmed 256 (ch_id c)) as [i |]; cbn; [| done].
  destruct (trimmed 256 (ch_issuerId c)) as [iss |]; cbn; [| done].
  destruct (ProposedEffectBindingSchema _) as [b |]; cbn; [| done].
  destruct (trimmed 256 cmd) as [x |] eqn:Hx; cbn; [| done]. apply trimmed_js_trim in Hx as ->.
  destruct (optional_trimmed 256 _) as [o |]; cbn; [| done].
  unfold checked. destruct (_ && _); [| done]. intros Heq. destruct (_ && _); [| done].
  intros [= <-]. unfold consumed_by. injection Heq as <-. done.
Qed.

Lemma consuming_command_trimmed c cmd :
  DecisionSubmissionChallengeSchema c = Some c -> ch_consumingCommandId c = Some cmd -> js_trim cmd = cmd.
Proof.
  unfold DecisionSubmissionChallengeSchema. intros Hsc Hc. revert Hsc.
  destruct (trimmed 256 (ch_id c)); cbn; [| done]. destruct (trimmed 256 (ch_issuerId c)); cbn; [| done].
  destruct (ProposedEffectBindingSchema _); cbn; [| done]. rewrite Hc. cbn.
  destruct (trimmed 256 cmd) as [x |] eqn:Hx; cbn; [| done]. apply trimmed_js_trim in Hx as ->.
  unfold checked. destruct (_ && _); [| done]. intros Heq. injection Heq as Heq.
  apply (f_equal ch_consumingCommandId) in Heq. cbn in Heq. congruence.
Qed.

Lemma consumed_by_accepted c cmd cmd' at_ :
  DecisionSubmissionChallengeSchema c = Some c -> ch_consumingCommandId c = None ->
  trimmed 256 cmd = Some cmd' -> zod_datetime at_ = true ->
  DecisionSubmissionChallengeSchema (consumed_by cmd at_ c) = Some (consumed_by cmd' at_ c).
Proof.
  intros Hsc Hopen Hcmd Hat. revert Hsc. unfold DecisionSubmissionChallengeSchema.
  cbn [consumed_by ch_id ch_issuerId ch_binding ch_consumingCommandId ch_proofDigest ch_issuedAt ch_expiresAt
       ch_consumedAt ch_requiredAuthenticationStrength].
  destruct (trimmed 256 (ch_id c)) as [i |]; cbn; [| done].
  destruct (trimmed 256 (ch_issuerId c)) as [iss |]; cbn; [| done].
  destruct (ProposedEffectBindingSchema _) as [b |]; cbn; [| done]. rewrite Hopen, Hcmd. cbn [optional_trimmed].
  unfold checked. cbn [optional mbind option_bind fmap option_fmap option_map]. rewrite Hat. destruct (_ && optional _ _) eqn:Hok; [| done].
  apply andb_true_iff in Hok as [Hok _]. rewrite Hok. cbn. intros Heq. injection Heq as Heq.
  f_equal. by rewrite <- Heq.
Qed.

(** ** Well-formed stores *)

Record decision_wf (s : DecisionStore) : Prop := {
  wf_keys : NoDup (ds_challenges s).*1;
  wf_challenges : map_all (fun k c => k = challenge_key c /\ DecisionSubmissionChallengeSchema c = Some c)
                    (ds_challenges s);
  wf_unique k c k' c' :
    map_get k (ds_challenges s) = Some c -> map_get k' (ds_challenges s) = Some c' ->
    binding_tenant (ch_binding c) = binding_tenant (ch_binding c') -> ch_id c = ch_id c' -> k = k';
  wf_approvals : map_Forall (fun key a => key = approval_key a /\ js_trim (ap_id a) = ap_id a
    /\ exists k c, map_get k (ds_challenges s) = Some c /\ ch_id c = ap_challengeId a /\ answers a c = true)
    (ds_approvals s);
  wf_claims : map_Forall (fun key c => auc_approvalId c = key.2 /\ is_Some (ds_approvals s !! key)
    /\ ds_approvalAuthorizationKeys s !! (key.1, auc_authorizationKey c) = Some key.2) (ds_approvalClaims s);
  wf_active gk k : ds_activeChallenges s !! gk = Some k ->
    exists c, map_get k (ds_challenges s) = Some c /\ binding_key (ch_binding c) = gk;
}.

Lemma empty_decision_store_wf : decision_wf empty_decision_store.
Proof. split; cbn; [constructor | done | done | by intros ? ? ?%lookup_empty_Some
  | by intros ? ? ?%lookup_empty_Some | by intros ? ? ?%lookup_empty_Some]. Qed.

Lemma challenges_named_elem t id s k c :
  decision_wf s -> (k, c) ∈ challenges_named t id s <->
  map_get k (ds_challenges s) = Some c /\ ch_id c = id /\ binding_tenant (ch_binding c) = t.
Proof.
  intros Hwf. unfold challenges_named, named_challenge. rewrite list_elem_of_filter. cbn.
  rewrite andb_true_iff, !bool_decide_eq_true. split.
  - intros [[? ?] Hin]. split_and!; [| done | done]. apply elem_map_get; [by destruct Hwf | done].
  - intros (Hk & ? & ?). split; [done |]. by apply map_get_Some.
Qed.

Lemma list_singleton {A} (l : list A) x : NoDup l -> x ∈ l -> (forall y, y ∈ l -> y = x) -> l = [x].
Proof.
  intros Hl Hx Hall. destruct l as [| a [| b l]]; [by apply not_elem_of_nil in Hx | |].
  - f_equal. apply Hall. by left.
  - exfalso. apply list.NoDup_cons in Hl as [Ha _]. apply Ha.
    rewrite (Hall a), <- (Hall b); [by left | right; by left | by left].
Qed.

Lemma challenges_named_single s k c :
  decision_wf s -> map_get k (ds_challenges s) = Some c ->
  challenges_named (binding_tenant (ch_binding c)) (ch_id c) s = [(k, c)].
Proof.
  intros Hwf Hk. apply list_singleton.
  - unfold challenges_named. apply list.NoDup_filter. eapply (NoDup_fmap_1 fst). by destruct Hwf.
  - by apply challenges_named_elem.
  - intros [k' c'] (Hk' & Hi & Ht)%challenges_named_elem; [| done].
    assert (k' = k) as -> by (by eapply wf_unique). congruence.
Qed.

(** A single match is the stored challenge. *)
Lemma challenges_named_inv t id s k c :
  decision_wf s -> challenges_named t id s = [(k, c)] ->
  map_get k (ds_challenges s) = Some c /\ ch_id c = id /\ binding_tenant (ch_binding c) = t
  /\ k = challenge_key c /\ DecisionSubmissionChallengeSchema c = Some c.
Proof.
  intros Hwf Hn. assert ((k, c) ∈ challenges_named t id s) as Hin by (rewrite Hn; by left).
  apply challenges_named_elem in Hin as (Hk & ? & ?); [| done].
  destruct (wf_challenges _ Hwf _ _ Hk). by split_and!.
Qed.

Lemma putChallenge_unique s c' :
  decision_wf s ->
  (forall x, x ∈ map_values (ds_challenges s) -> binding_tenant (ch_binding x) = binding_tenant (ch_binding c') ->
     ch_id x = ch_id c' -> pe_runId (ch_binding x) = pe_runId (ch_binding c')) ->
  forall k c, map_get k (ds_challenges s) = Some c ->
    binding_tenant (ch_binding c) = binding_tenant (ch_binding c') -> ch_id c = ch_id c' -> k = challenge_key c'.
Proof.
  intros Hwf Hx k c Hk Ht Hi. destruct (wf_challenges _ Hwf _ _ Hk) as [-> _]. unfold challenge_key.
  assert (pe_runId (ch_binding c) = pe_runId (ch_binding c')); [| congruence].
  apply Hx; [| done | done]. apply map_values_elem; [by destruct Hwf |]. eauto.
Qed.

(** Replacing a challenge by one of the same identity keeps the store well formed. *)
Lemma with_challenges_wf s k c' active :
  decision_wf s -> k = challenge_key c' -> DecisionSubmissionChallengeSchema c' = Some c' ->
  (forall k0 c0, map_get k0 (ds_challenges s) = Some c0 ->
     binding_tenant (ch_binding c0) = binding_tenant (ch_binding c') -> ch_id c0 = ch_id c' -> k0 = k) ->
  (forall c, map_get k (ds_challenges s) = Some c -> c' = c
     \/ exists cmd at_, ch_consumingCommandId c = None /\ c' = consumed_by cmd at_ c) ->
  (forall gk k0, active !! gk = Some k0 ->
     (k0 = k /\ binding_key (ch_binding c') = gk) \/ ds_activeChallenges s !! gk = Some k0) ->
  decision_wf (with_challenges (map_set k c' (ds_challenges s)) active s).
Proof.
  intros Hwf Hk Hc' Huniq Hold Hact. split; cbn.
  - by apply map_set_NoDup; destruct Hwf.
  - apply map_all_set; [by destruct Hwf | done].
  - intros k1 c1 k2 c2. rewrite !map_get_set. repeat case_decide; try congruence.
    + intros [= <-] Hg Ht Hi. symmetry. subst. by eapply Huniq.
    + intros Hg [= <-] Ht Hi. subst. by eapply Huniq.
    + by apply wf_unique.
  - intros key a Ha. destruct (wf_approvals _ Hwf _ _ Ha) as (Hkey & Htr & k0 & c0 & Hk0 & Hid & Hans0).
    split_and!; [done | done |]. exists k0. rewrite map_get_set. case_decide; [| by exists c0]. subst k0.
    exists c'. destruct (Hold _ Hk0) as [-> | (cmd & at_ & Hn & ->)]; [done |].
    revert Hans0. unfold answers. by rewrite Hn.
  - by destruct Hwf.
  - intros gk k0 Hg. rewrite map_get_set. destruct (Hact _ _ Hg) as [[-> Hb] | Ha].
    { rewrite decide_True by done. by exists c'. }
    destruct (wf_active _ Hwf _ _ Ha) as (c0 & Hc0 & Hb0). case_decide; [| by exists c0]. subst k0.
    exists c'. split; [done |]. destruct (Hold _ Hc0) as [-> | (cmd & at_ & _ & ->)]; done.
Qed.

Lemma decision_step_wf s s' : decision_wf s -> decision_step s s' -> decision_wf s'.
Proof.
  intros Hwf [g o He%putGateOnce_effect | c o He%putChallenge_effect | t id cmd at_ o He%consumeChallenge_effect
    | a o He%putApproval_effect | t a k at_ o Hk He%claimApproval_effect | r o He%putRejection_effect].
  - destruct He as [[-> _] | (g' & _ & _ & ->)]; [done |]. by destruct Hwf.
  - destruct He as [[-> _] | (c' & _ & Hc & Hx & Hm & ->)]; [done |].
    apply with_challenges_wf; [done | done | by eapply DecisionSubmissionChallengeSchema_idem | | |].
    + by apply putChallenge_unique.
    + intros c0 Hk0. left. destruct Hm; congruence.
    + intros gk k0 [[<- <-] | [_ Hg]]%lookup_insert_Some; [by left | by right].
  - destruct He as [[-> _] | (k & c & c' & _ & Hn & _ & Hu & _ & Hs & ->)]; [done |].
    apply challenges_named_inv in Hn as (Hk & Hi & Ht & Hkey & Hcs); [| done].
    destruct (consumed_by_schema _ _ _ _ Hcs Hs) as [-> Hs']. apply with_challenges_wf; try done.
    + intros k0 c0 Hk0 Ht0 Hi0. by eapply wf_unique.
    + intros c0 Hk0. assert (c0 = c) as -> by congruence. right. eauto.
    + intros gk k0 Hg. by right.
  - destruct He as [[-> _] | (a' & k & c & _ & Ha & Hn & Hans & Hno & ->)]; [done |].
    apply challenges_named_inv in Hn as (Hk & Hi & Ht & _); [| done].
    destruct Hwf as [? ? ? Hap Hcl ?]. split; cbn; [done | done | done | | | done].
    + apply map_Forall_insert_2; [| done]. split_and!; [done | | exists k, c; split_and!; [done | by rewrite Hi | done]].
      by eapply trimmed_stable, ApprovalSchema_trimmed.
    + intros key cl Hc. destruct (Hcl _ _ Hc) as (? & [x Hx] & ?). split_and!; [done | | done].
      destruct (decide (key = approval_key a')) as [-> |]; [rewrite lookup_insert_eq; eauto |].
      rewrite lookup_insert_ne by done. eauto.
  - destruct He as [[-> _] | (ap & c & _ & Hno & Hap & _ & Hkeys & -> & ->)]; [done |].
    assert (js_trim a = a) as Ha.
    { destruct (wf_approvals _ Hwf _ _ Hap) as (Heq & Htr & _). injection Heq as _ ->. done. }
    rewrite Ha, Hk. destruct Hwf as [? ? ? ? Hcl ?]. split; cbn; [done | done | done | done | | done].
    apply map_Forall_insert_2; [by rewrite lookup_insert_eq; eauto |].
    intros [t0 a0] cl Hc. destruct (Hcl _ _ Hc) as (? & ? & Hk0). split_and!; [done | done |]. cbn in *.
    destruct (decide ((t0, auc_authorizationKey cl) = (t, k))) as [Heq | Hne]; [| by rewrite lookup_insert_ne].
    rewrite Heq in Hk0 |- *. rewrite lookup_insert_eq. destruct Hkeys; congruence.
  - destruct He as [-> | (r' & _ & _ & ->)]; [done |]. by destruct Hwf.
Qed.

Lemma reachable_decision_wf s : steps decision_step empty_decision_store s -> decision_wf s.
Proof. apply steps_invariant; [apply decision_step_wf | apply empty_decision_store_wf]. Qed.

(** ** What is kept *)

(** Gates, approvals, claims and rejections are only added; a challenge only
    moves from open to consumed. *)
Definition challenge_extends (c c' : DecisionSubmissionChallenge) : Prop :=
  c' = c \/ (ch_consumingCommandId c = None /\ exists cmd at_, c' = consumed_by cmd at_ c).

Record decision_extends (s s' : DecisionStore) : Prop := {
  ext_gates : ds_gates s ⊆ ds_gates s';
  ext_challenges k c : map_get k (ds_challenges s) = Some c ->
    exists c', map_get k (ds_challenges s') = Some c' /\ challenge_extends c c';
  ext_approvals : ds_approvals s ⊆ ds_approvals s';
  ext_claims : ds_approvalClaims s ⊆ ds_approvalClaims s';
  ext_rejections : ds_rejections s ⊆ ds_rejections s';
}.

Lemma challenge_extends_trans c1 c2 c3 :
  challenge_extends c1 c2 -> challenge_extends c2 c3 -> challenge_extends c1 c3.
Proof.
  intros [-> | (Hn & cmd & at_ & ->)]; [done |]. intros [-> | (Hn' & _)]; [right; eauto | done].
Qed.

#[local] Instance decision_extends_preorder : PreOrder decision_extends.
Proof.
  split.
  - intros s. split; [done | | done | done | done]. intros k c Hk. exists c. split; [done | by left].
  - intros s1 s2 s3 [] []. split; [by etrans | | by etrans | by etrans | by etrans].
    intros k c Hk. edestruct ext_challenges0 as (c2 & Hk2 & H12); [done |].
    edestruct ext_challenges1 as (c3 & Hk3 & H23); [done |]. exists c3.
    split; [done | by eapply challenge_extends_trans].
Qed.

Lemma decision_step_extends s s' : decision_wf s -> decision_step s s' -> decision_extends s s'.
Proof.
  assert (forall (m : JsMap GateKey DecisionSubmissionChallenge) k v, (forall c, map_get k m = Some c -> challenge_extends c v) ->
    forall k0 c, map_get k0 m = Some c -> exists c', map_get k0 (map_set k v m) = Some c' /\ challenge_extends c c') as Hset.
  { intros m k v Hv k0 c Hk. rewrite map_get_set. case_decide; [subst; exists v; split; [done | by apply Hv] |].
    exists c. split; [done | by left]. }
  assert (forall s k c, map_get k (ds_challenges s) = Some c ->
    exists c', map_get k (ds_challenges s) = Some c' /\ challenge_extends c c') as Hsame.
  { intros s0 k c Hk. exists c. split; [done | by left]. }
  intros Hwf [g o He%putGateOnce_effect | c o He%putChallenge_effect | t id cmd at_ o He%consumeChallenge_effect
    | a o He%putApproval_effect | t a k at_ o Hk He%claimApproval_effect | r o He%putRejection_effect].
  - destruct He as [[-> _] | (g' & _ & Hno & ->)]; [done |].
    split; cbn; try done; [by apply insert_subseteq | by apply Hsame].
  - destruct He as [[-> _] | (c' & _ & _ & _ & Hm & ->)]; [done |]. split; cbn; try done.
    apply Hset. intros c0 Hk. destruct Hm; [congruence |]. left. congruence.
  - destruct He as [[-> _] | (k & c & c' & _ & Hn & _ & Hu & _ & Hs & ->)]; [done |].
    apply challenges_named_inv in Hn as (Hk & _ & _ & _ & Hcs); [| done].
    destruct (consumed_by_schema _ _ _ _ Hcs Hs) as [-> _]. split; cbn; try done.
    apply Hset. intros c0 Hk0. assert (c0 = c) as -> by congruence. right. eauto.
  - destruct He as [[-> _] | (a' & k & c & _ & _ & _ & _ & Hno & ->)]; [done |].
    split; cbn; try done; [by apply Hsame | by apply insert_subseteq].
  - destruct He as [[-> _] | (ap & c & _ & Hno & _ & _ & _ & _ & ->)]; [done |].
    split; cbn; try done; [by apply Hsame | by apply insert_subseteq].
  - destruct He as [-> | (r' & _ & Hno & ->)]; [done |]. split; cbn; try done; [by apply Hsame |].
    destruct Hno; [by apply insert_subseteq |]. by rewrite insert_id.
Qed.

Lemma decision_steps_extend s s' :
  decision_wf s -> steps decision_step s s' -> decision_wf s' /\ decision_extends s s'.
Proof.
  intros Hwf. apply (steps_invariant _ (fun s' => decision_wf s' /\ decision_extends s s')); [| done].
  intros s1 s2 [Hwf1 He1] Hs. split; [by eapply decision_step_wf |]. etrans; [done |]. by apply decision_step_extends.
Qed.

(** ** Properties *)

(** C36: a challenge is consumed once.  After a command has consumed a challenge it
    stays consumed by that command whatever else happens, and a later attempt to
    consume it changes nothing and succeeds for no other command. *)
Theorem challenge_consumed_once s s1 s2 t id cmd at_ :
  steps decision_step empty_decision_store s ->
  consumeChallenge t id cmd at_ s = (Return tt, s1) -> steps decision_step s1 s2 ->
  (exists k c, map_get k (ds_challenges s2) = Some c /\ ch_id c = id
     /\ binding_tenant (ch_binding c) = t /\ ch_consumingCommandId c = Some (js_trim cmd))
  /\ forall cmd' at' o s3, consumeChallenge t id cmd' at' s2 = (o, s3) ->
       s3 = s2 /\ (o = Return tt -> cmd' = js_trim cmd).
Proof.
  intros Hwf%reachable_decision_wf Hcs Hs.
  assert (decision_wf s1) as Hwf1 by (eapply decision_step_wf; [done | by eapply step_consume_challenge]).
  assert (exists k c, map_get k (ds_challenges s1) = Some c /\ ch_id c = id
     /\ binding_tenant (ch_binding c) = t /\ ch_consumingCommandId c = Some (js_trim cmd)) as (k & c & Hk & Hi & Ht & Hc).
  { apply consumeChallenge_effect in Hcs as [[-> Hr] | (k & c & c' & _ & Hn & _ & _ & _ & Hp & ->)].
    - destruct (Hr eq_refl) as (k & c & Hn & Hc). apply challenges_named_inv in Hn as (Hk & Hi & Ht & _ & Hsc); [| done].
      exists k, c. by rewrite (consuming_command_trimmed _ _ Hsc Hc).
    - apply challenges_named_inv in Hn as (_ & Hi & Ht & _ & Hsc); [| done].
      destruct (consumed_by_schema _ _ _ _ Hsc Hp) as [-> _]. exists k, (consumed_by (js_trim cmd) at_ c).
      cbn [with_challenges ds_challenges]. by rewrite map_get_set_eq. }
  destruct (decision_steps_extend _ _ Hwf1 Hs) as [Hwf2 Hext].
  destruct (ext_challenges _ _ Hext _ _ Hk) as (c' & Hk' & [-> | [Hno _]]); [| congruence].
  split; [by exists k, c |]. intros cmd' at' o s3 Hcs'. pose proof (challenges_named_single _ _ _ Hwf2 Hk') as Hn2.
  rewrite Hi, Ht in Hn2.
  apply consumeChallenge_effect in Hcs' as [[-> Hr] | (k2 & c2 & c2' & _ & Hn & _ & Hno & _)].
  - split; [done |]. intros Ho. destruct (Hr Ho) as (k2 & c2 & Hn & Hc2). congruence.
  - congruence.
Qed.

(** An approval answers its challenge.  A stored approval belongs to exactly
    one stored challenge of its tenant; that challenge has been consumed and has the
    approval's binding and proof digest; and the approval stays as it is. *)
Theorem approval_answers_challenge s s2 t a ap :
  steps decision_step empty_decision_store s -> getApproval t a s = Some ap -> steps decision_step s s2 ->
  ap_id ap = a /\ binding_tenant (ap_binding ap) = t /\ getApproval t a s2 = Some ap
  /\ exists k c, challenges_named t (ap_challengeId ap) s2 = [(k, c)] /\ ch_binding c = ap_binding ap
     /\ ch_proofDigest c = ap_challengeProofDigest ap /\ is_Some (ch_consumingCommandId c).
Proof.
  intros Hwf%reachable_decision_wf Ha Hs. destruct (decision_steps_extend _ _ Hwf Hs) as [Hwf2 Hext].
  assert (getApproval t a s2 = Some ap) as Ha2 by (eapply lookup_weaken; [done | by destruct Hext]).
  destruct (wf_approvals _ Hwf2 _ _ Ha2) as (Hkey & _ & k & c & Hk & Hi & Hans). injection Hkey as Ht Hia.
  split_and!; [done | done | done |]. exists k, c. unfold answers in Hans. bools. split_and!; [| done | done | by apply not_eq_None_Some].
  assert (binding_tenant (ch_binding c) = t) as <- by congruence. rewrite <- Hi.
  by apply challenges_named_single.
Qed.


(** C38: a decision goes through.  An active challenge that is open and
    unexpired is consumed; a fresh approval that answers it is then stored, and an
    unused authorization key claims that approval before it expires. *)
Theorem decision_goes_through s t run decision c cmd at_ a a' k at2 :
  steps decision_step empty_decision_store s ->
  getActiveChallenge t run decision s = Some c -> ch_consumingCommandId c = None ->
  date_le (ch_expiresAt c) at_ = false -> is_Some (trimmed 256 cmd) -> zod_datetime at_ = true ->
  ApprovalSchema a = Some a' -> ap_challengeId a' = ch_id c -> ap_binding a' = ch_binding c ->
  ap_challengeProofDigest a' = ch_proofDigest c -> getApproval t (ap_id a') s = None ->
  date_le (ap_expiresAt a') at2 = false -> ds_approvalAuthorizationKeys s !! (t, k) = None ->
  trimmed 512 k = Some k -> zod_datetime at2 = true ->
  exists s1 s2 s3 claim,
    consumeChallenge t (ch_id c) cmd at_ s = (Return tt, s1)
    /\ putApproval a s1 = (Return tt, s2)
    /\ claimApproval t (ap_id a') k at2 s2 = (Return claim, s3)
    /\ auc_authorizationKey claim = k /\ getApproval t (ap_id a') s3 = Some a'.
Proof.
  intros Hwf%reachable_decision_wf Hact Hopen Hexp [cmd' Hcmd] Hat Ha Hid Hb Hp Hfresh Hexp2 Hkey Hk Hat2.
  unfold getActiveChallenge in Hact. destruct (ds_activeChallenges s !! _) as [ck |] eqn:Hck; cbn in Hact; [| done].
  destruct (wf_active _ Hwf _ _ Hck) as (c0 & Hc0 & Hbk). assert (c0 = c) as -> by congruence.
  assert (binding_tenant (ch_binding c) = t) as Ht by (unfold binding_key in Hbk; congruence).
  destruct (wf_challenges _ Hwf _ _ Hact) as [Hkc Hsc].
  assert (DecisionSubmissionChallengeSchema (consumed_by cmd at_ c) = Some (consumed_by cmd' at_ c)) as Hnext.
  { by apply consumed_by_accepted. }
  set (s1 := with_challenges (map_set ck (consumed_by cmd' at_ c) (ds_challenges s)) (ds_activeChallenges s) s).
  assert (consumeChallenge t (ch_id c) cmd at_ s = (Return tt, s1)) as Hconsume.
  { unfold consumeChallenge, mthen, mget. rewrite <- Ht. rewrite (challenges_named_single _ _ _ Hwf Hact).
    rewrite Hbk, bool_decide_eq_true_2 by exact Hck. cbn [negb]. rewrite Hopen, Hexp. unfold mlift, mput. by rewrite Hnext. }
  assert (decision_wf s1) as Hwf1 by (eapply decision_step_wf; [done | by eapply step_consume_challenge]).
  assert (map_get ck (ds_challenges s1) = Some (consumed_by cmd' at_ c)) as Hck1 by apply map_get_set_eq.
  set (s2 := with_approvals (<[approval_key a' := a']> (ds_approvals s1)) s1).
  assert (approval_key a' = (t, ap_id a')) as Hkey' by (unfold approval_key; congruence).
  assert (putApproval a s1 = (Return tt, s2)) as Hput.
  { unfold putApproval, mthen, mlift, mget, mput. rewrite Ha. cbn [orThrow].
    pose proof (challenges_named_single _ _ _ Hwf1 Hck1) as Hn. cbn [consumed_by ch_binding ch_id] in Hn.
    rewrite Hid, Hb, Hn. unfold answers. cbn [consumed_by ch_consumingCommandId ch_proofDigest ch_binding].
    rewrite bool_decide_eq_false_2, !bool_decide_eq_true_2 by done. cbn [negb andb]. unfold s2. rewrite Hkey'.
    unfold getApproval in Hfresh. change (ds_approvals s1) with (ds_approvals s). by rewrite Hfresh. }
  exists s1, s2, (with_claims (<[(t, ap_id a') := {| auc_approvalId := ap_id a'; auc_authorizationKey := k;
    auc_claimedAt := at2 |}]> (ds_approvalClaims s2)) (<[(t, k) := ap_id a']> (ds_approvalAuthorizationKeys s2)) s2).
  eexists. split_and!; [done | done | | |].
  - unfold claimApproval, mthen, mget, mlift, mput, mreturn.
    assert (ds_approvalClaims s2 !! (t, ap_id a') = None) as ->.
    { destruct (ds_approvalClaims s2 !! (t, ap_id a')) as [cl |] eqn:Hcl; [| done].
      destruct (wf_claims _ Hwf _ _ Hcl) as (_ & [x Hx] & _). unfold getApproval in Hfresh. congruence. }
    cbn [s2 s1 with_approvals ds_approvals ds_approvalAuthorizationKeys with_challenges].
    rewrite Hkey', lookup_insert_eq, Hexp2, Hkey. cbn [changed].
    unfold ApprovalUseClaimSchema. cbn [auc_approvalId auc_authorizationKey auc_claimedAt].
    assert (trimmed 256 (ap_id a') = Some (ap_id a')) as ->.
    { by eapply ApprovalSchema_trimmed. }
    rewrite Hk. cbn. unfold checked. by rewrite Hat2.
  - done.
  - cbn. unfold getApproval. cbn. by rewrite Hkey', lookup_insert_eq.
Qed.
End Executions.

(** ** A decision, from its challenge to the use of its approval

    The concrete execution at which the hypotheses of the properties of the
    decision store hold, and what happens to authorization keys that carry
    surrounding white space. *)

#[local] Existing Instance zod_reference.

Definition alice : Principal := {| principal_type := user; principal_id := "alice" |}.

Definition proposed : ProposedEffectBinding :=
  {| pe_tenant := {| tenant_id := "tenant" |}; pe_principal := alice; pe_runId := "run";
     pe_stepId := "step"; pe_decisionId := "decision"; pe_workOrderBindingDigest := example_digest;
     pe_executionDefinition := example_agent; pe_executionDefinitionDigest := example_digest;
     pe_toolId := "tool"; pe_toolVersion := "1.0.0"; pe_toolRegistrationDigest := example_digest;
     pe_argumentsDigest := example_digest; pe_targetDigest := example_digest; pe_contentDigest := None;
     pe_previewDigest := example_digest;
     pe_purpose := {| purpose_code := "maintenance"; purpose_registryVersion := "1" |};
     pe_policyRegistrationDigest := example_digest |}.

Definition challenge (id : string) : DecisionSubmissionChallenge :=
  {| ch_id := id; ch_issuerId := "issuer"; ch_proofDigest := example_digest; ch_binding := proposed;
     ch_requiredAuthenticationStrength := phishing_resistant; ch_issuedAt := "2026-01-01T00:00:00.000Z";
     ch_expiresAt := "2026-01-01T01:00:00.000Z"; ch_consumingCommandId := None; ch_consumedAt := None |}.

Definition approval (id : string) : Approval :=
  {| ap_id := id; ap_issuerId := "issuer"; ap_challengeId := "challenge";
     ap_challengeProofDigest := example_digest; ap_binding := proposed; ap_approvedBy := alice;
     ap_authenticationStrength := phishing_resistant; ap_createdAt := "2026-01-01T00:10:00.000Z";
     ap_expiresAt := "2026-01-01T02:00:00.000Z" |}.

Definition d_at : string := "2026-01-01T00:10:00.000Z".

Definition offered : DecisionStore := (putChallenge (challenge "challenge") empty_decision_store).2.
Definition consumed : DecisionStore := (consumeChallenge "tenant" "challenge" "command" d_at offered).2.
Definition approved : DecisionStore := (putApproval (approval "approval") consumed).2.
Definition claimed : DecisionStore := (claimApproval "tenant" "approval" "key" d_at approved).2.

Definition the_claim : ApprovalUseClaim :=
  {| auc_approvalId := "approval"; auc_authorizationKey := "key"; auc_claimedAt := d_at |}.

(** A call is its outcome and the state it leaves. *)
Lemma call_pair {A B} (m : A * B) a : m.1 = a -> m = (a, m.2).
Proof. intros <-. by destruct m. Qed.

Lemma consumed_call : consumeChallenge "tenant" "challenge" "command" d_at offered = (Return tt, consumed).
Proof. apply call_pair. vm_compute. reflexivity. Qed.

Lemma approved_call : putApproval (approval "approval") consumed = (Return tt, approved).
Proof. apply call_pair. vm_compute. reflexivity. Qed.

Lemma claimed_call : claimApproval "tenant" "approval" "key" d_at approved = (Return the_claim, claimed).
Proof. apply call_pair. vm_compute. reflexivity. Qed.

Lemma offered_reachable : steps decision_step empty_decision_store offered.
Proof.
  eapply steps_cons; [| apply steps_refl]. exact (step_put_challenge _ _ (challenge "challenge") _ (surjective_pairing _)).
Qed.

Lemma approved_after : steps decision_step consumed approved.
Proof. eapply steps_cons; [exact (step_put_approval _ _ _ _ approved_call) | apply steps_refl]. Qed.

Lemma claimed_after : steps decision_step approved claimed.
Proof. eapply steps_cons; [| apply steps_refl]. eapply step_claim_approval; [| exact claimed_call]. reflexivity. Qed.

Lemma approved_reachable : steps decision_step empty_decision_store approved.
Proof.
  eapply steps_trans; [exact offered_reachable |]. eapply steps_cons; [| exact approved_after].
  exact (step_consume_challenge _ _ _ _ _ _ _ consumed_call).
Qed.

Lemma challenge_consumed_once_witness :
  (consumeChallenge "tenant" "challenge" "other" d_at claimed).2 = claimed
  /\ (consumeChallenge "tenant" "challenge" "other" d_at claimed).1
     = Throw (KafReason KAF_AUTHORIZATION_BINDING_MISMATCH "decision_challenge_used").
Proof.
  destruct (challenge_consumed_once _ _ claimed _ _ _ _ offered_reachable consumed_call
    (steps_trans _ _ _ _ approved_after claimed_after)) as [_ Hlater].
  destruct (Hlater "other" d_at _ _ (surjective_pairing _)) as [Hsame _]. split; [exact Hsame |].
  vm_compute. reflexivity.
Defined.

Lemma approval_answers_challenge_witness :
  exists k c, challenges_named "tenant" "challenge" claimed = [(k, c)]
    /\ ch_binding c = proposed /\ is_Some (ch_consumingCommandId c).
Proof.
  assert (getApproval "tenant" "approval" approved = Some (approval "approval")) as Ha by (vm_compute; reflexivity).
  destruct (approval_answers_challenge _ claimed _ _ _ approved_reachable Ha claimed_after)
    as (_ & _ & _ & k & c & Hn & Hb & _ & Hc).
  exists k, c. split; [exact Hn | split; [exact Hb | exact Hc]].
Defined.


Lemma decision_goes_through_witness :
  exists s1 s2 s3 claim,
    consumeChallenge "tenant" "challenge" "command" d_at offered = (Return tt, s1)
    /\ putApproval (approval "approval") s1 = (Return tt, s2)
    /\ claimApproval "tenant" "approval" "key" d_at s2 = (Return claim, s3)
    /\ auc_authorizationKey claim = "key".
Proof.
  assert (ApprovalSchema (approval "approval") = Some (approval "approval")) as Ha by (vm_compute; reflexivity).
  assert (is_Some (trimmed 256 "command")) as Hc by (vm_compute; eexists; reflexivity).
  assert (getActiveChallenge "tenant" "run" "decision" offered = Some (challenge "challenge")) as Hact
    by (vm_compute; reflexivity).
  edestruct (decision_goes_through offered "tenant" "run" "decision" (challenge "challenge") "command" d_at
    (approval "approval") (approval "approval") "key" d_at offered_reachable Hact)
    as (s1 & s2 & s3 & cl & H1 & H2 & H3 & H4 & _);
    [reflexivity | vm_compute; reflexivity | exact Hc | vm_compute; reflexivity | exact Ha | reflexivity
    | reflexivity | reflexivity | vm_compute; reflexivity | vm_compute; reflexivity | vm_compute; reflexivity
    | vm_compute; reflexivity | vm_compute; reflexivity |].
  exists s1, s2, s3, cl. split; [exact H1 | split; [exact H2 | split; [exact H3 | exact H4]]].
Defined.

(** The schema of a claim trims the authorization key, the index of keys does
    not: a key given once with and once without surrounding white space claims two
    approvals, both recorded under the same key. *)
Lemma untrimmed_key_claims_twice :
  let s0 := (putApproval (approval "second") approved).2 in
  let first := claimApproval "tenant" "approval" " key" d_at s0 in
  let second := claimApproval "tenant" "second" "key" d_at first.2 in
  first.1 = Return the_claim
  /\ second.1 = Return {| auc_approvalId := "second"; auc_authorizationKey := "key"; auc_claimedAt := d_at |}.
Proof. vm_compute. split; reflexivity. Qed.
