(* ===== verification/AuthorityStores.v ===== *)
(** * Grants and wake-ups of the in-memory suite (packages/store-memory/src/authority-stores.ts)

    [MemoryCapabilityGrantStore], whose use claims are one map over all grants,
    and [MemoryWakeupQueue] with the wake-up records of
    packages/core/src/transactions.ts.  Each method resolves a promise and then
    runs to its end, so a call is one step. *)

From S2P Require Import Prelude JsTime Errors Schema JsonValue Unicode JsonText Contracts WorkOrder.
From S2P Require Import StoreInternal Authorization Digest JsMap JsArithmetic.

Local Open Scope Z_scope.
Local Open Scope js_scope.

(** ** Capability grants *)

(** Tenant, grant and authorization key. *)
Definition ClaimKey : Type := string * string * string.

Record MemoryGrantStore := {
  mg_grants : gmap (string * string) CapabilityGrant;
  mg_claims : JsMap ClaimKey (string * CapabilityGrantUseClaim);
}.

Definition empty_memory_grants : MemoryGrantStore := {| mg_grants := ∅; mg_claims := [] |}.

(** [{ ...grant, revokedAt }] *)
Definition revoked_at (revokedAt : string) (g : CapabilityGrant) : CapabilityGrant :=
  {| gr_id := gr_id g; gr_binding := gr_binding g; gr_maximumUses := gr_maximumUses g;
     gr_issuedAt := gr_issuedAt g; gr_expiresAt := gr_expiresAt g; gr_revokedAt := Some revokedAt |}.

Definition grant_tenant (g : CapabilityGrant) : string := tenant_id (gb_tenant (gr_binding g)).

(** The uses of a grant: the claims stored for its tenant and identifier. *)
Definition claim_of (tenantId grantId : string) (e : string * CapabilityGrantUseClaim) : bool :=
  bool_decide (e.1 = tenantId) && bool_decide (uc_grantId e.2 = grantId).

Definition uses_of (tenantId grantId : string) (s : MemoryGrantStore) : Z :=
  Z.of_nat (length (filter (fun e => claim_of tenantId grantId e = true) (map_values (mg_claims s)))).

Section Grants.
(** Whether [pick] of the schema library keeps the strictness of the object
    schema it picks from. *)
Context `{Zod} (pick_keeps_strict : bool).

(** [CapabilityGrantBindingSchema.parse(grant)]: a grant has members the picked
    schema does not name. *)
Definition projectBinding (g : CapabilityGrant) : outcome js_error CapabilityGrantBinding :=
  if pick_keeps_strict then Throw ZodError
  else orThrow (CapabilityGrantBindingSchema (gr_binding g)) ZodError.

Definition memory_issue (input : CapabilityGrant) : method MemoryGrantStore js_error unit :=
  let! grant := mlift (orThrow (CapabilityGrantSchema input) ZodError) in
  let! s := mget in
  match mg_grants s !! (grant_tenant grant, gr_id grant) with
  | Some existing =>
      if bool_decide (existing = grant) then mreturn tt else mlift (conflict "capability_grant_changed")
  | None =>
      mput {| mg_grants := <[(grant_tenant grant, gr_id grant) := grant]> (mg_grants s);
              mg_claims := mg_claims s |}
  end.

Definition memory_revoke (tenantId grantId revokedAt : string) : method MemoryGrantStore js_error unit :=
  let! s := mget in
  match mg_grants s !! (tenantId, grantId) with
  | None => mthrow (KafError KAF_STORAGE_NOT_FOUND [])
  | Some grant =>
      let! revoked := mlift (orThrow (CapabilityGrantSchema (revoked_at revokedAt grant)) ZodError) in
      mput {| mg_grants := <[(tenantId, grantId) := revoked]> (mg_grants s); mg_claims := mg_claims s |}
  end.

Definition memory_resolve (grantId : string) (bindingInput : CapabilityGrantBinding) (at_ : string)
    (s : MemoryGrantStore) : outcome js_error CapabilityGrantResolution :=
  binding ← orThrow (CapabilityGrantBindingSchema bindingInput) ZodError;
  match mg_grants s !! (tenant_id (gb_tenant binding), grantId) with
  | None => Return resolution_missing
  | Some grant =>
      projected ← projectBinding grant;
      if negb (bool_decide (binding = projected)) then Return resolution_binding_mismatch
      else if negb (bool_decide (gr_revokedAt grant = None)) then Return resolution_revoked
      else if date_le (gr_expiresAt grant) at_ then Return resolution_expired
      else
        let usesRemaining := gr_maximumUses grant - uses_of (grant_tenant grant) (gr_id grant) s in
        if usesRemaining <=? 0 then Return resolution_exhausted
        else Return (resolution_active grant usesRemaining)
  end.

Definition grant_unavailable (at_ : string) (grant : CapabilityGrant) : bool :=
  negb (bool_decide (gr_revokedAt grant = None)) || date_le (gr_expiresAt grant) at_.

Definition memory_reserveUse (tenantId grantId authorizationKey at_ : string)
  : method MemoryGrantStore js_error CapabilityGrantUseClaim :=
  let unavailable := KafReason KAF_AUTHORIZATION_BINDING_MISMATCH "capability_grant_unavailable" in
  let! s := mget in
  match map_get (tenantId, grantId, authorizationKey) (mg_claims s) with
  | Some existing => mreturn existing.2
  | None =>
      match mg_grants s !! (tenantId, grantId) with
      | None => mthrow unavailable
      | Some grant =>
          if grant_unavailable at_ grant then mthrow unavailable
          else
            let useNumber := uses_of tenantId grantId s + 1 in
            if gr_maximumUses grant <? useNumber
            then mthrow (KafReason KAF_AUTHORIZATION_BINDING_MISMATCH "capability_grant_exhausted")
            else
              let claim := {| uc_grantId := grantId; uc_authorizationKey := authorizationKey;
                              uc_useNumber := useNumber; uc_claimedAt := at_ |} in
              mput {| mg_grants := mg_grants s;
                      mg_claims := map_set (tenantId, grantId, authorizationKey) (tenantId, claim)
                                     (mg_claims s) |} ;;!
              mreturn claim
      end
  end.
End Grants.

(** The deep copies of a transaction. *)
Definition memory_grants_snapshot (s : MemoryGrantStore) : MemoryGrantStore := s.
Definition memory_grants_restore (snapshot : MemoryGrantStore) : method MemoryGrantStore js_error unit :=
  mput snapshot.

(** ** Wake-ups *)

Inductive WakeupReason :=
| wake_run_accepted | wake_resume | wake_input_submitted | wake_decision_recorded | wake_transition.

Record DurableWakeupRequest := {
  wk_tenantId : string;
  wk_runId : string;
  wk_reason : WakeupReason;
  wk_notBefore : string;
  wk_deduplicationKey : string;
  wk_payload : list (jsstring * JsonValue);
}.

Record DurableWakeupReceipt := {
  wr_receiptId : string;
  wr_requestDigest : string;
  wr_enqueuedAt : string;
}.

Definition wakeup_reason_name (r : WakeupReason) : string :=
  match r with
  | wake_run_accepted => "run_accepted" | wake_resume => "resume"
  | wake_input_submitted => "input_submitted" | wake_decision_recorded => "decision_recorded"
  | wake_transition => "transition"
  end.

Definition wakeup_json (r : DurableWakeupRequest) : JsonValue :=
  Jobj [(js "schemaVersion", Jstr (js "1")); (js "tenantId", Jstr (js (wk_tenantId r)));
        (js "runId", Jstr (js (wk_runId r))); (js "reason", Jstr (js (wakeup_reason_name (wk_reason r))));
        (js "notBefore", Jstr (js (wk_notBefore r)));
        (js "deduplicationKey", Jstr (js (wk_deduplicationKey r)));
        (js "payload", Jobj (wk_payload r))].

(** [sameJson(left, right)] *)
Definition same_text (left right : JsonValue) : outcome js_error bool :=
  l ← lift_json (canonicalJsonStringify left);
  r ← lift_json (canonicalJsonStringify right);
  Return (bool_decide (l = r)).

(** The queue by tenant and deduplication key. *)
Notation WakeupQueue := (gmap (string * string) (DurableWakeupRequest * DurableWakeupReceipt)) (only parsing).

Section Wakeups.
Context `{Zod}.

Definition DurableWakeupRequestSchema (r : DurableWakeupRequest) : option DurableWakeupRequest :=
  tenantId ← trimmed 256 (wk_tenantId r);
  runId ← trimmed 256 (wk_runId r);
  deduplicationKey ← trimmed 512 (wk_deduplicationKey r);
  checked (zod_datetime (wk_notBefore r) && forallb (fun kv => JsonValueSchema kv.2) (wk_payload r))
    {| wk_tenantId := tenantId; wk_runId := runId; wk_reason := wk_reason r;
       wk_notBefore := wk_notBefore r; wk_deduplicationKey := deduplicationKey;
       wk_payload := wk_payload r |}.
End Wakeups.

(** [digest.slice(7, 39)] *)
Definition default_receipt_id (digest : string) : string :=
  String.append "wakeup-" (String.substring 7 32 digest).

(** [now] is the reading of the injected clock. *)
Definition enqueue (generateId : string -> string) (now : string) (request : DurableWakeupRequest)
  : method WakeupQueue js_error DurableWakeupReceipt :=
  let key := (wk_tenantId request, wk_deduplicationKey request) in
  let! s := mget in
  match s !! key with
  | Some (stored, receipt) =>
      let! same := mlift (same_text (wakeup_json stored) (wakeup_json request)) in
      if (same : bool) then mreturn receipt else mlift (conflict "wakeup_deduplication_changed")
  | None =>
      let! digest := mlift (digestCanonicalJson (wakeup_json request)) in
      let receipt := {| wr_receiptId := generateId digest; wr_requestDigest := digest; wr_enqueuedAt := now |} in
      mput (<[key := (request, receipt)]> s) ;;!
      mreturn receipt
  end.

Definition wakeup_snapshot (s : WakeupQueue) : WakeupQueue := s.
Definition wakeup_restore (snapshot : WakeupQueue) : method WakeupQueue js_error unit := mput snapshot.
Definition wakeup_size (s : WakeupQueue) : Z := Z.of_nat (size s).
