(* ===== verification/WorkOrderStore.v ===== *)
(** * The store of accepted work orders (packages/store-memory/src/record-stores.ts)

    The canonical JSON of a work order, the digest that binds it, and
    [MemoryAcceptedWorkOrderStore].  Confidential and restricted work orders are
    handed to a data protector, a port of the host; a call of it suspends the
    method, so an insertion has a part before and a part after it. *)

From S2P Require Import Prelude JsTime Errors Schema JsonValue Unicode JsonText Contracts WorkOrder.
From S2P Require Import StoreInternal Digest JsArithmetic EffectLedger.

Local Open Scope Z_scope.
Local Open Scope js_scope.

(** ** Work orders as JSON *)

Definition risk_class_name (r : RiskClass) : string :=
  match r with risk_low => "low" | risk_medium => "medium" | risk_high => "high" | risk_critical => "critical" end.

Definition work_mode_name (m : WorkMode) : string :=
  match m with
  | mode_assist => "assist" | mode_augment => "augment" | mode_automate => "automate"
  | mode_apprenticeship_protected => "apprenticeship_protected"
  | mode_critical_human_decision => "critical_human_decision"
  end.

Definition autonomy_mode_name (m : AutonomyMode) : string :=
  match m with
  | autonomy_assist => "assist" | autonomy_co_produce => "co_produce"
  | autonomy_delegate_review => "delegate_review" | autonomy_exception_based => "exception_based"
  | autonomy_closed_loop => "closed_loop"
  end.

Definition data_class_name (d : DataClass) : string :=
  match d with
  | data_public => "public" | data_internal => "internal" | data_confidential => "confidential"
  | data_restricted => "restricted" | data_highly_restricted => "highly_restricted"
  end.

Definition scope_kind_name (k : ResourceScopeKind) : string :=
  match k with
  | scope_path => "path" | scope_url => "url" | scope_host => "host" | scope_identifier => "identifier"
  | scope_tenant => "tenant" | scope_urn => "urn" | scope_dataset => "dataset" | scope_run => "run"
  | scope_record => "record" | scope_artifact => "artifact" | scope_opaque => "opaque"
  end.

Definition principal_json (p : Principal) : JsonValue :=
  Jobj [(js "type", jstr match principal_type p with
                         | user => "user" | service => "service" | system_worker => "system_worker"
                         end);
        (js "id", jstr (principal_id p))].

Definition owner_json (o : AcceptedDecisionOwner) : JsonValue :=
  match o with
  | owner_principal p => Jobj [(js "mode", jstr "principal"); (js "principal", principal_json p)]
  | owner_registered_role r => Jobj [(js "mode", jstr "registered_role"); (js "role", jstr r)]
  end.

Definition retention_json (r : RetentionPolicy) : JsonValue :=
  match r with
  | retain_session => Jobj [(js "mode", jstr "session")]
  | retain_until at_ => Jobj [(js "mode", jstr "until"); (js "expiresAt", jstr at_)]
  | retain_host_policy p => Jobj [(js "mode", jstr "host_policy"); (js "policyId", jstr p)]
  end.

Definition scope_json (s : ResourceScope) : JsonValue :=
  Jobj [(js "kind", jstr (scope_kind_name (scope_kind s))); (js "value", Jstr (scope_value s));
        (js "normalizationVersion", jstr (scope_normalizationVersion s))].

Definition number_field (key : string) (value : option Z) : list (jsstring * JsonValue) :=
  match value with Some n => [(js key, Jnum (number n))] | None => [] end.

Definition budget_json (b : WorkBudget) : JsonValue :=
  Jobj ([(js "maxTurns", Jnum (number (wb_maxTurns b)));
         (js "maxModelCalls", Jnum (number (wb_maxModelCalls b)));
         (js "maxToolCalls", Jnum (number (wb_maxToolCalls b)));
         (js "maxActiveExecutionMs", Jnum (number (wb_maxActiveExecutionMs b)))]
        ++ number_field "maxModelInputBytesPerCall" (wb_maxModelInputBytesPerCall b)
        ++ number_field "maxModelInputTokensPerCall" (wb_maxModelInputTokensPerCall b)
        ++ number_field "maxModelOutputTokensPerCall" (wb_maxModelOutputTokensPerCall b)
        ++ number_field "maxStreamedOutputBytesPerCall" (wb_maxStreamedOutputBytesPerCall b)
        ++ number_field "maxStreamedOutputEventsPerCall" (wb_maxStreamedOutputEventsPerCall b)
        ++ number_field "maxToolResultContextBytesPerCall" (wb_maxToolResultContextBytesPerCall b)
        ++ number_field "maxContextSnapshotBytes" (wb_maxContextSnapshotBytes b)
        ++ number_field "maxRunModelInputBytes" (wb_maxRunModelInputBytes b)
        ++ number_field "maxRunModelOutputBytes" (wb_maxRunModelOutputBytes b)
        ++ number_field "maxRunModelInputTokens" (wb_maxRunModelInputTokens b)
        ++ number_field "maxRunModelOutputTokens" (wb_maxRunModelOutputTokens b)
        ++ number_field "maxRunToolResultContextBytes" (wb_maxRunToolResultContextBytes b)
        ++ match wb_monetaryCeiling b with
           | Some m => [(js "monetaryCeiling",
               Jobj [(js "amount", Jnum (mc_amount m)); (js "currency", jstr (mc_currency m));
                     (js "maximumPriceBoundVersion", jstr (mc_maximumPriceBoundVersion m));
                     (js "maximumPriceBoundExpiresAt", jstr (mc_maximumPriceBoundExpiresAt m))])]
           | None => []
           end).

Definition common_fields (w : WorkOrderCommon) : list (jsstring * JsonValue) :=
  [(js "schemaVersion", jstr "1"); (js "id", jstr (wo_id w)); (js "createdAt", jstr (wo_createdAt w));
   (js "goal", jstr (wo_goal w)); (js "input", wo_input w);
   (js "context", Jobj [(js "roleFamily", jstr (wc_roleFamily (wo_context w)));
                        (js "workflowId", jstr (wc_workflowId (wo_context w)));
                        (js "riskClass", jstr (risk_class_name (wc_riskClass (wo_context w))))]);
   (js "workMode", jstr (work_mode_name (wo_workMode w)));
   (js "autonomyMode", jstr (autonomy_mode_name (wo_autonomyMode w)));
   (js "decisionOwner", owner_json (wo_decisionOwner w));
   (js "purpose", Jobj [(js "code", jstr (purpose_code (wo_purpose w)));
                        (js "registryVersion", jstr (purpose_registryVersion (wo_purpose w)))]);
   (js "dataClass", jstr (data_class_name (wo_dataClass w)));
   (js "retention", retention_json (wo_retention w));
   (js "principal", principal_json (wo_principal w));
   (js "tenant", Jobj [(js "id", jstr (tenant_id (wo_tenant w)))]);
   (js "requestedCapabilities", Jarr (jstr <$> wo_requestedCapabilities w));
   (js "resourceScopeCeiling", Jarr (scope_json <$> wo_resourceScopeCeiling w));
   (js "budget", budget_json (wo_budget w))]
  ++ match wo_workflowContext w with Some fields => [(js "workflowContext", Jobj fields)] | None => [] end
  ++ optional_field "correlationId" (wo_correlationId w)
  ++ optional_field "deadline" (wo_deadline w)
  ++ optional_field "region" (wo_region w)
  ++ optional_field "jurisdiction" (wo_jurisdiction w).

Definition kind_fields (k : WorkOrderKind) : list (jsstring * JsonValue) :=
  match k with
  | agent_work_order def security resource adapter =>
      [(js "kind", jstr "agent"); (js "executionDefinition", execution_definition_json (agent_definition def));
       (js "modelSecurityProfileDigest", jstr security); (js "modelResourceProfileDigest", jstr resource);
       (js "modelAdapterRegistrationDigest", jstr adapter)]
  | compensation_work_order def run effect effectDigest result ack strategy tool version reg =>
      [(js "kind", jstr "compensation");
       (js "executionDefinition", execution_definition_json (compensation_definition def));
       (js "originalRunId", jstr run); (js "originalEffectId", jstr effect);
       (js "originalEffectDigest", jstr effectDigest); (js "originalEffectResultDigest", jstr result);
       (js "originalEffectAcknowledgementDigest", jstr ack);
       (js "compensationStrategyRegistrationDigest", jstr strategy); (js "compensationToolId", jstr tool);
       (js "compensationToolVersion", jstr version); (js "compensationToolRegistrationDigest", jstr reg)]
  end.

(** The members the binding digest covers. *)
Definition work_order_material (w : AcceptedWorkOrder) : list (jsstring * JsonValue) :=
  common_fields (wo_common w)
  ++ [(js "executionDefinitionDigest", jstr (wo_executionDefinitionDigest w))] ++ kind_fields (wo_kind w).

Definition work_order_json (w : AcceptedWorkOrder) : JsonValue :=
  Jobj (work_order_material w
        ++ [(js "workOrderBindingDigest", jstr (wo_workOrderBindingDigest (wo_common w)))]).

Definition computeAcceptedWorkOrderBindingDigest (w : AcceptedWorkOrder) : outcome js_error string :=
  digestCanonicalJson (Jobj (work_order_material w)).

Definition assertWorkOrderBindingDigest (w : AcceptedWorkOrder) : outcome js_error unit :=
  digest ← computeAcceptedWorkOrderBindingDigest w;
  if bool_decide (digest = wo_workOrderBindingDigest (wo_common w)) then Return tt
  else conflict "work_order_binding_digest_mismatch".

(** ** Protected values *)

Record ProtectedValueRef := {
  pv_protectorId : string;
  pv_keyId : string;
  pv_ciphertextRef : string;
  pv_ciphertextDigest : string;
  pv_aadDigest : string;
  pv_algorithm : string;
}.

#[export] Instance ProtectedValueRef_eq_dec : EqDecision ProtectedValueRef.
Proof. solve_decision. Defined.

Definition ProtectedValueRefSchema (p : ProtectedValueRef) : bool :=
  min1 (pv_protectorId p) && min1 (pv_keyId p) && min1 (pv_ciphertextRef p)
  && DigestSchema (pv_ciphertextDigest p) && DigestSchema (pv_aadDigest p) && min1 (pv_algorithm p).

(** [isSensitive(dataClass)] *)
Definition isSensitive (d : DataClass) : bool :=
  match d with data_confidential | data_restricted => true | _ => false end.

(** ** The store *)

(** What a record holds: the work order itself, or the reference its protector gave. *)
Inductive StoredWorkOrder :=
| stored_plain (w : AcceptedWorkOrder)
| stored_protected (r : ProtectedValueRef).

Record WorkOrderRecord := {
  wor_canonicalDigest : string;
  wor_dataClass : DataClass;
  wor_expiresAt : option string;
  wor_stored : StoredWorkOrder;
}.

Notation WorkOrderStore := (gmap (string * string) WorkOrderRecord) (only parsing).

(** The protector of the host with the text codec around it: [dp_protect tenant id w]
    is [protect(binding, encode(JSON.stringify(w)))], and [dp_unprotect tenant id ref]
    is [unprotect(binding, ref)] decoded, [None] when it is not the text of a value
    the schema accepts. *)
Record WorkOrderProtector := {
  dp_protect : string -> string -> AcceptedWorkOrder -> outcome js_error ProtectedValueRef;
  dp_unprotect : string -> string -> ProtectedValueRef -> outcome js_error (option AcceptedWorkOrder);
}.

Definition wo_tenantId (w : AcceptedWorkOrder) : string := tenant_id (wo_tenant (wo_common w)).
Definition work_order_key (w : AcceptedWorkOrder) : string * string := (wo_tenantId w, wo_id (wo_common w)).

Definition retention_expiry (r : RetentionPolicy) : option string :=
  match r with retain_until at_ => Some at_ | _ => None end.

Definition security_profile_reason (reason : string) : js_error :=
  KafReason KAF_STORAGE_SECURITY_PROFILE reason.

Section Store.
Context `{Zod} (profile : StorageSecurityProfile) (protector : option WorkOrderProtector).

(** [putImmutable] up to the protector: the parsed work order and its digest, or
    nothing when it is stored already. *)
Definition work_order_admit (input : AcceptedWorkOrder)
  : method WorkOrderStore js_error (option (AcceptedWorkOrder * string)) :=
  let! workOrder := mlift (orThrow (AcceptedWorkOrderSchema input) ZodError) in
  mlift (assertWriteAllowed profile (wo_tenantId workOrder) (purpose_code (wo_purpose (wo_common workOrder)))
           (wo_dataClass (wo_common workOrder))) ;;!
  mlift (assertWorkOrderBindingDigest workOrder) ;;!
  let! canonicalDigest := mlift (digestCanonicalJson (work_order_json workOrder)) in
  let! s := mget in
  match s !! work_order_key workOrder with
  | Some existing =>
      if bool_decide (wor_canonicalDigest existing = canonicalDigest) then mreturn None
      else mlift (conflict "immutable_work_order_changed")
  | None => mreturn (Some (workOrder, canonicalDigest))
  end.

Definition work_order_record (workOrder : AcceptedWorkOrder) (canonicalDigest : string)
    (stored : StoredWorkOrder) : WorkOrderRecord :=
  {| wor_canonicalDigest := canonicalDigest; wor_dataClass := wo_dataClass (wo_common workOrder);
     wor_expiresAt := retention_expiry (wo_retention (wo_common workOrder)); wor_stored := stored |}.

(** The assignment after it. *)
Definition work_order_commit (workOrder : AcceptedWorkOrder) (canonicalDigest : string)
    (stored : StoredWorkOrder) : method WorkOrderStore js_error unit :=
  let! s := mget in
  mput (<[work_order_key workOrder := work_order_record workOrder canonicalDigest stored]> s).

Definition protect_work_order (workOrder : AcceptedWorkOrder) : outcome js_error StoredWorkOrder :=
  if isSensitive (wo_dataClass (wo_common workOrder)) then
    p ← orThrow protector (security_profile_reason "data_protector_required");
    stored_protected <$> dp_protect p (wo_tenantId workOrder) (wo_id (wo_common workOrder)) workOrder
  else Return (stored_plain workOrder).

(** The whole method when no other call runs while the protector does. *)
Definition putImmutable (input : AcceptedWorkOrder) : method WorkOrderStore js_error unit :=
  let! admitted := work_order_admit input in
  match admitted with
  | None => mreturn tt
  | Some (workOrder, canonicalDigest) =>
      let! stored := mlift (protect_work_order workOrder) in
      work_order_commit workOrder canonicalDigest stored
  end.

Definition read_work_order (tenantId workOrderId : string) (stored : StoredWorkOrder)
  : outcome js_error AcceptedWorkOrder :=
  match stored with
  | stored_plain w => Return w
  | stored_protected r =>
      p ← orThrow protector (security_profile_reason "protected_work_order_unavailable");
      value ← dp_unprotect p tenantId workOrderId r;
      orThrow value (security_profile_reason "protected_work_order_invalid")
  end.

(** [now] is the reading of the clock. *)
Definition work_order_get (tenantId workOrderId now : string)
  : method WorkOrderStore js_error (option AcceptedWorkOrder) :=
  let! s := mget in
  match s !! (tenantId, workOrderId) with
  | None => mreturn None
  | Some record =>
      let! expired := mlift (hasExpired (wor_expiresAt record) now) in
      if (expired : bool) then mput (base.delete (tenantId, workOrderId) s) ;;! mreturn None
      else
        let! value := mlift (read_work_order tenantId workOrderId (wor_stored record)) in
        if negb (bool_decide (wo_tenantId value = tenantId) && bool_decide (wo_id (wo_common value) = workOrderId))
        then mlift (conflict "work_order_binding_changed")
        else
          mlift (assertWorkOrderBindingDigest value) ;;!
          let! digest := mlift (digestCanonicalJson (work_order_json value)) in
          if bool_decide (digest = wor_canonicalDigest record) then mreturn (Some value)
          else mlift (conflict "work_order_payload_changed")
  end.

Definition work_order_delete (tenantId workOrderId : string) : method WorkOrderStore js_error unit :=
  let! s := mget in mput (base.delete (tenantId, workOrderId) s).

End Store.

(** [purgeExpired(at)] of a store whose records expire as [expiry] says: the loop
    reads the clock value [at] again for each record that can expire, and throws
    before any deletion when it is no instant. *)
Definition purge_expired {K V} `{Countable K} (expiry : V -> option string) (at_ : string)
  : method (gmap K V) js_error Z :=
  let! s := mget in
  let expirable := filter (fun kv => expiry kv.2 <> None) s in
  if bool_decide (expirable = ∅) then mreturn 0
  else
    let! now := mlift (assertValidInstant at_) in
    let lapsed (v : V) := match expiry v with Some e => nan_le (Date_parse e) (Some now) | None => false end in
    mput (filter (fun kv => lapsed kv.2 = false) s) ;;!
    mreturn (Z.of_nat (size (filter (fun kv => lapsed kv.2 = true) s))).

Definition work_order_purge (at_ : string) : method WorkOrderStore js_error Z :=
  purge_expired wor_expiresAt at_.

Definition work_order_snapshot (s : WorkOrderStore) : WorkOrderStore := s.
Definition work_order_restore (snapshot : WorkOrderStore) : method WorkOrderStore js_error unit := mput snapshot.
