(* ===== verification/RecordStores.v ===== *)
(** * Input submissions and context snapshots (packages/core/src/context.ts,
    packages/store-memory/src/record-stores.ts)

    The protected values a run receives and the snapshots of its context, with
    [MemoryInputSubmissionStore] and [MemoryContextStore].  Each method resolves
    a promise and then runs to its end. *)

From S2P Require Import Prelude JsTime Errors Schema JsonValue Unicode Contracts WorkOrder.
From S2P Require Import StoreInternal JsMap WorkOrderStore.

Local Open Scope Z_scope.
Local Open Scope js_scope.

(** ** Records *)

(** [RetentionRequestSchema] of storage.ts *)
Inductive RetentionRequest :=
| request_session
| request_until (expiresAt : string)
| request_policy (policyId : string).

Record InputSubmissionRecord := {
  is_inputSubmissionRecordId : string;
  is_tenantId : string;
  is_runId : string;
  is_requestId : string;
  is_requestingStepId : string;
  is_requestingEventId : string;
  is_executionDefinition : ExecutionDefinitionRef;
  is_executionDefinitionDigest : string;
  is_workOrderBindingDigest : string;
  is_inputSchemaDigest : string;
  is_valueDigest : string;
  is_protectedValue : ProtectedValueRef;
  is_submittingPrincipalId : string;
  is_purposeCode : string;
  is_purposeRegistryVersion : string;
  is_dataClass : DataClass;
  is_retention : RetentionRequest;
  is_consumingCommandId : string;
  is_createdAt : string;
}.

Inductive ContextRetentionMode := context_session | context_until | context_policy.

Record ContextRetention := {
  ctr_mode : ContextRetentionMode;
  ctr_expiresAt : option string;
  ctr_policyId : option string;
}.

Record ContextSnapshot := {
  ctx_snapshotId : string;
  ctx_tenantId : string;
  ctx_runId : string;
  ctx_sequence : Z;
  ctx_stepId : string;
  ctx_executionDefinition : ExecutionDefinitionRef;
  ctx_executionDefinitionDigest : string;
  ctx_workOrderBindingDigest : string;
  ctx_contextSchemaDigest : string;
  ctx_contextDigest : string;
  ctx_protectedValue : ProtectedValueRef;
  ctx_byteSize : Z;
  ctx_purposeCode : string;
  ctx_purposeRegistryVersion : string;
  ctx_dataClass : DataClass;
  ctx_retention : ContextRetention;
  ctx_createdAt : string;
  ctx_expiresAt : option string;
}.

#[export] Instance RetentionRequest_eq_dec : EqDecision RetentionRequest.
Proof. solve_decision. Defined.
#[export] Instance InputSubmissionRecord_eq_dec : EqDecision InputSubmissionRecord.
Proof. solve_decision. Defined.
#[export] Instance ContextRetentionMode_eq_dec : EqDecision ContextRetentionMode.
Proof. solve_decision. Defined.
#[export] Instance ContextRetention_eq_dec : EqDecision ContextRetention.
Proof. solve_decision. Defined.
#[export] Instance ContextSnapshot_eq_dec : EqDecision ContextSnapshot.
Proof. solve_decision. Defined.

Definition not_highly_restricted (d : DataClass) : bool :=
  negb (bool_decide (d = data_highly_restricted)).

Section Schemas.
Context `{Zod}.

Definition RetentionRequestSchema (r : RetentionRequest) : bool :=
  match r with
  | request_session => true
  | request_until at_ => zod_datetime at_
  | request_policy p => min1 p
  end.

Definition InputSubmissionRecordSchema (r : InputSubmissionRecord) : bool :=
  min1 (is_inputSubmissionRecordId r) && min1 (is_tenantId r) && min1 (is_runId r)
  && min1 (is_requestId r) && min1 (is_requestingStepId r) && min1 (is_requestingEventId r)
  && ExecutionDefinitionRefSchema (is_executionDefinition r)
  && DigestSchema (is_executionDefinitionDigest r) && DigestSchema (is_workOrderBindingDigest r)
  && DigestSchema (is_inputSchemaDigest r) && DigestSchema (is_valueDigest r)
  && ProtectedValueRefSchema (is_protectedValue r) && min1 (is_submittingPrincipalId r)
  && min1 (is_purposeCode r) && min1 (is_purposeRegistryVersion r)
  && not_highly_restricted (is_dataClass r) && RetentionRequestSchema (is_retention r)
  && min1 (is_consumingCommandId r) && zod_datetime (is_createdAt r).

Definition ContextSnapshotSchema (c : ContextSnapshot) : bool :=
  min1 (ctx_snapshotId c) && min1 (ctx_tenantId c) && min1 (ctx_runId c)
  && int_nonnegative (ctx_sequence c) && min1 (ctx_stepId c)
  && ExecutionDefinitionRefSchema (ctx_executionDefinition c)
  && DigestSchema (ctx_executionDefinitionDigest c) && DigestSchema (ctx_workOrderBindingDigest c)
  && DigestSchema (ctx_contextSchemaDigest c) && DigestSchema (ctx_contextDigest c)
  && ProtectedValueRefSchema (ctx_protectedValue c) && int_nonnegative (ctx_byteSize c)
  && min1 (ctx_purposeCode c) && min1 (ctx_purposeRegistryVersion c)
  && not_highly_restricted (ctx_dataClass c)
  && optional zod_datetime (ctr_expiresAt (ctx_retention c))
  && optional min1 (ctr_policyId (ctx_retention c))
  && zod_datetime (ctx_createdAt c) && optional zod_datetime (ctx_expiresAt c).
End Schemas.

(** ** Input submissions: by tenant, run and request *)

Notation InputStore := (gmap (string * string * string) InputSubmissionRecord) (only parsing).

Definition input_key (r : InputSubmissionRecord) : string * string * string :=
  (is_tenantId r, is_runId r, is_requestId r).

Definition input_expiry (r : InputSubmissionRecord) : option string :=
  match is_retention r with request_until at_ => Some at_ | _ => None end.

Section Inputs.
Context `{Zod} (profile : StorageSecurityProfile).

Definition putOnce (input : InputSubmissionRecord) : method InputStore js_error InputSubmissionRecord :=
  let! record := mlift (parse InputSubmissionRecordSchema input) in
  mlift (assertWriteAllowed profile (is_tenantId record) (is_purposeCode record) (is_dataClass record)) ;;!
  let! s := mget in
  match s !! input_key record with
  | Some existing =>
      if bool_decide (existing = record) then mreturn existing else mlift (conflict "input_submission_changed")
  | None => mput (<[input_key record := record]> s) ;;! mreturn record
  end.

Definition input_get (tenantId runId requestId now : string)
  : method InputStore js_error (option InputSubmissionRecord) :=
  let! s := mget in
  match s !! (tenantId, runId, requestId) with
  | None => mreturn None
  | Some record =>
      let! expired := mlift (hasExpired (input_expiry record) now) in
      if (expired : bool) then mput (base.delete (tenantId, runId, requestId) s) ;;! mreturn None
      else mreturn (Some record)
  end.

Definition input_delete (tenantId runId requestId : string) : method InputStore js_error unit :=
  let! s := mget in mput (base.delete (tenantId, runId, requestId) s).

Definition input_purge (at_ : string) : method InputStore js_error Z := purge_expired input_expiry at_.
End Inputs.

Definition input_snapshot (s : InputStore) : InputStore := s.
Definition input_restore (snapshot : InputStore) : method InputStore js_error unit := mput snapshot.

(** ** Context snapshots: a stream of snapshots by identifier for each tenant and run *)

Notation ContextStream := (JsMap string ContextSnapshot) (only parsing).
Notation ContextStore := (gmap (string * string) (JsMap string ContextSnapshot)) (only parsing).

(** [Map.prototype.delete] *)
Definition map_delete {V} (k : string) (m : JsMap string V) : JsMap string V :=
  filter (fun e => negb (bool_decide (e.1 = k)) = true) m.

Definition later_snapshot (latest : option ContextSnapshot) (c : ContextSnapshot) : bool :=
  match latest with
  | None => true
  | Some l =>
      (ctx_sequence l <? ctx_sequence c)
      || ((ctx_sequence c =? ctx_sequence l) && String.ltb (ctx_snapshotId l) (ctx_snapshotId c))
  end.

Definition set_stream (key : string * string) (stream : ContextStream) : method ContextStore js_error unit :=
  let! s := mget in mput (<[key := stream]> s).

Definition delete_snapshot (key : string * string) (snapshotId : string) : method ContextStore js_error unit :=
  let! s := mget in set_stream key (map_delete snapshotId (default [] (s !! key))).

(** A stream that has become empty is dropped. *)
Definition drop_empty (key : string * string) : method ContextStore js_error unit :=
  let! s := mget in
  match s !! key with Some [] => mput (base.delete key s) | _ => mreturn tt end.

Section Contexts.
Context `{Zod} (profile : StorageSecurityProfile).

Definition context_put (input : ContextSnapshot) : method ContextStore js_error unit :=
  let! snapshot := mlift (parse ContextSnapshotSchema input) in
  mlift (assertWriteAllowed profile (ctx_tenantId snapshot) (ctx_purposeCode snapshot) (ctx_dataClass snapshot)) ;;!
  let! s := mget in
  let key := (ctx_tenantId snapshot, ctx_runId snapshot) in
  let stream := default [] (s !! key) in
  match map_get (ctx_snapshotId snapshot) stream with
  | Some existing =>
      if bool_decide (existing = snapshot) then mreturn tt else mlift (conflict "context_snapshot_changed")
  | None => set_stream key (map_set (ctx_snapshotId snapshot) snapshot stream)
  end.

(** One turn of the loop of [getLatest]; the clock is read again for each
    snapshot. *)
Definition latest_turn (key : string * string) (clock : nat -> string)
    (latest : nat * option ContextSnapshot) (e : string * ContextSnapshot)
  : method ContextStore js_error (nat * option ContextSnapshot) :=
  let! expired := mlift (hasExpired (ctx_expiresAt e.2) (clock latest.1)) in
  if (expired : bool) then delete_snapshot key e.1 ;;! mreturn (S latest.1, latest.2)
  else mreturn (S latest.1, if later_snapshot latest.2 e.2 then Some e.2 else latest.2).

Definition getLatest (tenantId runId : string) (clock : nat -> string)
  : method ContextStore js_error (option ContextSnapshot) :=
  let key := (tenantId, runId) in
  let! s := mget in
  match s !! key with
  | None => mreturn None
  | Some stream =>
      let! latest := mfold (latest_turn key clock) (0%nat, None) stream in
      drop_empty key ;;!
      mreturn latest.2
  end.

Definition context_delete (tenantId runId : string) : method ContextStore js_error unit :=
  let! s := mget in mput (base.delete (tenantId, runId) s).

(** The loops of [purgeExpired]: every stream, every snapshot of it. *)
Definition purge_turn (key : string * string) (at_ : string) (removed : Z) (e : string * ContextSnapshot)
  : method ContextStore js_error Z :=
  let! expired := mlift (hasExpired (ctx_expiresAt e.2) at_) in
  if (expired : bool) then delete_snapshot key e.1 ;;! mreturn (removed + 1) else mreturn removed.

Definition purge_stream (at_ : string) (removed : Z) (e : (string * string) * ContextStream)
  : method ContextStore js_error Z :=
  let! removed := mfold (purge_turn e.1 at_) removed e.2 in
  drop_empty e.1 ;;!
  mreturn removed.

Definition context_purge (at_ : string) : method ContextStore js_error Z :=
  let! s := mget in mfold (purge_stream at_) 0 (map_to_list s).
End Contexts.

Definition context_snapshot (s : ContextStore) : ContextStore := s.
Definition context_restore (snapshot : ContextStore) : method ContextStore js_error unit := mput snapshot.
