(* ===== verification/AcknowledgedResults.v ===== *)
(** * Results of acknowledged effects (packages/core/src/effects.ts,
    packages/store-memory/src/acknowledged-effect-results.ts)

    The record that keeps the protected result of an acknowledged effect, its
    binding to the effect, and [MemoryAcknowledgedEffectResultStore].  Each
    method awaits once and then runs to its end; the protector is called after
    the last access to the store. *)

From S2P Require Import Prelude JsTime Errors Schema JsonValue Unicode JsonText Contracts WorkOrder Effects.
From S2P Require Import StoreInternal Digest JsArithmetic EffectLedger WorkOrderStore RecordStores.

Local Open Scope Z_scope.
Local Open Scope js_scope.

(** The members the identity digest covers. *)
Record EffectResultIdentity := {
  er_tenantId : string;
  er_runId : string;
  er_effectId : string;
  er_effectDigest : string;
  er_resultDigest : string;
  er_byteSize : Z;
  er_workOrderId : string;
  er_workOrderBindingDigest : string;
  er_executionDefinition : ExecutionDefinitionRef;
  er_executionDefinitionDigest : string;
  er_toolId : string;
  er_toolVersion : string;
  er_toolRegistrationDigest : string;
  er_strategy : EffectStrategyKind;
  er_strategyRegistrationDigest : string;
  er_resultSchemaDigest : string;
  er_purposeCode : string;
  er_purposeRegistryVersion : string;
  er_dataClass : DataClass;
  er_createdAt : string;
}.

Record ProtectedEffectResultRecord := {
  er_identity : EffectResultIdentity;
  er_protectedValue : ProtectedValueRef;
}.

#[export] Instance EffectResultIdentity_eq_dec : EqDecision EffectResultIdentity.
Proof. solve_decision. Defined.
#[export] Instance ProtectedEffectResultRecord_eq_dec : EqDecision ProtectedEffectResultRecord.
Proof. solve_decision. Defined.

Section Schemas.
Context `{Zod}.

Definition ProtectedEffectResultRecordSchema (r : ProtectedEffectResultRecord) : bool :=
  let i := er_identity r in
  min1 (er_tenantId i) && min1 (er_runId i) && min1 (er_effectId i) && DigestSchema (er_effectDigest i)
  && DigestSchema (er_resultDigest i) && int_nonnegative (er_byteSize i) && min1 (er_workOrderId i)
  && DigestSchema (er_workOrderBindingDigest i) && ExecutionDefinitionRefSchema (er_executionDefinition i)
  && DigestSchema (er_executionDefinitionDigest i) && min1 (er_toolId i) && min1 (er_toolVersion i)
  && DigestSchema (er_toolRegistrationDigest i) && DigestSchema (er_strategyRegistrationDigest i)
  && DigestSchema (er_resultSchemaDigest i) && min1 (er_purposeCode i) && min1 (er_purposeRegistryVersion i)
  && not_highly_restricted (er_dataClass i) && ProtectedValueRefSchema (er_protectedValue r)
  && zod_datetime (er_createdAt i).
End Schemas.

(** ** Records as JSON *)

Definition protected_value_json (p : ProtectedValueRef) : JsonValue :=
  Jobj [(js "schemaVersion", jstr "1"); (js "protectorId", jstr (pv_protectorId p));
        (js "keyId", jstr (pv_keyId p)); (js "ciphertextRef", jstr (pv_ciphertextRef p));
        (js "ciphertextDigest", jstr (pv_ciphertextDigest p)); (js "aadDigest", jstr (pv_aadDigest p));
        (js "algorithm", jstr (pv_algorithm p))].

Definition effect_result_fields (i : EffectResultIdentity) : list (jsstring * JsonValue) :=
  [(js "schemaVersion", jstr "1"); (js "tenantId", jstr (er_tenantId i)); (js "runId", jstr (er_runId i));
   (js "effectId", jstr (er_effectId i)); (js "effectDigest", jstr (er_effectDigest i));
   (js "resultDigest", jstr (er_resultDigest i)); (js "byteSize", Jnum (number (er_byteSize i)));
   (js "workOrderId", jstr (er_workOrderId i));
   (js "workOrderBindingDigest", jstr (er_workOrderBindingDigest i));
   (js "executionDefinition", execution_definition_json (er_executionDefinition i));
   (js "executionDefinitionDigest", jstr (er_executionDefinitionDigest i));
   (js "toolId", jstr (er_toolId i)); (js "toolVersion", jstr (er_toolVersion i));
   (js "toolRegistrationDigest", jstr (er_toolRegistrationDigest i));
   (js "strategy", jstr (strategy_name (er_strategy i)));
   (js "strategyRegistrationDigest", jstr (er_strategyRegistrationDigest i));
   (js "resultSchemaDigest", jstr (er_resultSchemaDigest i)); (js "purposeCode", jstr (er_purposeCode i));
   (js "purposeRegistryVersion", jstr (er_purposeRegistryVersion i));
   (js "dataClass", jstr (data_class_name (er_dataClass i))); (js "createdAt", jstr (er_createdAt i))].

Definition protectedEffectResultIdentityDigest (r : ProtectedEffectResultRecord) : outcome js_error string :=
  digestCanonicalJson (Jobj (effect_result_fields (er_identity r))).

Definition effect_result_json (r : ProtectedEffectResultRecord) : JsonValue :=
  Jobj (effect_result_fields (er_identity r) ++ [(js "protectedValue", protected_value_json (er_protectedValue r))]).

(** ** The binding of a result to its effect *)

(** The members [assertEffectResultRecordBinding] compares. *)
Record ResultBinding := {
  rb_tenantId : string;
  rb_runId : string;
  rb_effectId : string;
  rb_effectDigest : string;
  rb_resultDigest : string;
  rb_workOrderBindingDigest : string;
  rb_executionDefinition : ExecutionDefinitionRef;
  rb_executionDefinitionDigest : string;
  rb_toolId : string;
  rb_toolVersion : string;
  rb_toolRegistrationDigest : string;
  rb_strategy : EffectStrategyKind;
  rb_strategyRegistrationDigest : string;
  rb_resultSchemaDigest : string;
  rb_createdAt : string;
}.

#[export] Instance ResultBinding_eq_dec : EqDecision ResultBinding.
Proof. solve_decision. Defined.

Definition expected_binding (effect : EffectRecord) (resultDigest : string) (a : EffectAcknowledgement)
  : ResultBinding :=
  let i := eff_identity effect in
  {| rb_tenantId := eff_tenantId i; rb_runId := eff_runId i; rb_effectId := eff_effectId i;
     rb_effectDigest := eff_effectDigest effect; rb_resultDigest := resultDigest;
     rb_workOrderBindingDigest := eff_workOrderBindingDigest i;
     rb_executionDefinition := eff_executionDefinition i;
     rb_executionDefinitionDigest := eff_executionDefinitionDigest i;
     rb_toolId := eff_toolId i; rb_toolVersion := eff_toolVersion i;
     rb_toolRegistrationDigest := eff_toolRegistrationDigest i; rb_strategy := eff_strategy i;
     rb_strategyRegistrationDigest := eff_strategyRegistrationDigest i;
     rb_resultSchemaDigest := ack_resultSchemaDigest a; rb_createdAt := eff_updatedAt effect |}.

Definition actual_binding (r : ProtectedEffectResultRecord) : ResultBinding :=
  let i := er_identity r in
  {| rb_tenantId := er_tenantId i; rb_runId := er_runId i; rb_effectId := er_effectId i;
     rb_effectDigest := er_effectDigest i; rb_resultDigest := er_resultDigest i;
     rb_workOrderBindingDigest := er_workOrderBindingDigest i;
     rb_executionDefinition := er_executionDefinition i;
     rb_executionDefinitionDigest := er_executionDefinitionDigest i;
     rb_toolId := er_toolId i; rb_toolVersion := er_toolVersion i;
     rb_toolRegistrationDigest := er_toolRegistrationDigest i; rb_strategy := er_strategy i;
     rb_strategyRegistrationDigest := er_strategyRegistrationDigest i;
     rb_resultSchemaDigest := er_resultSchemaDigest i; rb_createdAt := er_createdAt i |}.

Section Binding.
Context `{Zod}.

Definition assertEffectResultRecordBinding (input : ProtectedEffectResultRecord) (effectInput : EffectRecord)
  : outcome js_error unit :=
  record ← parse ProtectedEffectResultRecordSchema input;
  effect ← parse EffectRecordSchema effectInput;
  match eff_variant effect with
  | effect_acknowledged resultDigest a =>
      if bool_decide (actual_binding record = expected_binding effect resultDigest a) then Return tt
      else conflict "acknowledged_effect_result_binding_changed"
  | _ => conflict "effect_result_requires_acknowledged_effect"
  end.
End Binding.

(** ** The store *)

Record StoredEffectResult := {
  ser_identityDigest : string;
  ser_canonicalDigest : string;
  ser_record : ProtectedEffectResultRecord;
}.

(** Routes are tenant, run and effect. *)
Record ResultStore := {
  rs_records : gmap (string * string * string) StoredEffectResult;
  rs_effectDigests : gmap (string * string) (string * string * string);
  rs_protectedRefs : gmap (string * string * string) (string * string * string);
}.

Definition empty_result_store : ResultStore :=
  {| rs_records := ∅; rs_effectDigests := ∅; rs_protectedRefs := ∅ |}.

Definition result_route (r : ProtectedEffectResultRecord) : string * string * string :=
  (er_tenantId (er_identity r), er_runId (er_identity r), er_effectId (er_identity r)).
Definition digest_route (r : ProtectedEffectResultRecord) : string * string :=
  (er_tenantId (er_identity r), er_effectDigest (er_identity r)).
Definition protected_route (r : ProtectedEffectResultRecord) : string * string * string :=
  (er_tenantId (er_identity r), pv_keyId (er_protectedValue r), pv_ciphertextRef (er_protectedValue r)).

(** The plaintext a protector returns, as the host's decoders read it: its
    length, its text and what JSON.parse makes of the text. *)
Record ResultPlaintext := {
  rp_byteLength : Z;
  rp_text : jsstring;
  rp_parsed : option JsonValue;
}.

(** The authenticated data is derived from the record. *)
Definition ResultProtector : Type := ProtectedEffectResultRecord -> outcome js_error ResultPlaintext.

Definition parseAndVerifyResult (plaintext : ResultPlaintext) (expectedDigest : string) (expectedByteSize : Z)
  : outcome js_error JsonValue :=
  if negb (rp_byteLength plaintext =? expectedByteSize)
  then conflict "acknowledged_effect_result_byte_size_changed"
  else
    decoded ← orThrow (rp_parsed plaintext) (security_profile_reason "protected_effect_result_invalid_json");
    result ← parse JsonValueSchema decoded;
    text ← lift_json (canonicalJsonStringify result);
    if negb (bool_decide (text = rp_text plaintext)) then conflict "acknowledged_effect_result_payload_changed"
    else
      digest ← digestCanonicalJson result;
      if negb (bool_decide (digest = expectedDigest)) then conflict "acknowledged_effect_result_payload_changed"
      else Return result.

Section Store.
Context `{Zod} (profile : StorageSecurityProfile) (protector : option ResultProtector).

Definition putProtectedResult (input : ProtectedEffectResultRecord) : method ResultStore js_error unit :=
  let! record := mlift (parse ProtectedEffectResultRecordSchema input) in
  let i := er_identity record in
  mlift (assertWriteAllowed profile (er_tenantId i) (er_purposeCode i) (er_dataClass i)) ;;!
  let! identityDigest := mlift (protectedEffectResultIdentityDigest record) in
  let! canonicalDigest := mlift (digestCanonicalJson (effect_result_json record)) in
  let! s := mget in
  match rs_records s !! result_route record with
  | Some existing =>
      if bool_decide (ser_identityDigest existing = identityDigest) then mreturn tt
      else mlift (conflict "acknowledged_effect_result_changed")
  | None =>
      if changed (rs_effectDigests s !! digest_route record) (result_route record)
      then mlift (conflict "acknowledged_effect_result_digest_reused")
      else if changed (rs_protectedRefs s !! protected_route record) (result_route record)
      then mlift (conflict "acknowledged_effect_result_protected_ref_reused")
      else mput
        {| rs_records := <[result_route record := {| ser_identityDigest := identityDigest;
             ser_canonicalDigest := canonicalDigest; ser_record := record |}]> (rs_records s);
           rs_effectDigests := <[digest_route record := result_route record]> (rs_effectDigests s);
           rs_protectedRefs := <[protected_route record := result_route record]> (rs_protectedRefs s) |}
  end.

Definition getAcknowledgedResult (input : EffectRecord) (s : ResultStore)
  : outcome js_error (option JsonValue) :=
  effect ← parse EffectRecordSchema input;
  let i := eff_identity effect in
  _ ← assertTenantAllowed profile (eff_tenantId i);
  if negb (bool_decide (eff_state effect = acknowledged))
  then conflict "effect_result_requires_acknowledged_effect"
  else match rs_records s !! (eff_tenantId i, eff_runId i, eff_effectId i) with
       | None => Return None
       | Some stored =>
           record ← parse ProtectedEffectResultRecordSchema (ser_record stored);
           _ ← assertEffectResultRecordBinding record effect;
           digest ← digestCanonicalJson (effect_result_json record);
           if negb (bool_decide (digest = ser_canonicalDigest stored))
           then conflict "acknowledged_effect_result_record_changed"
           else
             unprotect ← orThrow protector (security_profile_reason "data_protector_required");
             plaintext ← unprotect record;
             Some <$> parseAndVerifyResult plaintext (er_resultDigest (er_identity record))
                        (er_byteSize (er_identity record))
       end.
End Store.

Definition result_snapshot (s : ResultStore) : ResultStore := s.
Definition result_restore (snapshot : ResultStore) : method ResultStore js_error unit := mput snapshot.
