(* ===== verification/UnitOfWork.v ===== *)
(** * Command and transition transactions (packages/core/src/transactions.ts,
    packages/store-memory/src/command-unit-of-work.ts)

    [MemoryRunCommandUnitOfWork] runs a callback against the stores of a suite,
    one transaction at a time, puts back every store when the callback throws, and
    remembers what each command and each transition answered.

    A callback is a program over the calls of [RunCommandTransaction]: it sees
    what each call returns or throws, may catch, and ends with a value or a throw.
    It makes its calls one after the other.  The readings of the stores' clocks
    during a call are arguments of the call. *)

From S2P Require Import Prelude JsTime Errors Schema JsonValue Unicode JsonText Contracts WorkOrder.
From S2P Require Import Authorization Effects Run Events StoreInternal EventStore Digest JsMap JsArithmetic.
From S2P Require Import EffectLedger Commands Admission ModelCalls Quota ActiveExecution Decisions.
From S2P Require Import AuthorityStores WorkOrderStore RecordStores AcknowledgedResults.

Local Open Scope Z_scope.
Local Open Scope js_scope.

(** ** The stores of a suite *)

Record Stores := {
  st_workOrders : gmap (string * string) WorkOrderRecord;
  st_inputs : gmap (string * string * string) InputSubmissionRecord;
  st_contexts : gmap (string * string) (JsMap string ContextSnapshot);
  st_events : EventStore;
  st_decisions : DecisionStore;
  st_effects : EffectLedger;
  st_grants : MemoryGrantStore;
  st_wakeups : gmap (string * string) (DurableWakeupRequest * DurableWakeupReceipt);
  st_quotas : QuotaStore;
  st_executions : gmap ExecutionKey ActiveExecutionReservation;
  st_modelCalls : JsMap CallKey ModelCallReservation;
  st_results : ResultStore;
}.

Definition empty_stores : Stores :=
  {| st_workOrders := ∅; st_inputs := ∅; st_contexts := ∅; st_events := empty_event_store;
     st_decisions := empty_decision_store; st_effects := empty_ledger; st_grants := empty_memory_grants;
     st_wakeups := ∅; st_quotas := empty_quota_store; st_executions := ∅; st_modelCalls := [];
     st_results := empty_result_store |}.

Definition set_workOrders x '(Build_Stores _ b c d e f g h i j k l) := Build_Stores x b c d e f g h i j k l.
Definition set_inputs x '(Build_Stores a _ c d e f g h i j k l) := Build_Stores a x c d e f g h i j k l.
Definition set_contexts x '(Build_Stores a b _ d e f g h i j k l) := Build_Stores a b x d e f g h i j k l.
Definition set_events x '(Build_Stores a b c _ e f g h i j k l) := Build_Stores a b c x e f g h i j k l.
Definition set_decisions x '(Build_Stores a b c d _ f g h i j k l) := Build_Stores a b c d x f g h i j k l.
Definition set_effects x '(Build_Stores a b c d e _ g h i j k l) := Build_Stores a b c d e x g h i j k l.
Definition set_grants x '(Build_Stores a b c d e f _ h i j k l) := Build_Stores a b c d e f x h i j k l.
Definition set_wakeups x '(Build_Stores a b c d e f g _ i j k l) := Build_Stores a b c d e f g x i j k l.
Definition set_quotas x '(Build_Stores a b c d e f g h _ j k l) := Build_Stores a b c d e f g h x j k l.
Definition set_executions x '(Build_Stores a b c d e f g h i _ k l) := Build_Stores a b c d e f g h i x k l.
Definition set_modelCalls x '(Build_Stores a b c d e f g h i j _ l) := Build_Stores a b c d e f g h i j x l.
Definition set_results x '(Build_Stores a b c d e f g h i j k _) := Build_Stores a b c d e f g h i j k x.

(** A method of a part, as a method of the whole. *)
Definition focus {S X A} (get : S -> X) (set : X -> S -> S) (m : method X js_error A) : method S js_error A :=
  fun s => let '(o, x) := m (get s) in (o, set x s).

(** ** Calls of a transaction *)

Inductive TransactionCall : Type -> Type :=
| tx_reserveAdmission (now : string) (request : AdmissionRequest) : TransactionCall AdmissionReservation
| tx_putAcceptedWorkOrder (workOrder : AcceptedWorkOrder) : TransactionCall unit
| tx_putInputSubmission (record : InputSubmissionRecord) : TransactionCall unit
| tx_putContextSnapshot (snapshot : ContextSnapshot) : TransactionCall unit
| tx_issueCapabilityGrant (grant : CapabilityGrant) : TransactionCall unit
| tx_reserveCapabilityGrantUse (tenantId grantId authorizationKey at_ : string)
  : TransactionCall CapabilityGrantUseClaim
| tx_appendRunEvent (event : RunEvent) : TransactionCall unit
| tx_putRunProjection (projection : RunProjection) : TransactionCall unit
| tx_putCommandRecord (record : CommandRecord) : TransactionCall unit
| tx_putDecisionChallenge (challenge : DecisionSubmissionChallenge) : TransactionCall unit
| tx_putDecisionGate (gate : DecisionGate) : TransactionCall unit
| tx_consumeDecisionChallenge (tenantId challengeId commandId consumedAt : string) : TransactionCall unit
| tx_putApproval (approval : Approval) : TransactionCall unit
| tx_putDecisionRejection (rejection : DecisionRejection) : TransactionCall unit
| tx_claimApproval (tenantId approvalId authorizationKey at_ : string) : TransactionCall ApprovalUseClaim
| tx_putAuthorizationReservation (reservation : AuthorizationReservation) : TransactionCall unit
| tx_putEffectRecord (record : EffectRecord) : TransactionCall unit
| tx_putProtectedEffectResult (now : string) (record : ProtectedEffectResultRecord) : TransactionCall unit
| tx_putActiveExecutionReservation (readAt now : string) (reservation : ActiveExecutionReservation)
    (runMaximumActiveExecutionMs : Z) : TransactionCall ActiveExecutionReservation
| tx_putModelCallReservation (reservation : ModelCallReservation) : TransactionCall unit
| tx_enqueueWakeup (now : string) (request : DurableWakeupRequest) : TransactionCall DurableWakeupReceipt.

(** A callback of a transaction, answering a value of [V]. *)
Inductive tx_program (V : Type) : Type :=
| tx_done (value : V)
| tx_fail (e : js_error)
| tx_then {R : Type} (call : TransactionCall R) (continue : outcome js_error R -> tx_program V).
Arguments tx_done {V} value.
Arguments tx_fail {V} e.
Arguments tx_then {V R} call continue.

(** [await call] in a callback that does not catch. *)
Definition tx_await {V R} (call : TransactionCall R) (continue : R -> tx_program V) : tx_program V :=
  tx_then call (fun o => match o with Return r => continue r | Throw e => tx_fail e end).

(** The transaction object: the stores, the challenges this command consumed and
    the command record it was given. *)
Record TxState := {
  tx_stores : Stores;
  tx_consumed : gmap string string;
  tx_record : option CommandRecord;
}.

Definition with_stores (s : Stores) (t : TxState) : TxState :=
  {| tx_stores := s; tx_consumed := tx_consumed t; tx_record := tx_record t |}.

Section Suite.
Context `{Zod} (profile : StorageSecurityProfile) (workOrderProtector : option WorkOrderProtector)
  (limits : list QuotaLimit) (generateId : string -> string).

Definition crossTenant {A} (kind : string) : outcome js_error A := conflict ("cross_tenant_" +:+ kind).

(** The guard of each call: the tenant named must be the transaction's. *)
Definition same_tenant (tenantId named kind : string) : outcome js_error unit :=
  if bool_decide (named = tenantId) then Return tt else crossTenant kind.

Definition in_store {X A} (get : Stores -> X) (set : X -> Stores -> Stores) (m : method X js_error A)
  : method TxState js_error A :=
  focus tx_stores with_stores (focus get set m).

(** [#stores.acceptedWorkOrderStore.get(...)], which may drop an expired record. *)
Definition stored_work_order (tenantId workOrderId now : string) : method TxState js_error (option AcceptedWorkOrder) :=
  in_store st_workOrders set_workOrders (work_order_get workOrderProtector tenantId workOrderId now).

Definition result_bound (record : ProtectedEffectResultRecord) (projection : RunProjection) (w : AcceptedWorkOrder)
  : bool :=
  let i := er_identity record in
  bool_decide (run_workOrderId (p_run projection) = er_workOrderId i)
  && bool_decide (run_workOrderBindingDigest (p_run projection) = er_workOrderBindingDigest i)
  && bool_decide (run_executionDefinitionDigest (p_run projection) = er_executionDefinitionDigest i)
  && bool_decide (run_dataClass (p_run projection) = er_dataClass i)
  && bool_decide (wo_workOrderBindingDigest (wo_common w) = er_workOrderBindingDigest i)
  && bool_decide (wo_executionDefinitionDigest w = er_executionDefinitionDigest i)
  && bool_decide (purpose_code (wo_purpose (wo_common w)) = er_purposeCode i)
  && bool_decide (purpose_registryVersion (wo_purpose (wo_common w)) = er_purposeRegistryVersion i)
  && bool_decide (wo_dataClass (wo_common w) = er_dataClass i).

Definition budget_bound (projection : RunProjection) (w : AcceptedWorkOrder) (maximum : Z) : bool :=
  bool_decide (run_workOrderBindingDigest (p_run projection) = wo_workOrderBindingDigest (wo_common w))
  && (wb_maxActiveExecutionMs (wo_budget (wo_common w)) =? maximum).

(** [#transaction(tenantId, boundCommandId, onCommandRecord)] *)
Definition run_call (tenantId : string) (boundCommandId : option string) {R} (call : TransactionCall R)
  : method TxState js_error R :=
  match call in TransactionCall R' return method TxState js_error R' with
  | tx_reserveAdmission now request =>
      mlift (same_tenant tenantId (tenant_id (aq_tenant request)) "admission") ;;!
      let! decision := in_store st_quotas set_quotas (reserveInTransaction limits now request) in
      match decision with
      | not_admitted _ retryAfterSeconds =>
          mthrow (KafError KAF_ADMISSION_DENIED [("retryAfterSeconds", DNum retryAfterSeconds)])
      | admitted reservation => mreturn reservation
      end
  | tx_putAcceptedWorkOrder input =>
      let! workOrder := mlift (orThrow (AcceptedWorkOrderSchema input) ZodError) in
      mlift (same_tenant tenantId (wo_tenantId workOrder) "work_order") ;;!
      in_store st_workOrders set_workOrders (putImmutable profile workOrderProtector workOrder)
  | tx_putInputSubmission record =>
      let! parsed := mlift (parse InputSubmissionRecordSchema record) in
      mlift (same_tenant tenantId (is_tenantId parsed) "input_submission") ;;!
      if negb (bool_decide (boundCommandId = Some (is_consumingCommandId parsed)))
      then mlift (conflict "input_submission_command_binding_changed")
      else in_store st_inputs set_inputs (putOnce profile parsed) ;;! mreturn tt
  | tx_putContextSnapshot input =>
      let! snapshot := mlift (parse ContextSnapshotSchema input) in
      mlift (same_tenant tenantId (ctx_tenantId snapshot) "context_snapshot") ;;!
      in_store st_contexts set_contexts (context_put profile snapshot)
  | tx_issueCapabilityGrant input =>
      let! grant := mlift (orThrow (CapabilityGrantSchema input) ZodError) in
      mlift (same_tenant tenantId (grant_tenant grant) "capability_grant") ;;!
      in_store st_grants set_grants (memory_issue grant)
  | tx_reserveCapabilityGrantUse requestedTenantId grantId authorizationKey at_ =>
      mlift (same_tenant tenantId requestedTenantId "capability_grant_use") ;;!
      in_store st_grants set_grants (memory_reserveUse tenantId grantId authorizationKey at_)
  | tx_appendRunEvent event =>
      mlift (same_tenant tenantId (e_tenantId event) "event") ;;!
      in_store st_events set_events (append profile event (e_sequence event - 1)) ;;! mreturn tt
  | tx_putRunProjection projection =>
      mlift (same_tenant tenantId (run_tenantId (p_run projection)) "projection") ;;!
      let! t := mget in
      let stored := getProjection (run_tenantId (p_run projection)) (run_runId (p_run projection))
                      (st_events (tx_stores t)) in
      if bool_decide (stored = Some projection) then mreturn tt
      else mlift (conflict "projection_drift")
  | tx_putCommandRecord record =>
      let! parsed := mlift (orThrow (r ← CommandRecordSchema record; CommandRecordSchema r) ZodError) in
      let! t := mget in
      mput {| tx_stores := tx_stores t; tx_consumed := tx_consumed t; tx_record := Some parsed |}
  | tx_putDecisionChallenge input =>
      let! challenge := mlift (orThrow (DecisionSubmissionChallengeSchema input) ZodError) in
      mlift (same_tenant tenantId (binding_tenant (ch_binding challenge)) "decision_challenge") ;;!
      in_store st_decisions set_decisions (putChallenge challenge)
  | tx_putDecisionGate gate =>
      let! parsed := mlift (orThrow (DecisionGateSchema gate) ZodError) in
      mlift (same_tenant tenantId (dg_tenantId parsed) "decision_gate") ;;!
      in_store st_decisions set_decisions (putGateOnce parsed) ;;! mreturn tt
  | tx_consumeDecisionChallenge requestedTenantId challengeId commandId consumedAt =>
      mlift (same_tenant tenantId requestedTenantId "decision_challenge_consumption") ;;!
      if negb (bool_decide (boundCommandId = Some commandId)) then mlift (crossTenant "decision_command_binding")
      else
        in_store st_decisions set_decisions (consumeChallenge tenantId challengeId commandId consumedAt) ;;!
        let! t := mget in
        mput {| tx_stores := tx_stores t; tx_consumed := <[challengeId := commandId]> (tx_consumed t);
                tx_record := tx_record t |}
  | tx_putApproval input =>
      let! approval := mlift (orThrow (ApprovalSchema input) ZodError) in
      mlift (same_tenant tenantId (binding_tenant (ap_binding approval)) "approval") ;;!
      let! t := mget in
      if bool_decide (boundCommandId = None)
         || negb (bool_decide (tx_consumed t !! ap_challengeId approval = boundCommandId))
      then mlift (mismatch "approval_challenge_not_consumed_in_command")
      else in_store st_decisions set_decisions (putApproval approval)
  | tx_putDecisionRejection input =>
      let! rejection := mlift (orThrow (DecisionRejectionSchema input) ZodError) in
      mlift (same_tenant tenantId (dr_tenantId rejection) "decision_rejection") ;;!
      in_store st_decisions set_decisions (putRejection rejection)
  | tx_claimApproval requestedTenantId approvalId authorizationKey at_ =>
      mlift (same_tenant tenantId requestedTenantId "approval_claim") ;;!
      in_store st_decisions set_decisions (claimApproval tenantId approvalId authorizationKey at_)
  | tx_putAuthorizationReservation input =>
      let! reservation := mlift (parse AuthorizationReservationSchema input) in
      mlift (same_tenant tenantId (res_tenantId reservation) "authorization_reservation") ;;!
      in_store st_effects set_effects (putAuthorizationReservation reservation)
  | tx_putEffectRecord input =>
      let! record := mlift (parse EffectRecordSchema input) in
      mlift (same_tenant tenantId (eff_tenantId (eff_identity record)) "effect_record") ;;!
      in_store st_effects set_effects (putEffectRecord record)
  | tx_putProtectedEffectResult now input =>
      let! record := mlift (parse ProtectedEffectResultRecordSchema input) in
      let i := er_identity record in
      mlift (same_tenant tenantId (er_tenantId i) "acknowledged_effect_result") ;;!
      let! t := mget in
      match getByEffectId tenantId (er_runId i) (er_effectId i) (st_effects (tx_stores t)) with
      | None => mlift (conflict "acknowledged_effect_missing")
      | Some effect =>
          mlift (assertEffectResultRecordBinding record effect) ;;!
          let projection := getProjection tenantId (er_runId i) (st_events (tx_stores t)) in
          let! workOrder := stored_work_order tenantId (er_workOrderId i) now in
          match projection, workOrder with
          | Some p, Some w =>
              if result_bound record p w
              then in_store st_results set_results (putProtectedResult profile record)
              else mlift (conflict "acknowledged_effect_result_work_order_binding_changed")
          | _, _ => mlift (conflict "acknowledged_effect_result_work_order_binding_changed")
          end
      end
  | tx_putActiveExecutionReservation readAt now reservation maximum =>
      let i := activeExecutionIdentity reservation in
      mlift (same_tenant tenantId (tenant_id (ae_tenant i)) "active_execution") ;;!
      let! t := mget in
      match getProjection tenantId (ae_runId i) (st_events (tx_stores t)) with
      | None => mlift (conflict "active_execution_work_order_budget_binding_changed")
      | Some projection =>
          let! workOrder := stored_work_order tenantId (run_workOrderId (p_run projection)) readAt in
          match workOrder with
          | Some w =>
              if budget_bound projection w maximum
              then in_store st_executions set_executions (putInTransaction now reservation maximum)
              else mlift (conflict "active_execution_work_order_budget_binding_changed")
          | None => mlift (conflict "active_execution_work_order_budget_binding_changed")
          end
      end
  | tx_putModelCallReservation reservation =>
      mlift (same_tenant tenantId (mc_tenantId (mc_identity reservation)) "model_call") ;;!
      in_store st_modelCalls set_modelCalls (put_call limits reservation) ;;! mreturn tt
  | tx_enqueueWakeup now input =>
      let! request := mlift (orThrow (DurableWakeupRequestSchema input) ZodError) in
      mlift (same_tenant tenantId (wk_tenantId request) "wakeup") ;;!
      in_store st_wakeups set_wakeups (enqueue generateId now request)
  end.

Fixpoint run_program {V} (tenantId : string) (boundCommandId : option string) (p : tx_program V)
  : method TxState js_error V :=
  match p with
  | tx_done v => mreturn v
  | tx_fail e => mthrow e
  | tx_then call continue => fun t =>
      let '(o, t') := run_call tenantId boundCommandId call t in
      run_program tenantId boundCommandId (continue o) t'
  end.

Definition new_transaction (s : Stores) : TxState := {| tx_stores := s; tx_consumed := ∅; tx_record := None |}.

(** ** The unit of work *)

Definition command_scope_json (s : CommandScope) : JsonValue :=
  Jobj [(js "schemaVersion", jstr "1"); (js "issuerId", jstr (cs_issuerId s));
        (js "tenant", Jobj [(js "id", jstr (tenant_id (cs_tenant s)))]);
        (js "principal", principal_json (cs_principal s)); (js "operation", jstr (cs_operation s));
        (js "normalizedResourceScope", Jarr (scope_json <$> cs_normalizedResourceScope s));
        (js "commandId", jstr (cs_commandId s))].

Definition scope_text (s : CommandScope) : outcome js_error jsstring :=
  lift_json (canonicalJsonStringify (command_scope_json s)).

Record RunTransitionKey := {
  tk_tenantId : string;
  tk_runId : string;
  tk_transitionKind : string;
  tk_transitionKey : string;
  tk_workOrderBindingDigest : string;
  tk_executionDefinitionDigest : string;
  tk_leaseId : option string;
  tk_fencingToken : option Z;
}.

Definition RunTransitionKeySchema (k : RunTransitionKey) : option RunTransitionKey :=
  tenantId ← trimmed 256 (tk_tenantId k);
  runId ← trimmed 256 (tk_runId k);
  kind ← trimmed 256 (tk_transitionKind k);
  key ← trimmed 512 (tk_transitionKey k);
  leaseId ← optional_trimmed 256 (tk_leaseId k);
  checked (DigestSchema (tk_workOrderBindingDigest k) && DigestSchema (tk_executionDefinitionDigest k)
           && optional int_nonnegative (tk_fencingToken k))
    {| tk_tenantId := tenantId; tk_runId := runId; tk_transitionKind := kind; tk_transitionKey := key;
       tk_workOrderBindingDigest := tk_workOrderBindingDigest k;
       tk_executionDefinitionDigest := tk_executionDefinitionDigest k; tk_leaseId := leaseId;
       tk_fencingToken := tk_fencingToken k |}.

Definition transition_key_json (k : RunTransitionKey) : JsonValue :=
  Jobj ([(js "schemaVersion", jstr "1"); (js "tenantId", jstr (tk_tenantId k)); (js "runId", jstr (tk_runId k));
         (js "transitionKind", jstr (tk_transitionKind k)); (js "transitionKey", jstr (tk_transitionKey k));
         (js "workOrderBindingDigest", jstr (tk_workOrderBindingDigest k));
         (js "executionDefinitionDigest", jstr (tk_executionDefinitionDigest k))]
        ++ optional_field "leaseId" (tk_leaseId k) ++ number_field "fencingToken" (tk_fencingToken k)).

Section Transactions.
Context {V : Type}.

Record StoredCommand := {
  sc_requestDigest : string;
  sc_value : V;
  sc_record : CommandRecord;
}.

(** [#commands] by the canonical text of the scope, [#transitions] by the digest
    of the key. *)
Record UnitOfWork := {
  uow_stores : Stores;
  uow_commands : gmap jsstring StoredCommand;
  uow_transitions : gmap string V;
}.

Record CommandTransactionResult := {
  ctr_value : V;
  ctr_commandRecord : CommandRecord;
  ctr_replayed : bool;
}.

Definition new_unit_of_work (s : Stores) : UnitOfWork :=
  {| uow_stores := s; uow_commands := ∅; uow_transitions := ∅ |}.

(** [#snapshot()] and [#restore(snapshot)]: every store is copied and put back. *)
Definition uow_restore (snapshot : Stores) (u : UnitOfWork) : UnitOfWork :=
  {| uow_stores := snapshot; uow_commands := uow_commands u; uow_transitions := uow_transitions u |}.

(** The checks after the callback. *)
Definition command_outcome (scope : CommandScope) (requestDigest : string) (record : option CommandRecord)
  : outcome js_error CommandRecord :=
  parsed ← orThrow (r ← record; CommandRecordSchema r) ZodError;
  recorded ← scope_text (cr_scope parsed);
  expected ← scope_text scope;
  if bool_decide (recorded = expected) && bool_decide (cr_requestDigest parsed = requestDigest)
  then Return parsed
  else Throw (KafError KAF_HTTP_IDEMPOTENCY_CONFLICT []).

Definition transactCommand (scopeInput : CommandScope) (requestDigest : string) (callback : tx_program V)
  : method UnitOfWork js_error CommandTransactionResult :=
  let! scope := mlift (orThrow (CommandScopeSchema scopeInput) ZodError) in
  let! key := mlift (scope_text scope) in
  let! u := mget in
  match uow_commands u !! key with
  | Some existing =>
      if bool_decide (sc_requestDigest existing = requestDigest)
      then mreturn {| ctr_value := sc_value existing; ctr_commandRecord := sc_record existing;
                      ctr_replayed := true |}
      else mthrow (KafError KAF_HTTP_IDEMPOTENCY_CONFLICT [])
  | None =>
      let '(value, t) := run_program (tenant_id (cs_tenant scope)) (Some (cs_commandId scope)) callback
                           (new_transaction (uow_stores u)) in
      match v ← value; r ← command_outcome scope requestDigest (tx_record t); Return (v, r) with
      | Return (v, record) =>
          mput {| uow_stores := tx_stores t;
                  uow_commands := <[key := {| sc_requestDigest := requestDigest; sc_value := v;
                                              sc_record := record |}]> (uow_commands u);
                  uow_transitions := uow_transitions u |} ;;!
          mreturn {| ctr_value := v; ctr_commandRecord := record; ctr_replayed := false |}
      | Throw e =>
          mput (uow_restore (uow_stores u) {| uow_stores := tx_stores t; uow_commands := uow_commands u;
                                              uow_transitions := uow_transitions u |}) ;;!
          mthrow e
      end
  end.

(** The guards compare with the tenant as given, not as parsed. *)
Definition transactTransition (keyInput : RunTransitionKey) (callback : tx_program V)
  : method UnitOfWork js_error V :=
  let! key := mlift (orThrow (RunTransitionKeySchema keyInput) ZodError) in
  let! transitionKey := mlift (digestCanonicalJson (transition_key_json key)) in
  let! u := mget in
  match uow_transitions u !! transitionKey with
  | Some v => mreturn v
  | None =>
      let '(value, t) := run_program (tk_tenantId keyInput) None callback (new_transaction (uow_stores u)) in
      match value with
      | Return v =>
          mput {| uow_stores := tx_stores t; uow_commands := uow_commands u;
                  uow_transitions := <[transitionKey := v]> (uow_transitions u) |} ;;!
          mreturn v
      | Throw e =>
          mput (uow_restore (uow_stores u) {| uow_stores := tx_stores t; uow_commands := uow_commands u;
                                              uow_transitions := uow_transitions u |}) ;;!
          mthrow e
      end
  end.
End Transactions.
End Suite.
Arguments StoredCommand V : clear implicits.
Arguments UnitOfWork V : clear implicits.
Arguments CommandTransactionResult V : clear implicits.
