(* ===== verification/UnitOfWorkFacts.v ===== *)
(** * Command and transition transactions: theorems

    A transaction that throws leaves the unit of work as it was, one that answers
    leaves what its callback left; a command, and a transition, runs its callback
    once, and its later submissions get the recorded answer. *)

From S2P Require Import Prelude JsTime Errors Schema JsonValue Unicode JsonText Contracts WorkOrder.
From S2P Require Import Authorization Effects Run Events StoreInternal EventStore Digest JsMap JsArithmetic.
From S2P Require Import EffectLedger Commands Admission ModelCalls Quota ActiveExecution Decisions.
From S2P Require Import AuthorityStores WorkOrderStore RecordStores AcknowledgedResults UnitOfWork.

Local Open Scope Z_scope.
Local Open Scope js_scope.

Section Facts.
Context `{Zod} (profile : StorageSecurityProfile) (workOrderProtector : option WorkOrderProtector)
  (limits : list QuotaLimit) (generateId : string -> string) {V : Type}.

Notation run := (run_program profile workOrderProtector limits generateId).
Notation command_tx := (transactCommand (V := V) profile workOrderProtector limits generateId).
Notation transition_tx := (transactTransition (V := V) profile workOrderProtector limits generateId).

Implicit Types (u : UnitOfWork V) (callback : tx_program V).

Lemma uow_restored u stores :
  uow_restore (uow_stores u) {| uow_stores := stores; uow_commands := uow_commands u;
                                uow_transitions := uow_transitions u |} = u.
Proof. by destruct u. Qed.

(** ** What a transaction does *)

(** The key under which a command is remembered. *)
Definition command_key (scopeInput : CommandScope) : option (CommandScope * jsstring) :=
  scope ← CommandScopeSchema scopeInput;
  match scope_text scope with Return key => Some (scope, key) | Throw _ => None end.

Definition transition_key (keyInput : RunTransitionKey) : option string :=
  key ← RunTransitionKeySchema keyInput;
  match digestCanonicalJson (transition_key_json key) with Return d => Some d | Throw _ => None end.

(** The callback ran to its end and left a record of this command. *)
Definition command_ran (scope : CommandScope) (requestDigest : string) callback u (t : TxState) (v : V)
    (record : CommandRecord) : Prop :=
  run (tenant_id (cs_tenant scope)) (Some (cs_commandId scope)) callback (new_transaction (uow_stores u)) = (Return v, t)
  /\ command_outcome scope requestDigest (tx_record t) = Return record.

Lemma transactCommand_effect scopeInput requestDigest callback u o u' :
  command_tx scopeInput requestDigest callback u = (o, u') ->
  (u' = u /\ isReturn o = false)
  \/ (exists scope key stored, u' = u /\ command_key scopeInput = Some (scope, key)
        /\ uow_commands u !! key = Some stored /\ sc_requestDigest stored = requestDigest
        /\ o = Return {| ctr_value := sc_value stored; ctr_commandRecord := sc_record stored;
                         ctr_replayed := true |})
  \/ (exists scope key t v record, command_key scopeInput = Some (scope, key)
        /\ uow_commands u !! key = None /\ command_ran scope requestDigest callback u t v record
        /\ u' = {| uow_stores := tx_stores t;
                   uow_commands := <[key := {| sc_requestDigest := requestDigest; sc_value := v;
                                               sc_record := record |}]> (uow_commands u);
                   uow_transitions := uow_transitions u |}
        /\ o = Return {| ctr_value := v; ctr_commandRecord := record; ctr_replayed := false |}).
Proof.
  unfold transactCommand, command_key, command_ran, mthen, mlift, mget, mput, mthrow, mreturn.
  destruct (CommandScopeSchema scopeInput) as [scope |]; cbn [orThrow mbind option_bind];
    [| intros [= <- <-]; by left].
  destruct (scope_text scope) as [key | e]; [| intros [= <- <-]; by left].
  destruct (uow_commands u !! key) as [stored |] eqn:Hk.
  { case_bool_decide; intros [= <- <-]; [| by left]. right. left. by exists scope, key, stored. }
  destruct (run _ _ callback _) as [value t] eqn:Hrun.
  destruct value as [v | e]; cbn; [| intros [= <- <-]; left; by rewrite uow_restored].
  destruct (command_outcome _ _ _) as [record | e] eqn:Hout; cbn; intros [= <- <-];
    [| left; by rewrite uow_restored].
  right. right. by exists scope, key, t, v, record.
Qed.

Lemma transactTransition_effect keyInput callback u o u' :
  transition_tx keyInput callback u = (o, u') ->
  (u' = u /\ isReturn o = false)
  \/ (exists key v, u' = u /\ transition_key keyInput = Some key /\ uow_transitions u !! key = Some v /\ o = Return v)
  \/ (exists key t v, transition_key keyInput = Some key /\ uow_transitions u !! key = None
        /\ run (tk_tenantId keyInput) None callback (new_transaction (uow_stores u)) = (Return v, t)
        /\ u' = {| uow_stores := tx_stores t; uow_commands := uow_commands u;
                   uow_transitions := <[key := v]> (uow_transitions u) |}
        /\ o = Return v).
Proof.
  unfold transactTransition, transition_key, mthen, mlift, mget, mput, mthrow, mreturn.
  destruct (RunTransitionKeySchema keyInput) as [key |]; cbn [orThrow mbind option_bind];
    [| intros [= <- <-]; by left].
  destruct (digestCanonicalJson _) as [d | e]; [| intros [= <- <-]; by left].
  destruct (uow_transitions u !! d) as [v |] eqn:Hk.
  { intros [= <- <-]. right. left. by exists d, v. }
  destruct (run _ _ callback _) as [value t] eqn:Hrun.
  destruct value as [v | e]; cbn; intros [= <- <-]; [| left; by rewrite uow_restored].
  right. right. by exists d, t, v.
Qed.

(** The record a command leaves names the command and its request. *)
Lemma command_outcome_bound scope requestDigest o record :
  command_outcome scope requestDigest o = Return record ->
  cr_requestDigest record = requestDigest /\ scope_text (cr_scope record) = scope_text scope
  /\ exists r, o = Some r /\ CommandRecordSchema r = Some record.
Proof.
  unfold command_outcome. destruct o as [r |]; cbn; [| done].
  destruct (CommandRecordSchema r) as [parsed |] eqn:Hp; cbn; [| done].
  destruct (scope_text (cr_scope parsed)) as [x | e] eqn:Hx; cbn; [| done].
  destruct (scope_text scope) as [y | e]; cbn; [| done].
  destruct (bool_decide (x = y)) eqn:Hxy; [| done]. destruct (bool_decide (_ = requestDigest)) eqn:Hd; [| done].
  cbn. bools. intros [= <-]. split_and!; [done | by rewrite Hx, Hxy | by exists r].
Qed.

(** C7: a command is atomic.  When its transaction throws — the callback threw,
    it left no record of this command, or the request differs from the recorded
    one — no store and no index has changed, whatever the callback did before.
    When it runs the callback and answers, the stores are those the callback
    left, and the record answered is the one the callback put: it carries the
    scope and the request digest of this command.  When it replays an answer,
    nothing changes. *)
Theorem command_atomic scopeInput requestDigest callback u :
  match command_tx scopeInput requestDigest callback u with
  | (Throw _, u') => u' = u
  | (Return r, u') =>
      if ctr_replayed r then u' = u
      else exists scope key t, command_key scopeInput = Some (scope, key)
        /\ run (tenant_id (cs_tenant scope)) (Some (cs_commandId scope)) callback
             (new_transaction (uow_stores u)) = (Return (ctr_value r), t)
        /\ uow_stores u' = tx_stores t /\ uow_transitions u' = uow_transitions u
        /\ cr_requestDigest (ctr_commandRecord r) = requestDigest
        /\ scope_text (cr_scope (ctr_commandRecord r)) = Return key
  end.
Proof.
  destruct (command_tx scopeInput requestDigest callback u) as [o u'] eqn:He.
  apply transactCommand_effect in He as [[-> Ho] | [(scope & key & st & -> & _ & _ & _ & ->)
    | (scope & key & t & v & record & Hk & _ & [Hrun Hout] & -> & ->)]]; [by destruct o | done |].
  cbn. exists scope, key, t. apply command_outcome_bound in Hout as (Hd & Hs & _).
  split_and!; try done. rewrite Hs. revert Hk. unfold command_key.
  destruct (CommandScopeSchema scopeInput) as [s |]; cbn; [| done].
  destruct (scope_text s) eqn:Hst; [| done]. intros [= -> ->]. done.
Qed.

(** ** Later transactions *)

Inductive uow_step u u' : Prop :=
| step_command scopeInput requestDigest callback o :
    command_tx scopeInput requestDigest callback u = (o, u') -> uow_step u u'
| step_transition keyInput callback o :
    transition_tx keyInput callback u = (o, u') -> uow_step u u'.

(** What was answered stays recorded. *)
Definition remembers u u' : Prop :=
  uow_commands u ⊆ uow_commands u' /\ uow_transitions u ⊆ uow_transitions u'.

Lemma uow_step_remembers u u' : uow_step u u' -> remembers u u'.
Proof.
  intros [s d c o [[-> _] | [(? & ? & ? & -> & _) | (? & key & t & v & r & _ & Hk & _ & -> & _)]]%transactCommand_effect
    | k c o [[-> _] | [(? & ? & -> & _) | (key & t & v & _ & Hk & _ & -> & _)]]%transactTransition_effect];
    split; cbn; try done; by apply insert_subseteq.
Qed.

Lemma uow_steps_remember u u' : steps uow_step u u' -> remembers u u'.
Proof.
  induction 1 as [| u1 u2 u3 [Hc Ht]%uow_step_remembers _ [Hc' Ht']]; [done |]. split; by etrans.
Qed.

(** An answered command is recorded under its key. *)
Lemma answered_is_recorded scopeInput requestDigest callback u r u' :
  command_tx scopeInput requestDigest callback u = (Return r, u') ->
  exists scope key, command_key scopeInput = Some (scope, key)
    /\ uow_commands u' !! key = Some {| sc_requestDigest := requestDigest; sc_value := ctr_value r;
                                        sc_record := ctr_commandRecord r |}.
Proof.
  intros [[_ Ho] | [(scope & key & st & -> & Hk & Hl & Hd & Hr) | (scope & key & t & v & rec & Hk & _ & _ & -> & Hr)]]
    %transactCommand_effect; [done | |]; injection Hr as ->; exists scope, key; (split; [done |]); cbn.
  - rewrite Hl. by destruct st; cbn in *; subst.
  - by rewrite lookup_insert_eq.
Qed.

Lemma recorded_is_replayed scopeInput requestDigest callback u scope key stored :
  command_key scopeInput = Some (scope, key) -> uow_commands u !! key = Some stored ->
  command_tx scopeInput requestDigest callback u =
    (if decide (sc_requestDigest stored = requestDigest)
     then Return {| ctr_value := sc_value stored; ctr_commandRecord := sc_record stored; ctr_replayed := true |}
     else Throw (KafError KAF_HTTP_IDEMPOTENCY_CONFLICT []), u).
Proof.
  unfold command_key, transactCommand, mthen, mlift, mget, mreturn, mthrow.
  destruct (CommandScopeSchema scopeInput) as [s |]; cbn [mbind option_bind orThrow]; [| done].
  destruct (scope_text s); [| done]. intros [= -> ->] ->. by case_decide; case_bool_decide.
Qed.

(** C8: commands are idempotent.  Once a command has been answered, and after any
    further transactions, submitting the same scope with the same request digest
    gives the same value and the same command record, marked as replayed, without
    running the callback it brings and without changing anything; with another
    request digest it is refused as an idempotency conflict. *)
Theorem command_replay scopeInput requestDigest callback u r u1 u2 requestDigest' callback' :
  command_tx scopeInput requestDigest callback u = (Return r, u1) ->
  steps uow_step u1 u2 ->
  command_tx scopeInput requestDigest' callback' u2 =
    (if decide (requestDigest = requestDigest')
     then Return {| ctr_value := ctr_value r; ctr_commandRecord := ctr_commandRecord r; ctr_replayed := true |}
     else Throw (KafError KAF_HTTP_IDEMPOTENCY_CONFLICT []), u2).
Proof.
  intros (scope & key & Hk & Hl)%answered_is_recorded [Hc _]%uow_steps_remember.
  eapply lookup_weaken in Hl; [| exact Hc]. by rewrite (recorded_is_replayed _ _ _ _ _ _ _ Hk Hl).
Qed.

(** C9: a transition runs its callback once.  If it throws, the unit of work is
    unchanged; if it answers, then after any further transactions the same key —
    every member of it, once trimmed — gives the same answer again without running
    the callback and without changing anything. *)
Theorem transition_runs_once keyInput callback u :
  match transition_tx keyInput callback u with
  | (Throw _, u1) => u1 = u
  | (Return v, u1) =>
      forall u2 keyInput' callback', steps uow_step u1 u2 ->
        RunTransitionKeySchema keyInput' = RunTransitionKeySchema keyInput ->
        transition_tx keyInput' callback' u2 = (Return v, u2)
  end.
Proof.
  assert (forall u2 keyInput' callback' key v, transition_key keyInput' = Some key ->
    uow_transitions u2 !! key = Some v -> transition_tx keyInput' callback' u2 = (Return v, u2)) as Hreplay.
  { intros u2 k' c' key v. unfold transition_key, transactTransition, mthen, mlift, mget, mreturn.
    destruct (RunTransitionKeySchema k'); cbn [mbind option_bind orThrow]; [| done].
    destruct (digestCanonicalJson _); [| done]. by intros [= ->] ->. }
  destruct (transition_tx keyInput callback u) as [o u1] eqn:He.
  apply transactTransition_effect in He as [[-> Ho] | [(key & v & -> & Hk & Hl & ->) | (key & t & v & Hk & _ & _ & -> & ->)]];
    [by destruct o | |]; intros u2 k' c' [_ Ht]%uow_steps_remember Heq;
    (eapply Hreplay; [by unfold transition_key; rewrite Heq |]);
    eapply lookup_weaken; [done | exact Ht | | exact Ht]. apply lookup_insert_eq.
Qed.
End Facts.
