(* ===== verification/TenantIsolation.v ===== *)
(** * Tenant isolation of transactions

    A transaction of one tenant changes nothing of another tenant: every record,
    index and claim filed under another tenant is the same after any callback as
    before.  The one exception is stated: admitting a request closes the lapsed
    admission reservations of every tenant. *)

From S2P Require Import Prelude JsTime Errors Schema JsonValue Unicode JsonText Contracts WorkOrder.
From S2P Require Import Authorization Effects Run Events StoreInternal EventStore Digest JsMap JsArithmetic.
From S2P Require Import EffectLedger Commands Admission ModelCalls Quota QuotaFacts ActiveExecution Decisions.
From S2P Require Import DecisionFacts AuthorityStores WorkOrderStore RecordStores AcknowledgedResults.
From S2P Require Import UnitOfWork UnitOfWorkFacts.

Local Open Scope Z_scope.
Local Open Scope js_scope.

(** ** Methods that keep a relation between the states before and after *)

Section Keeps.
Context {S E : Type} (R : S -> S -> Prop) `{!PreOrder R}.

Definition keeps {A} (s : S) (m : method S E A) : Prop := forall o s', m s = (o, s') -> R s s'.

Lemma keeps_mreturn {A} s (a : A) : keeps s (mreturn a).
Proof. by intros o s' [= <- <-]. Qed.

Lemma keeps_mthrow {A} s (e : E) : keeps s (mthrow (A := A) e).
Proof. by intros o s' [= <- <-]. Qed.

Lemma keeps_mlift {A} s (o : outcome E A) : keeps s (mlift o).
Proof. by intros o' s' [= <- <-]. Qed.

Lemma keeps_mput s s' : R s s' -> keeps s (mput s').
Proof. by intros HR o s2 [= <- <-]. Qed.

Lemma keeps_lift_then {A B} s (o : outcome E A) (k : A -> method S E B) :
  (forall a, o = Return a -> keeps s (k a)) -> keeps s (mthen (mlift o) k).
Proof.
  intros Hk o' s'. rewrite mthen_mlift. destruct o as [a | e]; [by apply Hk | by intros [= <- <-]].
Qed.

Lemma keeps_get_then {B} s (k : S -> method S E B) : keeps s (k s) -> keeps s (mthen mget k).
Proof. done. Qed.

Lemma keeps_put_then {B} s s' (k : unit -> method S E B) :
  R s s' -> keeps s' (k tt) -> keeps s (mthen (mput s') k).
Proof. intros HR Hk o s2 Ho. etrans; [exact HR |]. by eapply Hk. Qed.

Lemma keeps_then {A B} s (m : method S E A) (k : A -> method S E B) :
  keeps s m -> (forall a s', m s = (Return a, s') -> keeps s' (k a)) -> keeps s (mthen m k).
Proof.
  intros Hm Hk o s'. unfold mthen. destruct (m s) as [[a | e] s1] eqn:He.
  - intros Ho. etrans; [by eapply Hm | by eapply Hk].
  - intros [= <- <-]. by eapply Hm.
Qed.
End Keeps.

(** Walks through a method; what is left relates a state and its update. *)
Ltac keep_step :=
  lazymatch goal with
  | |- keeps _ _ (mreturn _) => apply keeps_mreturn; apply _
  | |- keeps _ _ (mthrow _) => apply keeps_mthrow; apply _
  | |- keeps _ _ (mlift _) => apply keeps_mlift; apply _
  | |- keeps _ _ (mput _) => apply keeps_mput
  | |- keeps _ _ (mthen (mlift _) _) => apply keeps_lift_then; [apply _ | intros ? ?]
  | |- keeps _ _ (mthen mget _) => apply keeps_get_then; cbv beta
  | |- keeps _ _ (mthen (mput _) _) => apply keeps_put_then; [apply _ | | cbv beta]
  | |- keeps _ _ (match ?x with _ => _ end) => destruct x eqn:?
  | |- keeps _ _ (let _ := _ in _) => cbv zeta
  end.
Ltac keep := repeat keep_step.

(** ** Maps that agree outside a tenant *)

Definition elsewhere {K V} `{Countable K} (owner : K -> string) (t : string) (m m' : gmap K V) : Prop :=
  forall k, owner k <> t -> m' !! k = m !! k.

Definition js_elsewhere {K V} `{EqDecision K} (owner : K -> string) (t : string) (m m' : JsMap K V) : Prop :=
  forall k, owner k <> t -> map_get k m' = map_get k m.

Section Elsewhere.
Context {K V : Type} `{Countable K} (owner : K -> string) (t : string).

#[export] Instance elsewhere_preorder : PreOrder (elsewhere (V := V) owner t).
Proof. split; [by intros m k |]. intros m1 m2 m3 H12 H23 k Hk. by rewrite (H23 k Hk), (H12 k Hk). Qed.

#[export] Instance js_elsewhere_preorder : PreOrder (js_elsewhere (V := V) owner t).
Proof. split; [by intros m k |]. intros m1 m2 m3 H12 H23 k Hk. by rewrite (H23 k Hk), (H12 k Hk). Qed.

Lemma elsewhere_insert (m : gmap K V) k v : owner k = t -> elsewhere owner t m (<[k := v]> m).
Proof. intros Hk k' Hk'. rewrite lookup_insert_ne; [done |]. by intros ->. Qed.

Lemma elsewhere_delete (m : gmap K V) k : owner k = t -> elsewhere owner t m (base.delete k m).
Proof. intros Hk k' Hk'. rewrite lookup_delete_ne; [done |]. by intros ->. Qed.

Lemma elsewhere_set (m : JsMap K V) k v : owner k = t -> js_elsewhere owner t m (map_set k v m).
Proof. intros Hk k' Hk'. rewrite map_get_set_ne; [done |]. by intros ->. Qed.
End Elsewhere.

#[export] Hint Resolve elsewhere_insert elsewhere_delete elsewhere_set : pactmark.

(** The tenant is the first part of every key. *)
Definition of2 (k : string * string) : string := k.1.
Definition of3 (k : string * string * string) : string := k.1.1.
Definition of_execution (k : ExecutionKey) : string := k.1.1.1.1.
Definition of_call (k : CallKey) : string := k.1.1.1.
Definition of_replay (k : ReplayKey) : string := k.1.1.1.1.1.

(** ** What another tenant sees of each store *)

Section Relations.
Context (t : string).

Record events_untouched (s s' : EventStore) : Prop := {
  un_streams : elsewhere of2 t (es_streams s) (es_streams s');
  un_projections : elsewhere of2 t (es_projections s) (es_projections s');
  un_eventsById id r : of2 (er_key r) <> t ->
    es_eventsById s !! id = Some r <-> es_eventsById s' !! id = Some r;
}.

Record decisions_untouched (s s' : DecisionStore) : Prop := {
  un_gates : elsewhere of3 t (ds_gates s) (ds_gates s');
  un_challenges : js_elsewhere of3 t (ds_challenges s) (ds_challenges s');
  un_active : elsewhere of3 t (ds_activeChallenges s) (ds_activeChallenges s');
  un_approvals : elsewhere of2 t (ds_approvals s) (ds_approvals s');
  un_approvalClaims : elsewhere of2 t (ds_approvalClaims s) (ds_approvalClaims s');
  un_approvalKeys : elsewhere of2 t (ds_approvalAuthorizationKeys s) (ds_approvalAuthorizationKeys s');
  un_rejections : elsewhere of3 t (ds_rejections s) (ds_rejections s');
}.

Record effects_untouched (s s' : EffectLedger) : Prop := {
  un_reservations : elsewhere of2 t (el_reservations s) (el_reservations s');
  un_reservationKeys : elsewhere of2 t (el_reservationKeys s) (el_reservationKeys s');
  un_effects : elsewhere of3 t (el_effects s) (el_effects s');
  un_effectKeys : elsewhere of3 t (el_effectKeys s) (el_effectKeys s');
  un_operationKeys : elsewhere of2 t (el_operationKeys s) (el_operationKeys s');
}.

Record grants_untouched (s s' : MemoryGrantStore) : Prop := {
  un_grants : elsewhere of2 t (mg_grants s) (mg_grants s');
  un_claims : js_elsewhere of3 t (mg_claims s) (mg_claims s');
}.

Record results_untouched (s s' : ResultStore) : Prop := {
  un_results : elsewhere of3 t (rs_records s) (rs_records s');
  un_effectDigests : elsewhere of2 t (rs_effectDigests s) (rs_effectDigests s');
  un_protectedRefs : elsewhere of3 t (rs_protectedRefs s) (rs_protectedRefs s');
}.

(** A lapsed reservation may have been closed. *)
Definition closes (r r' : AdmissionReservation) : Prop :=
  r' = r \/ exists at_, admission_lapsed at_ r = true
    /\ r' = with_admission_state admission_expired (ar_releasedAt r) r.

Definition reservation_tenant (r : AdmissionReservation) : string := tenant_id (ar_tenant r).

Record quotas_untouched (s s' : QuotaStore) : Prop := {
  un_replays : js_elsewhere of_replay t (qs_replays s) (qs_replays s');
  un_admissions id r : map_get id (qs_reservations s) = Some r -> reservation_tenant r <> t ->
    exists r', map_get id (qs_reservations s') = Some r' /\ closes r r';
  un_admissions_new id r' : map_get id (qs_reservations s') = Some r' -> reservation_tenant r' <> t ->
    exists r, map_get id (qs_reservations s) = Some r /\ closes r r';
}.

Record untouched (s s' : Stores) : Prop := {
  un_workOrders : elsewhere of2 t (st_workOrders s) (st_workOrders s');
  un_inputs : elsewhere of3 t (st_inputs s) (st_inputs s');
  un_contexts : elsewhere of2 t (st_contexts s) (st_contexts s');
  un_events : events_untouched (st_events s) (st_events s');
  un_decisions : decisions_untouched (st_decisions s) (st_decisions s');
  un_ledger : effects_untouched (st_effects s) (st_effects s');
  un_grantStore : grants_untouched (st_grants s) (st_grants s');
  un_wakeups : elsewhere of2 t (st_wakeups s) (st_wakeups s');
  un_quotas : quotas_untouched (st_quotas s) (st_quotas s');
  un_executions : elsewhere of_execution t (st_executions s) (st_executions s');
  un_modelCalls : js_elsewhere of_call t (st_modelCalls s) (st_modelCalls s');
  un_resultStore : results_untouched (st_results s) (st_results s');
}.

Lemma closes_trans r1 r2 r3 : closes r1 r2 -> closes r2 r3 -> closes r1 r3.
Proof.
  intros [-> | (a & Ha & ->)]; [done |]. intros [-> | (b & Hb & ->)]; [right; eauto |].
  revert Hb. unfold admission_lapsed. cbn. by rewrite andb_false_l.
Qed.

Lemma closes_tenant r r' : closes r r' -> reservation_tenant r' = reservation_tenant r.
Proof. by intros [-> | (a & _ & ->)]. Qed.

#[export] Instance events_untouched_preorder : PreOrder events_untouched.
Proof.
  split; [by split |]. intros s1 s2 s3 [] []. split; [by etrans | by etrans |].
  intros id r Hr. by rewrite un_eventsById0, un_eventsById1.
Qed.

#[export] Instance decisions_untouched_preorder : PreOrder decisions_untouched.
Proof. split; [by split |]. intros s1 s2 s3 [] []. split; by etrans. Qed.

#[export] Instance effects_untouched_preorder : PreOrder effects_untouched.
Proof. split; [by split |]. intros s1 s2 s3 [] []. split; by etrans. Qed.

#[export] Instance grants_untouched_preorder : PreOrder grants_untouched.
Proof. split; [by split |]. intros s1 s2 s3 [] []. split; by etrans. Qed.

#[export] Instance results_untouched_preorder : PreOrder results_untouched.
Proof. split; [by split |]. intros s1 s2 s3 [] []. split; by etrans. Qed.

#[export] Instance quotas_untouched_preorder : PreOrder quotas_untouched.
Proof.
  split.
  - intros s. split; [done | |]; intros id r Hr _; exists r; (split; [done | by left]).
  - intros s1 s2 s3 [] []. split; [by etrans | |]; intros id r Hr Ht.
    + destruct (un_admissions0 _ _ Hr Ht) as (r2 & H2 & H12).
      rewrite <- (closes_tenant _ _ H12) in Ht. destruct (un_admissions1 _ _ H2 Ht) as (r3 & H3 & H23).
      exists r3. split; [done | by eapply closes_trans].
    + destruct (un_admissions_new1 _ _ Hr Ht) as (r2 & H2 & H23).
      rewrite (closes_tenant _ _ H23) in Ht. destruct (un_admissions_new0 _ _ H2 Ht) as (r1 & H1' & H12).
      exists r1. split; [done | by eapply closes_trans].
Qed.

#[export] Instance untouched_preorder : PreOrder untouched.
Proof. split; [by split |]. intros s1 s2 s3 [] []. split; by etrans. Qed.
End Relations.

(** ** Tenants of parsed records *)

(** Case analysis on the steps of a parser that answered. *)
Ltac parsed :=
  unfold checked in *;
  repeat match goal with
  | H : mbind _ ?x = Some _ |- _ => destruct x eqn:?; cbn in H; [| discriminate H]
  | H : match ?x with _ => _ end = Some _ |- _ => destruct x eqn:?; cbn in H; [| discriminate H]
  | H : (if ?x then _ else _) = Some _ |- _ => destruct x eqn:?; cbn in H; [| discriminate H]
  | H : Some _ = Some _ |- _ => injection H as <-
  end.

Section Parsed.
Context `{Zod}.

Lemma TenantSchema_id x y : TenantSchema x = Some y -> tenant_id y = js_trim (tenant_id x).
Proof. unfold TenantSchema. intros Hx. parsed. cbn. by eapply trimmed_js_trim. Qed.

Lemma work_order_tenant w w' : AcceptedWorkOrderSchema w = Some w' -> wo_tenantId w' = js_trim (wo_tenantId w).
Proof.
  unfold AcceptedWorkOrderSchema, wo_tenantId. intros Hw. parsed. cbn.
  match goal with Hc : WorkOrderCommonSchema _ = Some _ |- _ => unfold WorkOrderCommonSchema in Hc end.
  parsed. cbn. by apply TenantSchema_id.
Qed.

Lemma grant_binding_tenant b b' :
  CapabilityGrantBindingSchema b = Some b' -> tenant_id (gb_tenant b') = js_trim (tenant_id (gb_tenant b)).
Proof. unfold CapabilityGrantBindingSchema. intros Hb. parsed. cbn. by apply TenantSchema_id. Qed.

Lemma parsed_grant_tenant g g' : CapabilityGrantSchema g = Some g' -> grant_tenant g' = js_trim (grant_tenant g).
Proof. unfold CapabilityGrantSchema. intros Hg. parsed. cbn. by apply grant_binding_tenant. Qed.

Lemma effect_binding_tenant b b' : ProposedEffectBindingSchema b = Some b' -> binding_tenant b' = js_trim (binding_tenant b).
Proof. unfold ProposedEffectBindingSchema. intros Hb. parsed. cbn. by apply TenantSchema_id. Qed.

Lemma challenge_tenant c c' :
  DecisionSubmissionChallengeSchema c = Some c' -> binding_tenant (ch_binding c') = js_trim (binding_tenant (ch_binding c)).
Proof. unfold DecisionSubmissionChallengeSchema. intros Hc. parsed. cbn. by apply effect_binding_tenant. Qed.

Lemma parsed_approval_tenant a a' :
  ApprovalSchema a = Some a' -> binding_tenant (ap_binding a') = js_trim (binding_tenant (ap_binding a)).
Proof. unfold ApprovalSchema. intros Ha. parsed. cbn. by apply effect_binding_tenant. Qed.

Lemma gate_tenant g g' : DecisionGateSchema g = Some g' -> dg_tenantId g' = js_trim (dg_tenantId g).
Proof. unfold DecisionGateSchema. intros Hg. parsed. cbn. by eapply trimmed_js_trim. Qed.

Lemma rejection_tenant r r' : DecisionRejectionSchema r = Some r' -> dr_tenantId r' = js_trim (dr_tenantId r).
Proof. unfold DecisionRejectionSchema. intros Hr. parsed. cbn. by eapply trimmed_js_trim. Qed.

Lemma admission_tenant r r' :
  AdmissionRequestSchema r = Some r' -> tenant_id (aq_tenant r') = js_trim (tenant_id (aq_tenant r)).
Proof. unfold AdmissionRequestSchema. intros Hr. parsed. cbn. by apply TenantSchema_id. Qed.

Lemma parsed_reservation_tenant r r' :
  AdmissionReservationSchema r = Some r' -> reservation_tenant r' = js_trim (reservation_tenant r).
Proof. unfold AdmissionReservationSchema. intros Hr. parsed. unfold reservation_tenant. cbn. by apply TenantSchema_id. Qed.

Lemma execution_identity_tenant i i' :
  ActiveExecutionIdentitySchema i = Some i' -> tenant_id (ae_tenant i') = js_trim (tenant_id (ae_tenant i)).
Proof. unfold ActiveExecutionIdentitySchema. intros Hi. parsed. cbn. by apply TenantSchema_id. Qed.

Lemma execution_tenant r r' :
  ActiveExecutionReservationSchema r = Some r' ->
  tenant_id (ae_tenant (activeExecutionIdentity r')) = js_trim (tenant_id (ae_tenant (activeExecutionIdentity r))).
Proof. unfold ActiveExecutionReservationSchema. intros Hr. parsed. cbn. by apply execution_identity_tenant. Qed.

Lemma event_tenant e e' : RunEventSchema e = Some e' -> e_tenantId e' = e_tenantId e.
Proof. unfold RunEventSchema. intros He. by parsed. Qed.

Lemma scope_tenant s s' :
  CommandScopeSchema s = Some s' -> js_trim (tenant_id (cs_tenant s')) = tenant_id (cs_tenant s').
Proof.
  unfold CommandScopeSchema. intros Hs. parsed. cbn.
  match goal with Ht : TenantSchema _ = Some _ |- _ => rewrite (TenantSchema_id _ _ Ht) end. apply js_trim_idem.
Qed.
End Parsed.

Lemma orThrow_Return {E A} (o : option A) (e : E) a : orThrow o e = Return a -> o = Some a.
Proof. destruct o; cbn; [by intros [= ->] | done]. Qed.

(** ** What a method of each store leaves alone *)

(** Challenges are filed under their own tenant, a parsed one. *)
Definition filed (e : GateKey * DecisionSubmissionChallenge) : Prop :=
  of3 e.1 = binding_tenant (ch_binding e.2) /\ js_trim (of3 e.1) = of3 e.1.
Definition challenges_filed (s : DecisionStore) : Prop := Forall filed (ds_challenges s).

Lemma map_set_Forall {K V} `{EqDecision K} (P : K * V -> Prop) k v (m : JsMap K V) :
  Forall P m -> P (k, v) -> Forall P (map_set k v m).
Proof.
  intros Hm Hv. induction Hm as [| [k' v'] m Hp Hm IH]; cbn; [by repeat constructor |].
  case_decide as Hk; constructor; [by subst | done | done | done].
Qed.

Section Stores.
Context `{Zod} (profile : StorageSecurityProfile) (workOrderProtector : option WorkOrderProtector)
  (limits : list QuotaLimit) (generateId : string -> string).
Context (t : string) (trimmed_tenant : js_trim t = t).

Notation Of2 := (elsewhere of2 t).
Notation Of3 := (elsewhere of3 t).

(** Facts on parsed arguments, and the key of a record of the tenant. *)
Ltac facts :=
  repeat match goal with
  | H : orThrow _ _ = Return _ |- _ => apply orThrow_Return in H
  | H : parse _ _ = Return _ |- _ => apply parse_Return in H as [_ ->]
  end.

Lemma work_order_admit_keeps w s : keeps Of2 s (work_order_admit profile w).
Proof. unfold work_order_admit. keep. Qed.

Lemma work_order_admit_parsed w w' d s s' :
  work_order_admit profile w s = (Return (Some (w', d)), s') -> AcceptedWorkOrderSchema w = Some w'.
Proof.
  unfold work_order_admit, mthen, mlift, mget, mreturn.
  destruct (AcceptedWorkOrderSchema w) as [x |]; cbn [orThrow]; [| done].
  destruct (assertWriteAllowed _ _ _ _); [| done]. destruct (assertWorkOrderBindingDigest _); [| done].
  destruct (digestCanonicalJson _); [| done]. destruct (s !! _); [by case_bool_decide |]. by intros [= ->].
Qed.

Lemma putImmutable_keeps w s : wo_tenantId w = t -> keeps Of2 s (putImmutable profile workOrderProtector w).
Proof.
  intros Hw. unfold putImmutable, work_order_commit. apply keeps_then; [apply _ | apply work_order_admit_keeps |].
  intros [[w' d] |] s' He; [| keep]. apply work_order_admit_parsed, work_order_tenant in He. keep.
  apply elsewhere_insert. change (wo_tenantId w' = t). congruence.
Qed.

Lemma work_order_get_keeps id now s : keeps Of2 s (work_order_get workOrderProtector t id now).
Proof. unfold work_order_get. keep. by apply elsewhere_delete. Qed.

Lemma putOnce_keeps r s : is_tenantId r = t -> keeps Of3 s (putOnce profile r).
Proof. intros Hr. unfold putOnce. keep. facts. by apply elsewhere_insert. Qed.

Lemma context_put_keeps c s : ctx_tenantId c = t -> keeps Of2 s (context_put profile c).
Proof. intros Hc. unfold context_put, set_stream. keep. facts. by apply elsewhere_insert. Qed.

Lemma append_keeps e n s : e_tenantId e = t -> keeps (events_untouched t) s (append profile e n).
Proof.
  intros He. unfold append, appendSynchronous. keep. facts.
  match goal with Hp : RunEventSchema _ = Some _ |- _ => apply event_tenant in Hp end.
  split; cbn; [by apply elsewhere_insert; cbn; congruence | by apply elsewhere_insert; cbn; congruence |].
  intros id r Hr. destruct (decide (id = e_eventId a)) as [-> | Hne]; [| by rewrite lookup_insert_ne].
  rewrite lookup_insert_eq. split; [congruence |]. intros [= <-]. exfalso. apply Hr. cbn. congruence.
Qed.

Lemma memory_issue_keeps g s : grant_tenant g = t -> keeps (grants_untouched t) s (memory_issue g).
Proof.
  intros Hg. unfold memory_issue. keep. facts.
  match goal with Hp : CapabilityGrantSchema _ = Some _ |- _ => apply parsed_grant_tenant in Hp end.
  split; cbn; [apply elsewhere_insert; cbn; congruence | done].
Qed.

Lemma memory_reserveUse_keeps id k at_ s : keeps (grants_untouched t) s (memory_reserveUse t id k at_).
Proof. unfold memory_reserveUse. keep. split; cbn; [done | by apply elsewhere_set]. Qed.

Lemma putAuthorizationReservation_keeps r s :
  res_tenantId r = t -> keeps (effects_untouched t) s (putAuthorizationReservation r).
Proof.
  intros Hr. unfold putAuthorizationReservation. keep. facts.
  apply keeps_then; [apply _ | by keep |]. intros a s' Ha. keep.
  match type of Ha with ?m _ = _ => assert (keeps eq s m) as Heq by keep end. apply Heq in Ha as <-.
  split; cbn; first [done | by apply elsewhere_insert].
Qed.

Lemma putEffectRecord_keeps r s :
  eff_tenantId (eff_identity r) = t -> keeps (effects_untouched t) s (putEffectRecord r).
Proof.
  intros Hr. assert (forall s', s' = store_effect (effect_id_key (eff_identity r)) r s -> effects_untouched t s s') as Hput.
  { intros s' ->. split; cbn; try done; try by apply elsewhere_insert.
    unfold operation_key. destruct (eff_operationKey _); cbn; [by apply elsewhere_insert | done]. }
  unfold putEffectRecord. keep; facts; by apply Hput.
Qed.

Lemma putProtectedResult_keeps r s :
  er_tenantId (er_identity r) = t -> keeps (results_untouched t) s (putProtectedResult profile r).
Proof. intros Hr. unfold putProtectedResult. keep. facts. split; cbn; by apply elsewhere_insert. Qed.

Lemma put_call_keeps r s :
  mc_tenantId (mc_identity r) = t -> keeps (js_elsewhere of_call t) s (put_call limits r).
Proof. intros Hr. unfold put_call. keep; facts; by apply elsewhere_set. Qed.

Lemma enqueue_keeps now r s : wk_tenantId r = t -> keeps Of2 s (enqueue generateId now r).
Proof. intros Hr. unfold enqueue. keep. by apply elsewhere_insert. Qed.

Lemma put_execution_keeps key r s :
  of_execution key = t -> keeps (elsewhere of_execution t) s (put_execution key r).
Proof. intros Hk. unfold put_execution. keep. by apply elsewhere_insert. Qed.

Lemma putInTransaction_keeps now r n s :
  tenant_id (ae_tenant (activeExecutionIdentity r)) = t ->
  keeps (elsewhere of_execution t) s (putInTransaction now r n).
Proof.
  intros Hr. unfold putInTransaction. keep. all: facts.
  all: match goal with Hp : ActiveExecutionReservationSchema _ = Some _ |- _ => apply execution_tenant in Hp end.
  - apply put_execution_keeps. unfold of_execution, execution_key. cbn. congruence.
  - unfold start_execution. keep. apply put_execution_keeps. unfold of_execution, execution_key. cbn. congruence.
Qed.

Lemma expired_untouched at_ s : quotas_untouched t s (reconcileExpiredInTransaction at_ s).2.
Proof.
  assert (forall r, closes r (expire at_ r)) as Hc.
  { intros r. unfold closes, expire, expire_entry. cbn. destruct (admission_lapsed at_ r) eqn:Hl; [right; eauto | by left]. }
  split; cbn; [done | |]; intros id r; rewrite map_get_expire.
  - intros -> _. cbn. eauto.
  - intros (r0 & -> & ->)%fmap_Some _. eauto.
Qed.

Lemma store_admission_untouched request r s :
  tenant_id (aq_tenant request) = t -> reservation_tenant r = t ->
  (forall r', map_get (ar_id r) (qs_reservations s) = Some r' -> r' = r) ->
  quotas_untouched t s (store_admission request r s).
Proof.
  intros Hq Hr Hid. split; cbn.
  - unfold admissionReplayKey. destruct (aq_commandId request); cbn; [by apply elsewhere_set | done].
  - intros id r' Hg Ht. exists r'. split; [| by left]. rewrite map_get_set. case_decide; [| done].
    subst id. apply Hid in Hg as ->. by destruct Ht.
  - intros id r' Hg Ht. exists r'. split; [| by left]. rewrite map_get_set in Hg. case_decide; [| done].
    injection Hg as <-. by destruct Ht.
Qed.

Lemma reserveInTransaction_keeps now request s :
  tenant_id (aq_tenant request) = t -> keeps (quotas_untouched t) s (reserveInTransaction limits now request).
Proof.
  intros Hq o s' [e _ | e | ? ? ? _ _ | ? ? ? ? ? _ -> _ _ _ | parsed r s1 Hp -> _ _ Hnew Hid]%reserveInTransaction_result;
    try apply expired_untouched; [done |].
  etrans; [apply (expired_untouched now) |]. pose proof (new_admission_takes _ _ _ _ _ Hp Hnew) as [Htk _].
  injection Htk as Htt _ _ _ _ _. apply admission_tenant in Hp.
  apply store_admission_untouched; [congruence | unfold reservation_tenant; congruence | done].
Qed.

End Stores.

(** ** Decisions *)

Section Decisions.
Context `{Zod} (t : string).

(** Challenges stay filed under their tenants, and what is filed under another
    tenant is kept. *)
Definition decisions_kept (s s' : DecisionStore) : Prop :=
  challenges_filed s -> challenges_filed s' /\ (js_trim t = t -> decisions_untouched t s s').

#[export] Instance decisions_kept_preorder : PreOrder decisions_kept.
Proof.
  split; [by intros s Hs |]. intros s1 s2 s3 H12 H23 Hs. destruct (H12 Hs) as [Hs2 Hu]. destruct (H23 Hs2) as [Hs3 Hu'].
  split; [done |]. intros Ht. etrans; [by apply Hu | by apply Hu'].
Qed.

Lemma putGateOnce_keeps g s : dg_tenantId g = t -> keeps decisions_kept s (putGateOnce g).
Proof.
  intros Hg. unfold putGateOnce. keep. intros Hf. split; [done | intros Ht].
  match goal with Hp : orThrow (DecisionGateSchema _) _ = _ |- _ => apply orThrow_Return, gate_tenant in Hp end.
  split; cbn; try done. apply elsewhere_insert. unfold of3, gate_key. cbn. congruence.
Qed.

Lemma putChallenge_keeps c s : binding_tenant (ch_binding c) = t -> keeps decisions_kept s (putChallenge c).
Proof.
  intros Hc o s' [[-> _] | (c' & _ & Hp%challenge_tenant & _ & _ & ->)]%putChallenge_effect Hf; [done |]. split.
  - apply map_set_Forall; [done |]. split; [done |].
    change (js_trim (binding_tenant (ch_binding c')) = binding_tenant (ch_binding c')). by rewrite Hp, js_trim_idem.
  - intros Ht. assert (binding_tenant (ch_binding c') = t) by congruence.
    split; cbn; try done; [by apply elsewhere_set | by apply elsewhere_insert].
Qed.

Lemma consumeChallenge_keeps id cmd at_ s : keeps decisions_kept s (consumeChallenge t id cmd at_).
Proof.
  intros o s' [[-> _] | (k & c & c' & _ & Hn & _ & _ & _ & Hp%challenge_tenant & ->)]%consumeChallenge_effect Hf; [done |].
  assert ((k, c) ∈ challenges_named t id s) as Hin by (rewrite Hn; by left).
  apply list_elem_of_filter in Hin as [Hnamed Hin]. unfold named_challenge in Hnamed. cbn in Hnamed. bools.
  destruct (proj1 (list.Forall_forall _ _) Hf _ Hin) as [Hk Htr]. cbn in Hk, Htr, Hp. split.
  - apply map_set_Forall; [done |]. split; cbn; congruence.
  - intros Ht. split; cbn; try done. apply elsewhere_set. congruence.
Qed.

Lemma putApproval_keeps a s : binding_tenant (ap_binding a) = t -> keeps decisions_kept s (putApproval a).
Proof.
  intros Ha o s' [[-> _] | (a' & k & c & _ & Hp%parsed_approval_tenant & _ & _ & _ & ->)]%putApproval_effect Hf; [done |].
  split; [done | intros Ht]. split; cbn; try done. apply elsewhere_insert. unfold of2, approval_key. cbn. congruence.
Qed.

Lemma putRejection_keeps r s : dr_tenantId r = t -> keeps decisions_kept s (putRejection r).
Proof.
  intros Hr. unfold putRejection. keep. intros Hf. split; [done | intros Ht].
  match goal with Hp : orThrow (DecisionRejectionSchema _) _ = _ |- _ => apply orThrow_Return, rejection_tenant in Hp end.
  split; cbn; try done. apply elsewhere_insert. unfold of3, rejection_key. cbn. congruence.
Qed.

Lemma claimApproval_keeps id k at_ s : keeps decisions_kept s (claimApproval t id k at_).
Proof.
  unfold claimApproval. keep. intros Hf. split; [done | intros Ht]. split; cbn; try done; by apply elsewhere_insert.
Qed.
End Decisions.

Create HintDb store_methods.
#[export] Hint Resolve putImmutable_keeps putOnce_keeps context_put_keeps append_keeps memory_issue_keeps
  memory_reserveUse_keeps putAuthorizationReservation_keeps putEffectRecord_keeps putProtectedResult_keeps
  put_call_keeps enqueue_keeps putInTransaction_keeps reserveInTransaction_keeps putGateOnce_keeps
  putChallenge_keeps consumeChallenge_keeps putApproval_keeps putRejection_keeps claimApproval_keeps : store_methods.

(** ** Transactions *)

Section Transactions.
Context `{Zod} (profile : StorageSecurityProfile) (workOrderProtector : option WorkOrderProtector)
  (limits : list QuotaLimit) (generateId : string -> string) (t : string).

Definition stores_kept (s s' : Stores) : Prop :=
  challenges_filed (st_decisions s) ->
  challenges_filed (st_decisions s') /\ (js_trim t = t -> untouched t s s').

#[local] Instance stores_kept_preorder : PreOrder stores_kept.
Proof.
  split; [by intros s Hs |]. intros s1 s2 s3 H12 H23 Hs. destruct (H12 Hs) as [Hs2 Hu]. destruct (H23 Hs2) as [Hs3 Hu'].
  split; [done |]. intros Ht. etrans; [by apply Hu | by apply Hu'].
Qed.

Definition transaction_kept (x x' : TxState) : Prop := stores_kept (tx_stores x) (tx_stores x').

#[local] Instance transaction_kept_preorder : PreOrder transaction_kept.
Proof. split; [by intros x |]. intros x1 x2 x3 H12 H23. unfold transaction_kept in *. by etrans. Qed.

(** A method of one store keeps the suite when it keeps its store. *)
Lemma in_store_keeps {X A} (get : Stores -> X) (set : X -> Stores -> Stores) (R : X -> X -> Prop)
    (m : method X js_error A) x :
  (forall s y, R (get s) y -> stores_kept s (set y s)) ->
  keeps R (get (tx_stores x)) m -> keeps transaction_kept x (in_store get set m).
Proof.
  intros Hset Hm o x'. unfold in_store, focus. destruct (m (get (tx_stores x))) as [o' y] eqn:He.
  intros [= <- <-]. unfold transaction_kept. cbn. apply Hset. by eapply Hm.
Qed.

Lemma keeps_under {X A} (P : Prop) (R : X -> X -> Prop) s (m : method X js_error A) :
  (P -> keeps R s m) -> keeps (fun a b => P -> R a b) s m.
Proof. intros Hm o s' Ho HP. by eapply Hm. Qed.

(** A store other than the decisions. *)
Ltac in_field R :=
  match goal with
  | |- keeps _ ?x (in_store ?g _ _) =>
      apply (in_store_keeps _ _ (fun a b => js_trim t = t -> R a b));
        [intros [] ? Hy Hd; split; [exact Hd |]; intros Htr; specialize (Hy Htr); by split; cbn
        | apply keeps_under; intros Htr]
  end.

Lemma decisions_in_store {A} (m : method DecisionStore js_error A) x :
  keeps (decisions_kept t) (st_decisions (tx_stores x)) m ->
  keeps transaction_kept x (in_store st_decisions set_decisions m).
Proof.
  apply in_store_keeps. intros [] y Hy Hd. destruct (Hy Hd) as [? Hu]. split; [done |]. intros Ht.
  specialize (Hu Ht). by split; cbn.
Qed.

Lemma same_tenant_Return named kind u : same_tenant t named kind = Return u -> named = t.
Proof. unfold same_tenant. by case_bool_decide. Qed.

Lemma stored_work_order_keeps id now x :
  keeps transaction_kept x (stored_work_order workOrderProtector t id now).
Proof. unfold stored_work_order. in_field (elsewhere (V := WorkOrderRecord) of2 t). by apply work_order_get_keeps. Qed.

(** The guards of a call, turned into facts. *)
Ltac guards :=
  repeat match goal with
  | H : orThrow _ _ = Return _ |- _ => apply orThrow_Return in H
  | H : parse _ _ = Return _ |- _ => apply parse_Return in H as [_ ->]
  | H : same_tenant t _ _ = Return _ |- _ => apply same_tenant_Return in H
  end.

(** Each store with the relation its methods keep. *)
Ltac store_call :=
  lazymatch goal with
  | |- keeps _ _ (in_store st_decisions _ _) => apply decisions_in_store
  | |- keeps _ _ (in_store st_inputs _ _) => in_field (elsewhere (V := InputSubmissionRecord) of3 t)
  | |- keeps _ _ (in_store st_events _ _) => in_field (events_untouched t)
  | |- keeps _ _ (in_store st_effects _ _) => in_field (effects_untouched t)
  | |- keeps _ _ (in_store st_grants _ _) => in_field (grants_untouched t)
  | |- keeps _ _ (in_store st_quotas _ _) => in_field (quotas_untouched t)
  | |- keeps _ _ (in_store st_executions _ _) => in_field (elsewhere (V := ActiveExecutionReservation) of_execution t)
  | |- keeps _ _ (in_store st_modelCalls _ _) => in_field (js_elsewhere (V := ModelCallReservation) of_call t)
  | |- keeps _ _ (in_store st_results _ _) => in_field (results_untouched t)
  | |- keeps _ _ (in_store ?g _ _) =>
      let X := type of g in
      lazymatch X with Stores -> gmap _ ?V => in_field (elsewhere (V := V) of2 t) end
  end; eauto with store_methods.

Lemma run_call_keeps bound {A} (call : TransactionCall A) x :
  keeps transaction_kept x (run_call profile workOrderProtector limits generateId t bound call).
Proof.
  destruct call; cbn [run_call]; keep; guards; try (by intros ? ? [= <- <-]);
    try lazymatch goal with
    | |- keeps _ _ (mthen (in_store _ _ _) _) => apply keeps_then; [apply _ | | intros ? ? _; keep]
    | |- keeps _ _ (mthen (stored_work_order _ _ _ _) _) =>
        apply keeps_then; [apply _ | apply stored_work_order_keeps | intros ? ? _; keep]
    end; try done.
  all: store_call.
Qed.

Lemma run_program_keeps {V} bound (p : tx_program V) x :
  keeps transaction_kept x (run_program profile workOrderProtector limits generateId t bound p).
Proof.
  revert x. induction p as [v | e | A call continue IH]; intros x; cbn [run_program]; [keep | keep |].
  intros o x'. destruct (run_call _ _ _ _ t bound call x) as [o1 x1] eqn:He. intros Ho.
  etrans; [by eapply run_call_keeps | by eapply IH].
Qed.
End Transactions.

(** ** Units of work *)

Section Isolation.
Context `{Zod} (profile : StorageSecurityProfile) (workOrderProtector : option WorkOrderProtector)
  (limits : list QuotaLimit) (generateId : string -> string) {V : Type}.

Notation command_tx := (transactCommand (V := V) profile workOrderProtector limits generateId).
Notation transition_tx := (transactTransition (V := V) profile workOrderProtector limits generateId).
Notation unit_step := (uow_step (V := V) profile workOrderProtector limits generateId).

Lemma uow_step_filed u u' :
  challenges_filed (st_decisions (uow_stores u)) -> unit_step u u' ->
  challenges_filed (st_decisions (uow_stores u')).
Proof.
  intros Hf [s d c o [[-> _] | [(? & ? & ? & -> & _) | (scope & key & t & v & r & _ & _ & [Hrun _] & -> & _)]]%transactCommand_effect
    | k c o [[-> _] | [(? & ? & -> & _) | (key & t & v & _ & _ & Hrun & -> & _)]]%transactTransition_effect]; try done;
    by apply run_program_keeps in Hrun as [? _].
Qed.

(** The transactions of a tenant. *)
Inductive tenant_step (t : string) (u u' : UnitOfWork V) : Prop :=
| tenant_command scopeInput scope requestDigest callback o :
    CommandScopeSchema scopeInput = Some scope -> tenant_id (cs_tenant scope) = t ->
    command_tx scopeInput requestDigest callback u = (o, u') -> tenant_step t u u'
| tenant_transition keyInput callback o :
    tk_tenantId keyInput = t -> js_trim t = t ->
    transition_tx keyInput callback u = (o, u') -> tenant_step t u u'.

(** C6: tenants are isolated.  Whatever its callback does — whichever calls it
    makes, with whichever arguments, catching what it likes — a command or a
    transition of one tenant leaves everything filed under another tenant as it
    was: work orders, inputs, contexts, event streams with their index and
    projections, gates, challenges, approvals with their claims, reservations and
    effects with their key indexes, grants and uses, wake-ups, active executions,
    model calls and acknowledged results.  Of the other tenants' admissions only
    lapsed reservations may have been closed, and none is added. *)
Theorem tenant_isolation t u u' :
  steps unit_step (new_unit_of_work empty_stores) u -> tenant_step t u u' ->
  untouched t (uow_stores u) (uow_stores u').
Proof.
  intros Hr Hs. assert (challenges_filed (st_decisions (uow_stores u))) as Hf.
  { eapply (steps_invariant _ (fun w => challenges_filed (st_decisions (uow_stores w)))); [| | exact Hr].
    - intros. by eapply uow_step_filed.
    - constructor. }
  destruct Hs as [si scope d c o Hsc <- He | k c o <- Ht He].
  - assert (Htr := scope_tenant _ _ Hsc).
    apply transactCommand_effect in He as [[-> _] | [(? & ? & ? & -> & _) | (scope' & key & x & v & r & Hk & _ & [Hrun _] & -> & _)]];
      [done | done |]. unfold command_key in Hk. rewrite Hsc in Hk. cbn in Hk. destruct (scope_text scope); [| done].
    injection Hk as -> _. apply run_program_keeps in Hrun as [_ Hu]; [done |]. by apply Hu.
  - apply transactTransition_effect in He as [[-> _] | [(? & ? & -> & _) | (key & x & v & _ & _ & Hrun & -> & _)]];
      [done | done |]. apply run_program_keeps in Hrun as [_ Hu]; [done |]. by apply Hu.
Qed.
End Isolation.

(** ** The unit of work on concrete transactions *)

#[local] Existing Instance zod_reference.

Definition suite_profile : StorageSecurityProfile :=
  {| ssp_id := "memory"; ssp_allowedDataClasses := [data_internal]; ssp_allowedTenants := ["*"];
     ssp_allowedPurposes := ["*"] |}.

Definition noon := "2026-01-01T12:00:00.000Z".

Definition scope_of (tenantId : string) : CommandScope :=
  {| cs_issuerId := "issuer"; cs_tenant := {| tenant_id := tenantId |};
     cs_principal := {| principal_type := user; principal_id := "user-1" |};
     cs_operation := "runs.create"; cs_normalizedResourceScope := [];
     cs_commandId := "kafcmd_1767225600000_00000000000000000000000000000000" |}.

Definition request_digest : string :=
  "sha256:0000000000000000000000000000000000000000000000000000000000000001".
Definition other_digest : string :=
  "sha256:0000000000000000000000000000000000000000000000000000000000000002".

Definition record_of (tenantId : string) : CommandRecord :=
  {| cr_scope := scope_of tenantId; cr_requestDigest := request_digest; cr_status := command_committed;
     cr_resultReference := None; cr_safeResponseDigest := None; cr_firstSeenAt := noon;
     cr_committedAt := Some noon; cr_detailRetentionExpiresAt := noon; cr_idempotencyExpiresAt := noon |}.

Definition wakeup_of (tenantId : string) : DurableWakeupRequest :=
  {| wk_tenantId := tenantId; wk_runId := "run"; wk_reason := wake_resume; wk_notBefore := noon;
     wk_deduplicationKey := "key"; wk_payload := [] |}.

(** A callback that asks for a wake-up and leaves the record of its command. *)
Definition wakes (tenantId : string) : tx_program string :=
  tx_await (tx_enqueueWakeup noon (wakeup_of tenantId)) (fun receipt =>
  tx_await (tx_putCommandRecord (record_of tenantId)) (fun _ => tx_done (wr_enqueuedAt receipt))).

(** One that does the same and then throws. *)
Definition wakes_and_fails (tenantId : string) : tx_program string :=
  tx_await (tx_enqueueWakeup noon (wakeup_of tenantId)) (fun _ => tx_fail (RangeError "later")).

Definition command (tenantId digest : string) (p : tx_program string) (u : UnitOfWork string) :=
  transactCommand suite_profile None [] default_receipt_id (scope_of tenantId) digest p u.

Definition unit0 : UnitOfWork string := new_unit_of_work empty_stores.
Definition unit1 : UnitOfWork string := (command "acme" request_digest (wakes "acme") unit0).2.

Definition answer : CommandTransactionResult string :=
  {| ctr_value := noon; ctr_commandRecord := record_of "acme"; ctr_replayed := false |}.

Lemma acme_answered : command "acme" request_digest (wakes "acme") unit0 = (Return answer, unit1).
Proof.
  assert ((command "acme" request_digest (wakes "acme") unit0).1 = Return answer) as Ho by (vm_compute; reflexivity).
  rewrite <- Ho. apply surjective_pairing.
Qed.

Lemma unit1_reached : steps (uow_step suite_profile None [] default_receipt_id) unit0 unit1.
Proof. eapply steps_cons; [| apply steps_refl]. eapply step_command. exact acme_answered. Qed.

(** A wake-up requested in a command that throws is gone, and a call for another
    tenant throws. *)
Example failed_command_leaves_nothing :
  (command "acme" request_digest (wakes_and_fails "acme") unit0).1 = Throw (RangeError "later")
  /\ size (st_wakeups (uow_stores (command "acme" request_digest (wakes_and_fails "acme") unit0).2)) = 0%nat
  /\ size (st_wakeups (uow_stores unit1)) = 1%nat
  /\ (command "acme" request_digest (wakes "globex") unit0).1
     = Throw (KafReason KAF_STORAGE_CONCURRENCY_CONFLICT "cross_tenant_wakeup").
Proof. split_and!; vm_compute; reflexivity. Qed.

(** The second submission brings a callback that would throw; it is not run. *)
Lemma command_replay_witness :
  command "acme" request_digest (wakes_and_fails "acme") unit1
    = (Return {| ctr_value := noon; ctr_commandRecord := record_of "acme"; ctr_replayed := true |}, unit1)
  /\ command "acme" other_digest (wakes "acme") unit1 = (Throw (KafError KAF_HTTP_IDEMPOTENCY_CONFLICT []), unit1).
Proof.
  split.
  - exact (command_replay suite_profile None [] default_receipt_id (scope_of "acme") request_digest (wakes "acme")
             unit0 answer unit1 unit1 request_digest (wakes_and_fails "acme") acme_answered (steps_refl _ _)).
  - exact (command_replay suite_profile None [] default_receipt_id (scope_of "acme") request_digest (wakes "acme")
             unit0 answer unit1 unit1 other_digest (wakes "acme") acme_answered (steps_refl _ _)).
Defined.

(** A transition of acme, answered twice. *)
Definition transition_of (tenantId : string) : RunTransitionKey :=
  {| tk_tenantId := tenantId; tk_runId := "run"; tk_transitionKind := "resume"; tk_transitionKey := "1";
     tk_workOrderBindingDigest := request_digest; tk_executionDefinitionDigest := request_digest;
     tk_leaseId := None; tk_fencingToken := None |}.

Definition transition (tenantId : string) (p : tx_program string) (u : UnitOfWork string) :=
  transactTransition suite_profile None [] default_receipt_id (transition_of tenantId) p u.

Definition unit2 : UnitOfWork string := (transition "acme" (wakes "acme") unit0).2.

Lemma transition_runs_once_witness :
  transition " acme " (wakes_and_fails "acme") unit2 = (Return noon, unit2).
Proof.
  pose proof (transition_runs_once suite_profile None [] default_receipt_id (transition_of "acme") (wakes "acme") unit0)
    as Honce.
  assert (transactTransition suite_profile None [] default_receipt_id (transition_of "acme") (wakes "acme") unit0
          = (Return noon, unit2)) as Heq.
  { assert ((transition "acme" (wakes "acme") unit0).1 = Return noon) as Ho by (vm_compute; reflexivity).
    rewrite <- Ho. apply surjective_pairing. }
  rewrite Heq in Honce. apply Honce; [apply steps_refl | vm_compute; reflexivity].
Defined.

(** A command of globex after the one of acme: the wake-up of acme stays. *)
Lemma tenant_isolation_witness :
  untouched "globex" (uow_stores unit1) (uow_stores (command "globex" request_digest (wakes "globex") unit1).2)
  /\ size (st_wakeups (uow_stores (command "globex" request_digest (wakes "globex") unit1).2)) = 2%nat.
Proof.
  split; [| vm_compute; reflexivity].
  apply (tenant_isolation suite_profile None [] default_receipt_id "globex" unit1 _ unit1_reached).
  refine (tenant_command _ _ _ _ "globex" unit1 _ (scope_of "globex") (scope_of "globex") request_digest
            (wakes "globex") _ _ _ _); [vm_compute; reflexivity | reflexivity |].
  apply surjective_pairing.
Defined.
