(* ===== verification/EffectServices.v ===== *)
(** * Services of write effects (packages/runtime/src/effects.ts, packages/core/src/tool.ts)

    The keys and digests of an effect and the checks the runtime applies to what
    the host's strategies and authorization resolver return.  The host's
    functions are arguments. *)

From S2P Require Import Prelude JsTime Errors Schema JsonValue Unicode JsonText Contracts WorkOrder.
From S2P Require Import Authorization Effects Run Events StoreInternal Digest JsArithmetic EffectLedger.
From S2P Require Import WorkOrderStore.

Local Open Scope Z_scope.
Local Open Scope js_scope.

(** ** Previews (packages/core/src/tool.ts) *)

Record EffectPreview := {
  ep_normalizedTarget : string;
  ep_operationClass : string;
  ep_contentDigest : string;
  ep_reversibility : PreviewReversibility;
  ep_materialConsequence : string;
  ep_approvalDisplay : option ApprovalPreviewDisplay;
  ep_diffDigest : option string;
  ep_previewDigest : string;
}.

#[export] Instance EffectPreview_eq_dec : EqDecision EffectPreview.
Proof. solve_decision. Defined.

Definition EffectPreviewSchema (p : EffectPreview) : option EffectPreview :=
  display ← match ep_approvalDisplay p with
            | None => Some None
            | Some d => Some <$> ApprovalPreviewDisplaySchema d
            end;
  checked (min1 (ep_normalizedTarget p) && min1 (ep_operationClass p) && DigestSchema (ep_contentDigest p)
           && min1 (ep_materialConsequence p) && optional DigestSchema (ep_diffDigest p)
           && DigestSchema (ep_previewDigest p))
    {| ep_normalizedTarget := ep_normalizedTarget p; ep_operationClass := ep_operationClass p;
       ep_contentDigest := ep_contentDigest p; ep_reversibility := ep_reversibility p;
       ep_materialConsequence := ep_materialConsequence p; ep_approvalDisplay := display;
       ep_diffDigest := ep_diffDigest p; ep_previewDigest := ep_previewDigest p |}.

Definition reversibility_name (r : PreviewReversibility) : string :=
  match r with preview_compensatable => "compensatable" | preview_irreversible => "irreversible" end.

Definition display_json (d : ApprovalPreviewDisplay) : JsonValue :=
  Jobj ([(js "title", jstr (apd_title d)); (js "summary", jstr (apd_summary d));
         (js "materialConsequence", jstr (apd_materialConsequence d));
         (js "reversibility", jstr (reversibility_name (apd_reversibility d)))]
        ++ match apd_fields d with
           | None => []
           | Some fields => [(js "fields",
               Jarr ((fun f => Jobj [(js "label", jstr f.1); (js "value", jstr f.2)]) <$> fields))]
           end).

(** The members of a preview its digest covers. *)
Definition preview_material (p : EffectPreview) : JsonValue :=
  Jobj ([(js "schemaVersion", jstr "1"); (js "normalizedTarget", jstr (ep_normalizedTarget p));
         (js "operationClass", jstr (ep_operationClass p)); (js "contentDigest", jstr (ep_contentDigest p));
         (js "reversibility", jstr (reversibility_name (ep_reversibility p)));
         (js "materialConsequence", jstr (ep_materialConsequence p))]
        ++ match ep_approvalDisplay p with
           | None => []
           | Some d => [(js "approvalDisplay", display_json d)]
           end
        ++ optional_field "diffDigest" (ep_diffDigest p)).

(** ** Strategies of the host *)

Inductive RuntimeStrategyKind := runtime_native | runtime_reconcilable | runtime_none.

#[export] Instance RuntimeStrategyKind_eq_dec : EqDecision RuntimeStrategyKind.
Proof. solve_decision. Defined.

Definition ledger_strategy (k : RuntimeStrategyKind) : EffectStrategyKind :=
  match k with
  | runtime_native => strategy_native | runtime_reconcilable => strategy_reconcilable
  | runtime_none => strategy_none
  end.

Definition tool_strategy (k : RuntimeStrategyKind) : ToolEffectStrategyKind :=
  match k with
  | runtime_native => tool_native | runtime_reconcilable => tool_reconcilable | runtime_none => tool_none
  end.

Record RuntimeEffectOperationBinding := {
  ob_effectKey : string;
  ob_normalizedTargetDigest : string;
  ob_toolRegistrationDigest : string;
}.

(** An executable strategy; its previews, dispatches and lookups are calls of the
    runtime's programs. *)
Record RuntimeExecutableEffectStrategy := {
  st_kind : RuntimeStrategyKind;
  st_registrationDigest : string;
  st_previewRegistrationDigest : string;
  st_validateOutput : JsonValue -> outcome js_error JsonValue;
  st_operationKey : JsonValue -> RuntimeEffectOperationBinding -> outcome js_error string;
}.

Record RuntimeEffectDispatchContext := {
  dc_tenantId : string;
  dc_runId : string;
  dc_stepId : string;
  dc_toolCallId : string;
  dc_effectId : string;
  dc_effectKey : string;
  dc_normalizedTargetDigest : string;
  dc_purposeCode : string;
  dc_dataClass : DataClass;
}.

Record EffectExecutionResult := {
  xr_result : JsonValue;
  xr_acknowledgement : EffectAcknowledgement;
}.

Inductive RuntimeEffectLookupResult :=
| lookup_applied (execution : EffectExecutionResult)
| lookup_not_applied
| lookup_unknown.

(** ** Keys and digests *)

Record EffectKeyInput := {
  ek_workOrderBindingDigest : string;
  ek_executionDefinitionDigest : string;
  ek_runId : string;
  ek_stepId : string;
  ek_toolCallId : string;
  ek_toolRegistrationDigest : string;
  ek_argumentsDigest : string;
  ek_normalizedTargetDigest : string;
}.

Definition effect_key_json (i : EffectKeyInput) : JsonValue :=
  Jobj [(js "schemaVersion", jstr "1"); (js "workOrderBindingDigest", jstr (ek_workOrderBindingDigest i));
        (js "executionDefinitionDigest", jstr (ek_executionDefinitionDigest i)); (js "runId", jstr (ek_runId i));
        (js "stepId", jstr (ek_stepId i)); (js "toolCallId", jstr (ek_toolCallId i));
        (js "toolRegistrationDigest", jstr (ek_toolRegistrationDigest i));
        (js "argumentsDigest", jstr (ek_argumentsDigest i));
        (js "normalizedTargetDigest", jstr (ek_normalizedTargetDigest i))].

Definition createEffectKey (i : EffectKeyInput) : outcome js_error string :=
  digest ← digestCanonicalJson (effect_key_json i);
  Return ("pactmark-effect:" +:+ digest).

Definition proof_kind_name (k : ProofKind) : string :=
  match k with
  | receiver_receipt => "receiver_receipt" | transaction_commit => "transaction_commit"
  | successful_response => "successful_response" | lookup_recovery => "lookup_recovery"
  end.

Definition receipt_json (v : ReceiptValue) : JsonValue :=
  match v with receipt_string s => Jstr s | receipt_number x => Jnum x | receipt_boolean b => Jbool b end.

Definition proof_json (a : EffectAcknowledgement) : JsonValue :=
  Jobj ([(js "schemaVersion", jstr "1"); (js "proofKind", jstr (proof_kind_name (ack_proofKind a)));
         (js "effectKey", jstr (ack_effectKey a))]
        ++ optional_field "operationKey" (ack_operationKey a)
        ++ [(js "toolRegistrationDigest", jstr (ack_toolRegistrationDigest a));
            (js "strategyRegistrationDigest", jstr (ack_strategyRegistrationDigest a));
            (js "normalizedTargetDigest", jstr (ack_normalizedTargetDigest a));
            (js "resultSchemaDigest", jstr (ack_resultSchemaDigest a));
            (js "resultDigest", jstr (ack_resultDigest a)); (js "acknowledgedAt", jstr (ack_acknowledgedAt a));
            (js "safeReceiptMetadata",
             Jobj ((fun kv => (kv.1, receipt_json kv.2)) <$> default [] (ack_safeReceiptMetadata a)))]).

Definition effectProofDigest (a : EffectAcknowledgement) : outcome js_error string :=
  digestCanonicalJson (proof_json a).

(** ** Checks *)

(** The members of an acknowledgement compared with what was dispatched. *)
Record AcknowledgementBinding := {
  ab_effectKey : string;
  ab_operationKey : option string;
  ab_toolRegistrationDigest : string;
  ab_strategyRegistrationDigest : string;
  ab_normalizedTargetDigest : string;
  ab_resultSchemaDigest : string;
  ab_resultDigest : string;
}.

#[export] Instance AcknowledgementBinding_eq_dec : EqDecision AcknowledgementBinding.
Proof. solve_decision. Defined.

Definition acknowledgement_binding (a : EffectAcknowledgement) : AcknowledgementBinding :=
  {| ab_effectKey := ack_effectKey a; ab_operationKey := ack_operationKey a;
     ab_toolRegistrationDigest := ack_toolRegistrationDigest a;
     ab_strategyRegistrationDigest := ack_strategyRegistrationDigest a;
     ab_normalizedTargetDigest := ack_normalizedTargetDigest a;
     ab_resultSchemaDigest := ack_resultSchemaDigest a; ab_resultDigest := ack_resultDigest a |}.

Definition expected_acknowledgement (registration : ToolRegistrationContract) (effectKey : string)
    (operationKey : option string) (normalizedTargetDigest resultDigest : string) : AcknowledgementBinding :=
  {| ab_effectKey := effectKey; ab_operationKey := operationKey;
     ab_toolRegistrationDigest := tool_toolRegistrationDigest registration;
     ab_strategyRegistrationDigest := tool_effectStrategyRegistrationDigest registration;
     ab_normalizedTargetDigest := normalizedTargetDigest;
     ab_resultSchemaDigest := tool_outputSchemaDigest registration; ab_resultDigest := resultDigest |}.

Definition binding_mismatch {A} (reason : string) : outcome js_error A :=
  Throw (KafReason KAF_AUTHORIZATION_BINDING_MISMATCH reason).

Section Checks.
Context `{Zod}.

Definition EffectExecutionResultSchema (x : EffectExecutionResult) : bool :=
  JsonValueSchema (xr_result x) && EffectAcknowledgementSchema (xr_acknowledgement x).

Definition RuntimeEffectLookupResultSchema (l : RuntimeEffectLookupResult) : bool :=
  match l with lookup_applied x => EffectExecutionResultSchema x | _ => true end.

Definition validateEffectLookupResult (l : RuntimeEffectLookupResult) : outcome js_error RuntimeEffectLookupResult :=
  if RuntimeEffectLookupResultSchema l then Return l else binding_mismatch "effect_lookup_result_invalid".

(** The result and the acknowledgement of an execution, checked against what was
    dispatched. *)
Definition validateEffectExecution (strategy : RuntimeExecutableEffectStrategy)
    (registration : ToolRegistrationContract) (effectKey : string) (operationKey : option string)
    (normalizedTargetDigest : string) (input : EffectExecutionResult)
  : outcome js_error (JsonValue * EffectAcknowledgement) :=
  execution ← parse EffectExecutionResultSchema input;
  result ← st_validateOutput strategy (xr_result execution);
  resultDigest ← digestCanonicalJson result;
  acknowledgement ← parse EffectAcknowledgementSchema (xr_acknowledgement execution);
  if negb (bool_decide (acknowledgement_binding acknowledgement
                        = expected_acknowledgement registration effectKey operationKey normalizedTargetDigest
                            resultDigest))
  then binding_mismatch "effect_acknowledgement_binding_mismatch"
  else
    proof ← effectProofDigest acknowledgement;
    if bool_decide (ack_proofDigest acknowledgement = proof) then Return (result, acknowledgement)
    else binding_mismatch "effect_acknowledgement_proof_mismatch".

(** The comparison of the two previews of one call, rendered one after the other. *)
Definition validateEffectPreview (strategy : RuntimeExecutableEffectStrategy)
    (registration : ToolRegistrationContract) (normalizedTargetDigest : string) (firstInput secondInput : EffectPreview)
  : outcome js_error EffectPreview :=
  first ← orThrow (EffectPreviewSchema firstInput) ZodError;
  second ← orThrow (EffectPreviewSchema secondInput) ZodError;
  let refused := Throw (KafReason KAF_POLICY_DENIED "effect_preview_binding_or_determinism_failed") in
  if negb (bool_decide (tool_previewStrategyRegistrationDigest registration
                        = Some (st_previewRegistrationDigest strategy)))
  then refused
  else
    target ← digestCanonicalJson (jstr (ep_normalizedTarget first));
    if negb (bool_decide (target = normalizedTargetDigest)) then refused
    else
      digest ← digestCanonicalJson (preview_material first);
      if negb (bool_decide (ep_previewDigest first = digest)) then refused
      else if bool_decide (first = second) then Return first else refused.

(** ** Authorization reservations *)

(** [workOrder.executionDefinition], of either kind of work order. *)
Definition wo_executionDefinition (w : AcceptedWorkOrder) : ExecutionDefinitionRef :=
  match wo_kind w with
  | agent_work_order d _ _ _ => agent_definition d
  | compensation_work_order d _ _ _ _ _ _ _ _ _ => compensation_definition d
  end.

Record RuntimeEffectAuthorizationRequest := {
  rq_workOrder : AcceptedWorkOrder;
  rq_projection : RunProjection;
  rq_registration : ToolRegistrationContract;
  rq_stepId : string;
  rq_toolCallId : string;
  rq_effectId : string;
  rq_effectKey : string;
  rq_argumentsDigest : string;
  rq_normalizedTargetDigest : string;
  rq_authorizationKey : string;
  rq_policyRegistrationDigest : string;
  rq_approvalId : option string;
}.

(** The members of a reservation compared with the request. *)
Record ReservationBinding := {
  rvb_authorizationKey : string;
  rvb_effect : EffectBinding;
  rvb_policyRegistrationDigest : string;
  rvb_approvalId : option string;
  rvb_purposeCode : string;
  rvb_purposeRegistryVersion : string;
  rvb_state : ReservationState;
}.

#[export] Instance ReservationBinding_eq_dec : EqDecision ReservationBinding.
Proof. solve_decision. Defined.

Definition requested_binding (q : RuntimeEffectAuthorizationRequest) : ReservationBinding :=
  let w := rq_workOrder q in
  {| rvb_authorizationKey := rq_authorizationKey q;
     rvb_effect :=
       {| eb_tenantId := wo_tenantId w; eb_runId := run_runId (p_run (rq_projection q)); eb_stepId := rq_stepId q;
          eb_toolCallId := rq_toolCallId q; eb_effectKey := rq_effectKey q;
          eb_executionDefinition := wo_executionDefinition w;
          eb_executionDefinitionDigest := wo_executionDefinitionDigest w;
          eb_workOrderBindingDigest := wo_workOrderBindingDigest (wo_common w);
          eb_toolId := tool_id (rq_registration q);
          eb_toolVersion := tool_implementationVersion (rq_registration q);
          eb_toolRegistrationDigest := tool_toolRegistrationDigest (rq_registration q);
          eb_argumentsDigest := rq_argumentsDigest q;
          eb_normalizedTargetDigest := rq_normalizedTargetDigest q |};
     rvb_policyRegistrationDigest := rq_policyRegistrationDigest q; rvb_approvalId := rq_approvalId q;
     rvb_purposeCode := purpose_code (wo_purpose (wo_common w));
     rvb_purposeRegistryVersion := purpose_registryVersion (wo_purpose (wo_common w));
     rvb_state := reservation_reserved |}.

(** A reservation without effect key has no canonical text. *)
Definition reservation_binding (r : AuthorizationReservation) : outcome js_error ReservationBinding :=
  effect ← authorizationBinding r;
  Return {| rvb_authorizationKey := res_authorizationKey r; rvb_effect := effect;
            rvb_policyRegistrationDigest := res_policyRegistrationDigest r;
            rvb_approvalId := res_approvalId r; rvb_purposeCode := res_purposeCode r;
            rvb_purposeRegistryVersion := res_purposeRegistryVersion r; rvb_state := res_state r |}.

Definition validateAuthorizationReservation (request : RuntimeEffectAuthorizationRequest) (now : string)
    (input : AuthorizationReservation) : outcome js_error AuthorizationReservation :=
  reservation ← parse AuthorizationReservationSchema input;
  actual ← reservation_binding reservation;
  if negb (bool_decide (actual = requested_binding request))
     || nan_gt (Date_parse (res_createdAt reservation)) (Date_parse now)
     || nan_le (Date_parse (res_expiresAt reservation)) (Date_parse now)
     || negb (bool_decide (res_consumedAt reservation = None))
     || negb (bool_decide (res_secretRefIds reservation = []))
  then binding_mismatch (if bool_decide (res_secretRefIds reservation = [])
                         then "effect_authorization_reservation_mismatch"
                         else "effect_secret_ref_claim_port_unavailable")
  else Return reservation.

(** [{ ...reservation, state: "consumed", consumedAt }] *)
Definition consumed_reservation (consumedAt : string) (r : AuthorizationReservation) : AuthorizationReservation :=
  {| res_authorizationReservationId := res_authorizationReservationId r;
     res_authorizationKey := res_authorizationKey r; res_tenantId := res_tenantId r; res_runId := res_runId r;
     res_stepId := res_stepId r; res_toolCallId := res_toolCallId r; res_effectKey := res_effectKey r;
     res_workOrderBindingDigest := res_workOrderBindingDigest r;
     res_executionDefinition := res_executionDefinition r;
     res_executionDefinitionDigest := res_executionDefinitionDigest r; res_toolId := res_toolId r;
     res_toolVersion := res_toolVersion r; res_toolRegistrationDigest := res_toolRegistrationDigest r;
     res_policyRegistrationDigest := res_policyRegistrationDigest r; res_argumentsDigest := res_argumentsDigest r;
     res_normalizedTargetDigest := res_normalizedTargetDigest r; res_grantId := res_grantId r;
     res_approvalId := res_approvalId r; res_secretRefIds := res_secretRefIds r;
     res_purposeCode := res_purposeCode r; res_purposeRegistryVersion := res_purposeRegistryVersion r;
     res_state := reservation_consumed; res_createdAt := res_createdAt r; res_expiresAt := res_expiresAt r;
     res_consumedAt := Some consumedAt |}.

Definition markAuthorizationReservationConsumed (consumedAt : string) (input : AuthorizationReservation)
  : outcome js_error AuthorizationReservation :=
  reservation ← parse AuthorizationReservationSchema input;
  if negb (bool_decide (res_state reservation = reservation_reserved))
     || negb (bool_decide (res_consumedAt reservation = None))
     || nan_lt (Date_parse consumedAt) (Date_parse (res_createdAt reservation))
     || nan_le (Date_parse (res_expiresAt reservation)) (Date_parse consumedAt)
  then binding_mismatch "effect_authorization_reservation_not_consumable"
  else parse AuthorizationReservationSchema (consumed_reservation consumedAt reservation).

(** ** Records of the ledger *)

Record EffectLedgerBinding := {
  lb_tenantId : string;
  lb_runId : string;
  lb_effectKey : string;
  lb_toolRegistrationDigest : string;
  lb_strategy : EffectStrategyKind;
  lb_strategyRegistrationDigest : string;
  lb_argumentsDigest : string;
  lb_normalizedTargetDigest : string;
}.

#[export] Instance EffectLedgerBinding_eq_dec : EqDecision EffectLedgerBinding.
Proof. solve_decision. Defined.

Definition ledger_binding (i : EffectIdentity) : EffectLedgerBinding :=
  {| lb_tenantId := eff_tenantId i; lb_runId := eff_runId i; lb_effectKey := eff_effectKey i;
     lb_toolRegistrationDigest := eff_toolRegistrationDigest i; lb_strategy := eff_strategy i;
     lb_strategyRegistrationDigest := eff_strategyRegistrationDigest i;
     lb_argumentsDigest := eff_argumentsDigest i; lb_normalizedTargetDigest := eff_normalizedTargetDigest i |}.

Definition assertEffectRecordBinding (input : EffectRecord) (expected : EffectLedgerBinding)
  : outcome js_error EffectRecord :=
  record ← parse EffectRecordSchema input;
  if bool_decide (ledger_binding (eff_identity record) = expected) then Return record
  else binding_mismatch "effect_ledger_binding_mismatch".
End Checks.
