(* ===== verification/Checkpoints.v ===== *)
(** * Context checkpoints of the runtime (packages/runtime/src/runtime.ts,
    packages/runtime/src/protocol.ts, packages/core/src/artifacts.ts,
    packages/core/src/verification.ts)

    What a checkpoint remembers of a run between two events: the phase, the
    emission of the model, the artifact and its verifications.  A checkpoint is
    protected and stored as a context snapshot. *)

From S2P Require Import Prelude JsTime Errors Schema JsonValue Unicode JsonText Contracts WorkOrder Effects.
From S2P Require Import Run Events StoreInternal Digest JsArithmetic EffectLedger WorkOrderStore JsNumber.
From S2P Require Import RecordStores AcknowledgedResults EffectServices.

Local Open Scope Z_scope.
Local Open Scope js_scope.

(** ** Artifacts (packages/core/src/artifacts.ts) *)

Inductive ArtifactEncoding := encoding_utf8 | encoding_base64.

Inductive ArtifactLocation :=
| location_inline (encoding : ArtifactEncoding) (content : jsstring)
| location_store (storeId objectRef : string).

Inductive ArtifactOwnerType := owner_of_principal | owner_of_tenant | owner_of_system.
Inductive ArtifactVisibility := visible_private | visible_tenant | visible_shared | visible_public.

Record ArtifactProvenance := {
  apr_executionDefinition : ExecutionDefinitionRef;
  apr_executionDefinitionDigest : string;
  apr_workOrderBindingDigest : string;
  apr_producingEventId : string;
  apr_sourceArtifactDigests : list string;
  apr_toolRegistrationDigests : list string;
  apr_metadata : list (jsstring * JsonValue);
}.

Record Artifact := {
  art_artifactId : string;
  art_artifactDigest : string;
  art_contentDigest : string;
  art_mediaType : string;
  art_byteSize : Z;
  art_location : ArtifactLocation;
  art_tenantId : string;
  art_producingRunId : string;
  art_producingStepId : string;
  art_ownerType : ArtifactOwnerType;
  art_ownerId : string;
  art_visibility : ArtifactVisibility;
  art_dataClass : DataClass;
  art_purposeCode : string;
  art_retention : RetentionRequest;
  art_provenance : ArtifactProvenance;
  art_createdAt : string;
  art_expiresAt : option string;
}.

(** [[\w.+-]] *)
Definition is_media_char (c : Ascii.ascii) : bool :=
  let n := Ascii.N_of_ascii c in
  is_lower_alnum c || ((65 <=? n) && (n <=? 90))%N || bool_decide (n ∈ [95; 46; 43; 45]%N).

(** A line terminator, which [.] does not match; the others have no code below 256. *)
Definition is_line_end (c : Ascii.ascii) : bool :=
  let n := Ascii.N_of_ascii c in (n =? 10)%N || (n =? 13)%N.

(** After the slash: characters of the class, then perhaps a semicolon and any
    text of one line. *)
Fixpoint media_subtype (s : string) : bool :=
  match s with
  | EmptyString => true
  | String c s' =>
      if (Ascii.N_of_ascii c =? 59)%N then all_chars (fun d => negb (is_line_end d)) s'
      else is_media_char c && media_subtype s'
  end.

Fixpoint media_type (started : bool) (s : string) : bool :=
  match s with
  | EmptyString => false
  | String c s' =>
      if (Ascii.N_of_ascii c =? 47)%N
      then started && match s' with String d _ => is_media_char d | EmptyString => false end && media_subtype s'
      else is_media_char c && media_type true s'
  end.

(** Two non-empty parts of the class around a slash, with parameters of one line
    after a semicolon. *)
Definition MediaTypeSchema (s : string) : bool := media_type false s.

(** ** Verifications (packages/core/src/verification.ts) *)

Inductive FindingSeverity := finding_info | finding_warning | finding_error.

Record VerificationFinding := {
  vf_code : string;
  vf_severity : FindingSeverity;
  vf_safeMessage : string;
  vf_path : option string;
  vf_evidence : option (list (jsstring * JsonValue));
}.

Inductive VerificationMethod := method_deterministic | method_model | method_human.

Record VerificationResult := {
  vr_status : VerificationStatus;
  vr_verificationId : string;
  vr_verificationDigest : string;
  vr_verifierId : string;
  vr_verifierVersion : string;
  vr_verifierRegistrationDigest : string;
  vr_method : VerificationMethod;
  vr_artifactDigest : string;
  vr_findings : list VerificationFinding;
  vr_rubricVersion : string;
  vr_rubricDigest : string;
  vr_verifiedAt : string;
  vr_reviewerId : option string;
}.

#[export] Instance VerificationMethod_eq_dec : EqDecision VerificationMethod.
Proof. solve_decision. Defined.

(** ** Emissions of the model (packages/runtime/src/protocol.ts) *)

Inductive RuntimeModelEmission :=
| emission_tool_call (toolRegistrationDigest : string) (input : JsonValue) (targetDigest : option string)
| emission_final (value : JsonValue)
| emission_input_request (inputSchemaDigest safePrompt : string).

(** ** Checkpoints *)

Inductive CheckpointPhase :=
| phase_turn | phase_model | phase_model_inflight | phase_emission | phase_tool_request | phase_tool
| phase_final | phase_verification | phase_input | phase_scheduled_backoff.

Inductive ResumePhase := resume_model | resume_tool.

#[export] Instance CheckpointPhase_eq_dec : EqDecision CheckpointPhase.
Proof. solve_decision. Defined.

(** The parsed form of a checkpoint, with the defaults of its last two members. *)
Record RuntimeContextCheckpoint := {
  cp_phase : CheckpointPhase;
  cp_modelInput : option JsonValue;
  cp_stepId : option string;
  cp_attempt : option Z;
  cp_emission : option RuntimeModelEmission;
  cp_toolCallId : option string;
  cp_requestId : option string;
  cp_inputSchemaDigest : option string;
  cp_retryBoundary : option RetryBoundary;
  cp_retryClassification : option RetryClassification;
  cp_nextAttempt : option Z;
  cp_notBefore : option string;
  cp_delayMs : option Z;
  cp_resumePhase : option ResumePhase;
  cp_artifact : option Artifact;
  cp_verificationStarted : bool;
  cp_verifications : list VerificationResult;
}.

Section Schemas.
Context `{Zod}.

Definition ArtifactLocationSchema (l : ArtifactLocation) : bool :=
  match l with
  | location_inline _ _ => true
  | location_store storeId objectRef => min1 storeId && min1 objectRef
  end.

Definition ArtifactProvenanceSchema (p : ArtifactProvenance) : bool :=
  ExecutionDefinitionRefSchema (apr_executionDefinition p) && DigestSchema (apr_executionDefinitionDigest p)
  && DigestSchema (apr_workOrderBindingDigest p) && min1 (apr_producingEventId p)
  && forallb DigestSchema (apr_sourceArtifactDigests p) && forallb DigestSchema (apr_toolRegistrationDigests p)
  && forallb (fun kv => JsonValueSchema kv.2) (apr_metadata p).

Definition ArtifactSchema (a : Artifact) : bool :=
  min1 (art_artifactId a) && DigestSchema (art_artifactDigest a) && DigestSchema (art_contentDigest a)
  && MediaTypeSchema (art_mediaType a) && int_nonnegative (art_byteSize a)
  && ArtifactLocationSchema (art_location a) && min1 (art_tenantId a) && min1 (art_producingRunId a)
  && min1 (art_producingStepId a) && min1 (art_ownerId a) && not_highly_restricted (art_dataClass a)
  && min1 (art_purposeCode a) && RetentionRequestSchema (art_retention a)
  && ArtifactProvenanceSchema (art_provenance a) && zod_datetime (art_createdAt a)
  && optional zod_datetime (art_expiresAt a).

Definition VerificationFindingSchema (f : VerificationFinding) : bool :=
  min1 (vf_code f) && min1 (vf_safeMessage f) && optional min1 (vf_path f)
  && optional (forallb (fun kv => JsonValueSchema kv.2)) (vf_evidence f).

(** A failure and a request for review report findings; a review has no human
    method and no reviewer. *)
Definition verification_status_checks (v : VerificationResult) : bool :=
  match vr_status v with
  | verification_pass => optional min1 (vr_reviewerId v)
  | verification_fail => negb (Nat.eqb (length (vr_findings v)) 0) && optional min1 (vr_reviewerId v)
  | verification_needs_review =>
      negb (Nat.eqb (length (vr_findings v)) 0) && negb (bool_decide (vr_method v = method_human))
      && bool_decide (vr_reviewerId v = None)
  end.

Definition VerificationResultSchema (v : VerificationResult) : bool :=
  min1 (vr_verificationId v) && DigestSchema (vr_verificationDigest v) && min1 (vr_verifierId v)
  && min1 (vr_verifierVersion v) && DigestSchema (vr_verifierRegistrationDigest v)
  && DigestSchema (vr_artifactDigest v) && forallb VerificationFindingSchema (vr_findings v)
  && min1 (vr_rubricVersion v) && DigestSchema (vr_rubricDigest v) && zod_datetime (vr_verifiedAt v)
  && verification_status_checks v.

Definition RuntimeModelEmissionSchema (e : RuntimeModelEmission) : option RuntimeModelEmission :=
  match e with
  | emission_tool_call d input target =>
      checked (DigestSchema d && JsonValueSchema input && optional DigestSchema target)
        (emission_tool_call d input target)
  | emission_final v => checked (JsonValueSchema v) (emission_final v)
  | emission_input_request d prompt =>
      text ← trimmed 2000 prompt; checked (DigestSchema d) (emission_input_request d text)
  end.

Definition RuntimeContextCheckpointSchema (c : RuntimeContextCheckpoint) : option RuntimeContextCheckpoint :=
  emission ← match cp_emission c with
             | None => Some None
             | Some e => Some <$> RuntimeModelEmissionSchema e
             end;
  checked (optional JsonValueSchema (cp_modelInput c) && optional min1 (cp_stepId c)
           && optional int_positive (cp_attempt c) && optional min1 (cp_toolCallId c)
           && optional min1 (cp_requestId c)
           && optional (String.prefix "sha256:") (cp_inputSchemaDigest c)
           && optional int_positive (cp_nextAttempt c) && optional zod_datetime (cp_notBefore c)
           && optional int_nonnegative (cp_delayMs c) && optional ArtifactSchema (cp_artifact c)
           && forallb VerificationResultSchema (cp_verifications c))
    {| cp_phase := cp_phase c; cp_modelInput := cp_modelInput c; cp_stepId := cp_stepId c;
       cp_attempt := cp_attempt c; cp_emission := emission; cp_toolCallId := cp_toolCallId c;
       cp_requestId := cp_requestId c; cp_inputSchemaDigest := cp_inputSchemaDigest c;
       cp_retryBoundary := cp_retryBoundary c; cp_retryClassification := cp_retryClassification c;
       cp_nextAttempt := cp_nextAttempt c; cp_notBefore := cp_notBefore c; cp_delayMs := cp_delayMs c;
       cp_resumePhase := cp_resumePhase c; cp_artifact := cp_artifact c;
       cp_verificationStarted := cp_verificationStarted c; cp_verifications := cp_verifications c |}.
End Schemas.

(** ** Checkpoints as JSON *)

Definition digests_json (l : list string) : JsonValue := Jarr (jstr <$> l).
Definition int_json (n : Z) : JsonValue := Jnum (number n).

Definition location_json (l : ArtifactLocation) : JsonValue :=
  match l with
  | location_inline encoding content =>
      Jobj [(js "kind", jstr "inline");
            (js "encoding", jstr match encoding with encoding_utf8 => "utf8" | encoding_base64 => "base64" end);
            (js "content", Jstr content)]
  | location_store storeId objectRef =>
      Jobj [(js "kind", jstr "store"); (js "storeId", jstr storeId); (js "objectRef", jstr objectRef)]
  end.

Definition owner_type_name (t : ArtifactOwnerType) : string :=
  match t with owner_of_principal => "principal" | owner_of_tenant => "tenant" | owner_of_system => "system" end.

Definition visibility_name (v : ArtifactVisibility) : string :=
  match v with
  | visible_private => "private" | visible_tenant => "tenant" | visible_shared => "shared" | visible_public => "public"
  end.

Definition retention_request_json (r : RetentionRequest) : JsonValue :=
  match r with
  | request_session => Jobj [(js "mode", jstr "session")]
  | request_until at_ => Jobj [(js "mode", jstr "until"); (js "expiresAt", jstr at_)]
  | request_policy p => Jobj [(js "mode", jstr "policy"); (js "policyId", jstr p)]
  end.

Definition provenance_json (p : ArtifactProvenance) : JsonValue :=
  Jobj [(js "schemaVersion", jstr "1");
        (js "executionDefinition", execution_definition_json (apr_executionDefinition p));
        (js "executionDefinitionDigest", jstr (apr_executionDefinitionDigest p));
        (js "workOrderBindingDigest", jstr (apr_workOrderBindingDigest p));
        (js "producingEventId", jstr (apr_producingEventId p));
        (js "sourceArtifactDigests", digests_json (apr_sourceArtifactDigests p));
        (js "toolRegistrationDigests", digests_json (apr_toolRegistrationDigests p));
        (js "metadata", Jobj (apr_metadata p))].

(** The members of an artifact its digest covers. *)
Definition artifact_material (a : Artifact) : list (jsstring * JsonValue) :=
  [(js "schemaVersion", jstr "1"); (js "artifactId", jstr (art_artifactId a));
   (js "contentDigest", jstr (art_contentDigest a));
   (js "mediaType", jstr (art_mediaType a)); (js "byteSize", int_json (art_byteSize a));
   (js "location", location_json (art_location a)); (js "tenantId", jstr (art_tenantId a));
   (js "producingRunId", jstr (art_producingRunId a)); (js "producingStepId", jstr (art_producingStepId a));
   (js "owner", Jobj [(js "type", jstr (owner_type_name (art_ownerType a))); (js "id", jstr (art_ownerId a))]);
   (js "visibility", jstr (visibility_name (art_visibility a)));
   (js "dataClass", jstr (data_class_name (art_dataClass a))); (js "purposeCode", jstr (art_purposeCode a));
   (js "retention", retention_request_json (art_retention a));
   (js "provenance", provenance_json (art_provenance a)); (js "createdAt", jstr (art_createdAt a))]
  ++ optional_field "expiresAt" (art_expiresAt a).

Definition artifact_json (a : Artifact) : JsonValue :=
  Jobj (artifact_material a ++ [(js "artifactDigest", jstr (art_artifactDigest a))]).

Definition finding_json (f : VerificationFinding) : JsonValue :=
  Jobj ([(js "schemaVersion", jstr "1"); (js "code", jstr (vf_code f));
         (js "severity", jstr match vf_severity f with
                              | finding_info => "info" | finding_warning => "warning" | finding_error => "error"
                              end);
         (js "safeMessage", jstr (vf_safeMessage f))]
        ++ optional_field "path" (vf_path f)
        ++ match vf_evidence f with Some fields => [(js "evidence", Jobj fields)] | None => [] end).

Definition method_name (m : VerificationMethod) : string :=
  match m with method_deterministic => "deterministic" | method_model => "model" | method_human => "human" end.

(** The members of a verification its digest covers. *)
Definition verification_fields (v : VerificationResult) : list (jsstring * JsonValue) :=
  [(js "schemaVersion", jstr "1");
   (js "status", jstr match vr_status v with
                      | verification_pass => "pass" | verification_fail => "fail"
                      | verification_needs_review => "needs_review"
                      end);
   (js "verificationId", jstr (vr_verificationId v)); (js "verifierId", jstr (vr_verifierId v));
   (js "verifierVersion", jstr (vr_verifierVersion v));
   (js "verifierRegistrationDigest", jstr (vr_verifierRegistrationDigest v));
   (js "method", jstr (method_name (vr_method v))); (js "artifactDigest", jstr (vr_artifactDigest v));
   (js "findings", Jarr (finding_json <$> vr_findings v)); (js "rubricVersion", jstr (vr_rubricVersion v));
   (js "rubricDigest", jstr (vr_rubricDigest v)); (js "verifiedAt", jstr (vr_verifiedAt v))]
  ++ optional_field "reviewerId" (vr_reviewerId v).

Definition verification_json (v : VerificationResult) : JsonValue :=
  Jobj (verification_fields v ++ [(js "verificationDigest", jstr (vr_verificationDigest v))]).

Definition emission_json (e : RuntimeModelEmission) : JsonValue :=
  match e with
  | emission_tool_call d input target =>
      Jobj [(js "type", jstr "tool_call");
            (js "value", Jobj ([(js "toolRegistrationDigest", jstr d); (js "input", input)]
                               ++ optional_field "targetDigest" target))]
  | emission_final v => Jobj [(js "type", jstr "final"); (js "value", v)]
  | emission_input_request d prompt =>
      Jobj [(js "type", jstr "input_request");
            (js "value", Jobj [(js "inputSchemaDigest", jstr d); (js "safePrompt", jstr prompt)])]
  end.

Definition phase_name (p : CheckpointPhase) : string :=
  match p with
  | phase_turn => "turn" | phase_model => "model" | phase_model_inflight => "model_inflight"
  | phase_emission => "emission" | phase_tool_request => "tool_request" | phase_tool => "tool"
  | phase_final => "final" | phase_verification => "verification" | phase_input => "input"
  | phase_scheduled_backoff => "scheduled_backoff"
  end.

Definition retry_boundary_name (b : RetryBoundary) : string :=
  match b with Events.boundary_model => "model" | Events.boundary_tool => "tool" end.

Definition classification_name (c : RetryClassification) : string :=
  match c with timed_out => "timed_out" | retryable_failure => "retryable" | uncertain_outcome => "uncertain" end.

Definition json_field {A} (key : string) (to_json : A -> JsonValue) (value : option A)
  : list (jsstring * JsonValue) :=
  match value with Some a => [(js key, to_json a)] | None => [] end.

Definition checkpoint_json (c : RuntimeContextCheckpoint) : JsonValue :=
  Jobj ([(js "schemaVersion", jstr "1"); (js "phase", jstr (phase_name (cp_phase c)))]
        ++ json_field "modelInput" id (cp_modelInput c)
        ++ optional_field "stepId" (cp_stepId c) ++ number_field "attempt" (cp_attempt c)
        ++ json_field "emission" emission_json (cp_emission c)
        ++ optional_field "toolCallId" (cp_toolCallId c) ++ optional_field "requestId" (cp_requestId c)
        ++ optional_field "inputSchemaDigest" (cp_inputSchemaDigest c)
        ++ optional_field "retryBoundary" (retry_boundary_name <$> cp_retryBoundary c)
        ++ optional_field "retryClassification" (classification_name <$> cp_retryClassification c)
        ++ number_field "nextAttempt" (cp_nextAttempt c) ++ optional_field "notBefore" (cp_notBefore c)
        ++ number_field "delayMs" (cp_delayMs c)
        ++ optional_field "resumePhase" ((fun p => match p with resume_model => "model" | resume_tool => "tool" end)
                                          <$> cp_resumePhase c)
        ++ json_field "artifact" artifact_json (cp_artifact c)
        ++ [(js "verificationStarted", Jbool (cp_verificationStarted c));
            (js "verifications", Jarr (verification_json <$> cp_verifications c))]).

(** ** Snapshots of checkpoints *)

(** [RUNTIME_CONTEXT_SCHEMA_DIGEST] *)
Definition runtime_context_schema_digest : outcome js_error string :=
  digestCanonicalJson (Jobj [(js "id", jstr "pactmark.runtime-context-checkpoint"); (js "version", jstr "2")]).

(** [#artifactRetention(workOrder)] *)
Definition artifactRetention (w : AcceptedWorkOrder) : RetentionRequest :=
  match wo_retention (wo_common w) with
  | retain_session => request_session
  | retain_until at_ => request_until at_
  | retain_host_policy p => request_policy p
  end.

(** A snapshot before its value is protected: what [protect] answers is still to come. *)
Definition snapshot_retention (r : RetentionRequest) : ContextRetention :=
  match r with
  | request_session => {| ctr_mode := context_session; ctr_expiresAt := None; ctr_policyId := None |}
  | request_until at_ => {| ctr_mode := context_until; ctr_expiresAt := Some at_; ctr_policyId := None |}
  | request_policy p => {| ctr_mode := context_policy; ctr_expiresAt := None; ctr_policyId := Some p |}
  end.

Definition snapshot_material (w : AcceptedWorkOrder) (event : RunEvent) (stepId schemaDigest contextDigest : string)
    (byteSize : Z) (protectedValue : ProtectedValueRef) : ContextSnapshot :=
  let common := wo_common w in
  {| ctx_snapshotId := "context-" +:+ e_eventId event; ctx_tenantId := wo_tenantId w; ctx_runId := e_runId event;
     ctx_sequence := e_sequence event; ctx_stepId := stepId;
     ctx_executionDefinition := wo_executionDefinition w;
     ctx_executionDefinitionDigest := wo_executionDefinitionDigest w;
     ctx_workOrderBindingDigest := wo_workOrderBindingDigest common; ctx_contextSchemaDigest := schemaDigest;
     ctx_contextDigest := contextDigest; ctx_protectedValue := protectedValue; ctx_byteSize := byteSize;
     ctx_purposeCode := purpose_code (wo_purpose common);
     ctx_purposeRegistryVersion := purpose_registryVersion (wo_purpose common);
     ctx_dataClass := wo_dataClass common; ctx_retention := snapshot_retention (artifactRetention w);
     ctx_createdAt := e_occurredAt event; ctx_expiresAt := retention_expiry (wo_retention common) |}.

(** [#contextBinding(snapshot)]: the authenticated data of a snapshot. *)
Definition contextBinding (c : ContextSnapshot) : list (string * jsstring) :=
  [("tenantId", js (ctx_tenantId c)); ("recordId", js (ctx_snapshotId c)); ("storeKind", js "context"); ("schemaVersion", js "1");
   ("purposeCode", js (ctx_purposeCode c)); ("purposeRegistryVersion", js (ctx_purposeRegistryVersion c));
   ("dataClass", js (data_class_name (ctx_dataClass c))); ("runId", js (ctx_runId c)); ("stepId", js (ctx_stepId c));
   ("sequence", number_text (number (ctx_sequence c))); ("executionDefinitionDigest", js (ctx_executionDefinitionDigest c));
   ("workOrderBindingDigest", js (ctx_workOrderBindingDigest c)); ("contextSchemaDigest", js (ctx_contextSchemaDigest c));
   ("contextDigest", js (ctx_contextDigest c))].

Definition binding_json (b : list (string * jsstring)) : JsonValue :=
  Jobj ((fun kv => (js kv.1, Jstr kv.2)) <$> b).

(** The authenticated data of an acknowledged result ([protectedEffectResultAad]
    of packages/core/src/effects.ts). *)
Definition protectedEffectResultAad (i : EffectResultIdentity) : outcome js_error (list (string * jsstring)) :=
  definition ← lift_json (canonicalJsonStringify (execution_definition_json (er_executionDefinition i)));
  Return
    [("storeKind", js "acknowledged_effect_result"); ("schemaVersion", js "1"); ("tenantId", js (er_tenantId i));
     ("runId", js (er_runId i)); ("effectId", js (er_effectId i)); ("recordId", js (er_effectId i));
     ("effectDigest", js (er_effectDigest i)); ("resultDigest", js (er_resultDigest i));
     ("byteSize", number_text (number (er_byteSize i))); ("workOrderId", js (er_workOrderId i));
     ("workOrderBindingDigest", js (er_workOrderBindingDigest i));
     ("executionDefinition", definition);
     ("executionDefinitionDigest", js (er_executionDefinitionDigest i)); ("toolId", js (er_toolId i));
     ("toolVersion", js (er_toolVersion i)); ("toolRegistrationDigest", js (er_toolRegistrationDigest i));
     ("strategy", js (strategy_name (er_strategy i))); ("strategyRegistrationDigest", js (er_strategyRegistrationDigest i));
     ("resultSchemaDigest", js (er_resultSchemaDigest i)); ("purposeCode", js (er_purposeCode i));
     ("purposeRegistryVersion", js (er_purposeRegistryVersion i)); ("dataClass", js (data_class_name (er_dataClass i)));
     ("createdAt", js (er_createdAt i))].
