(* ===== verification/ModelRecords.v ===== *)
(** * Agents, models and credentials (packages/core/src/agent.ts, model.ts,
    registrations.ts, model-credential.ts, packages/runtime/src/models.ts)

    The definitions a run executes, the profiles and the registered adapter of its
    model, the credential of a call, and the check that all of them belong
    together. *)

From S2P Require Import Prelude Errors Schema JsonValue JsonText Contracts EffectLedger JsTime Unicode.
From S2P Require Import WorkOrder Digest JsArithmetic WorkOrderStore Admission.

Record InstructionEntry := {
  ie_sourceName : string;
  ie_text : string;
  ie_contentDigest : string;
}.

Record InstructionBundle := {
  ib_entries : list InstructionEntry;
  ib_bundleDigest : string;
}.

Record CompensationRunDefinition := {
  crd_id : string;
  crd_version : string;
  crd_originalAgentDefinitionDigest : string;
  crd_originalToolRegistrationDigest : string;
  crd_originalEffectSchemaDigest : string;
  crd_acknowledgementSchemaDigest : string;
  crd_compensationStrategyRegistrationDigest : string;
  crd_compensationToolId : string;
  crd_compensationToolVersion : string;
  crd_compensationToolRegistrationDigest : string;
  crd_compensationInputSchemaDigest : string;
  crd_compensationOutputSchemaDigest : string;
  crd_requiredVerifierRegistrationDigests : list string;
  crd_policyRegistrationDigest : string;
  crd_purposeCode : string;
  crd_purposeRegistryVersion : string;
  crd_requiredCapabilities : list string;
  crd_executorVersion : string;
  crd_compensationRunDefinitionDigest : string;
}.

Record AgentDefinition := {
  agd_id : string;
  agd_version : string;
  agd_description : string;
  agd_instructions : InstructionBundle;
  agd_skillManifestDigests : list string;
  agd_inputSchemaDigest : string;
  agd_outputSchemaDigest : string;
  agd_toolRegistrationDigests : list string;
  agd_policyRegistrationDigest : string;
  agd_verifierRegistrationDigests : list string;
  agd_modelSecurityProfileDigest : string;
  agd_modelResourceProfileDigest : string;
  agd_modelAdapterRegistrationDigest : string;
  agd_modelConfig : JsonValue;
  agd_requiredRuntimeCapabilities : list string;
  agd_agentDefinitionDigest : string;
}.

#[export] Instance CompensationRunDefinition_eq_dec : EqDecision CompensationRunDefinition.
Proof. solve_decision. Defined.

(** ** Schemas *)

Definition nonempty_array {A} (l : list A) : bool := match l with [] => false | _ => true end.

Definition InstructionEntrySchema (e : InstructionEntry) : bool :=
  min1 (ie_sourceName e) && min1 (ie_text e) && DigestSchema (ie_contentDigest e).

Definition InstructionBundleSchema (b : InstructionBundle) : bool :=
  nonempty_array (ib_entries b) && forallb InstructionEntrySchema (ib_entries b) && DigestSchema (ib_bundleDigest b).

Definition CompensationRunDefinitionSchema (d : CompensationRunDefinition) : bool :=
  IdentifierSchema (crd_id d) && SemverSchema (crd_version d)
  && DigestSchema (crd_originalAgentDefinitionDigest d) && DigestSchema (crd_originalToolRegistrationDigest d)
  && DigestSchema (crd_originalEffectSchemaDigest d) && DigestSchema (crd_acknowledgementSchemaDigest d)
  && DigestSchema (crd_compensationStrategyRegistrationDigest d) && IdentifierSchema (crd_compensationToolId d)
  && SemverSchema (crd_compensationToolVersion d) && DigestSchema (crd_compensationToolRegistrationDigest d)
  && DigestSchema (crd_compensationInputSchemaDigest d) && DigestSchema (crd_compensationOutputSchemaDigest d)
  && nonempty_array (crd_requiredVerifierRegistrationDigests d)
  && forallb DigestSchema (crd_requiredVerifierRegistrationDigests d)
  && DigestSchema (crd_policyRegistrationDigest d) && min1 (crd_purposeCode d)
  && min1 (crd_purposeRegistryVersion d) && forallb min1 (crd_requiredCapabilities d)
  && min1 (crd_executorVersion d) && DigestSchema (crd_compensationRunDefinitionDigest d).

Definition AgentDefinitionSchema (d : AgentDefinition) : bool :=
  IdentifierSchema (agd_id d) && SemverSchema (agd_version d) && min1 (agd_description d)
  && InstructionBundleSchema (agd_instructions d) && forallb DigestSchema (agd_skillManifestDigests d)
  && DigestSchema (agd_inputSchemaDigest d) && DigestSchema (agd_outputSchemaDigest d)
  && forallb DigestSchema (agd_toolRegistrationDigests d) && DigestSchema (agd_policyRegistrationDigest d)
  && forallb DigestSchema (agd_verifierRegistrationDigests d) && DigestSchema (agd_modelSecurityProfileDigest d)
  && DigestSchema (agd_modelResourceProfileDigest d) && DigestSchema (agd_modelAdapterRegistrationDigest d)
  && JsonValueSchema (agd_modelConfig d) && forallb min1 (agd_requiredRuntimeCapabilities d)
  && DigestSchema (agd_agentDefinitionDigest d).

(** ** Instructions as JSON *)

Definition instructions_json (b : InstructionBundle) : JsonValue :=
  Jobj [(js "schemaVersion", jstr "1");
        (js "entries", Jarr ((fun e =>
           Jobj [(js "schemaVersion", jstr "1"); (js "sourceName", jstr (ie_sourceName e));
                 (js "text", jstr (ie_text e)); (js "contentDigest", jstr (ie_contentDigest e))])
           <$> ib_entries b));
        (js "bundleDigest", jstr (ib_bundleDigest b))].

(** ** Model profiles, bindings and credentials (packages/core/src/model.ts,
    model-credential.ts, registrations.ts; packages/runtime/src/models.ts)

    The records a production model call is bound to, and the check that the
    credential, the reservation, the profiles and the registration of the adapter
    all speak of the same call. *)

Local Open Scope Z_scope.
Local Open Scope js_scope.

(** ** Profiles *)

Record ModelSecurityProfile := {
  msp_profileVersion : string;
  msp_id : string;
  msp_provider : string;
  msp_model : string;
  msp_endpointOrigin : string;
  msp_credentialSlot : string;
  msp_allowedTenants : list string;
  msp_allowedPurposes : list string;
  msp_allowedDataClasses : list DataClass;
  msp_processingRegion : string;
  msp_retention : string;
  msp_logging : string;
  msp_training : string;
  msp_contractReference : string;
  msp_modelSecurityProfileDigest : string;
}.

Record ModelResourceProfile := {
  mrp_id : string;
  mrp_implementationVersion : string;
  mrp_maxInputBytesPerCall : Z;
  mrp_maxInputTokensPerCall : Z;
  mrp_maxOutputTokensPerCall : Z;
  mrp_maxStreamedOutputBytesPerCall : Z;
  mrp_maxStreamEventsPerCall : Z;
  mrp_maxToolResultToContextBytes : Z;
  mrp_maxContextSnapshotBytes : Z;
  mrp_maxRunModelInputBytes : Z;
  mrp_maxRunModelInputTokens : Z;
  mrp_maxRunModelOutputBytes : Z;
  mrp_maxRunModelOutputTokens : Z;
  mrp_maxRunToolResultToContextBytes : Z;
  mrp_estimator : string;
  mrp_streamCounter : string;
  mrp_usageTrustPolicy : string;
  mrp_pricingIdentity : option string;
  mrp_priceTableDigest : option string;
  mrp_priceCurrency : option string;
  mrp_priceTableExpiresAt : option string;
  mrp_modelResourceProfileDigest : string;
}.

Record ReleasedArtifactIdentity := {
  ra_packageName : string;
  ra_exportName : string;
  ra_packageVersion : string;
  ra_artifactDigest : string;
}.

Record ModelAdapterRegistration := {
  mar_id : string;
  mar_implementationVersion : string;
  mar_modelSecurityProfileDigest : string;
  mar_modelResourceProfileDigest : string;
  mar_credentialSlot : string;
  mar_endpointOrigin : string;
  mar_endpointNormalizerVersion : string;
  mar_adapterArtifact : ReleasedArtifactIdentity;
  mar_providerArtifact : ReleasedArtifactIdentity;
  mar_executorIdentity : JsonValue;
  mar_egressEnforcementIdentity : JsonValue;
  mar_conservativeEstimatorIdentity : JsonValue;
  mar_providerOutputCapIdentity : JsonValue;
  mar_streamCounterIdentity : JsonValue;
  mar_usageTrustIdentity : JsonValue;
  mar_pricingIdentity : option JsonValue;
  mar_capabilityContract : JsonValue;
  mar_modelAdapterRegistrationDigest : string;
}.

(** ** Calls *)

(** What [ModelCallBinding] and [ModelCredentialRef] share. *)
Record ModelCallBinding := {
  mb_tenantId : string;
  mb_authoritySubject : string;
  mb_workOrderBindingDigest : string;
  mb_agentDefinitionDigest : string;
  mb_modelSecurityProfileDigest : string;
  mb_modelResourceProfileDigest : string;
  mb_modelAdapterRegistrationDigest : string;
  mb_reservationId : string;
  mb_providerEndpointOrigin : string;
  mb_purpose : string;
  mb_permittedDataClasses : list DataClass;
  mb_credentialSlot : string;
}.

Record ModelCredentialRef := {
  mref_refId : string;
  mref_issuerId : string;
  mref_binding : ModelCallBinding;
  mref_issuedAt : string;
  mref_expiresAt : string;
}.

Record ModelCredentialIssueRequest := {
  mir_binding : ModelCallBinding;
  mir_reservation : ModelCallReservation;
  mir_expiresAt : string;
}.

Record RuntimeModelCallContext := {
  mcx_binding : ModelCallBinding;
  mcx_reservation : ModelCallReservation;
  mcx_credentialRef : ModelCredentialRef;
}.

#[export] Instance ModelCallBinding_eq_dec : EqDecision ModelCallBinding.
Proof. solve_decision. Defined.

Section Schemas.
Context `{Zod}.

(** [NonEmptyStringSchema] *)
Definition text500 (s : string) : bool := min1max 500 s.

Definition ModelSecurityProfileSchema (p : ModelSecurityProfile) : bool :=
  text500 (msp_profileVersion p) && min1max 200 (msp_id p) && text500 (msp_provider p) && text500 (msp_model p)
  && zod_url (msp_endpointOrigin p) && text500 (msp_credentialSlot p)
  && nonempty_array (msp_allowedTenants p) && forallb text500 (msp_allowedTenants p)
  && nonempty_array (msp_allowedPurposes p) && forallb text500 (msp_allowedPurposes p)
  && nonempty_array (msp_allowedDataClasses p) && text500 (msp_processingRegion p) && text500 (msp_retention p)
  && text500 (msp_logging p) && text500 (msp_training p) && text500 (msp_contractReference p)
  && DigestSchema (msp_modelSecurityProfileDigest p).

(** The fields of the price are all there or all missing. *)
Definition pricing_together (p : ModelResourceProfile) : bool :=
  let present := [bool_decide (mrp_pricingIdentity p = None); bool_decide (mrp_priceTableDigest p = None);
                  bool_decide (mrp_priceCurrency p = None); bool_decide (mrp_priceTableExpiresAt p = None)] in
  forallb id present || forallb negb present.

Definition ModelResourceProfileSchema (p : ModelResourceProfile) : bool :=
  min1max 200 (mrp_id p) && text500 (mrp_implementationVersion p)
  && forallb int_positive
       [mrp_maxInputBytesPerCall p; mrp_maxInputTokensPerCall p; mrp_maxOutputTokensPerCall p;
        mrp_maxStreamedOutputBytesPerCall p; mrp_maxStreamEventsPerCall p; mrp_maxToolResultToContextBytes p;
        mrp_maxContextSnapshotBytes p; mrp_maxRunModelInputBytes p; mrp_maxRunModelInputTokens p;
        mrp_maxRunModelOutputBytes p; mrp_maxRunModelOutputTokens p; mrp_maxRunToolResultToContextBytes p]
  && text500 (mrp_estimator p) && text500 (mrp_streamCounter p) && text500 (mrp_usageTrustPolicy p)
  && optional text500 (mrp_pricingIdentity p) && optional DigestSchema (mrp_priceTableDigest p)
  && optional currency_code (mrp_priceCurrency p) && optional zod_datetime (mrp_priceTableExpiresAt p)
  && pricing_together p && DigestSchema (mrp_modelResourceProfileDigest p).

Definition ReleasedArtifactIdentitySchema (a : ReleasedArtifactIdentity) : bool :=
  min1 (ra_packageName a) && min1 (ra_exportName a) && min1 (ra_packageVersion a)
  && DigestSchema (ra_artifactDigest a).

Definition ModelAdapterRegistrationSchema (r : ModelAdapterRegistration) : bool :=
  min1max 250 (mar_id r) && min1max 100 (mar_implementationVersion r)
  && DigestSchema (mar_modelSecurityProfileDigest r) && DigestSchema (mar_modelResourceProfileDigest r)
  && min1 (mar_credentialSlot r) && zod_url (mar_endpointOrigin r) && min1max 100 (mar_endpointNormalizerVersion r)
  && ReleasedArtifactIdentitySchema (mar_adapterArtifact r) && ReleasedArtifactIdentitySchema (mar_providerArtifact r)
  && forallb JsonValueSchema
       [mar_executorIdentity r; mar_egressEnforcementIdentity r; mar_conservativeEstimatorIdentity r;
        mar_providerOutputCapIdentity r; mar_streamCounterIdentity r; mar_usageTrustIdentity r;
        mar_capabilityContract r]
  && optional JsonValueSchema (mar_pricingIdentity r) && DigestSchema (mar_modelAdapterRegistrationDigest r).

(** The digests and the origin, alike in both schemas. *)
Definition binding_digests (b : ModelCallBinding) : bool :=
  DigestSchema (mb_workOrderBindingDigest b) && DigestSchema (mb_agentDefinitionDigest b)
  && DigestSchema (mb_modelSecurityProfileDigest b) && DigestSchema (mb_modelResourceProfileDigest b)
  && DigestSchema (mb_modelAdapterRegistrationDigest b) && zod_url (mb_providerEndpointOrigin b)
  && nonempty_array (mb_permittedDataClasses b).

Definition ModelCallBindingSchema (b : ModelCallBinding) : bool :=
  min1max 200 (mb_tenantId b) && min1max 200 (mb_authoritySubject b) && min1max 200 (mb_reservationId b)
  && binding_digests b && text500 (mb_purpose b) && text500 (mb_credentialSlot b).

Definition ModelCredentialRefSchema (r : ModelCredentialRef) : bool :=
  let b := mref_binding r in
  min1max 250 (mref_refId r) && min1max 250 (mref_issuerId r) && min1max 250 (mb_tenantId b)
  && min1max 250 (mb_authoritySubject b) && min1max 250 (mb_reservationId b) && binding_digests b
  && min1 (mb_purpose b)
  && negb (bool_decide (data_highly_restricted ∈ mb_permittedDataClasses b)) && min1 (mb_credentialSlot b)
  && zod_datetime (mref_issuedAt r) && zod_datetime (mref_expiresAt r).

(** The members of a reservation compared with the binding's. *)
Definition reservation_bound (b : ModelCallBinding) (i : ModelCallIdentity) : bool :=
  bool_decide (mc_tenantId i = mb_tenantId b)
  && bool_decide (mc_workOrderBindingDigest i = mb_workOrderBindingDigest b)
  && bool_decide (mc_agentDefinitionDigest i = mb_agentDefinitionDigest b)
  && bool_decide (mc_modelSecurityProfileDigest i = mb_modelSecurityProfileDigest b)
  && bool_decide (mc_modelResourceProfileDigest i = mb_modelResourceProfileDigest b)
  && bool_decide (mc_modelAdapterRegistrationDigest i = mb_modelAdapterRegistrationDigest b)
  && bool_decide (mc_reservationId i = mb_reservationId b).

Definition ModelCredentialIssueRequestSchema (r : ModelCredentialIssueRequest) : bool :=
  ModelCallBindingSchema (mir_binding r) && ModelCallReservationSchema (mir_reservation r)
  && zod_datetime (mir_expiresAt r) && reservation_bound (mir_binding r) (mc_identity (mir_reservation r))
  && bool_decide (mc_status (mir_reservation r) = call_accepted).

(** ** Contexts (packages/runtime/src/models.ts) *)

Definition reservation_id_json (tenantId runId stepId : string) (attempt : Z)
    (workOrderBindingDigest agentDefinitionDigest security resource adapter : string) : JsonValue :=
  Jobj [(js "schemaVersion", jstr "1"); (js "tenantId", jstr tenantId); (js "runId", jstr runId);
        (js "stepId", jstr stepId); (js "attempt", Jnum (number attempt));
        (js "workOrderBindingDigest", jstr workOrderBindingDigest);
        (js "agentDefinitionDigest", jstr agentDefinitionDigest);
        (js "modelSecurityProfileDigest", jstr security); (js "modelResourceProfileDigest", jstr resource);
        (js "modelAdapterRegistrationDigest", jstr adapter)].

Definition createModelCallReservationId (tenantId runId stepId : string) (attempt : Z)
    (workOrderBindingDigest agentDefinitionDigest security resource adapter : string) : outcome js_error string :=
  digest ← digestCanonicalJson (reservation_id_json tenantId runId stepId attempt workOrderBindingDigest
                                  agentDefinitionDigest security resource adapter);
  Return ("model-call-reservation:" +:+ digest).

(** The dates of a credential and of its reservation. *)
Definition credential_current (ref : ModelCredentialRef) (reservation : ModelCallReservation) (now : string) : bool :=
  let i := mc_identity reservation in
  negb (nan_lt (Date_parse (mref_issuedAt ref)) (Date_parse (mc_createdAt i))
        || nan_gt (Date_parse (mref_expiresAt ref)) (Date_parse (mc_expiresAt i))
        || nan_gt (Date_parse (mref_issuedAt ref)) (Date_parse now)
        || nan_le (Date_parse (mref_expiresAt ref)) (Date_parse now)
        || nan_le (Date_parse (mc_expiresAt i)) (Date_parse now)).

Definition validateModelCallContext (context : RuntimeModelCallContext) (registration : ModelAdapterRegistration)
    (security : ModelSecurityProfile) (resource : ModelResourceProfile) (now : string)
  : outcome js_error RuntimeModelCallContext :=
  _ ← parse ModelAdapterRegistrationSchema registration;
  _ ← parse ModelSecurityProfileSchema security;
  _ ← parse ModelResourceProfileSchema resource;
  binding ← parse ModelCallBindingSchema (mcx_binding context);
  reservation ← parse ModelCallReservationSchema (mcx_reservation context);
  ref ← parse ModelCredentialRefSchema (mcx_credentialRef context);
  if bool_decide (binding = mref_binding ref)
     && bool_decide (mc_status reservation = call_accepted)
     && reservation_bound binding (mc_identity reservation)
     && bool_decide (mar_modelAdapterRegistrationDigest registration = mb_modelAdapterRegistrationDigest binding)
     && bool_decide (mar_modelSecurityProfileDigest registration = msp_modelSecurityProfileDigest security)
     && bool_decide (mar_modelResourceProfileDigest registration = mrp_modelResourceProfileDigest resource)
     && bool_decide (mar_credentialSlot registration = mb_credentialSlot binding)
     && bool_decide (mar_endpointOrigin registration = mb_providerEndpointOrigin binding)
     && credential_current ref reservation now
  then Return {| mcx_binding := binding; mcx_reservation := reservation; mcx_credentialRef := ref |}
  else Throw (KafReason KAF_MODEL_ADAPTER_MISMATCH "model_call_context_binding_mismatch").
End Schemas.
