(* ===== verification/EvidenceRecords.v ===== *)
(** * Evidence records (packages/core/src/evidence.ts)

    The record a run ends with: what is claimed, what supports it, and the
    artifacts, events and verifications it refers to. *)

From S2P Require Import Prelude JsTime Errors Schema JsonValue Unicode JsonText Contracts WorkOrder Effects.
From S2P Require Import Run Events StoreInternal ModelRecords EffectLedger Digest JsArithmetic WorkOrderStore.
From S2P Require Import RecordStores AcknowledgedResults EffectServices Checkpoints.

Local Open Scope Z_scope.
Local Open Scope js_scope.

Inductive EvidenceAvailability := not_collected | not_permitted | evidence_not_applicable | evidence_unknown.

Inductive EvidenceMetricValue :=
| metric_numeric (value : spec_float) (unit : string)
| metric_unavailable (reason : EvidenceAvailability).

Record EvidenceClaim := { ev_statement : string; ev_claimType : string; ev_scope : string }.

Record EvidenceContext := {
  evx_roleFamily : string;
  evx_workflowId : string;
  evx_riskClass : RiskClass;
  evx_purposeCode : string;
}.

Record EvidenceWorkSplit := { ws_ai : EvidenceMetricValue; ws_human : EvidenceMetricValue; ws_description : string }.

Record VerificationRef := {
  vref_verificationId : string;
  vref_verificationDigest : string;
  vref_status : VerificationStatus;
  vref_artifactDigest : string;
  vref_verifierId : string;
  vref_verifierVersion : string;
  vref_verifierRegistrationDigest : string;
  vref_method : VerificationMethod;
  vref_rubricVersion : string;
  vref_rubricDigest : string;
}.

Record VerificationExceptionRef := {
  xref_exceptionId : string;
  xref_exceptionDigest : string;
  xref_verifierId : string;
  xref_verifierRegistrationDigest : string;
  xref_artifactDigest : string;
  xref_rubricVersion : string;
  xref_rubricDigest : string;
}.

Inductive ConflictOfInterest := conflict_none_declared | conflict_declared | conflict_unknown.

Record EvidenceReviewer := {
  rev_reviewerId : string;
  rev_role : string;
  rev_conflictOfInterest : ConflictOfInterest;
  rev_conflictDetails : option string;
}.

Record EvidencePermission := {
  evp_purposeCode : string;
  evp_purposeRegistryVersion : string;
  evp_visibility : ArtifactVisibility;
  evp_dataClass : DataClass;
  evp_retention : RetentionRequest;
}.

Record EvidenceFreshness := { evf_observedAt : string; evf_validAt : string; evf_expiresAt : option string }.

Inductive RepetitionStatus := repeated_single | repeated_independent | repeated_dependent.

Record EvidenceObservation := {
  evo_firstObservedAt : string;
  evo_lastObservedAt : string;
  evo_count : Z;
  evo_repetitionStatus : RepetitionStatus;
  evo_independentObservationIds : list string;
}.

Record EvidenceRecord := {
  ev_evidenceRecordId : string;
  ev_evidenceDigest : string;
  ev_tenantId : string;
  ev_runId : string;
  ev_executionDefinition : ExecutionDefinitionRef;
  ev_executionDefinitionDigest : string;
  ev_workOrderBindingDigest : string;
  ev_claim : EvidenceClaim;
  ev_supports : list string;
  ev_doesNotProve : list string;
  ev_context : EvidenceContext;
  ev_workSplit : EvidenceWorkSplit;
  ev_artifactRefs : list (string * string);
  ev_eventRefs : list (string * Z);
  ev_approvalRefs : list (string * string);
  ev_verificationRefs : list VerificationRef;
  ev_verificationExceptionRefs : list VerificationExceptionRef;
  ev_reviewer : option EvidenceReviewer;
  ev_permission : EvidencePermission;
  ev_freshness : EvidenceFreshness;
  ev_observation : EvidenceObservation;
  ev_createdAt : string;
}.

#[export] Instance VerificationRef_eq_dec : EqDecision VerificationRef.
Proof. solve_decision. Defined.

Section Schemas.
Context `{Zod}.

Definition EvidenceMetricValueSchema (v : EvidenceMetricValue) : bool :=
  match v with metric_numeric x u => is_finite x && min1 u | metric_unavailable _ => true end.

Definition VerificationRefSchema (v : VerificationRef) : bool :=
  min1 (vref_verificationId v) && DigestSchema (vref_verificationDigest v) && DigestSchema (vref_artifactDigest v)
  && min1 (vref_verifierId v) && min1 (vref_verifierVersion v) && DigestSchema (vref_verifierRegistrationDigest v)
  && min1 (vref_rubricVersion v) && DigestSchema (vref_rubricDigest v).

Definition VerificationExceptionRefSchema (x : VerificationExceptionRef) : bool :=
  min1 (xref_exceptionId x) && DigestSchema (xref_exceptionDigest x) && min1 (xref_verifierId x)
  && DigestSchema (xref_verifierRegistrationDigest x) && DigestSchema (xref_artifactDigest x)
  && min1 (xref_rubricVersion x) && DigestSchema (xref_rubricDigest x).

(** A declared conflict has details, a denied one has none. *)
Definition EvidenceReviewerSchema (r : EvidenceReviewer) : bool :=
  min1 (rev_reviewerId r) && min1 (rev_role r) && optional min1 (rev_conflictDetails r)
  && match rev_conflictOfInterest r with
     | conflict_declared => negb (bool_decide (rev_conflictDetails r = None))
     | conflict_none_declared => bool_decide (rev_conflictDetails r = None)
     | conflict_unknown => true
     end.

Definition EvidencePermissionSchema (p : EvidencePermission) : bool :=
  min1 (evp_purposeCode p) && min1 (evp_purposeRegistryVersion p) && not_highly_restricted (evp_dataClass p)
  && RetentionRequestSchema (evp_retention p).

Definition EvidenceObservationSchema (o : EvidenceObservation) : bool :=
  zod_datetime (evo_firstObservedAt o) && zod_datetime (evo_lastObservedAt o) && int_positive (evo_count o)
  && forallb min1 (evo_independentObservationIds o).

Definition digest_ref (r : string * string) : bool := min1 r.1 && DigestSchema r.2.

Definition EvidenceRecordSchema (e : EvidenceRecord) : bool :=
  min1 (ev_evidenceRecordId e) && DigestSchema (ev_evidenceDigest e) && min1 (ev_tenantId e) && min1 (ev_runId e)
  && ExecutionDefinitionRefSchema (ev_executionDefinition e) && DigestSchema (ev_executionDefinitionDigest e)
  && DigestSchema (ev_workOrderBindingDigest e)
  && min1 (ev_statement (ev_claim e)) && min1 (ev_claimType (ev_claim e)) && min1 (ev_scope (ev_claim e))
  && nonempty_array (ev_supports e) && forallb min1 (ev_supports e)
  && nonempty_array (ev_doesNotProve e) && forallb min1 (ev_doesNotProve e)
  && min1 (evx_roleFamily (ev_context e)) && min1 (evx_workflowId (ev_context e))
  && min1 (evx_purposeCode (ev_context e))
  && EvidenceMetricValueSchema (ws_ai (ev_workSplit e)) && EvidenceMetricValueSchema (ws_human (ev_workSplit e))
  && min1 (ws_description (ev_workSplit e))
  && forallb digest_ref (ev_artifactRefs e)
  && nonempty_array (ev_eventRefs e) && forallb (fun r => min1 r.1 && int_positive r.2) (ev_eventRefs e)
  && forallb digest_ref (ev_approvalRefs e) && forallb VerificationRefSchema (ev_verificationRefs e)
  && forallb VerificationExceptionRefSchema (ev_verificationExceptionRefs e)
  && optional EvidenceReviewerSchema (ev_reviewer e) && EvidencePermissionSchema (ev_permission e)
  && zod_datetime (evf_observedAt (ev_freshness e)) && zod_datetime (evf_validAt (ev_freshness e))
  && optional zod_datetime (evf_expiresAt (ev_freshness e)) && EvidenceObservationSchema (ev_observation e)
  && zod_datetime (ev_createdAt e).
End Schemas.

(** ** Evidence as JSON *)

Definition metric_json (v : EvidenceMetricValue) : JsonValue :=
  match v with
  | metric_numeric x u => Jobj [(js "kind", jstr "numeric"); (js "value", Jnum x); (js "unit", jstr u)]
  | metric_unavailable reason =>
      Jobj [(js "kind", jstr "unavailable");
            (js "reason", jstr match reason with
                               | not_collected => "not_collected" | not_permitted => "not_permitted"
                               | evidence_not_applicable => "not_applicable" | evidence_unknown => "unknown"
                               end)]
  end.

Definition verification_status_name (s : VerificationStatus) : string :=
  match s with
  | verification_pass => "pass" | verification_fail => "fail" | verification_needs_review => "needs_review"
  end.

Definition verification_ref_json (v : VerificationRef) : JsonValue :=
  Jobj [(js "verificationId", jstr (vref_verificationId v));
        (js "verificationDigest", jstr (vref_verificationDigest v));
        (js "status", jstr (verification_status_name (vref_status v)));
        (js "artifactDigest", jstr (vref_artifactDigest v)); (js "verifierId", jstr (vref_verifierId v));
        (js "verifierVersion", jstr (vref_verifierVersion v));
        (js "verifierRegistrationDigest", jstr (vref_verifierRegistrationDigest v));
        (js "method", jstr (method_name (vref_method v))); (js "rubricVersion", jstr (vref_rubricVersion v));
        (js "rubricDigest", jstr (vref_rubricDigest v))].

Definition exception_ref_json (x : VerificationExceptionRef) : JsonValue :=
  Jobj [(js "exceptionId", jstr (xref_exceptionId x)); (js "exceptionDigest", jstr (xref_exceptionDigest x));
        (js "verifierId", jstr (xref_verifierId x));
        (js "verifierRegistrationDigest", jstr (xref_verifierRegistrationDigest x));
        (js "artifactDigest", jstr (xref_artifactDigest x)); (js "rubricVersion", jstr (xref_rubricVersion x));
        (js "rubricDigest", jstr (xref_rubricDigest x))].

Definition reviewer_json (r : EvidenceReviewer) : JsonValue :=
  Jobj ([(js "reviewerId", jstr (rev_reviewerId r)); (js "role", jstr (rev_role r));
         (js "conflictOfInterest", jstr match rev_conflictOfInterest r with
                                        | conflict_none_declared => "none_declared"
                                        | conflict_declared => "declared" | conflict_unknown => "unknown"
                                        end)]
        ++ optional_field "conflictDetails" (rev_conflictDetails r)).

Definition permission_json (p : EvidencePermission) : JsonValue :=
  Jobj [(js "purposeCode", jstr (evp_purposeCode p)); (js "purposeRegistryVersion", jstr (evp_purposeRegistryVersion p));
        (js "visibility", jstr (visibility_name (evp_visibility p)));
        (js "dataClass", jstr (data_class_name (evp_dataClass p)));
        (js "retention", retention_request_json (evp_retention p))].

Definition observation_json (o : EvidenceObservation) : JsonValue :=
  Jobj [(js "firstObservedAt", jstr (evo_firstObservedAt o)); (js "lastObservedAt", jstr (evo_lastObservedAt o));
        (js "count", int_json (evo_count o));
        (js "repetitionStatus", jstr match evo_repetitionStatus o with
                                     | repeated_single => "single"
                                     | repeated_independent => "repeated_independent"
                                     | repeated_dependent => "repeated_dependent"
                                     end);
        (js "independentObservationIds", digests_json (evo_independentObservationIds o))].

(** Every member but the digest. *)
Definition evidence_material (e : EvidenceRecord) : JsonValue :=
  Jobj ([(js "schemaVersion", jstr "1"); (js "evidenceRecordId", jstr (ev_evidenceRecordId e));
         (js "tenantId", jstr (ev_tenantId e)); (js "runId", jstr (ev_runId e));
         (js "executionDefinition", execution_definition_json (ev_executionDefinition e));
         (js "executionDefinitionDigest", jstr (ev_executionDefinitionDigest e));
         (js "workOrderBindingDigest", jstr (ev_workOrderBindingDigest e));
         (js "claim", Jobj [(js "statement", jstr (ev_statement (ev_claim e)));
                            (js "claimType", jstr (ev_claimType (ev_claim e)));
                            (js "scope", jstr (ev_scope (ev_claim e)))]);
         (js "supports", digests_json (ev_supports e)); (js "doesNotProve", digests_json (ev_doesNotProve e));
         (js "context", Jobj [(js "roleFamily", jstr (evx_roleFamily (ev_context e)));
                              (js "workflowId", jstr (evx_workflowId (ev_context e)));
                              (js "riskClass", jstr (risk_class_name (evx_riskClass (ev_context e))));
                              (js "purposeCode", jstr (evx_purposeCode (ev_context e)))]);
         (js "workSplit", Jobj [(js "ai", metric_json (ws_ai (ev_workSplit e)));
                                (js "human", metric_json (ws_human (ev_workSplit e)));
                                (js "description", jstr (ws_description (ev_workSplit e)))]);
         (js "artifactRefs", Jarr ((fun r => Jobj [(js "artifactId", jstr r.1); (js "artifactDigest", jstr r.2)])
                                   <$> ev_artifactRefs e));
         (js "eventRefs", Jarr ((fun r => Jobj [(js "eventId", jstr r.1); (js "sequence", int_json r.2)])
                                <$> ev_eventRefs e));
         (js "approvalRefs", Jarr ((fun r => Jobj [(js "approvalId", jstr r.1); (js "approvalDigest", jstr r.2)])
                                   <$> ev_approvalRefs e));
         (js "verificationRefs", Jarr (verification_ref_json <$> ev_verificationRefs e));
         (js "verificationExceptionRefs", Jarr (exception_ref_json <$> ev_verificationExceptionRefs e))]
        ++ json_field "reviewer" reviewer_json (ev_reviewer e)
        ++ [(js "permission", permission_json (ev_permission e));
            (js "freshness", Jobj ([(js "observedAt", jstr (evf_observedAt (ev_freshness e)));
                                    (js "validAt", jstr (evf_validAt (ev_freshness e)))]
                                   ++ optional_field "expiresAt" (evf_expiresAt (ev_freshness e))));
            (js "observation", observation_json (ev_observation e)); (js "createdAt", jstr (ev_createdAt e))]).
