(* ===== verification/HostPorts.v ===== *)
(** * What the runtime asks of its host (packages/core/src/ports.ts, decision.ts,
    packages/runtime/src/tool-authority.ts, runtime.ts)

    Questions and answers of the ports of a run: the policy engine, the resolver
    of tool calls, the previewer of decisions, the registry of typed inputs, the
    retry policy and the boundary of production model calls. *)

From S2P Require Import Prelude JsTime Errors Schema JsonValue Unicode JsonText Contracts WorkOrder.
From S2P Require Import Authorization Authority Canonicalization Policy Effects Run Events StoreInternal.
From S2P Require Import ModelRecords EffectLedger Digest JsArithmetic Admission ModelCalls WorkOrderStore.
From S2P Require Import RecordStores EffectServices.

Local Open Scope Z_scope.
Local Open Scope js_scope.

(** ** Tool calls *)

(** What a [ToolCallResolver] answers; [z.number()] of a cost is a double. *)
Record ToolCallResolution := {
  tr_validatedInput : JsonValue;
  tr_resources : list ResourceScope;
  tr_requestedCost : option spec_float;
}.

(** The resolution checked at the runtime's boundary. *)
Record ResolvedHostToolCall := {
  rt_validatedInput : JsonValue;
  rt_argumentsDigest : string;
  rt_resources : list ResourceScope;
  rt_requestedCost : option spec_float;
}.

Record HostPolicyRequest := {
  hp_workOrder : AcceptedWorkOrder;
  hp_tool : ToolRegistrationContract;
  hp_argumentsDigest : string;
  hp_resources : list ResourceScope;
  hp_networkPolicy : NetworkPolicy;
  hp_callsAlreadyUsed : Z;
  hp_requestedCost : option spec_float;
}.

(** [PolicyDecisionSchema]; [approvalRequired] tells [require_approval] from
    [allow_with_grant]. *)
Inductive HostPolicyDecision :=
| host_denies (reasonCode : string)
| host_permits (approvalRequired : bool) (reasonCode : string) (normalizedResources : list ResourceScope)
    (normalizedTargetDigest : string).

(** ** Decisions and inputs *)

Record DecisionPreviewRequest := {
  pq_tenantId : string;
  pq_runId : string;
  pq_stepId : string;
  pq_decisionId : string;
  pq_toolRegistrationDigest : string;
  pq_argumentsDigest : string;
  pq_targetDigest : string;
  pq_value : JsonValue;
}.

Record DecisionPreviewReference := {
  prv_previewDigest : string;
  prv_contentDigest : option string;
  prv_approvalDisplay : option ApprovalPreviewDisplay;
}.

Record TypedInputValidationResult := {
  tv_inputSchemaDigest : string;
  tv_value : JsonValue;
}.

(** The bytes a protector returns, with what the host's decoder and JSON.parse
    make of them: no text of JSON, a value of another shape, or a value of the
    type. *)
Inductive TextValue (A : Type) : Type :=
| text_unreadable
| text_foreign
| text_value (a : A).
Arguments text_unreadable {A}.
Arguments text_foreign {A}.
Arguments text_value {A} a.

Record Plaintext (A : Type) := { pt_bytes : list Z; pt_value : TextValue A }.
Arguments pt_bytes {A} _.
Arguments pt_value {A} _.

Definition read_text {A} (p : Plaintext A) : outcome js_error A :=
  match pt_value p with
  | text_unreadable => Throw (KafError KAF_STORAGE_CONCURRENCY_CONFLICT [])
  | text_foreign => Throw ZodError
  | text_value a => Return a
  end.

(** ** Retries *)

Inductive RuntimeBoundaryErrorClassification :=
| class_aborted | class_timed_out | class_retryable | class_non_retryable | class_uncertain.

#[export] Instance RuntimeBoundaryErrorClassification_eq_dec : EqDecision RuntimeBoundaryErrorClassification.
Proof. solve_decision. Defined.

(** The classification named in the details of an error, if there is one. *)
Definition class_named (name : string) : option RuntimeBoundaryErrorClassification :=
  if bool_decide (name = "aborted") then Some class_aborted
  else if bool_decide (name = "timed_out") then Some class_timed_out
  else if bool_decide (name = "retryable") then Some class_retryable
  else if bool_decide (name = "non_retryable") then Some class_non_retryable
  else if bool_decide (name = "uncertain") then Some class_uncertain
  else None.

Definition class_name (c : RuntimeBoundaryErrorClassification) : string :=
  match c with
  | class_aborted => "aborted" | class_timed_out => "timed_out" | class_retryable => "retryable"
  | class_non_retryable => "non_retryable" | class_uncertain => "uncertain"
  end.

(** [error.details?.[key]] of a [KafError], when it is a string. *)
Fixpoint string_detail (key : string) (details : list (string * detail)) : option string :=
  match details with
  | [] => None
  | (k, d) :: rest =>
      if bool_decide (k = key) then match d with DStr s => Some s | _ => None end else string_detail key rest
  end.

(** [error.details?.["retryClassification"]] of a [KafError]. *)
Definition retry_classification (e : js_error) : option RuntimeBoundaryErrorClassification :=
  match e with
  | KafError _ details => name ← string_detail "retryClassification" details; class_named name
  | _ => None
  end.

(** ** Sealed model adapters *)

(** The request handed to the provider's adapter. *)
Definition provider_request_json (definition : AgentDefinition) (input : JsonValue) (outputTokenMaximum : Z)
  : JsonValue :=
  Jobj [(js "schemaVersion", jstr "1"); (js "instructions", instructions_json (agd_instructions definition));
        (js "modelConfig", agd_modelConfig definition);
        (js "toolRegistrationDigests", Jarr (jstr <$> agd_toolRegistrationDigests definition));
        (js "input", input); (js "outputTokenMaximum", Jnum (number outputTokenMaximum))].

(** An adapter first either asks for its credential or finishes without. *)
Inductive AdapterStart A :=
| adapter_resolves
| adapter_finishes (emission : A).
Arguments adapter_resolves {A}.
Arguments adapter_finishes {A} emission.

Section Schemas.
Context `{Zod}.

Definition ResolvedResourcesSchema : list ResourceScope -> option (list ResourceScope) :=
  array_of 1 256 ResourceScopeSchema.

Definition HostPolicyDecisionSchema (d : HostPolicyDecision) : option HostPolicyDecision :=
  match d with
  | host_denies reason => checked (min1 reason) d
  | host_permits approvalRequired reason resources target =>
      parsed ← ResolvedResourcesSchema resources;
      checked (min1 reason && DigestSchema target) (host_permits approvalRequired reason parsed target)
  end.

Definition DecisionPreviewReferenceSchema (p : DecisionPreviewReference) : option DecisionPreviewReference :=
  display ← match prv_approvalDisplay p with
            | None => Some None
            | Some d => Some <$> ApprovalPreviewDisplaySchema d
            end;
  checked (DigestSchema (prv_previewDigest p) && optional DigestSchema (prv_contentDigest p))
    {| prv_previewDigest := prv_previewDigest p; prv_contentDigest := prv_contentDigest p;
       prv_approvalDisplay := display |}.

Definition TypedInputValidationResultSchema (r : TypedInputValidationResult) : bool :=
  DigestSchema (tv_inputSchemaDigest r) && JsonValueSchema (tv_value r).

(** The checks of [resolveHostToolCall] on what the resolver answers. *)
Definition check_resolution (resolved : ToolCallResolution) : outcome js_error ResolvedHostToolCall :=
  validatedInput ← parse JsonValueSchema (tr_validatedInput resolved);
  resources ← orThrow (ResolvedResourcesSchema (tr_resources resolved)) ZodError;
  _ ← require match tr_requestedCost resolved with
              | None => true
              | Some cost => number_nonnegative cost
              end (TypeError "KAF_POLICY_COST_INVALID");
  argumentsDigest ← digestCanonicalJson validatedInput;
  Return {| rt_validatedInput := validatedInput; rt_argumentsDigest := argumentsDigest;
            rt_resources := resources; rt_requestedCost := tr_requestedCost resolved |}.

Definition policy_request (w : AcceptedWorkOrder) (registration : ToolRegistrationContract)
    (call : ResolvedHostToolCall) (networkPolicy : NetworkPolicy) (callsAlreadyUsed : Z) : HostPolicyRequest :=
  {| hp_workOrder := w; hp_tool := registration; hp_argumentsDigest := rt_argumentsDigest call;
     hp_resources := rt_resources call; hp_networkPolicy := networkPolicy;
     hp_callsAlreadyUsed := callsAlreadyUsed; hp_requestedCost := rt_requestedCost call |}.

(** The check of [evaluateHostToolCall] on what the policy engine answers. *)
Definition check_decision (d : HostPolicyDecision) : outcome js_error HostPolicyDecision :=
  orThrow (HostPolicyDecisionSchema d) (KafReason KAF_POLICY_DENIED "policy_result_invalid").
End Schemas.
