(* ===== verification/RuntimeProgram.v ===== *)
(** * Programs of the runtime (packages/runtime/src/runtime.ts)

    The runtime works through ports: stores, a clock, leases, strategies of the
    host.  A method of the runtime is a program over the calls it makes; what a
    port answers, a value or a throw, is decided when the program is run.  This
    file holds the calls and the helpers every method shares: appending an event
    in a fenced transition, the heartbeat of a lease, and the accounting of
    active execution. *)

From S2P Require Import Prelude JsTime Errors Schema JsonValue Unicode JsonText Contracts WorkOrder.
From S2P Require Import Authorization Effects Run Events StoreInternal LeaseStore EventStore Digest JsMap.
From S2P Require Import JsArithmetic EffectLedger Commands Admission ModelCalls ActiveExecution Decisions.
From S2P Require Import AuthorityStores WorkOrderStore RecordStores AcknowledgedResults UnitOfWork.
From S2P Require Import EffectServices Checkpoints Authority Policy ModelRecords EvidenceRecords HostPorts.

Local Open Scope Z_scope.

(** ** Calls *)

(** What the runtime's transitions answer, and the reservation a callback that
    ran assigned to a variable of its caller. *)
Inductive TransitionValue := tv_projection (p : RunProjection) | tv_undefined.
Inductive CallbackAssignment :=
| assigned_execution (r : ActiveExecutionReservation)
| assigned_call (r : ModelCallReservation).
Definition TransitionAnswer : Type := TransitionValue * option CallbackAssignment.

Inductive RuntimeCall : Type -> Type :=
| rc_now : RuntimeCall string
(** a reading of a store's clock *)
| rc_store_clock : RuntimeCall string
| rc_generateId (prefix : string) : RuntimeCall string
(** [lease.current], its renewal, and what the heartbeat did during an operation:
    the failure of a renewal, if there was one *)
| rc_lease : RuntimeCall RunLease
| rc_renewLease (ttlMs : Z) : RuntimeCall unit
| rc_heartbeat : RuntimeCall (option js_error)
(** [signal.aborted] *)
| rc_aborted : RuntimeCall bool
| rc_transactTransition (key : RunTransitionKey) (callback : tx_program TransitionAnswer)
  : RuntimeCall TransitionAnswer
| rc_readEvents (tenantId runId : string) : RuntimeCall (list RunEvent)
| rc_getProjection (tenantId runId : string) : RuntimeCall (option RunProjection)
| rc_getGate (tenantId runId decisionId : string) : RuntimeCall (option DecisionGate)
| rc_getApproval (tenantId approvalId : string) : RuntimeCall (option Approval)
| rc_getByEffectId (tenantId runId effectId : string) : RuntimeCall (option EffectRecord)
| rc_getByEffectKey (tenantId runId effectKey : string) : RuntimeCall (option EffectRecord)
| rc_getAcknowledgedResult (record : EffectRecord) : RuntimeCall (option JsonValue)
| rc_getActiveExecution (tenantId runId stepId : string) (boundary : ExecutionBoundary) (boundaryKey : string)
  : RuntimeCall (option ActiveExecutionReservation)
| rc_maximumChargeMilliseconds (boundary : ExecutionBoundary) (workOrder : AcceptedWorkOrder) : RuntimeCall Z
| rc_protectContext (binding : list (string * jsstring)) (plaintext : list Z) : RuntimeCall ProtectedValueRef
| rc_protectResult (binding : list (string * jsstring)) (plaintext : list Z) : RuntimeCall ProtectedValueRef
| rc_authorize (request : RuntimeEffectAuthorizationRequest) : RuntimeCall AuthorizationReservation
| rc_preview (context : RuntimeEffectDispatchContext) (value : JsonValue) : RuntimeCall EffectPreview
| rc_dispatch (context : RuntimeEffectDispatchContext) (value : JsonValue) (operationKey : option string)
  : RuntimeCall EffectExecutionResult
| rc_lookup (context : RuntimeEffectDispatchContext) (operationKey : string) : RuntimeCall RuntimeEffectLookupResult
(** *** The execution of a run *)
| rc_monotonic : RuntimeCall Z
| rc_sleep (milliseconds : Z) : RuntimeCall unit
| rc_verifyAuthority (authority : js_value) (at_ : option Z) : RuntimeCall AuthorityVerification
| rc_getWorkOrder (tenantId workOrderId : string) : RuntimeCall (option AcceptedWorkOrder)
| rc_acquireLease (tenantId runId holderId : string) (ttlMs : Z) : RuntimeCall (option RunLease)
| rc_releaseLease (lease : RunLease) : RuntimeCall unit
| rc_resolveAgent (id version digest : string) : RuntimeCall (option AgentDefinition)
| rc_resolveCompensation (id version digest : string) : RuntimeCall (option CompensationRunDefinition)
| rc_isKilled (kind : KillSwitchTargetKind) (digest : string) : RuntimeCall bool
| rc_getLatestContext (tenantId runId : string) : RuntimeCall (option ContextSnapshot)
| rc_unprotectContext (binding : list (string * jsstring)) (value : ProtectedValueRef)
  : RuntimeCall (Plaintext RuntimeContextCheckpoint)
| rc_getInputSubmission (tenantId runId requestId : string) : RuntimeCall (option InputSubmissionRecord)
| rc_unprotectInput (binding : list (string * jsstring)) (value : ProtectedValueRef) : RuntimeCall (Plaintext JsonValue)
| rc_validateInput (inputSchemaDigest : string) (value : JsonValue) : RuntimeCall TypedInputValidationResult
| rc_resolveToolCall (w : AcceptedWorkOrder) (registration : ToolRegistrationContract) (proposedInput : JsonValue)
  : RuntimeCall ToolCallResolution
| rc_evaluatePolicy (request : HostPolicyRequest) : RuntimeCall HostPolicyDecision
| rc_previewDecision (request : DecisionPreviewRequest) : RuntimeCall DecisionPreviewReference
| rc_executeTool (registration : ToolRegistrationContract) (input : JsonValue) : RuntimeCall JsonValue
(** what the driver or the executor classifies an error as, [None] when it is no classification *)
| rc_classifyError (boundary : RetryBoundary) (error : js_error) (registration : option ToolRegistrationContract)
  : RuntimeCall (option RuntimeBoundaryErrorClassification)
(** [retryPolicy] and [retryJitterSource]; [None] is not a safe integer *)
| rc_maximumAttempts (boundary : RetryBoundary) : RuntimeCall (option Z)
| rc_jitter : RuntimeCall spec_float
| rc_backoffMilliseconds (boundary : RetryBoundary) (attempt : Z) (classification : RetryClassification)
    (jitter : spec_float) : RuntimeCall (option Z)
(** the first emission of the model driver *)
| rc_invokeModel (run : Run) (input : JsonValue) : RuntimeCall (option RuntimeModelEmission)
(** [#uncertainLocalModelCalls] *)
| rc_addUncertainModelCall (tenantId runId stepId : string) : RuntimeCall unit
| rc_hasUncertainModelCall (tenantId runId stepId : string) : RuntimeCall bool
| rc_putArtifact (artifact : Artifact) (content : list Z) : RuntimeCall unit
| rc_verifyArtifact (verifierId : string) (artifact : Artifact) : RuntimeCall VerificationResult
| rc_buildEvidence (run : RunProjection) (events : list RunEvent) (artifacts : list Artifact)
    (verifications : list VerificationResult) : RuntimeCall EvidenceRecord
(** *** Production model calls; [None] is not a safe integer *)
| rc_getModelReservation (tenantId runId stepId : string) (attempt : Z) : RuntimeCall (option ModelCallReservation)
| rc_estimateInputTokens (adapter : string) (canonicalRequest : jsstring) (inputBytes : Z) : RuntimeCall (option Z)
| rc_issueCredential (request : ModelCredentialIssueRequest) : RuntimeCall ModelCredentialRef
| rc_invokeAdapter (adapter : string) (run : Run) (request : JsonValue) (outputTokenMaximum : Z)
    (context : RuntimeModelCallContext) : RuntimeCall (AdapterStart (option RuntimeModelEmission))
| rc_resolveCredential (context : RuntimeModelCallContext) : RuntimeCall unit
(** the adapter goes on with its credential or with an error: whether it asks for
    the credential again, and its first emission *)
| rc_continueAdapter (adapter : string) (credential : outcome js_error unit)
  : RuntimeCall (bool * option RuntimeModelEmission)
| rc_trustedUsage (adapter : string) (context : RuntimeModelCallContext) : RuntimeCall (option TrustedUsage)
| rc_classifyAdapterError (adapter : string) (error : js_error)
  : RuntimeCall (option RuntimeBoundaryErrorClassification).

(** ** Programs *)

Inductive rt (A : Type) : Type :=
| rt_done (o : outcome js_error A)
| rt_vis {R : Type} (call : RuntimeCall R) (continue : outcome js_error R -> rt A).
Arguments rt_done {A} o.
Arguments rt_vis {A R} call continue.

(** [try { p }], what follows seeing its outcome. *)
Fixpoint rt_try {A B} (p : rt A) (k : outcome js_error A -> rt B) : rt B :=
  match p with
  | rt_done o => k o
  | rt_vis call continue => rt_vis call (fun o => rt_try (continue o) k)
  end.

Definition rt_return {A} (a : A) : rt A := rt_done (Return a).
Definition rt_throw {A} (e : js_error) : rt A := rt_done (Throw e).
Definition rt_lift {A} (o : outcome js_error A) : rt A := rt_done o.

Definition rt_bind {A B} (p : rt A) (k : A -> rt B) : rt B :=
  rt_try p (fun o => match o with Return a => k a | Throw e => rt_done (Throw e) end).

(** [await call] *)
Definition rt_call {R} (call : RuntimeCall R) : rt R := rt_vis call rt_done.

Declare Scope rt_scope.
Delimit Scope rt_scope with rt.
Notation "'await' x := p 'in' k" := (rt_bind p (fun x => k))
  (at level 10, x pattern, p at level 100, k at level 200) : rt_scope.
Notation "p ';;;' k" := (rt_bind p (fun _ => k))
  (at level 100, right associativity) : rt_scope.
Local Open Scope rt_scope.

(** ** Programs of a transaction *)

Fixpoint tx_bind {A B} (p : tx_program A) (k : A -> tx_program B) : tx_program B :=
  match p with
  | tx_done a => k a
  | tx_fail e => tx_fail e
  | tx_then call continue => tx_then call (fun o => tx_bind (continue o) k)
  end.

Definition tx_call {R} (call : TransactionCall R) : tx_program R :=
  tx_await call tx_done.

(** ** Configuration *)

(** A sealed adapter: its registration, and which of its optional methods it has. *)
Record RuntimeSealedModelAdapter := {
  sma_registration : ModelAdapterRegistration;
  sma_trustedUsage : bool;
  sma_classifyError : bool;
}.

(** [RuntimeProductionModelServices]; the reservation services work on the
    transaction they are given. *)
Record RuntimeProductionModelServices := {
  pms_transactionDomain : string;
  pms_durable : bool;
  pms_issuerId : string;
  pms_credentialRefTtlMs : option Z;
  pms_resolveSecurity : string -> option ModelSecurityProfile;
  pms_resolveResource : string -> option ModelResourceProfile;
  pms_resolveAdapter : string -> option RuntimeSealedModelAdapter;
  pms_reserve : ModelCallReservation -> tx_program ModelCallReservation;
  pms_markDispatched : ModelCallReservation -> tx_program ModelCallReservation;
  pms_settle : ModelCallReservation -> ModelSettlementInput -> tx_program ModelCallReservation;
  pms_markUncertain : ModelCallReservation -> tx_program ModelCallReservation;
}.

(** The members of [RuntimeKernelConfig] these programs read; a [bool] says
    whether an optional member is there. *)
Record RuntimeConfig := {
  cfg_unitOfWorkDomain : string;
  cfg_leaseTtlMs : option Z;
  cfg_decisionStore : bool;
  (** [effectServices.strategies.resolve], by the digest of the tool's registration *)
  cfg_effectStrategies : option (string -> option RuntimeExecutableEffectStrategy);
  cfg_effectResultProtector : bool;
  cfg_contextStore : bool;
  cfg_contextProtector : bool;
  cfg_contextCheckpointTransactionDomain : option string;
  (** [activeExecutionServices.transactionDomain] *)
  cfg_activeExecutionDomain : option string;
  cfg_leaseHolderId : string;
  (** [toolRegistry.resolve] *)
  cfg_toolRegistry : string -> option ToolRegistrationContract;
  (** [toolExecutor.networkPolicy] *)
  cfg_networkPolicy : NetworkPolicy;
  (** [verifierRegistry.has] *)
  cfg_verifierRegistry : string -> bool;
  cfg_killSwitches : bool;
  cfg_decisionPreviewer : bool;
  cfg_inputSubmissionStore : bool;
  cfg_inputProtector : bool;
  cfg_typedInputRegistry : bool;
  cfg_retryPolicy : bool;
  cfg_retryJitterSource : bool;
  cfg_modelClassifiesErrors : bool;
  cfg_toolClassifiesErrors : bool;
  cfg_requireProductionModelBoundary : bool;
  (** [capabilities.durableStorage] of the stores of work orders, events and artifacts *)
  cfg_durableStores : list bool;
  cfg_productionModelServices : option RuntimeProductionModelServices;
  (** [compensationServices.transactionDomain] *)
  cfg_compensationDomain : option string;
}.

Definition leaseTtlMs (config : RuntimeConfig) : Z := default 30000 (cfg_leaseTtlMs config).

Definition capability_missing (reason : string) : js_error := KafReason KAF_RUNTIME_CAPABILITY_MISSING reason.

(** [#assertJsonByteLimit]: [bytes] is the length of the encoded [JSON.stringify] text. *)
Definition assertJsonByteLimit (bytes : Z) (limit : option Z) (category : string) : outcome js_error unit :=
  match limit with
  | None => Return tt
  | Some l =>
      require (bytes <=? l)
        (KafError KAF_RUNTIME_CAPABILITY_MISSING
           [("reason", DStr "byte_limit_exceeded"); ("category", DStr category); ("bytes", DNum bytes);
            ("limit", DNum l)])
  end.

(** ** Events *)

Definition event_type_name (t : RunEventType) : string :=
  match t with
  | TRunAccepted => "RunAccepted" | TPlanningStarted => "PlanningStarted"
  | TModelCallStarted => "ModelCallStarted" | TModelCallCompleted => "ModelCallCompleted"
  | TExecutionStarted => "ExecutionStarted" | TToolCallRequested => "ToolCallRequested"
  | TToolCallCompleted => "ToolCallCompleted" | TRetryScheduled => "RetryScheduled"
  | TRetryResumed => "RetryResumed" | TInputRequested => "InputRequested"
  | TInputSubmitted => "InputSubmitted" | TApprovalRequested => "ApprovalRequested"
  | TApprovalRecorded => "ApprovalRecorded" | TApprovalRejected => "ApprovalRejected"
  | TEffectPrepared => "EffectPrepared" | TEffectDispatched => "EffectDispatched"
  | TEffectAcknowledged => "EffectAcknowledged" | TEffectUncertain => "EffectUncertain"
  | TEffectNeedsReconciliation => "EffectNeedsReconciliation"
  | TEffectReconciliationRecorded => "EffectReconciliationRecorded" | TEffectAbandoned => "EffectAbandoned"
  | TCompensationRequested => "CompensationRequested" | TEffectCompensated => "EffectCompensated"
  | TArtifactProduced => "ArtifactProduced" | TVerificationStarted => "VerificationStarted"
  | TVerificationRecorded => "VerificationRecorded"
  | TVerificationExceptionRecorded => "VerificationExceptionRecorded" | TRunSuspended => "RunSuspended"
  | TRunCompleted => "RunCompleted" | TRunFailed => "RunFailed" | TRunCancelled => "RunCancelled"
  end.

(** The identifier of an event: the run, its place in the stream and its type. *)
Definition derived_event_id (tenantId runId : string) (sequence : Z) (t : RunEventType) : outcome js_error string :=
  digest ← digestCanonicalJson
    (Jobj [(js "tenantId", jstr tenantId); (js "runId", jstr runId); (js "sequence", int_json sequence);
           (js "eventType", jstr (event_type_name t))]);
  Return ("event-" +:+ String.substring 7 32 digest).

Section Runtime.
Context `{Zod} (config : RuntimeConfig).

(** [#event(...)]; [occurredAt] is the reading of the clock. *)
Definition new_event (w : AcceptedWorkOrder) (runId : string) (sequence : Z) (payload : RunEventPayload)
    (eventId : option string) (occurredAt : string) : outcome js_error RunEvent :=
  id ← match eventId with
       | Some id => Return id
       | None => derived_event_id (wo_tenantId w) runId sequence (payload_type payload)
       end;
  orThrow (RunEventSchema
    {| e_eventId := id; e_runId := runId; e_sequence := sequence; e_occurredAt := occurredAt;
       e_correlationId := default runId (wo_correlationId (wo_common w)); e_causationId := None;
       e_tenantId := wo_tenantId w; e_dataClass := wo_dataClass (wo_common w);
       e_executionDefinition := wo_executionDefinition w;
       e_executionDefinitionDigest := wo_executionDefinitionDigest w; e_prevHash := None;
       e_payload := payload |}) ZodError.

(** [#contextCheckpointEnabled()] *)
Definition contextCheckpointEnabled : bool :=
  cfg_contextStore config && cfg_contextProtector config
  && bool_decide (cfg_contextCheckpointTransactionDomain config = Some (cfg_unitOfWorkDomain config)).

(** A reference no snapshot is read through. *)
Definition unprotected : ProtectedValueRef :=
  {| pv_protectorId := EmptyString; pv_keyId := EmptyString; pv_ciphertextRef := EmptyString;
     pv_ciphertextDigest := EmptyString; pv_aadDigest := EmptyString; pv_algorithm := EmptyString |}.

Definition createContextSnapshot (w : AcceptedWorkOrder) (event : RunEvent) (checkpointInput : RuntimeContextCheckpoint)
  : rt (option ContextSnapshot) :=
  if negb contextCheckpointEnabled then rt_return None
  else
    await checkpoint := rt_lift (orThrow (RuntimeContextCheckpointSchema checkpointInput) ZodError) in
    match cp_stepId checkpoint with
    | None => rt_throw (KafError KAF_SCHEMA_INVALID [("path", DStr "context.stepId"); ("issue", DStr "required")])
    | Some stepId =>
        await text := rt_lift (lift_json (canonicalJsonStringify (checkpoint_json checkpoint))) in
        let plaintext := encode text in
        let byteSize := Z.of_nat (length plaintext) in
        if match wb_maxContextSnapshotBytes (wo_budget (wo_common w)) with
           | Some maximum => maximum <? byteSize
           | None => false
           end
        then rt_throw (capability_missing "context_snapshot_budget_exhausted")
        else
          await contextDigest := rt_lift (digestBytes plaintext) in
          await schemaDigest := rt_lift runtime_context_schema_digest in
          let material := snapshot_material w event stepId schemaDigest contextDigest byteSize in
          let binding := contextBinding (material unprotected) in
          await protectedValue := rt_call (rc_protectContext binding plaintext) in
          await aadDigest := rt_lift (digestCanonicalJson (binding_json binding)) in
          if bool_decide (pv_aadDigest protectedValue = aadDigest)
          then rt_lift (Some <$> parse ContextSnapshotSchema (material protectedValue))
          else rt_throw (KafReason KAF_AUTHORIZATION_BINDING_MISMATCH "context_protector_aad_mismatch")
    end.

(** The key of a transition of this run. *)
Definition transition_key_of (w : AcceptedWorkOrder) (runId kind key : string) (lease : RunLease) : RunTransitionKey :=
  {| tk_tenantId := wo_tenantId w; tk_runId := runId; tk_transitionKind := kind; tk_transitionKey := key;
     tk_workOrderBindingDigest := wo_workOrderBindingDigest (wo_common w);
     tk_executionDefinitionDigest := wo_executionDefinitionDigest w;
     tk_leaseId := Some (lease_leaseId lease); tk_fencingToken := Some (lease_fencingToken lease) |}.

(** The transaction of an event: what the caller commits with it, the snapshot, the
    event and the projection. *)
Definition append_transaction {C} (commit : tx_program C) (assigned : C -> option CallbackAssignment)
    (snapshot : option ContextSnapshot) (event : RunEvent) (next : RunProjection) : tx_program TransitionAnswer :=
  tx_bind commit (fun committed =>
  tx_bind match snapshot with Some s => tx_call (tx_putContextSnapshot s) | None => tx_done tt end (fun _ =>
  tx_bind (tx_call (tx_appendRunEvent event)) (fun _ =>
  tx_bind (tx_call (tx_putRunProjection next)) (fun _ =>
  tx_done (tv_projection next, assigned committed))))).

(** [#append(...)], with what its callback assigned *)
Definition rt_append_as {C A} (w : AcceptedWorkOrder) (projection : RunProjection) (payload : RunEventPayload)
    (eventId : option string) (commit : tx_program C) (assigned : C -> option CallbackAssignment)
    (checkpoint : option RuntimeContextCheckpoint) (result : RunProjection -> option CallbackAssignment -> A) : rt A :=
  rt_call (rc_renewLease (leaseTtlMs config)) ;;;
  await lease := rt_call rc_lease in
  await now := rt_call rc_now in
  let runId := run_runId (p_run projection) in
  await event := rt_lift (new_event w runId (p_lastSequence projection + 1) payload eventId now) in
  await next := rt_lift (reduceRunEvent projection event) in
  await snapshot := match checkpoint with
                    | None => rt_return None
                    | Some c => createContextSnapshot w event c
                    end in
  await answer := rt_call (rc_transactTransition
    (transition_key_of w runId (event_type_name (payload_type payload)) (e_eventId event) lease)
    (append_transaction commit assigned snapshot event next)) in
  match answer.1 with
  | tv_projection p => rt_return (result p answer.2)
  | tv_undefined => rt_throw (TypeError "undefined projection")
  end.

(** [#append(...)] of an event with a derived identifier. *)
Definition rt_append (w : AcceptedWorkOrder) (projection : RunProjection) (payload : RunEventPayload)
    (commit : tx_program unit) (checkpoint : option RuntimeContextCheckpoint) : rt RunProjection :=
  rt_append_as w projection payload None commit (fun _ => None) checkpoint (fun p _ => p).

(** ** The heartbeat of a lease

    While an operation runs a timer renews the lease; a renewal that fails aborts
    the operation and its error wins. *)
Definition withLeaseHeartbeat {A} (operation : rt A) : rt A :=
  rt_try operation (fun o =>
  await failure := rt_call rc_heartbeat in
  match failure with
  | Some e => rt_throw e
  | None =>
      match o with
      | Throw e => rt_throw e
      | Return a => rt_call (rc_renewLease (leaseTtlMs config)) ;;; rt_return a
      end
  end).

(** ** Active execution *)

Definition transitionActiveExecution (w : AcceptedWorkOrder) (key : string)
    (transition : tx_program TransitionAnswer) : rt TransitionAnswer :=
  rt_call (rc_renewLease (leaseTtlMs config)) ;;;
  await lease := rt_call rc_lease in
  rt_call (rc_transactTransition
    (transition_key_of w (lease_runId lease) "active_execution_reservation" key lease) transition).

Definition put_active_execution (readAt now : string) (w : AcceptedWorkOrder) (r : ActiveExecutionReservation)
  : tx_program TransitionAnswer :=
  tx_bind (tx_call (tx_putActiveExecutionReservation readAt now r
                      (wb_maxActiveExecutionMs (wo_budget (wo_common w)))))
    (fun persisted => tx_done (tv_undefined, Some (assigned_execution persisted))).

(** [{ ...reservation, state, settledChargeMs, refundedMs, settledAtServerTime }] *)
Definition closed_execution (state : ExecutionState) (settled refunded : Z) (at_ : string)
    (r : ActiveExecutionReservation) : ActiveExecutionReservation :=
  {| activeExecutionIdentity := activeExecutionIdentity r; ae_startedAtServerTime := ae_startedAtServerTime r;
     ae_state := state; ae_settledChargeMs := Some settled; ae_refundedMs := Some refunded;
     ae_settledAtServerTime := Some at_; ae_expiresAt := ae_expiresAt r |}.

Definition put_closed (w : AcceptedWorkOrder) (key : string) (closed : ActiveExecutionReservation)
  : rt TransitionAnswer :=
  await parsed := rt_lift (orThrow (ActiveExecutionReservationSchema closed) ZodError) in
  await readAt := rt_call rc_store_clock in
  await storeNow := rt_call rc_store_clock in
  transitionActiveExecution w key (put_active_execution readAt storeNow w parsed).

Definition settleActiveExecution (w : AcceptedWorkOrder) (r : ActiveExecutionReservation) : rt unit :=
  await now := rt_call rc_now in
  put_closed w ("settle:" +:+ ae_id (activeExecutionIdentity r))
    (closed_execution execution_settled 0 (ae_maxChargeMs (activeExecutionIdentity r)) now r) ;;;
  rt_return tt.

Definition execution_id_json (tenantId runId stepId : string) (boundary : ExecutionBoundary) (boundaryKey : string)
  : JsonValue :=
  Jobj [(js "tenantId", jstr tenantId); (js "runId", jstr runId); (js "stepId", jstr stepId);
        (js "boundary", jstr (boundary_name boundary)); (js "boundaryKey", jstr boundaryKey)].

(** The reservation of an execution that starts at [startedAt]. *)
Definition new_execution (w : AcceptedWorkOrder) (lease : RunLease) (stepId : string) (boundary : ExecutionBoundary)
    (boundaryKey startedAt : string) (configuredMaximum : Z) : outcome js_error ActiveExecutionReservation :=
  _ ← require (int_positive configuredMaximum)
        (KafError KAF_SCHEMA_INVALID [("path", DStr "activeExecution.maximumChargeMs");
                                      ("issue", DStr "positive_safe_integer")]);
  let remaining := match wo_deadline (wo_common w) with
                   | None => Some configuredMaximum
                   | Some deadline =>
                       d ← Date_parse deadline; s ← Date_parse startedAt; Some (Z.max 0 (d - s))
                   end in
  (** a maximum that is not a number is refused by the schema *)
  remaining ← orThrow remaining ZodError;
  let maxChargeMs := Z.min configuredMaximum
                       (Z.min (wb_maxActiveExecutionMs (wo_budget (wo_common w))) remaining) in
  _ ← require (0 <? maxChargeMs) (KafReason KAF_RUNTIME_TERMINAL "active_execution_deadline_elapsed");
  digest ← digestCanonicalJson (execution_id_json (wo_tenantId w) (lease_runId lease) stepId boundary boundaryKey);
  started ← orThrow (Date_parse startedAt) (RangeError "Invalid time value");
  expiresAt ← isoOrThrow (started + maxChargeMs);
  orThrow (ActiveExecutionReservationSchema
    {| activeExecutionIdentity :=
         {| ae_id := "active-" +:+ String.substring 7 64 digest; ae_tenant := wo_tenant (wo_common w);
            ae_runId := lease_runId lease; ae_stepId := stepId; ae_boundary := boundary;
            ae_boundaryKey := boundaryKey; ae_leaseId := lease_leaseId lease;
            ae_fencingToken := lease_fencingToken lease; ae_maxChargeMs := maxChargeMs |};
       ae_startedAtServerTime := startedAt; ae_state := execution_reserved; ae_settledChargeMs := None;
       ae_refundedMs := None; ae_settledAtServerTime := None; ae_expiresAt := expiresAt |}) ZodError.

(** The branch of [#withActiveExecution] that finds a reservation of an earlier attempt. *)
Definition resume_execution {A} (w : AcceptedWorkOrder) (boundary : ExecutionBoundary)
    (repeatAfterRecoveredReservation : bool) (prior : ActiveExecutionReservation) (callback : rt A) : rt A :=
  await _ := (if bool_decide (ae_state prior = execution_reserved) then
                await now := rt_call rc_now in
                put_closed w ("close-uncertain:" +:+ ae_id (activeExecutionIdentity prior))
                  (closed_execution execution_closed_uncertain (ae_maxChargeMs (activeExecutionIdentity prior)) 0
                     now prior) ;;;
                rt_return tt
              else rt_return tt) in
  if negb repeatAfterRecoveredReservation then
    rt_throw (KafError KAF_STORAGE_CONCURRENCY_CONFLICT
      [("reason", DStr "active_execution_result_unavailable"); ("boundary", DStr (boundary_name boundary));
       ("retryClassification", DStr "uncertain")])
  else withLeaseHeartbeat callback.

(** The branch that reserves, runs and settles. *)
Definition start_execution_of {A} (w : AcceptedWorkOrder) (stepId : string) (boundary : ExecutionBoundary)
    (boundaryKey : string) (callback : rt A) : rt A :=
  await startedAt := rt_call rc_now in
  await configuredMaximum := rt_call (rc_maximumChargeMilliseconds boundary w) in
  await lease := rt_call rc_lease in
  await reservation := rt_lift (new_execution w lease stepId boundary boundaryKey startedAt configuredMaximum) in
  await readAt := rt_call rc_store_clock in
  await storeNow := rt_call rc_store_clock in
  await answer := transitionActiveExecution w ("reserve:" +:+ ae_id (activeExecutionIdentity reservation))
                    (put_active_execution readAt storeNow w reservation) in
  match answer.2 with
  | Some (assigned_execution authoritative) =>
      rt_try (withLeaseHeartbeat callback) (fun o =>
      settleActiveExecution w authoritative ;;;
      rt_lift o)
  | _ => rt_throw (KafReason KAF_STORAGE_CONCURRENCY_CONFLICT "active_execution_reservation_not_returned")
  end.

(** [#withActiveExecution(...)] *)
Definition withActiveExecution {A} (w : AcceptedWorkOrder) (stepId : string) (boundary : ExecutionBoundary)
    (boundaryKey : string) (repeatAfterRecoveredReservation : bool) (callback : rt A) : rt A :=
  match cfg_activeExecutionDomain config with
  | None => withLeaseHeartbeat callback
  | Some domain =>
      if negb (bool_decide (domain = cfg_unitOfWorkDomain config))
      then rt_throw (KafReason KAF_RUNTIME_NOT_READY "active_execution_transaction_domain_mismatch")
      else
        await lease := rt_call rc_lease in
        await prior := rt_call (rc_getActiveExecution (wo_tenantId w) (lease_runId lease) stepId boundary boundaryKey) in
        match prior with
        | Some p => resume_execution w boundary repeatAfterRecoveredReservation p callback
        | None => start_execution_of w stepId boundary boundaryKey callback
        end
  end.
End Runtime.
