(* ===== verification/WriteEffect.v ===== *)
(** * Write effects of a run (packages/runtime/src/runtime.ts)

    The approval that covers a tool call, the execution of a write effect from
    its preparation to its acknowledgement, the protection of its result, and
    what is recorded when the outcome of a dispatch is not known. *)

From stdpp Require Import pretty.
From S2P Require Import Prelude JsTime Errors Schema JsonValue Unicode JsonText Contracts WorkOrder.
From S2P Require Import Authorization Effects Run Events StoreInternal LeaseStore Digest JsArithmetic.
From S2P Require Import EffectLedger Decisions WorkOrderStore RecordStores AcknowledgedResults UnitOfWork.
From S2P Require Import ActiveExecution EffectServices Checkpoints RuntimeProgram.

Local Open Scope Z_scope.
Local Open Scope rt_scope.

(** ** Approvals of a call *)

Definition strength_name (s : AuthenticationStrength) : string :=
  match s with
  | single_factor => "single_factor" | multi_factor => "multi_factor"
  | phishing_resistant => "phishing_resistant" | user_presence => "user_presence"
  end.

Definition proposed_effect_json (b : ProposedEffectBinding) : JsonValue :=
  Jobj ([(js "schemaVersion", jstr "1"); (js "tenant", Jobj [(js "id", jstr (tenant_id (pe_tenant b)))]);
         (js "principal", principal_json (pe_principal b)); (js "runId", jstr (pe_runId b));
         (js "stepId", jstr (pe_stepId b)); (js "decisionId", jstr (pe_decisionId b));
         (js "workOrderBindingDigest", jstr (pe_workOrderBindingDigest b));
         (js "executionDefinition", execution_definition_json (pe_executionDefinition b));
         (js "executionDefinitionDigest", jstr (pe_executionDefinitionDigest b));
         (js "toolId", jstr (pe_toolId b)); (js "toolVersion", jstr (pe_toolVersion b));
         (js "toolRegistrationDigest", jstr (pe_toolRegistrationDigest b));
         (js "argumentsDigest", jstr (pe_argumentsDigest b)); (js "targetDigest", jstr (pe_targetDigest b))]
        ++ optional_field "contentDigest" (pe_contentDigest b)
        ++ [(js "previewDigest", jstr (pe_previewDigest b));
            (js "purpose", Jobj [(js "code", jstr (purpose_code (pe_purpose b)));
                                 (js "registryVersion", jstr (purpose_registryVersion (pe_purpose b)))]);
            (js "policyRegistrationDigest", jstr (pe_policyRegistrationDigest b))]).

Definition gate_json (g : DecisionGate) : JsonValue :=
  Jobj [(js "decisionId", jstr (dg_decisionId g)); (js "requestingEventId", jstr (dg_requestingEventId g));
        (js "binding", proposed_effect_json (dg_binding g));
        (js "requiredAuthenticationStrength", jstr (strength_name (dg_requiredAuthenticationStrength g)))].

(** [#assertExactBinding(actual, expected, reason)], of values whose canonical
    texts are equal exactly when they are. *)
Definition assertExactBinding {A} `{EqDecision A} (actual expected : A) (reason : string) : outcome js_error unit :=
  require (bool_decide (actual = expected)) (KafReason KAF_AUTHORIZATION_BINDING_MISMATCH reason).

(** The last approval recorded for the step, with the event before it: [None] when
    there is no such event, or it is the first of the history. *)
Fixpoint latest_approval (stepId : string) (reversed : list RunEvent)
  : option (string * string * RunEvent) :=
  match reversed with
  | [] => None
  | event :: earlier =>
      match e_payload event with
      | ApprovalRecorded step decisionId approvalId _ =>
          if bool_decide (step = stepId) then
            match earlier with [] => None | requested :: _ => Some (decisionId, approvalId, requested) end
          else latest_approval stepId earlier
      | _ => latest_approval stepId earlier
      end
  end.

Section WriteEffects.
Context `{Zod} (config : RuntimeConfig).

(** What an approval of this call must be bound to. *)
Definition expected_approval_binding (w : AcceptedWorkOrder) (owner : Principal) (runId stepId decisionId : string)
    (registration : ToolRegistrationContract) (argumentsDigest normalizedTargetDigest policyRegistrationDigest : string)
    (actual : ProposedEffectBinding) : ProposedEffectBinding :=
  {| pe_tenant := wo_tenant (wo_common w); pe_principal := owner; pe_runId := runId; pe_stepId := stepId;
     pe_decisionId := decisionId; pe_workOrderBindingDigest := wo_workOrderBindingDigest (wo_common w);
     pe_executionDefinition := wo_executionDefinition w;
     pe_executionDefinitionDigest := wo_executionDefinitionDigest w; pe_toolId := tool_id registration;
     pe_toolVersion := tool_implementationVersion registration;
     pe_toolRegistrationDigest := tool_toolRegistrationDigest registration; pe_argumentsDigest := argumentsDigest;
     pe_targetDigest := normalizedTargetDigest;
     (** the content and the preview are compared when the effect is executed *)
     pe_contentDigest := pe_contentDigest actual; pe_previewDigest := pe_previewDigest actual;
     pe_purpose := wo_purpose (wo_common w); pe_policyRegistrationDigest := policyRegistrationDigest |}.

Definition approved_gate (w : AcceptedWorkOrder) (runId decisionId : string) (requestingEventId gateDigest proposedDigest : string)
    (gate : DecisionGate) : outcome js_error unit :=
  _ ← assertExactBinding
        (dg_decisionId gate, dg_tenantId gate, dg_runId gate, dg_requestingEventId gate, dg_decisionGateDigest gate)
        (decisionId, wo_tenantId w, runId, requestingEventId, gateDigest)
        "approved_decision_gate_changed";
  let changed := KafReason KAF_AUTHORIZATION_BINDING_MISMATCH "approved_decision_gate_digest_changed" in
  digest ← digestCanonicalJson (gate_json gate);
  _ ← require (bool_decide (dg_decisionGateDigest gate = digest)) changed;
  proposed ← digestCanonicalJson (proposed_effect_json (dg_binding gate));
  require (bool_decide (proposedDigest = proposed)) changed.

(** [#approvedToolCall(input)] *)
Definition approvedToolCall (w : AcceptedWorkOrder) (projection : RunProjection) (policyRegistrationDigest : string)
    (registration : ToolRegistrationContract) (stepId argumentsDigest normalizedTargetDigest : string)
  : rt (option Approval) :=
  if negb (cfg_decisionStore config) then rt_return None
  else
    let runId := run_runId (p_run projection) in
    await events := rt_call (rc_readEvents (wo_tenantId w) runId) in
    match latest_approval stepId (rev events) with
    | None => rt_return None
    | Some (decisionId, approvalId, requested) =>
        let changed := rt_throw (KafReason KAF_STORAGE_CONCURRENCY_CONFLICT "approval_event_sequence_changed") in
        match e_payload requested with
        | ApprovalRequested requestedStep requestedDecision gateDigest proposedDigest _ =>
            if negb (bool_decide (requestedStep = stepId) && bool_decide (requestedDecision = decisionId))
            then changed
            else
              await gateValue := rt_call (rc_getGate (wo_tenantId w) runId decisionId) in
              await approvalValue := rt_call (rc_getApproval (wo_tenantId w) approvalId) in
              match gateValue, approvalValue with
              | Some gateInput, Some approvalInput =>
                  await gate := rt_lift (orThrow (DecisionGateSchema gateInput) ZodError) in
                  await approval := rt_lift (orThrow (ApprovalSchema approvalInput) ZodError) in
                  match wo_decisionOwner (wo_common w) with
                  | owner_registered_role _ =>
                      rt_throw (KafReason KAF_AUTHORIZATION_BINDING_MISMATCH "approval_owner_changed")
                  | owner_principal owner =>
                      rt_lift (approved_gate w runId decisionId (e_eventId requested) gateDigest proposedDigest gate) ;;;
                      rt_lift (assertExactBinding (dg_binding gate)
                        (expected_approval_binding w owner runId stepId decisionId registration argumentsDigest
                           normalizedTargetDigest policyRegistrationDigest (dg_binding gate))
                        "approved_effect_binding_changed") ;;;
                      rt_lift (assertExactBinding (ap_id approval, ap_binding approval) (approvalId, dg_binding gate)
                        "recorded_approval_binding_changed") ;;;
                      rt_return (Some approval)
                  end
              | _, _ => rt_throw (KafError KAF_STORAGE_NOT_FOUND [])
              end
        | _ => changed
        end
    end.

Definition read_approval_json (w : AcceptedWorkOrder) (runId stepId toolCallId argumentsDigest normalizedTargetDigest : string)
  : JsonValue :=
  Jobj [(js "schemaVersion", jstr "1");
        (js "workOrderBindingDigest", jstr (wo_workOrderBindingDigest (wo_common w))); (js "runId", jstr runId);
        (js "stepId", jstr stepId); (js "toolCallId", jstr toolCallId);
        (js "argumentsDigest", jstr argumentsDigest); (js "normalizedTargetDigest", jstr normalizedTargetDigest)].

(** [#claimReadApproval(input)]; the callback reads the clock before it claims. *)
Definition claimReadApproval (w : AcceptedWorkOrder) (approval : Approval)
    (stepId toolCallId argumentsDigest normalizedTargetDigest : string) : rt unit :=
  await held := rt_call rc_lease in
  await digest := rt_lift (digestCanonicalJson (read_approval_json w (lease_runId held) stepId toolCallId
                                                  argumentsDigest normalizedTargetDigest)) in
  let authorizationKey := "pactmark-read:" +:+ digest in
  rt_call (rc_renewLease (leaseTtlMs config)) ;;;
  await lease := rt_call rc_lease in
  await now := rt_call rc_now in
  rt_call (rc_transactTransition
    (transition_key_of w (lease_runId lease) "approval_use_claim" authorizationKey lease)
    (tx_bind (tx_call (tx_claimApproval (wo_tenantId w) (ap_id approval) authorizationKey now))
       (fun _ => tx_done (tv_undefined, None)))) ;;;
  rt_return tt.

(** ** Records *)

(** [{ ...#effectRecordBase(record, updatedAt), ...variant }] *)
Definition effectRecordBase (record : EffectRecord) (updatedAt : string) (variant : EffectVariant) : EffectRecord :=
  {| eff_identity := eff_identity record; eff_effectDigest := eff_effectDigest record; eff_updatedAt := updatedAt;
     eff_variant := variant |}.

Definition put_effect (record : EffectRecord) : tx_program unit := tx_call (tx_putEffectRecord record).

(** ** Parking *)

(** The first step of parking: a dispatched effect becomes unknown. *)
Definition record_uncertainty (w : AcceptedWorkOrder) (projection : RunProjection) (record : EffectRecord)
    (stepId uncertaintyCode : string) : rt (RunProjection * EffectRecord) :=
  match eff_variant record with
  | effect_dispatched dispatchedAt =>
      await updatedAt := rt_call rc_now in
      await unknown_ := rt_lift (parse EffectRecordSchema
        (effectRecordBase record updatedAt (effect_unknown dispatchedAt uncertaintyCode))) in
      await next := rt_append config w projection
        (EffectUncertain stepId (eff_effectId (eff_identity record)) uncertaintyCode) (put_effect unknown_) None in
      rt_return (next, unknown_)
  | _ => rt_return (projection, record)
  end.

Definition suspend_running (w : AcceptedWorkOrder) (projection : RunProjection) (effectId stepId : string)
  : rt RunProjection :=
  if bool_decide (p_status projection = running)
  then rt_append config w projection
         (RunSuspended stepId resume_running "effect_needs_reconciliation" (Some effectId)) (tx_done tt) None
  else rt_return projection.

Definition request_reconciliation (w : AcceptedWorkOrder) (projection : RunProjection) (record : EffectRecord)
    (stepId : string) : rt RunProjection :=
  match eff_variant record with
  | effect_unknown _ uncertaintyCode =>
      await updatedAt := rt_call rc_now in
      await needsReconciliation := rt_lift (parse EffectRecordSchema
        (effectRecordBase record updatedAt (effect_needs_reconciliation uncertaintyCode))) in
      rt_append config w projection
        (EffectNeedsReconciliation stepId (eff_effectId (eff_identity record))) (put_effect needsReconciliation) None
  | _ => rt_return projection
  end.

(** [#parkEffectForReconciliation(...)] *)
Definition parkEffectForReconciliation (w : AcceptedWorkOrder) (projectionInput : RunProjection)
    (recordInput : EffectRecord) (stepId uncertaintyCode : string) : rt RunProjection :=
  await (projection, record) := record_uncertainty w projectionInput recordInput stepId uncertaintyCode in
  await suspended_ := suspend_running w projection (eff_effectId (eff_identity record)) stepId in
  request_reconciliation w suspended_ record stepId.

(** ** Acknowledgement *)

Definition result_material (w : AcceptedWorkOrder) (runId : string) (record : EffectRecord) (resultDigest : string)
    (byteSize : Z) (resultSchemaDigest createdAt : string) : EffectResultIdentity :=
  let i := eff_identity record in
  let common := wo_common w in
  {| er_tenantId := wo_tenantId w; er_runId := runId; er_effectId := eff_effectId i;
     er_effectDigest := eff_effectDigest record; er_resultDigest := resultDigest; er_byteSize := byteSize;
     er_workOrderId := wo_id common; er_workOrderBindingDigest := wo_workOrderBindingDigest common;
     er_executionDefinition := wo_executionDefinition w;
     er_executionDefinitionDigest := wo_executionDefinitionDigest w; er_toolId := eff_toolId i;
     er_toolVersion := eff_toolVersion i; er_toolRegistrationDigest := eff_toolRegistrationDigest i;
     er_strategy := eff_strategy i; er_strategyRegistrationDigest := eff_strategyRegistrationDigest i;
     er_resultSchemaDigest := resultSchemaDigest; er_purposeCode := purpose_code (wo_purpose common);
     er_purposeRegistryVersion := purpose_registryVersion (wo_purpose common);
     er_dataClass := wo_dataClass common; er_createdAt := createdAt |}.

(** [#protectEffectResult(...)].  The byte limit is checked against the plain JSON
    text: it has the members of the canonical one in another order, hence as many
    bytes. *)
Definition protectEffectResult (w : AcceptedWorkOrder) (runId : string) (record : EffectRecord) (result : JsonValue)
    (acknowledgement : EffectAcknowledgement) (createdAt : string) : rt ProtectedEffectResultRecord :=
  if negb (cfg_effectResultProtector config)
  then rt_throw (capability_missing "protected_effect_result_store_required")
  else if bool_decide (wo_dataClass (wo_common w) = data_highly_restricted)
  then rt_throw (KafReason KAF_STORAGE_SECURITY_PROFILE "highly_restricted_effect_result_forbidden")
  else
    await resultDigest := rt_lift (digestCanonicalJson result) in
    await text := rt_lift (lift_json (canonicalJsonStringify result)) in
    let plaintext := encode text in
    let byteSize := Z.of_nat (length plaintext) in
    rt_lift (assertJsonByteLimit byteSize (wb_maxToolResultContextBytesPerCall (wo_budget (wo_common w)))
               "protected_effect_result") ;;;
    let material := result_material w runId record resultDigest byteSize (ack_resultSchemaDigest acknowledgement)
                      createdAt in
    await binding := rt_lift (protectedEffectResultAad material) in
    await protectedValue := rt_call (rc_protectResult binding plaintext) in
    await aadDigest := rt_lift (digestCanonicalJson (binding_json binding)) in
    if bool_decide (pv_aadDigest protectedValue = aadDigest)
    then rt_lift (parse ProtectedEffectResultRecordSchema
                    {| er_identity := material; er_protectedValue := protectedValue |})
    else rt_throw (KafReason KAF_AUTHORIZATION_BINDING_MISMATCH "effect_result_protector_aad_mismatch").

(** [#acknowledgeEffect(...)]; the store reads its clock when the result is put. *)
Definition acknowledgeEffect (w : AcceptedWorkOrder) (projection : RunProjection) (record : EffectRecord)
    (stepId : string) (result : JsonValue) (acknowledgement : EffectAcknowledgement)
    (checkpoint : option RuntimeContextCheckpoint) : rt RunProjection :=
  await updatedAt := rt_call rc_now in
  await protectedResult := protectEffectResult w (run_runId (p_run projection)) record result acknowledgement updatedAt in
  let resultDigest := er_resultDigest (er_identity protectedResult) in
  await acknowledged_ := rt_lift (parse EffectRecordSchema
    (effectRecordBase record updatedAt (effect_acknowledged resultDigest acknowledgement))) in
  await storeNow := rt_call rc_store_clock in
  rt_append config w projection
    (EffectAcknowledged stepId (eff_effectId (eff_identity record)) resultDigest acknowledgement)
    (tx_bind (put_effect acknowledged_) (fun _ => tx_call (tx_putProtectedEffectResult storeNow protectedResult)))
    checkpoint.

(** [#recoverInterruptedEffect(...)]: what the last event of the history leaves to do. *)
Definition suspend_unavailable (w : AcceptedWorkOrder) (projection : RunProjection) (stepId : string)
  : rt RunProjection :=
  rt_append config w projection (RunSuspended stepId resume_running "acknowledged_effect_result_unavailable" None)
    (tx_done tt) None.

Definition result_available (record : option EffectRecord) (resultDigest : string) : rt bool :=
  match record with
  | Some r =>
      match eff_variant r with
      | effect_acknowledged recordDigest _ =>
          await recovered := rt_call (rc_getAcknowledgedResult r) in
          match recovered with
          | None => rt_return false
          | Some value =>
              await digest := rt_lift (digestCanonicalJson value) in
              rt_return (bool_decide (digest = resultDigest) && bool_decide (digest = recordDigest))
          end
      | _ => rt_return false
      end
  | None => rt_return false
  end.

Definition park_interrupted (w : AcceptedWorkOrder) (projection : RunProjection) (stepId effectId : string)
    (uncertaintyCode : option string) : rt (option RunProjection) :=
  match cfg_effectStrategies config with
  | None => rt_return None
  | Some _ =>
      await found := rt_call (rc_getByEffectId (wo_tenantId w) (run_runId (p_run projection)) effectId) in
      match found with
      | None => rt_return None
      | Some record =>
          let strategy := eff_strategy (eff_identity record) in
          if bool_decide (strategy = strategy_reconcilable) && bool_decide (eff_state record = dispatched)
          then rt_return None
          else
            await parked := parkEffectForReconciliation w projection record stepId
              (match uncertaintyCode with
               | Some code => code
               | None => if bool_decide (strategy = strategy_native) then "native_replay_safety_unproven"
                         else "dispatch_response_unavailable"
               end) in
            rt_return (Some parked)
      end
  end.

Definition recoverInterruptedEffect (w : AcceptedWorkOrder) (projection : RunProjection) (history : list RunEvent)
  : rt (option RunProjection) :=
  match e_payload <$> list.last history with
  | Some (EffectAcknowledged stepId effectId resultDigest _) =>
      await record := (match cfg_effectStrategies config with
                       | None => rt_return None
                       | Some _ => rt_call (rc_getByEffectId (wo_tenantId w) (run_runId (p_run projection)) effectId)
                       end) in
      await available := result_available record resultDigest in
      if available then rt_return None
      else await suspended_ := suspend_unavailable w projection stepId in rt_return (Some suspended_)
  | Some (EffectDispatched stepId effectId _) => park_interrupted w projection stepId effectId None
  | Some (EffectUncertain stepId effectId code) => park_interrupted w projection stepId effectId (Some code)
  | _ => rt_return None
  end.
(** ** Execution *)

Record WriteEffectInput := {
  wi_workOrder : AcceptedWorkOrder;
  wi_policyRegistrationDigest : string;
  wi_projection : RunProjection;
  wi_registration : ToolRegistrationContract;
  wi_stepId : string;
  wi_toolCallId : string;
  wi_value : JsonValue;
  wi_normalizedTargetDigest : string;
  wi_approval : option Approval;
  wi_checkpoint : option RuntimeContextCheckpoint;
}.

Inductive WriteEffectResult :=
| write_acknowledged (projection : RunProjection) (result : JsonValue)
| write_parked (projection : RunProjection).

(** What is known of the effect before its state is looked at. *)
Record WriteEffectPlan := {
  wp_strategy : RuntimeExecutableEffectStrategy;
  wp_argumentsDigest : string;
  wp_effectKey : string;
  wp_record : option EffectRecord;
  wp_context : RuntimeEffectDispatchContext;
  wp_operationKey : option string;
}.

Definition wp_effectId (plan : WriteEffectPlan) : string := dc_effectId (wp_context plan).

Definition resolve_strategy (registration : ToolRegistrationContract)
  : outcome js_error RuntimeExecutableEffectStrategy :=
  match cfg_effectStrategies config with
  | None => Throw (capability_missing "effect_strategy_requires_governed_runtime")
  | Some resolve =>
      let mismatched := capability_missing "executable_effect_strategy_registration_mismatch" in
      strategy ← orThrow (resolve (tool_toolRegistrationDigest registration)) mismatched;
      _ ← require (bool_decide (tool_strategy (st_kind strategy) = tool_effectStrategyKind registration)
                   && bool_decide (st_registrationDigest strategy
                                   = tool_effectStrategyRegistrationDigest registration)) mismatched;
      Return strategy
  end.

Definition effect_key_input (i : WriteEffectInput) (argumentsDigest : string) : EffectKeyInput :=
  {| ek_workOrderBindingDigest := wo_workOrderBindingDigest (wo_common (wi_workOrder i));
     ek_executionDefinitionDigest := wo_executionDefinitionDigest (wi_workOrder i);
     ek_runId := run_runId (p_run (wi_projection i)); ek_stepId := wi_stepId i; ek_toolCallId := wi_toolCallId i;
     ek_toolRegistrationDigest := tool_toolRegistrationDigest (wi_registration i);
     ek_argumentsDigest := argumentsDigest; ek_normalizedTargetDigest := wi_normalizedTargetDigest i |}.

Definition expected_ledger_binding (i : WriteEffectInput) (strategy : RuntimeExecutableEffectStrategy)
    (effectKey argumentsDigest : string) : EffectLedgerBinding :=
  {| lb_tenantId := wo_tenantId (wi_workOrder i); lb_runId := run_runId (p_run (wi_projection i));
     lb_effectKey := effectKey; lb_toolRegistrationDigest := tool_toolRegistrationDigest (wi_registration i);
     lb_strategy := ledger_strategy (st_kind strategy);
     lb_strategyRegistrationDigest := st_registrationDigest strategy; lb_argumentsDigest := argumentsDigest;
     lb_normalizedTargetDigest := wi_normalizedTargetDigest i |}.

Definition dispatch_context (i : WriteEffectInput) (effectId effectKey : string) : RuntimeEffectDispatchContext :=
  {| dc_tenantId := wo_tenantId (wi_workOrder i); dc_runId := run_runId (p_run (wi_projection i));
     dc_stepId := wi_stepId i; dc_toolCallId := wi_toolCallId i; dc_effectId := effectId;
     dc_effectKey := effectKey; dc_normalizedTargetDigest := wi_normalizedTargetDigest i;
     dc_purposeCode := purpose_code (wo_purpose (wo_common (wi_workOrder i)));
     dc_dataClass := wo_dataClass (wo_common (wi_workOrder i)) |}.

(** [validateEffectPreview] with its two calls. *)
Definition preview_effect (strategy : RuntimeExecutableEffectStrategy) (i : WriteEffectInput)
    (context : RuntimeEffectDispatchContext) : rt EffectPreview :=
  await firstInput := rt_call (rc_preview context (wi_value i)) in
  rt_lift (orThrow (EffectPreviewSchema firstInput) ZodError) ;;;
  await secondInput := rt_call (rc_preview context (wi_value i)) in
  rt_lift (validateEffectPreview strategy (wi_registration i) (wi_normalizedTargetDigest i) firstInput secondInput).

(** The approval must cover this call and this preview. *)
Definition approval_covers (i : WriteEffectInput) (argumentsDigest : string) (effectPreview : EffectPreview)
  : outcome js_error unit :=
  match wi_approval i with
  | None => Return tt
  | Some approval =>
      let b := ap_binding approval in
      assertExactBinding
        (tenant_id (pe_tenant b), pe_runId b, pe_stepId b, pe_toolRegistrationDigest b, pe_argumentsDigest b,
         pe_targetDigest b, pe_previewDigest b, pe_contentDigest b)
        (wo_tenantId (wi_workOrder i), run_runId (p_run (wi_projection i)), wi_stepId i,
         tool_toolRegistrationDigest (wi_registration i), argumentsDigest, wi_normalizedTargetDigest i,
         ep_previewDigest effectPreview, Some (ep_contentDigest effectPreview))
        "effect_approval_preview_changed"
  end.

Definition effect_operation_key (i : WriteEffectInput) (strategy : RuntimeExecutableEffectStrategy) (effectKey : string)
  : outcome js_error (option string) :=
  if bool_decide (st_kind strategy = runtime_none) then Return None
  else
    key ← st_operationKey strategy (wi_value i)
            {| ob_effectKey := effectKey; ob_normalizedTargetDigest := wi_normalizedTargetDigest i;
               ob_toolRegistrationDigest := tool_toolRegistrationDigest (wi_registration i) |};
    _ ← require (negb (bool_decide (key = EmptyString)))
          (KafReason KAF_AUTHORIZATION_BINDING_MISMATCH "effect_operation_key_empty");
    Return (Some key).

(** Up to the look at the state of the record. *)
Definition plan_write_effect (i : WriteEffectInput) : rt WriteEffectPlan :=
  await strategy := rt_lift (resolve_strategy (wi_registration i)) in
  await argumentsDigest := rt_lift (digestCanonicalJson (wi_value i)) in
  await effectKey := rt_lift (createEffectKey (effect_key_input i argumentsDigest)) in
  await found := rt_call (rc_getByEffectKey (wo_tenantId (wi_workOrder i)) (run_runId (p_run (wi_projection i))) effectKey) in
  await record := (match found with
                   | None => rt_return None
                   | Some r =>
                       await bound := rt_lift (assertEffectRecordBinding r
                         (expected_ledger_binding i strategy effectKey argumentsDigest)) in
                       rt_return (Some bound)
                   end) in
  await effectId := (match record with
                     | Some r => rt_return (eff_effectId (eff_identity r))
                     | None => rt_call (rc_generateId "effect")
                     end) in
  let context := dispatch_context i effectId effectKey in
  await effectPreview := preview_effect strategy i context in
  rt_lift (approval_covers i argumentsDigest effectPreview) ;;;
  await operationKey := rt_lift (effect_operation_key i strategy effectKey) in
  rt_lift (match record with
           | None => Return tt
           | Some r => require (bool_decide (eff_operationKey (eff_identity r) = operationKey))
                         (KafReason KAF_AUTHORIZATION_BINDING_MISMATCH "effect_operation_key_changed")
           end) ;;;
  rt_return {| wp_strategy := strategy; wp_argumentsDigest := argumentsDigest; wp_effectKey := effectKey;
               wp_record := record; wp_context := context; wp_operationKey := operationKey |}.

(** The branch of an effect that is acknowledged or compensated. *)
Definition replay_acknowledged (i : WriteEffectInput) (plan : WriteEffectPlan) (record : EffectRecord)
    (resultDigest : string) : rt WriteEffectResult :=
  await recovered := rt_call (rc_getAcknowledgedResult record) in
  let unavailable :=
    await projection := suspend_unavailable (wi_workOrder i) (wi_projection i) (wi_stepId i) in
    rt_return (write_parked projection) in
  match recovered with
  | None => unavailable
  | Some value =>
      await digest := rt_lift (digestCanonicalJson value) in
      if bool_decide (digest = resultDigest) then
        await result := rt_lift (st_validateOutput (wp_strategy plan) value) in
        rt_return (write_acknowledged (wi_projection i) result)
      else unavailable
  end.

Definition authorization_request (i : WriteEffectInput) (plan : WriteEffectPlan) : RuntimeEffectAuthorizationRequest :=
  {| rq_workOrder := wi_workOrder i; rq_projection := wi_projection i; rq_registration := wi_registration i;
     rq_stepId := wi_stepId i; rq_toolCallId := wi_toolCallId i; rq_effectId := wp_effectId plan;
     rq_effectKey := wp_effectKey plan; rq_argumentsDigest := wp_argumentsDigest plan;
     rq_normalizedTargetDigest := wi_normalizedTargetDigest i; rq_authorizationKey := wp_effectKey plan;
     rq_policyRegistrationDigest := wi_policyRegistrationDigest i; rq_approvalId := ap_id <$> wi_approval i |}.

Definition needs_approval (registration : ToolRegistrationContract) : bool :=
  match ts_riskClass (tool_security registration) with R4 | R5 => true | _ => false end.

Definition prepared_identity (i : WriteEffectInput) (plan : WriteEffectPlan) (authorizationReservationId createdAt : string)
  : EffectIdentity :=
  {| eff_effectId := wp_effectId plan; eff_tenantId := wo_tenantId (wi_workOrder i);
     eff_runId := run_runId (p_run (wi_projection i)); eff_stepId := wi_stepId i;
     eff_toolCallId := wi_toolCallId i; eff_effectKey := wp_effectKey plan;
     eff_operationKey := wp_operationKey plan; eff_executionDefinition := wo_executionDefinition (wi_workOrder i);
     eff_executionDefinitionDigest := wo_executionDefinitionDigest (wi_workOrder i);
     eff_workOrderBindingDigest := wo_workOrderBindingDigest (wo_common (wi_workOrder i));
     eff_toolId := tool_id (wi_registration i); eff_toolVersion := tool_implementationVersion (wi_registration i);
     eff_toolRegistrationDigest := tool_toolRegistrationDigest (wi_registration i);
     eff_strategy := ledger_strategy (st_kind (wp_strategy plan));
     eff_strategyRegistrationDigest := st_registrationDigest (wp_strategy plan);
     eff_authorizationReservationId := authorizationReservationId; eff_argumentsDigest := wp_argumentsDigest plan;
     eff_normalizedTargetDigest := wi_normalizedTargetDigest i; eff_createdAt := createdAt |}.

(** What is committed with the preparation: the use of the grant, the claim of the
    approval, the consumed reservation and the prepared record. *)
Definition prepare_transaction (tenantId createdAt : string) (authorization consumed : AuthorizationReservation)
    (record : EffectRecord) : tx_program unit :=
  tx_bind (tx_call (tx_reserveCapabilityGrantUse tenantId (res_grantId authorization)
                      (res_authorizationKey authorization) createdAt)) (fun _ =>
  tx_bind (match res_approvalId authorization with
           | None => tx_done tt
           | Some approvalId =>
               tx_bind (tx_call (tx_claimApproval tenantId approvalId (res_authorizationKey authorization) createdAt))
                 (fun _ => tx_done tt)
           end) (fun _ =>
  tx_bind (tx_call (tx_putAuthorizationReservation consumed)) (fun _ => put_effect record))).

Definition prepare_effect (i : WriteEffectInput) (plan : WriteEffectPlan) : rt (RunProjection * EffectRecord) :=
  let request := authorization_request i plan in
  await reservation := rt_call (rc_authorize request) in
  await now := rt_call rc_now in
  await authorization := rt_lift (validateAuthorizationReservation request now reservation) in
  rt_lift (require (negb (needs_approval (wi_registration i) && bool_decide (wi_approval i = None)))
             (KafReason KAF_AUTHORIZATION_BINDING_MISMATCH "effect_approval_required")) ;;;
  await createdAt := rt_call rc_now in
  await consumed := rt_lift (markAuthorizationReservationConsumed createdAt authorization) in
  let identity := prepared_identity i plan (res_authorizationReservationId authorization) createdAt in
  await effectDigest := rt_lift (digestCanonicalJson (effectIdentity identity)) in
  await record := rt_lift (parse EffectRecordSchema
    {| eff_identity := identity; eff_effectDigest := effectDigest; eff_updatedAt := createdAt;
       eff_variant := effect_prepared |}) in
  await projection := rt_append config (wi_workOrder i) (wi_projection i)
    (EffectPrepared (wi_stepId i) (wp_effectId plan) effectDigest (wp_effectKey plan) (eff_strategy identity))
    (prepare_transaction (wo_tenantId (wi_workOrder i)) createdAt authorization consumed record) None in
  rt_return (projection, record).

Definition park_write_effect (i : WriteEffectInput) (projection : RunProjection) (record : EffectRecord) (code : string)
  : rt WriteEffectResult :=
  await parked := parkEffectForReconciliation (wi_workOrder i) projection record (wi_stepId i) code in
  rt_return (write_parked parked).

Definition acknowledge_write_effect (i : WriteEffectInput) (projection : RunProjection) (record : EffectRecord)
    (result : JsonValue) (acknowledgement : EffectAcknowledgement) : rt WriteEffectResult :=
  await next := acknowledgeEffect (wi_workOrder i) projection record (wi_stepId i) result acknowledgement
                  (wi_checkpoint i) in
  rt_return (write_acknowledged next result).

(** The highest attempt of the effect in the history. *)
Definition prior_attempt (effectId : string) (history : list RunEvent) : Z :=
  fold_left (fun maximum event =>
    match e_payload event with
    | EffectDispatched _ effect attempt => if bool_decide (effect = effectId) then Z.max maximum attempt else maximum
    | _ => maximum
    end) history 0.

Definition attempt_name (attempt : Z) : string := pretty attempt.

(** The dispatch, once it is recorded: its outcome is acknowledged or parked. *)
Definition dispatch_effect (i : WriteEffectInput) (plan : WriteEffectPlan) (projection : RunProjection)
    (record : EffectRecord) (attempt : Z) : rt WriteEffectResult :=
  rt_try
    (await execution := withActiveExecution config (wi_workOrder i) (wi_stepId i) ActiveExecution.boundary_tool
       (wi_toolCallId i +:+ ":effect-dispatch:" +:+ attempt_name attempt) false
       (rt_call (rc_dispatch (wp_context plan) (wi_value i) (wp_operationKey plan))) in
     rt_lift (validateEffectExecution (wp_strategy plan) (wi_registration i) (wp_effectKey plan)
                (wp_operationKey plan) (wi_normalizedTargetDigest i) execution))
    (fun o =>
       match o with
       | Return (result, acknowledgement) => acknowledge_write_effect i projection record result acknowledgement
       | Throw e =>
           await aborted := rt_call rc_aborted in
           if aborted then rt_throw e
           else park_write_effect i projection record
                  (match error_code e with
                   | Some code => error_code_name code
                   | None => "effect_dispatch_outcome_unknown"
                   end)
       end).

(** The branch of a prepared record: the dispatch is recorded before it is made. *)
Definition dispatch_prepared (i : WriteEffectInput) (plan : WriteEffectPlan) (projection : RunProjection)
    (record : EffectRecord) : rt WriteEffectResult :=
  await dispatchedAt := rt_call rc_now in
  await dispatchedRecord := rt_lift (parse EffectRecordSchema
    (effectRecordBase record dispatchedAt (effect_dispatched dispatchedAt))) in
  await next := rt_append config (wi_workOrder i) projection (EffectDispatched (wi_stepId i) (wp_effectId plan) 1)
    (put_effect dispatchedRecord) (wi_checkpoint i) in
  dispatch_effect i plan next dispatchedRecord 1.

(** A second dispatch, of an effect a lookup answered was not applied. *)
Definition dispatch_again (i : WriteEffectInput) (plan : WriteEffectPlan) (projection : RunProjection)
    (record : EffectRecord) : rt WriteEffectResult :=
  await history := rt_call (rc_readEvents (wo_tenantId (wi_workOrder i)) (run_runId (p_run (wi_projection i)))) in
  let attempt := prior_attempt (wp_effectId plan) history + 1 in
  await next := rt_append config (wi_workOrder i) projection
    (EffectDispatched (wi_stepId i) (wp_effectId plan) attempt) (tx_done tt) (wi_checkpoint i) in
  dispatch_effect i plan next record attempt.

(** The branch of a dispatched record: only a lookup tells what became of it. *)
Definition resolve_dispatched (i : WriteEffectInput) (plan : WriteEffectPlan) (projection : RunProjection)
    (record : EffectRecord) : rt WriteEffectResult :=
  match st_kind (wp_strategy plan) with
  | runtime_none => park_write_effect i projection record "dispatch_response_unavailable"
  | runtime_native => park_write_effect i projection record "native_replay_safety_unproven"
  | runtime_reconcilable =>
      match wp_operationKey plan with
      | None => rt_throw (KafReason KAF_AUTHORIZATION_BINDING_MISMATCH "effect_operation_key_empty")
      | Some operationKey =>
          await answer := withActiveExecution config (wi_workOrder i) (wi_stepId i) ActiveExecution.boundary_tool
            (wi_toolCallId i +:+ ":effect-lookup") true (rt_call (rc_lookup (wp_context plan) operationKey)) in
          await lookup := rt_lift (validateEffectLookupResult answer) in
          match lookup with
          | lookup_unknown => park_write_effect i projection record "reconciliation_lookup_unknown"
          | lookup_applied execution =>
              await (result, acknowledgement) := rt_lift (validateEffectExecution (wp_strategy plan)
                (wi_registration i) (wp_effectKey plan) (Some operationKey) (wi_normalizedTargetDigest i) execution) in
              rt_lift (require (bool_decide (ack_proofKind acknowledgement = lookup_recovery))
                (KafReason KAF_AUTHORIZATION_BINDING_MISMATCH "reconciliation_lookup_proof_required")) ;;;
              acknowledge_write_effect i projection record result acknowledgement
          | lookup_not_applied => dispatch_again i plan projection record
          end
      end
  end.

(** What the state of the record leaves to do. *)
Definition continue_effect (i : WriteEffectInput) (plan : WriteEffectPlan) (projection : RunProjection)
    (record : EffectRecord) : rt WriteEffectResult :=
  match eff_variant record with
  | effect_prepared => dispatch_prepared i plan projection record
  | effect_dispatched _ => resolve_dispatched i plan projection record
  | effect_unknown _ uncertaintyCode => park_write_effect i projection record uncertaintyCode
  | effect_needs_reconciliation _ => park_write_effect i projection record "effect_outcome_unknown"
  | effect_abandoned _ _ => rt_throw (KafError KAF_EFFECT_ABANDONED_UNCERTAIN [])
  | effect_acknowledged resultDigest _ | effect_compensated resultDigest _ _ _ =>
      replay_acknowledged i plan record resultDigest
  end.

(** [#executeWriteEffect(input)] *)
Definition executeWriteEffect (i : WriteEffectInput) : rt WriteEffectResult :=
  await plan := plan_write_effect i in
  match wp_record plan with
  | Some record => continue_effect i plan (wi_projection i) record
  | None =>
      await (projection, record) := prepare_effect i plan in
      continue_effect i plan projection record
  end.
End WriteEffects.
