(* ===== verification/RunChecks.v ===== *)
(** * Checks around the execution of a run (packages/runtime/src/runtime.ts,
    packages/runtime/src/tool-authority.ts)

    Authority, budgets and deadlines, the accounting of what a history used, the
    classification of failures and their retries, and the loading of the
    checkpoint and of the submitted input a run resumes from. *)

From S2P Require Import Prelude JsTime Errors Schema JsonValue JsNumber Unicode JsonText Contracts WorkOrder.
From S2P Require Import Authorization Authority Policy Effects Run Events StoreInternal LeaseStore Digest.
From S2P Require Import JsArithmetic EffectLedger Decisions WorkOrderStore RecordStores AcknowledgedResults.
From S2P Require Import UnitOfWork ActiveExecution EffectServices Checkpoints ModelRecords HostPorts.
From S2P Require Import RuntimeProgram WriteEffect.

Local Open Scope Z_scope.
Local Open Scope rt_scope.

(** ** [JSON.stringify] and its size *)

Definition escaped_unit (c : N) : jsstring :=
  [reverse_solidus; letter_u; hex_unit (c / 4096); hex_unit (c / 256 mod 16); hex_unit (c / 16 mod 16);
   hex_unit (c mod 16)].

(** A lone surrogate is written as an escape. *)
Fixpoint stringify_units (s : jsstring) : jsstring :=
  match s with
  | [] => []
  | c :: s' =>
      if is_high_surrogate c then
        match s' with
        | d :: s'' =>
            if is_low_surrogate d then c :: d :: stringify_units s'' else escaped_unit c ++ stringify_units s'
        | [] => escaped_unit c
        end
      else (if is_low_surrogate c then escaped_unit c else escape_unit c) ++ stringify_units s'
  end.

Definition stringify_text (s : jsstring) : jsstring := [quotation] ++ stringify_units s ++ [quotation].

Fixpoint joined (l : list jsstring) : jsstring :=
  match l with [] => [] | [s] => s | s :: rest => s ++ [comma] ++ joined rest end.

(** The text of a value; the order of the members of an object does not change its
    length. *)
Fixpoint stringify (v : JsonValue) : jsstring :=
  match v with
  | Jnull => js "null"
  | Jbool b => js (if b then "true" else "false")
  | Jnum x => number_text x
  | Jstr s => stringify_text s
  | Jarr l => [open_bracket] ++ joined (map stringify l) ++ [close_bracket]
  | Jobj f =>
      [open_brace] ++ joined (map (fun kv => stringify_text kv.1 ++ [colon_unit] ++ stringify kv.2) f)
      ++ [close_brace]
  end.

Definition json_bytes (v : JsonValue) : Z := Z.of_nat (length (encode (stringify v))).

Definition assertJsonLimit (value : JsonValue) (limit : option Z) (category : string) : outcome js_error unit :=
  assertJsonByteLimit (json_bytes value) limit category.

(** ** Authority *)

Inductive AuthorityRequirement :=
| require_unscoped (operation : string)
| require_run (operation runId : string).

Definition required_operation (r : AuthorityRequirement) : string :=
  match r with require_unscoped operation | require_run operation _ => operation end.

(** [DELEGATED_WORKER_RUN_OPERATIONS] *)
Definition delegated_operations : list string := ["run.execute"; "run.get"; "run.events"].

Definition failure_name (f : VerificationFailure) : string :=
  match f with
  | not_issued => "not_issued" | other_issuer => "other_issuer" | expired => "expired"
  | not_yet_valid => "not_yet_valid"
  end.

Definition scope_error (reason operation : string) : js_error :=
  KafError KAF_AUTHORIZATION_BINDING_MISMATCH [("reason", DStr reason); ("operation", DStr operation)].

Definition check_scope (claims : AuthorityClaims) (requirement : AuthorityRequirement) : outcome js_error unit :=
  match cl_runScope claims with
  | None => Return tt
  | Some scope =>
      match requirement with
      | require_unscoped operation => Throw (scope_error "run_scope_cannot_create_run" operation)
      | require_run operation runId =>
          _ ← require (bool_decide (rs_runId scope = runId)) (scope_error "run_scope_mismatch" operation);
          require (negb (bool_decide (principal_type (cl_actor claims) = system_worker)
                         && negb (bool_decide (operation ∈ delegated_operations))))
            (scope_error "run_scope_operation_denied" operation)
      end
  end.

(** [#verifyAuthority(authority, requirement)] *)
Definition verifyAuthority (authority : js_value) (requirement : AuthorityRequirement) : rt AuthorityClaims :=
  await now := rt_call rc_now in
  await verification := rt_call (rc_verifyAuthority authority (Date_parse now)) in
  match verification with
  | verification_invalid reason =>
      rt_throw (KafReason KAF_AUTHORIZATION_BINDING_MISMATCH (failure_name reason))
  | verification_valid claims =>
      rt_lift (check_scope claims requirement) ;;;
      rt_return claims
  end.

(** [#assertAuthorityWorkOrderScope(claims, runId, workOrderId)] *)
Definition assertAuthorityWorkOrderScope (claims : AuthorityClaims) (runId workOrderId : string)
  : outcome js_error unit :=
  match cl_runScope claims with
  | None => Return tt
  | Some scope =>
      require (bool_decide (rs_runId scope = runId) && bool_decide (rs_workOrderId scope = workOrderId))
        (scope_error "run_scope_mismatch" "run.load")
  end.

Definition claims_tenant (claims : AuthorityClaims) : string := tenant_id (cl_tenant claims).

(** [getRun(authority, runId)] *)
Definition getRun (authority : js_value) (runId : string) : rt RunProjection :=
  await claims := verifyAuthority authority (require_run "run.get" runId) in
  await found := rt_call (rc_getProjection (claims_tenant claims) runId) in
  await projection := rt_lift (orThrow found (KafError KAF_STORAGE_NOT_FOUND [])) in
  rt_lift (assertAuthorityWorkOrderScope claims runId (run_workOrderId (p_run projection))) ;;;
  rt_return projection.

(** [#loadAcceptedWorkOrder(tenantId, workOrderId)] *)
Definition loadAcceptedWorkOrder (tenantId workOrderId : string) : rt AcceptedWorkOrder :=
  await found := rt_call (rc_getWorkOrder tenantId workOrderId) in
  rt_lift (orThrow found (KafError KAF_STORAGE_NOT_FOUND [])).

(** ** Budgets *)

Inductive BoundaryDispatch := dispatch_turn | dispatch_model | dispatch_tool | dispatch_internal.

Definition boundary_dispatch_name (d : BoundaryDispatch) : string :=
  match d with
  | dispatch_turn => "turn" | dispatch_model => "model" | dispatch_tool => "tool" | dispatch_internal => "internal"
  end.

(** What a run used so far; a duration that is not a number is [None]. *)
Record RunUsage := {
  ru_turns : Z;
  ru_modelCalls : Z;
  ru_toolCalls : Z;
  ru_activeExecutionMs : option Z;
}.

Definition budget_exhausted (b : WorkBudget) (dispatch : BoundaryDispatch) (u : RunUsage) : bool :=
  match dispatch with
  | dispatch_turn => wb_maxTurns b <=? ru_turns u
  | dispatch_model => wb_maxModelCalls b <=? ru_modelCalls u
  | dispatch_tool => wb_maxToolCalls b <=? ru_toolCalls u
  | dispatch_internal => false
  end || nan_ge (ru_activeExecutionMs u) (Some (wb_maxActiveExecutionMs b)).

Definition assertDeadline (w : AcceptedWorkOrder) : rt unit :=
  match wo_deadline (wo_common w) with
  | None => rt_return tt
  | Some deadline =>
      await now := rt_call rc_now in
      if nan_ge (Date_parse now) (Date_parse deadline)
      then rt_throw (KafReason KAF_RUNTIME_TERMINAL "deadline_elapsed")
      else rt_return tt
  end.

(** [#assertBoundary(workOrder, signal, usage)] *)
Definition assertBoundary (w : AcceptedWorkOrder) (dispatch : BoundaryDispatch) (u : RunUsage) : rt unit :=
  await aborted := rt_call rc_aborted in
  if (aborted : bool) then rt_throw AbortError
  else
    assertDeadline w ;;;
    rt_lift (require (negb (budget_exhausted (wo_budget (wo_common w)) dispatch u))
      (KafError KAF_RUNTIME_CAPABILITY_MISSING
         [("reason", DStr "budget_exhausted"); ("boundary", DStr (boundary_dispatch_name dispatch))])).

(** ** Accounting of a history *)

(** [#toolCallCounts(events)] *)
Definition count_tool_call (counts : gmap string Z) (event : RunEvent) : gmap string Z :=
  match e_payload event with
  | ToolCallRequested _ _ digest _ => <[digest := default 0 (counts !! digest) + 1]> counts
  | _ => counts
  end.

Definition toolCallCounts (events : list RunEvent) : gmap string Z := fold_left count_tool_call events ∅.

(** Starts of model and tool calls, and the total so far. *)
Record ActiveTotals := {
  at_modelStarts : gmap string (option Z);
  at_toolStarts : gmap string (option Z);
  at_total : option Z;
}.

(** [total += Math.max(0, at - started)], when the start is known. *)
Definition add_elapsed (total at_ : option Z) (started : option (option Z)) : option Z :=
  match started with
  | None => total
  | Some s => t ← total; a ← at_; b ← s; Some (t + Z.max 0 (a - b))
  end.

Definition account_event (a : ActiveTotals) (event : RunEvent) : ActiveTotals :=
  let at_ := Date_parse (e_occurredAt event) in
  match e_payload event with
  | ModelCallStarted _ reservation _ =>
      {| at_modelStarts := <[reservation := at_]> (at_modelStarts a); at_toolStarts := at_toolStarts a;
         at_total := at_total a |}
  | ModelCallCompleted _ reservation _ _ =>
      {| at_modelStarts := at_modelStarts a; at_toolStarts := at_toolStarts a;
         at_total := add_elapsed (at_total a) at_ (at_modelStarts a !! reservation) |}
  | ToolCallRequested _ toolCallId _ _ =>
      {| at_modelStarts := at_modelStarts a; at_toolStarts := <[toolCallId := at_]> (at_toolStarts a);
         at_total := at_total a |}
  | ToolCallCompleted _ toolCallId _ =>
      {| at_modelStarts := at_modelStarts a; at_toolStarts := at_toolStarts a;
         at_total := add_elapsed (at_total a) at_ (at_toolStarts a !! toolCallId) |}
  | _ => a
  end.

(** [#persistedActiveExecutionMs(events)] *)
Definition persistedActiveExecutionMs (events : list RunEvent) : option Z :=
  at_total (fold_left account_event events {| at_modelStarts := ∅; at_toolStarts := ∅; at_total := Some 0 |}).

Definition count_events (t : RunEventType) (events : list RunEvent) : Z :=
  Z.of_nat (length (filter (fun e => payload_type (e_payload e) = t) events)).

(** ** Tool calls *)

(** [resolveHostToolCall(...)] *)
Definition resolveHostToolCall `{Zod} (w : AcceptedWorkOrder) (registration : ToolRegistrationContract)
    (proposedInput : JsonValue) : rt ResolvedHostToolCall :=
  await resolved := rt_call (rc_resolveToolCall w registration proposedInput) in
  rt_lift (check_resolution resolved).

(** [evaluateHostToolCall(...)] *)
Definition evaluateHostToolCall `{Zod} (w : AcceptedWorkOrder) (registration : ToolRegistrationContract)
    (call : ResolvedHostToolCall) (networkPolicy : NetworkPolicy) (callsAlreadyUsed : Z) : rt HostPolicyDecision :=
  await decision := rt_call (rc_evaluatePolicy (policy_request w registration call networkPolicy callsAlreadyUsed)) in
  rt_lift (check_decision decision).

(** ** Failures *)

(** [#captureBoundaryInvocation(operation)] *)
Definition captureBoundaryInvocation {A} (operation : rt A) : rt A :=
  rt_try operation (fun o =>
    match o with Return a => rt_return a | Throw e => rt_throw (BoundaryInvocationError e) end).

(** [#capturedBoundaryError(error)] *)
Definition capturedBoundaryError (e : js_error) : option js_error :=
  match e with
  | BoundaryInvocationError inner => Some inner
  | _ => match retry_classification e with Some _ => Some e | None => None end
  end.

(** [#safeBoundaryClassification(classify)]: a throw, or no classification, is uncertain. *)
Definition safeBoundaryClassification (classify : rt (option RuntimeBoundaryErrorClassification))
  : rt RuntimeBoundaryErrorClassification :=
  rt_try classify (fun o => rt_return match o with Return (Some c) => c | _ => class_uncertain end).

(** [#normalizeBoundaryFailure(boundary, error, classification)] *)
Definition normalizeBoundaryFailure (boundary : RetryBoundary) (e : js_error)
    (classification : RuntimeBoundaryErrorClassification) : js_error :=
  match e with
  | KafError _ _ => e
  | _ =>
      let '(code, reason) := match boundary with
                             | Events.boundary_model =>
                                 (KAF_MODEL_ADAPTER_MISMATCH, "model_call_failed_without_safe_result")
                             | Events.boundary_tool =>
                                 (KAF_TOOL_EXECUTION_FAILED, "tool_call_failed_without_safe_result")
                             end in
      KafError code [("reason", DStr reason); ("retryClassification", DStr (class_name classification))]
  end.
