(* ===== verification/RunResume.v ===== *)
(** * Resuming a run (packages/runtime/src/runtime.ts)

    The checkpoint a run resumes from, the input submitted while it waited, and
    the retries scheduled after a failure. *)

From S2P Require Import Prelude JsTime Errors Schema JsonValue JsNumber Unicode JsonText Contracts WorkOrder.
From S2P Require Import Authorization Authority Effects Run Events StoreInternal LeaseStore Digest.
From S2P Require Import JsArithmetic EffectLedger Decisions WorkOrderStore RecordStores AcknowledgedResults.
From S2P Require Import UnitOfWork ActiveExecution EffectServices Checkpoints ModelRecords HostPorts.
From S2P Require Import RuntimeProgram WriteEffect RunChecks.

Local Open Scope Z_scope.
Local Open Scope rt_scope.

(** A checkpoint of the model loop: the members it may have at every phase. *)
Definition run_checkpoint (phase : CheckpointPhase) (modelInput : option JsonValue) (stepId : option string)
    (attempt : option Z) (emission : option RuntimeModelEmission) (toolCallId : option string)
  : RuntimeContextCheckpoint :=
  {| cp_phase := phase; cp_modelInput := modelInput; cp_stepId := stepId; cp_attempt := attempt;
     cp_emission := emission; cp_toolCallId := toolCallId; cp_requestId := None; cp_inputSchemaDigest := None;
     cp_retryBoundary := None; cp_retryClassification := None; cp_nextAttempt := None; cp_notBefore := None;
     cp_delayMs := None; cp_resumePhase := None; cp_artifact := None; cp_verificationStarted := false;
     cp_verifications := [] |}.

(** The checkpoint of a step that waits for an input. *)
Definition input_checkpoint (modelInput : JsonValue) (stepId requestId inputSchemaDigest : string)
    (emission : RuntimeModelEmission) : RuntimeContextCheckpoint :=
  {| cp_phase := phase_input; cp_modelInput := Some modelInput; cp_stepId := Some stepId; cp_attempt := None;
     cp_emission := Some emission; cp_toolCallId := None; cp_requestId := Some requestId;
     cp_inputSchemaDigest := Some inputSchemaDigest;
     cp_retryBoundary := None; cp_retryClassification := None; cp_nextAttempt := None; cp_notBefore := None;
     cp_delayMs := None; cp_resumePhase := None; cp_artifact := None; cp_verificationStarted := false;
     cp_verifications := [] |}.

(** [{ ...checkpoint, phase: "scheduled_backoff", ... }] *)
Definition backoff_checkpoint (c : RuntimeContextCheckpoint) (attempt : Z) (boundary : RetryBoundary)
    (classification : RetryClassification) (nextAttempt : Z) (notBefore : string) (delayMs : Z)
  : RuntimeContextCheckpoint :=
  {| cp_phase := phase_scheduled_backoff; cp_modelInput := cp_modelInput c; cp_stepId := cp_stepId c;
     cp_attempt := Some attempt; cp_emission := cp_emission c; cp_toolCallId := cp_toolCallId c;
     cp_requestId := cp_requestId c; cp_inputSchemaDigest := cp_inputSchemaDigest c;
     cp_retryBoundary := Some boundary; cp_retryClassification := Some classification;
     cp_nextAttempt := Some nextAttempt; cp_notBefore := Some notBefore; cp_delayMs := Some delayMs;
     cp_resumePhase := Some match boundary with
                            | Events.boundary_model => resume_model | Events.boundary_tool => resume_tool
                            end;
     cp_artifact := cp_artifact c; cp_verificationStarted := cp_verificationStarted c;
     cp_verifications := cp_verifications c |}.

(** The checkpoint a scheduled retry resumes with: the members of the retry are
    dropped. *)
Definition resumed_checkpoint (c : RuntimeContextCheckpoint) (resumePhase : ResumePhase) (nextAttempt : Z)
  : RuntimeContextCheckpoint :=
  {| cp_phase := match resumePhase with resume_model => phase_model | resume_tool => phase_tool end;
     cp_modelInput := cp_modelInput c; cp_stepId := cp_stepId c; cp_attempt := Some nextAttempt;
     cp_emission := cp_emission c; cp_toolCallId := cp_toolCallId c; cp_requestId := cp_requestId c;
     cp_inputSchemaDigest := cp_inputSchemaDigest c; cp_retryBoundary := None; cp_retryClassification := None;
     cp_nextAttempt := None; cp_notBefore := None; cp_delayMs := None; cp_resumePhase := None;
     cp_artifact := cp_artifact c; cp_verificationStarted := cp_verificationStarted c;
     cp_verifications := cp_verifications c |}.

(** What a retry may be scheduled for. *)
Definition retry_class (c : RuntimeBoundaryErrorClassification) : option RetryClassification :=
  match c with
  | class_timed_out => Some timed_out | class_retryable => Some retryable_failure
  | class_uncertain => Some uncertain_outcome
  | class_aborted | class_non_retryable => None
  end.

Definition bounded_integer (path : string) : js_error :=
  KafError KAF_SCHEMA_INVALID [("path", DStr path); ("issue", DStr "bounded_integer_required")].

(** [Number.isSafeInteger(n) && lo <= n && n <= hi] *)
Definition within (lo hi : Z) (n : option Z) : option Z :=
  match n with
  | Some n => if is_safe_integer n && (lo <=? n) && (n <=? hi) then Some n else None
  | None => None
  end.

Definition unit_interval (x : spec_float) : bool := number_nonnegative x && SFleb x (number 1).

Section Resume.
Context `{Zod} (config : RuntimeConfig).

(** The delay before the next attempt, none when there is to be no other. *)
Definition retry_delay (boundary : RetryBoundary) (attempt : Z) (classification : RetryClassification)
  : rt (option Z) :=
  await maximum := rt_call (rc_maximumAttempts boundary) in
  await maximumAttempts := rt_lift (orThrow (within 1 100 maximum) (bounded_integer "retryPolicy.maximumAttempts")) in
  if maximumAttempts <=? attempt then rt_return None
  else
    await jitter := (if cfg_retryJitterSource config then rt_call rc_jitter else rt_return (number 0)) in
    rt_lift (require (unit_interval jitter)
      (KafError KAF_SCHEMA_INVALID [("path", DStr "retryJitterSource"); ("issue", DStr "unit_interval_required")])) ;;;
    await delay := rt_call (rc_backoffMilliseconds boundary attempt classification jitter) in
    await delayMs := rt_lift (orThrow (within 0 86400000 delay) (bounded_integer "retryPolicy.backoffMilliseconds")) in
    rt_return (Some delayMs).

(** [#scheduleRetry(input)] *)
Definition scheduleRetry (w : AcceptedWorkOrder) (projection : RunProjection) (stepId : string)
    (boundary : RetryBoundary) (boundaryKey : string) (attempt : Z)
    (classification : RuntimeBoundaryErrorClassification) (checkpoint : RuntimeContextCheckpoint)
  : rt (option (RunProjection * RuntimeContextCheckpoint)) :=
  match retry_class classification with
  | None => rt_return None
  | Some class =>
      if negb (cfg_retryPolicy config) then rt_return None
      else
        await delay := retry_delay boundary attempt class in
        match delay with
        | None => rt_return None
        | Some delayMs =>
            await now := rt_call rc_now in
            await ms := rt_lift (orThrow (Date_parse now) (RangeError "Invalid time value")) in
            await notBefore := rt_lift (isoOrThrow (ms + delayMs)) in
            if match wo_deadline (wo_common w) with
               | Some deadline => nan_ge (Date_parse notBefore) (Date_parse deadline)
               | None => false
               end
            then rt_return None
            else
              let nextAttempt := attempt + 1 in
              await parsed := rt_lift (orThrow (RuntimeContextCheckpointSchema
                (backoff_checkpoint checkpoint attempt boundary class nextAttempt notBefore delayMs)) ZodError) in
              await next := rt_append config w projection
                (RetryScheduled stepId boundary boundaryKey attempt nextAttempt class delayMs notBefore)
                (tx_done tt) (Some parsed) in
              rt_return (Some (next, parsed))
        end
  end.

(** [#classifyBoundaryError(boundary, error, registration)] *)
Definition classifyBoundaryError (boundary : RetryBoundary) (e : js_error)
    (registration : option ToolRegistrationContract) : rt RuntimeBoundaryErrorClassification :=
  match e with
  | AbortError => rt_return class_aborted
  | _ =>
      match retry_classification e with
      | Some c => rt_return c
      | None =>
          let classifies := match boundary, registration with
                            | Events.boundary_model, _ => cfg_modelClassifiesErrors config
                            | Events.boundary_tool, Some _ => cfg_toolClassifiesErrors config
                            | Events.boundary_tool, None => false
                            end in
          if classifies
          then safeBoundaryClassification (rt_call (rc_classifyError boundary e registration))
          else rt_return match e with
                         | KafError code _ =>
                             if retryable (KAF_ERROR_REGISTRY code) then class_retryable else class_non_retryable
                         | _ => class_uncertain
                         end
      end
  end.

(** ** Submitted inputs *)

(** The record of an input, as compared with the step that asked for it. *)
Definition submission_fields (r : InputSubmissionRecord) :=
  (is_tenantId r, is_runId r, is_requestId r, is_requestingStepId r, is_requestingEventId r,
   is_executionDefinition r, is_executionDefinitionDigest r, is_workOrderBindingDigest r, is_inputSchemaDigest r,
   is_valueDigest r, is_inputSubmissionRecordId r).

(** The authenticated data of an input. *)
Definition inputBinding (tenantId runId requestId recordId workOrderBindingDigest inputSchemaDigest valueDigest
    commandId : string) : list (string * jsstring) :=
  [("tenantId", js tenantId); ("runId", js runId); ("requestId", js requestId); ("recordId", js recordId);
   ("workOrderBindingDigest", js workOrderBindingDigest); ("inputSchemaDigest", js inputSchemaDigest);
   ("valueDigest", js valueDigest); ("commandId", js commandId)].

Definition submission_binding (r : InputSubmissionRecord) : list (string * jsstring) :=
  inputBinding (is_tenantId r) (is_runId r) (is_requestId r) (is_inputSubmissionRecordId r)
    (is_workOrderBindingDigest r) (is_inputSchemaDigest r) (is_valueDigest r) (is_consumingCommandId r).

Definition work_order_input (w : AcceptedWorkOrder) (more : list (jsstring * JsonValue)) : JsonValue :=
  Jobj ([(js "goal", jstr (wo_goal (wo_common w))); (js "input", wo_input (wo_common w))] ++ more).

(** The comparison of the record with the checkpoint and the history; a missing
    event before the submission has no canonical text. *)
Definition submission_matches (w : AcceptedWorkOrder) (runId requestId stepId inputSchemaDigest valueDigest recordId : string)
    (requested : option RunEvent) (record : InputSubmissionRecord) : outcome js_error unit :=
  event ← orThrow requested
    (PolicyError "CanonicalJsonError" (canonical_code_name KAF_SERIALIZATION_UNSUPPORTED_VALUE));
  assertExactBinding (submission_fields record)
    (wo_tenantId w, runId, requestId, stepId, e_eventId event, wo_executionDefinition w,
     wo_executionDefinitionDigest w, wo_workOrderBindingDigest (wo_common w), inputSchemaDigest, valueDigest, recordId)
    "input_submission_binding_changed".

(** The last event of the history must be the submission the checkpoint waits for. *)
Definition awaited_submission (reversed : list RunEvent) (stepId requestId inputSchemaDigest : string)
  : outcome js_error (string * string * option RunEvent) :=
  let changed := Throw (KafReason KAF_RUNTIME_EVENT_BINDING "input_submission_event_changed") in
  match reversed with
  | submitted :: earlier =>
      match e_payload submitted with
      | InputSubmitted step request recordId schema valueDigest =>
          if bool_decide (step = stepId) && bool_decide (request = requestId)
             && bool_decide (schema = inputSchemaDigest)
          then Return (recordId, valueDigest, head earlier)
          else changed
      | _ => changed
      end
  | [] => changed
  end.

Definition validated_input (inputSchemaDigest valueDigest : string) (input : TypedInputValidationResult)
  : outcome js_error JsonValue :=
  validated ← parse TypedInputValidationResultSchema input;
  let changed := KafReason KAF_AUTHORIZATION_BINDING_MISMATCH "input_submission_schema_or_digest_changed" in
  _ ← require (bool_decide (tv_inputSchemaDigest validated = inputSchemaDigest)) changed;
  digest ← digestCanonicalJson (tv_value validated);
  _ ← require (bool_decide (digest = valueDigest)) changed;
  Return (tv_value validated).

(** [#loadSubmittedInput(workOrder, projection, checkpoint, history)] *)
Definition loadSubmittedInput (w : AcceptedWorkOrder) (projection : RunProjection)
    (checkpoint : RuntimeContextCheckpoint) (history : list RunEvent) : rt JsonValue :=
  let runId := run_runId (p_run projection) in
  match cp_stepId checkpoint, cp_requestId checkpoint, cp_inputSchemaDigest checkpoint, cp_emission checkpoint with
  | Some stepId, Some requestId, Some inputSchemaDigest, Some (emission_input_request _ _) =>
      if negb (cfg_inputSubmissionStore config && cfg_inputProtector config && cfg_typedInputRegistry config)
      then rt_throw (KafError KAF_RUNTIME_CAPABILITY_MISSING [("requiredCapability", DStr "typedInput")])
      else
        await (recordId, valueDigest, requested) :=
          rt_lift (awaited_submission (rev history) stepId requestId inputSchemaDigest) in
        await found := rt_call (rc_getInputSubmission (wo_tenantId w) runId requestId) in
        await recordValue := rt_lift (orThrow found (KafError KAF_STORAGE_NOT_FOUND [])) in
        await record := rt_lift (parse InputSubmissionRecordSchema recordValue) in
        rt_lift (submission_matches w runId requestId stepId inputSchemaDigest valueDigest recordId requested record) ;;;
        let binding := submission_binding record in
        await aadDigest := rt_lift (digestCanonicalJson (binding_json binding)) in
        rt_lift (require (bool_decide (pv_aadDigest (is_protectedValue record) = aadDigest))
          (KafReason KAF_AUTHORIZATION_BINDING_MISMATCH "input_submission_aad_changed")) ;;;
        await plaintext := rt_call (rc_unprotectInput binding (is_protectedValue record)) in
        await raw := rt_lift (read_text plaintext) in
        await value := rt_lift (parse JsonValueSchema raw) in
        await answer := rt_call (rc_validateInput inputSchemaDigest value) in
        await validated := rt_lift (validated_input inputSchemaDigest (is_valueDigest record) answer) in
        let nextInput := work_order_input w
          [(js "submittedInput", validated); (js "inputRequestId", jstr requestId)] in
        rt_lift (assertJsonLimit nextInput (wb_maxModelInputBytesPerCall (wo_budget (wo_common w)))
                   "submitted_input_to_model") ;;;
        rt_return nextInput
  | _, _, _, _ => rt_throw (KafError KAF_RUNTIME_CAPABILITY_MISSING [("requiredCapability", DStr "typedInput")])
  end.

(** ** Checkpoints *)

Definition snapshot_bound (w : AcceptedWorkOrder) (projection : RunProjection) (schemaDigest : string)
    (snapshot : ContextSnapshot) : bool :=
  let run := p_run projection in
  bool_decide (ctx_tenantId snapshot = wo_tenantId w) && bool_decide (ctx_runId snapshot = run_runId run)
  && (ctx_sequence snapshot <=? p_lastSequence projection)
  && bool_decide (ctx_executionDefinitionDigest snapshot = wo_executionDefinitionDigest w)
  && bool_decide (ctx_workOrderBindingDigest snapshot = wo_workOrderBindingDigest (wo_common w))
  && bool_decide (run_executionDefinitionDigest run = wo_executionDefinitionDigest w)
  && bool_decide (run_workOrderBindingDigest run = wo_workOrderBindingDigest (wo_common w))
  && bool_decide (ctx_contextSchemaDigest snapshot = schemaDigest)
  && bool_decide (ctx_executionDefinition snapshot = wo_executionDefinition w).

(** An approval requested and recorded after the checkpoint of the tool call. *)
Definition safe_approval_suffix (w : AcceptedWorkOrder) (projection : RunProjection) (sequence : Z)
    (c : RuntimeContextCheckpoint) (suffix : list RunEvent) : bool :=
  match cp_phase c, cp_stepId c, suffix with
  | phase_tool, Some step, [requested; recorded] =>
      (e_sequence requested =? sequence + 1) && (e_sequence recorded =? sequence + 2)
      && bool_decide (p_lastEventId projection = Some (e_eventId recorded))
      && bool_decide (p_status projection = running)
      && bool_decide (e_executionDefinitionDigest requested = wo_executionDefinitionDigest w)
      && bool_decide (e_executionDefinitionDigest recorded = wo_executionDefinitionDigest w)
      && match e_payload requested, e_payload recorded with
         | ApprovalRequested step1 decision1 _ _ _, ApprovalRecorded step2 decision2 _ resume =>
             bool_decide (step1 = step) && bool_decide (step2 = step) && bool_decide (decision1 = decision2)
             && match resume with approve_running => true | approve_planning => false end
         | _, _ => false
         end
  | _, _, _ => false
  end.

(** The input submitted after the checkpoint that waits for it. *)
Definition safe_input_suffix (w : AcceptedWorkOrder) (projection : RunProjection) (sequence : Z)
    (c : RuntimeContextCheckpoint) (suffix : list RunEvent) : bool :=
  match cp_phase c, cp_stepId c, cp_requestId c, cp_inputSchemaDigest c, suffix with
  | phase_input, Some step, Some request, Some schema, [submitted] =>
      (e_sequence submitted =? sequence + 1)
      && bool_decide (p_lastEventId projection = Some (e_eventId submitted))
      && bool_decide (p_status projection = planning)
      && bool_decide (e_executionDefinitionDigest submitted = wo_executionDefinitionDigest w)
      && match e_payload submitted with
         | InputSubmitted step' request' _ schema' _ =>
             bool_decide (step' = step) && bool_decide (request' = request) && bool_decide (schema' = schema)
         | _ => false
         end
  | _, _, _, _, _ => false
  end.

(** [#assertContextCheckpointSuffix(...)] *)
Definition assertContextCheckpointSuffix (w : AcceptedWorkOrder) (projection : RunProjection)
    (sequence : Z) (c : RuntimeContextCheckpoint) : rt unit :=
  if sequence =? p_lastSequence projection then rt_return tt
  else
    await events := rt_call (rc_readEvents (wo_tenantId w) (run_runId (p_run projection))) in
    let suffix := filter (fun e => sequence < e_sequence e) events in
    rt_lift (require (safe_approval_suffix w projection sequence c suffix
                      || safe_input_suffix w projection sequence c suffix)
      (KafReason KAF_STORAGE_CONCURRENCY_CONFLICT "context_checkpoint_suffix_invalid")).

(** [#loadContextCheckpoint(workOrder, projection)] *)
Definition loadContextCheckpoint (w : AcceptedWorkOrder) (projection : RunProjection)
  : rt (option RuntimeContextCheckpoint) :=
  if negb (contextCheckpointEnabled config) then rt_return None
  else
    await found := rt_call (rc_getLatestContext (wo_tenantId w) (run_runId (p_run projection))) in
    match found with
    | None => rt_return None
    | Some snapshotValue =>
        await snapshot := rt_lift (parse ContextSnapshotSchema snapshotValue) in
        await schemaDigest := rt_lift runtime_context_schema_digest in
        rt_lift (require (snapshot_bound w projection schemaDigest snapshot)
          (KafReason KAF_STORAGE_CONCURRENCY_CONFLICT "context_checkpoint_binding_changed")) ;;;
        let binding := contextBinding snapshot in
        await aadDigest := rt_lift (digestCanonicalJson (binding_json binding)) in
        rt_lift (require (bool_decide (pv_aadDigest (ctx_protectedValue snapshot) = aadDigest))
          (KafReason KAF_AUTHORIZATION_BINDING_MISMATCH "context_checkpoint_aad_changed")) ;;;
        await plaintext := rt_call (rc_unprotectContext binding (ctx_protectedValue snapshot)) in
        await digest := rt_lift (digestBytes (pt_bytes plaintext)) in
        rt_lift (require ((Z.of_nat (length (pt_bytes plaintext)) =? ctx_byteSize snapshot)
                          && bool_decide (digest = ctx_contextDigest snapshot))
          (KafReason KAF_STORAGE_CONCURRENCY_CONFLICT "context_checkpoint_payload_changed")) ;;;
        await parsed := rt_lift (read_text plaintext) in
        await checkpoint := rt_lift (orThrow (RuntimeContextCheckpointSchema parsed) ZodError) in
        assertContextCheckpointSuffix w projection (ctx_sequence snapshot) checkpoint ;;;
        rt_lift (require (bool_decide (cp_stepId checkpoint = Some (ctx_stepId snapshot))
                          && match p_currentStepId projection with
                             | Some step => bool_decide (cp_stepId checkpoint = Some step)
                             | None => true
                             end)
          (KafReason KAF_STORAGE_CONCURRENCY_CONFLICT "context_checkpoint_step_changed")) ;;;
        rt_return (Some checkpoint)
    end.
End Resume.
