(* ===== verification/ModelInvocation.v ===== *)
(** * Model calls of a run (packages/runtime/src/runtime.ts)

    [#invokeModelCall]: a call of a local driver, or a production call that is
    reserved before it starts, bound to a credential, marked as dispatched, and
    settled with its completion. *)

From S2P Require Import Prelude JsTime Errors Schema JsonValue JsNumber Unicode JsonText Contracts WorkOrder.
From S2P Require Import Authorization Authority Effects Run Events StoreInternal LeaseStore Digest.
From S2P Require Import JsArithmetic EffectLedger Admission ModelCalls WorkOrderStore RecordStores.
From S2P Require Import AcknowledgedResults UnitOfWork EffectServices Checkpoints ModelRecords HostPorts.
From S2P Require Import RuntimeProgram WriteEffect RunChecks RunResume.

Local Open Scope Z_scope.
Local Open Scope rt_scope.

(** What the calls of [#invokeModelCall] are given. *)
Record ModelCallInput := {
  mi_actorId : string;
  mi_workOrder : AcceptedWorkOrder;
  mi_definition : AgentDefinition;
  mi_projection : RunProjection;
  mi_stepId : string;
  mi_attempt : Z;
  mi_modelInput : JsonValue;
  mi_started : bool;
}.

Record ModelCallOutcome := {
  mo_projection : RunProjection;
  mo_reservationId : string;
  mo_next : option RuntimeModelEmission;
  mo_completedEventCommitted : bool;
}.

Definition resource_exceeded (limit : string) : js_error :=
  KafError KAF_MODEL_RESOURCE_LIMIT_EXCEEDED [("limit", DStr limit)].

Definition emission_type (e : RuntimeModelEmission) : string :=
  match e with
  | emission_tool_call _ _ _ => "tool_call" | emission_final _ => "final"
  | emission_input_request _ _ => "input_request"
  end.

Definition emission_invalid : js_error := KafReason KAF_MODEL_ADAPTER_MISMATCH "model_emission_schema_invalid".

(** [Math.ceil(x)] of a double, when it is an integer number. *)
Definition ceil_integer (x : spec_float) : option Z :=
  match x with
  | S754_zero _ => Some 0
  | S754_finite s m e =>
      let signed := if s then Z.neg m else Z.pos m in
      Some (if 0 <=? e then signed * 2 ^ e else - (- signed / 2 ^ (- e)))
  | S754_infinity _ | S754_nan => None
  end.

(** [Math.ceil(amount * 100)] *)
Definition ceiling_minor (ceiling : MonetaryCeiling) : option Z :=
  ceil_integer (SFmul 53 1024 (WorkOrder.mc_amount ceiling) (number 100)).

Definition tx_lift {A} (o : outcome js_error A) : tx_program A :=
  match o with Return a => tx_done a | Throw e => tx_fail e end.

Section ModelInvocation.
Context `{Zod} (config : RuntimeConfig).

(** [this.#config.killSwitches?.isKilled(kind, digest) === true] *)
Definition askKilled (kind : KillSwitchTargetKind) (digest : string) : rt bool :=
  if cfg_killSwitches config then rt_call (rc_isKilled kind digest) else rt_return false.

(** [a || b || ...], asked one after another. *)
Fixpoint anyKilled (targets : list (KillSwitchTargetKind * string)) : rt bool :=
  match targets with
  | [] => rt_return false
  | (kind, digest) :: rest =>
      await killed := askKilled kind digest in
      if (killed : bool) then rt_return true else anyKilled rest
  end.

(** [#parseModelEmission(input)] *)
Definition parseModelEmission (input : RuntimeModelEmission) : outcome js_error RuntimeModelEmission :=
  orThrow (RuntimeModelEmissionSchema input) emission_invalid.

(** The first emission of the driver or of an adapter. *)
Definition first_emission (raw : option RuntimeModelEmission) : outcome js_error (option RuntimeModelEmission) :=
  match raw with None => Return None | Some e => Some <$> parseModelEmission e end.

Definition requiresProductionModelBoundary : bool :=
  cfg_requireProductionModelBoundary config || existsb id (cfg_durableStores config).

Definition productionModelBoundaryReady : bool :=
  match cfg_productionModelServices config with
  | None => false
  | Some services =>
      pms_durable services
      && bool_decide (pms_transactionDomain services = cfg_unitOfWorkDomain config)
  end.

(** The checkpoint of a call that has started. *)
Definition inflight_checkpoint (i : ModelCallInput) : RuntimeContextCheckpoint :=
  run_checkpoint phase_model_inflight (Some (mi_modelInput i)) (Some (mi_stepId i)) (Some (mi_attempt i)) None None.

(** ** Local calls *)

Definition local_reservation_id (stepId : string) (attempt : Z) : string :=
  "model-call-" +:+ stepId +:+ "-" +:+ attempt_name attempt.

Definition start_local_call (i : ModelCallInput) (reservationId : string) : rt RunProjection :=
  if mi_started i then rt_return (mi_projection i)
  else
    await requestDigest := rt_lift (digestCanonicalJson (mi_modelInput i)) in
    rt_append config (mi_workOrder i) (mi_projection i) (ModelCallStarted (mi_stepId i) reservationId requestDigest)
      (tx_done tt) (Some (inflight_checkpoint i)).

Definition invokeLocalModelCall (i : ModelCallInput) : rt ModelCallOutcome :=
  if requiresProductionModelBoundary
  then rt_throw (KafReason KAF_MODEL_CREDENTIAL_REQUIRED "production_model_boundary_unavailable")
  else
    let reservationId := local_reservation_id (mi_stepId i) (mi_attempt i) in
    await projection := start_local_call i reservationId in
    rt_try
      (withLeaseHeartbeat config
         (captureBoundaryInvocation
            (await raw := rt_call (rc_invokeModel (p_run projection) (mi_modelInput i)) in
             rt_lift (first_emission raw))))
      (fun o =>
         match o with
         | Return next =>
             rt_return {| mo_projection := projection; mo_reservationId := reservationId; mo_next := next;
                          mo_completedEventCommitted := false |}
         | Throw e =>
             rt_call (rc_addUncertainModelCall (wo_tenantId (mi_workOrder i)) (run_runId (p_run projection))
                        (mi_stepId i)) ;;;
             rt_throw e
         end).

(** ** Production calls *)

(** [#assertProductionModelBinding(...)] *)
Definition assertProductionModelBinding (w : AcceptedWorkOrder) (definition : AgentDefinition)
    (r : ModelAdapterRegistration) (security : ModelSecurityProfile) (resource : ModelResourceProfile)
  : outcome js_error unit :=
  require
    (bool_decide (mar_modelAdapterRegistrationDigest r = agd_modelAdapterRegistrationDigest definition)
     && bool_decide (mar_modelSecurityProfileDigest r = agd_modelSecurityProfileDigest definition)
     && bool_decide (mar_modelResourceProfileDigest r = agd_modelResourceProfileDigest definition)
     && bool_decide (mar_modelSecurityProfileDigest r = msp_modelSecurityProfileDigest security)
     && bool_decide (mar_modelResourceProfileDigest r = mrp_modelResourceProfileDigest resource)
     && bool_decide (mar_credentialSlot r = msp_credentialSlot security)
     && bool_decide (mar_endpointOrigin r = msp_endpointOrigin security)
     && bool_decide (wo_tenantId w ∈ msp_allowedTenants security)
     && bool_decide (purpose_code (wo_purpose (wo_common w)) ∈ msp_allowedPurposes security)
     && not_highly_restricted (wo_dataClass (wo_common w))
     && bool_decide (wo_dataClass (wo_common w) ∈ msp_allowedDataClasses security))
    (KafReason KAF_MODEL_ADAPTER_MISMATCH "model_registration_or_profile_binding_mismatch").

(** [#assertModelReservation(actual, original, status)] *)
Definition assertModelReservation (actual original : ModelCallReservation) (status : ModelCallStatus)
  : outcome js_error unit :=
  parsed ← parse ModelCallReservationSchema actual;
  require (bool_decide (mc_status parsed = status) && bool_decide (mc_identity parsed = mc_identity original))
    (KafReason KAF_STORAGE_CONCURRENCY_CONFLICT "model_reservation_binding_mismatch").

(** A call of the reservation services, checked before it commits. *)
Definition checked_reservation (operation : tx_program ModelCallReservation) (original : ModelCallReservation)
    (status : ModelCallStatus) : tx_program ModelCallReservation :=
  tx_bind operation (fun actual =>
  tx_bind (tx_lift (assertModelReservation actual original status)) (fun _ => tx_done actual)).

(** [#transitionModelReservation(...)] *)
Definition transitionModelReservation (w : AcceptedWorkOrder) (key : string)
    (transition : tx_program ModelCallReservation) : rt TransitionAnswer :=
  rt_call (rc_renewLease (leaseTtlMs config)) ;;;
  await lease := rt_call rc_lease in
  rt_call (rc_transactTransition (transition_key_of w (lease_runId lease) "model_call_reservation" key lease)
    (tx_bind transition (fun r => tx_done (tv_undefined, Some (assigned_call r))))).

(** [reservations.markUncertain], in a transition of its own. *)
Definition markCallUncertain (w : AcceptedWorkOrder) (services : RuntimeProductionModelServices)
    (r : ModelCallReservation) : rt TransitionAnswer :=
  transitionModelReservation w ("uncertain:" +:+ mc_reservationId (mc_identity r))
    (checked_reservation (pms_markUncertain services r) r call_uncertain).

(** The registered profiles and adapter of a call. *)
Record ModelMaterial := {
  mm_security : ModelSecurityProfile;
  mm_resource : ModelResourceProfile;
  mm_adapter : RuntimeSealedModelAdapter;
}.

Definition mm_registrationDigest (m : ModelMaterial) : string :=
  mar_modelAdapterRegistrationDigest (sma_registration (mm_adapter m)).

Definition resolve_material (services : RuntimeProductionModelServices) (d : AgentDefinition)
  : outcome js_error ModelMaterial :=
  match pms_resolveSecurity services (agd_modelSecurityProfileDigest d),
        pms_resolveResource services (agd_modelResourceProfileDigest d),
        pms_resolveAdapter services (agd_modelAdapterRegistrationDigest d) with
  | Some security, Some resource, Some adapter =>
      Return {| mm_security := security; mm_resource := resource; mm_adapter := adapter |}
  | _, _, _ => Throw (KafReason KAF_MODEL_ADAPTER_MISMATCH "registered_model_material_unavailable")
  end.

(** [Math.min(maximum, budget ?? maximum)] *)
Definition budgeted (maximum : Z) (budget : option Z) : Z := Z.min maximum (default maximum budget).

(** The bound of the host's estimator on the tokens of the request. *)
Definition token_bound (resource : ModelResourceProfile) (budget : WorkBudget) (estimate : option Z)
  : outcome js_error Z :=
  let exceeded := resource_exceeded "model_input_tokens_per_call" in
  bound ← orThrow estimate exceeded;
  _ ← require (is_safe_integer bound && (0 <? bound)
               && (bound <=? mrp_maxInputTokensPerCall resource)
               && (bound <=? default (mrp_maxInputTokensPerCall resource) (wb_maxModelInputTokensPerCall budget)))
        exceeded;
  Return bound.

(** A ceiling on the cost needs a price table of its currency that has not expired. *)
Definition price_bound (resource : ModelResourceProfile) (budget : WorkBudget) (now : string)
  : outcome js_error unit :=
  match wb_monetaryCeiling budget with
  | None => Return tt
  | Some ceiling =>
      require (bool_decide (mrp_priceCurrency resource = Some (WorkOrder.mc_currency ceiling))
               && match mrp_priceTableExpiresAt resource with
                  | Some expiresAt => negb (nan_le (Date_parse expiresAt) (Date_parse now))
                  | None => false
                  end)
        (resource_exceeded "model_price_bound")
  end.

(** The reservation of a call of [inputBytes] bytes. *)
Definition new_model_reservation (services : RuntimeProductionModelServices) (i : ModelCallInput) (m : ModelMaterial)
    (reservationId : string) (inputBytes inputTokenUpperBound outputTokenMaximum : Z)
  : outcome js_error ModelCallReservation :=
  let budget := wo_budget (wo_common (mi_workOrder i)) in
  let createdAt := run_updatedAt (p_run (mi_projection i)) in
  cost ← match wb_monetaryCeiling budget with
         | None => Return None
         | Some ceiling => Some <$> orThrow (ceiling_minor ceiling) ZodError
         end;
  created ← orThrow (Date_parse createdAt) (RangeError "Invalid time value");
  expiresAt ← isoOrThrow (created + default 300000 (pms_credentialRefTtlMs services));
  parse ModelCallReservationSchema
    {| mc_identity :=
         {| mc_reservationId := reservationId; mc_tenantId := wo_tenantId (mi_workOrder i);
            mc_runId := run_runId (p_run (mi_projection i)); mc_stepId := mi_stepId i; mc_attempt := mi_attempt i;
            mc_workOrderBindingDigest := wo_workOrderBindingDigest (wo_common (mi_workOrder i));
            mc_agentDefinitionDigest := agd_agentDefinitionDigest (mi_definition i);
            mc_modelSecurityProfileDigest := msp_modelSecurityProfileDigest (mm_security m);
            mc_modelResourceProfileDigest := mrp_modelResourceProfileDigest (mm_resource m);
            mc_modelAdapterRegistrationDigest := mm_registrationDigest m;
            mc_inputBytes := inputBytes; mc_inputTokenUpperBound := inputTokenUpperBound;
            mc_outputTokenMaximum := outputTokenMaximum;
            mc_outputBytesMaximum := Some (budgeted (mrp_maxStreamedOutputBytesPerCall (mm_resource m))
                                             (wb_maxStreamedOutputBytesPerCall budget));
            mc_maximumCallCostMinor := cost;
            mc_currency := WorkOrder.mc_currency <$> wb_monetaryCeiling budget;
            mc_expiresAt := expiresAt; mc_createdAt := createdAt |};
       mc_status := call_accepted; mc_settlement := None |}.

Definition model_binding (i : ModelCallInput) (m : ModelMaterial) (reservationId : string) : ModelCallBinding :=
  {| mb_tenantId := wo_tenantId (mi_workOrder i); mb_authoritySubject := mi_actorId i;
     mb_workOrderBindingDigest := wo_workOrderBindingDigest (wo_common (mi_workOrder i));
     mb_agentDefinitionDigest := agd_agentDefinitionDigest (mi_definition i);
     mb_modelSecurityProfileDigest := msp_modelSecurityProfileDigest (mm_security m);
     mb_modelResourceProfileDigest := mrp_modelResourceProfileDigest (mm_resource m);
     mb_modelAdapterRegistrationDigest := mm_registrationDigest m; mb_reservationId := reservationId;
     mb_providerEndpointOrigin := msp_endpointOrigin (mm_security m);
     mb_purpose := purpose_code (wo_purpose (wo_common (mi_workOrder i)));
     mb_permittedDataClasses := [wo_dataClass (wo_common (mi_workOrder i))];
     mb_credentialSlot := msp_credentialSlot (mm_security m) |}.

(** A call that was planned: what it asks, and the reservation to make. *)
Record ModelCallPlan := {
  mp_material : ModelMaterial;
  mp_request : JsonValue;
  mp_outputTokenMaximum : Z;
  mp_now : string;
  mp_reservation : ModelCallReservation;
}.

Definition mp_reservationId (plan : ModelCallPlan) : string := mc_reservationId (mc_identity (mp_reservation plan)).

Definition plan_model_call (services : RuntimeProductionModelServices) (i : ModelCallInput) : rt ModelCallPlan :=
  let d := mi_definition i in
  let budget := wo_budget (wo_common (mi_workOrder i)) in
  await m := rt_lift (resolve_material services d) in
  rt_lift (assertProductionModelBinding (mi_workOrder i) d (sma_registration (mm_adapter m)) (mm_security m)
             (mm_resource m)) ;;;
  let resource := mm_resource m in
  let outputTokenMaximum := budgeted (mrp_maxOutputTokensPerCall resource) (wb_maxModelOutputTokensPerCall budget) in
  let request := provider_request_json d (mi_modelInput i) outputTokenMaximum in
  await canonicalRequest := rt_lift (lift_json (canonicalJsonStringify request)) in
  let inputBytes := Z.of_nat (length (encode canonicalRequest)) in
  rt_lift (assertJsonLimit request
    (Some (budgeted (mrp_maxInputBytesPerCall resource) (wb_maxModelInputBytesPerCall budget)))
    "model_input_per_call") ;;;
  await estimate := rt_try (rt_call (rc_estimateInputTokens (mm_registrationDigest m) canonicalRequest inputBytes))
    (fun o => match o with
              | Return estimate => rt_return estimate
              | Throw _ => rt_throw (resource_exceeded "model_input_estimation")
              end) in
  await inputTokenUpperBound := rt_lift (token_bound resource budget estimate) in
  await now := rt_call rc_now in
  rt_lift (price_bound resource budget now) ;;;
  await reservationId := rt_lift (createModelCallReservationId (wo_tenantId (mi_workOrder i))
    (run_runId (p_run (mi_projection i))) (mi_stepId i) (mi_attempt i)
    (wo_workOrderBindingDigest (wo_common (mi_workOrder i))) (agd_agentDefinitionDigest d)
    (msp_modelSecurityProfileDigest (mm_security m)) (mrp_modelResourceProfileDigest resource)
    (mm_registrationDigest m)) in
  await reservation := rt_lift (new_model_reservation services i m reservationId inputBytes inputTokenUpperBound
                                  outputTokenMaximum) in
  rt_return {| mp_material := m; mp_request := request; mp_outputTokenMaximum := outputTokenMaximum; mp_now := now;
               mp_reservation := reservation |}.

(** The start of the call, which commits its reservation. *)
Definition start_production_call (services : RuntimeProductionModelServices) (i : ModelCallInput)
    (plan : ModelCallPlan) : rt (RunProjection * ModelCallReservation) :=
  await requestDigest := rt_lift (digestCanonicalJson (mp_request plan)) in
  await (projection, assigned) := rt_append_as config (mi_workOrder i) (mi_projection i)
    (ModelCallStarted (mi_stepId i) (mp_reservationId plan) requestDigest) None
    (checked_reservation (pms_reserve services (mp_reservation plan)) (mp_reservation plan) call_accepted)
    (fun reserved_call => Some (assigned_call reserved_call)) (Some (inflight_checkpoint i)) pair in
  match assigned with
  | Some (assigned_call reserved_call) => rt_return (projection, reserved_call)
  | _ => rt_throw (KafReason KAF_STORAGE_CONCURRENCY_CONFLICT "model_reservation_not_returned")
  end.

(** The credential of the call, checked to be of this call. *)
Definition issue_credential (services : RuntimeProductionModelServices) (i : ModelCallInput) (plan : ModelCallPlan)
    (reserved_call : ModelCallReservation) : rt RuntimeModelCallContext :=
  let m := mp_material plan in
  await binding := rt_lift (parse ModelCallBindingSchema (model_binding i m (mp_reservationId plan))) in
  await issuedRef := rt_try
    (await request := rt_lift (parse ModelCredentialIssueRequestSchema
       {| mir_binding := binding; mir_reservation := reserved_call; mir_expiresAt := mc_expiresAt (mc_identity reserved_call) |}) in
     await ref := rt_call (rc_issueCredential request) in
     rt_lift (parse ModelCredentialRefSchema ref))
    (fun o => match o with
              | Return ref => rt_return ref
              | Throw _ => rt_throw (KafReason KAF_MODEL_CREDENTIAL_REQUIRED "model_credential_issuance_failed")
              end) in
  rt_lift (require (bool_decide (mref_issuerId issuedRef = pms_issuerId services))
    (KafReason KAF_MODEL_ADAPTER_MISMATCH "model_credential_issuer_mismatch")) ;;;
  rt_lift (validateModelCallContext
    {| mcx_binding := binding; mcx_reservation := reserved_call; mcx_credentialRef := issuedRef |}
    (sma_registration (mm_adapter m)) (mm_security m) (mm_resource m) (mp_now plan)).

(** [resolveCredential()], the first time it is called. *)
Definition resolve_credential (m : ModelMaterial) (context : RuntimeModelCallContext) : rt unit :=
  await now := rt_call rc_now in
  rt_lift (validateModelCallContext context (sma_registration (mm_adapter m)) (mm_security m) (mm_resource m) now) ;;;
  rt_call (rc_resolveCredential context).

(** The adapter at work; with its emission, whether the credential was asked for once. *)
Definition invoke_adapter (i : ModelCallInput) (plan : ModelCallPlan) (projection : RunProjection)
    (context : RuntimeModelCallContext) : rt (bool * option RuntimeModelEmission) :=
  let adapter := mm_registrationDigest (mp_material plan) in
  await start := rt_call (rc_invokeAdapter adapter (p_run projection) (mp_request plan) (mp_outputTokenMaximum plan)
                            context) in
  match start with
  | adapter_finishes raw =>
      await next := rt_lift (first_emission raw) in
      rt_return (false, next)
  | adapter_resolves =>
      rt_try (resolve_credential (mp_material plan) context) (fun credential =>
      await (again, raw) := rt_call (rc_continueAdapter adapter credential) in
      await next := rt_lift (first_emission raw) in
      rt_return (negb again, next))
  end.

(** A dispatched call that failed: its reservation is marked as uncertain. *)
Definition fail_production_call {A} (services : RuntimeProductionModelServices) (i : ModelCallInput)
    (plan : ModelCallPlan) (reserved_call : ModelCallReservation) (e : js_error) : rt A :=
  let invalidEmission :=
    match e with
    | KafError KAF_MODEL_ADAPTER_MISMATCH details =>
        bool_decide (string_detail "reason" details = Some "model_emission_schema_invalid")
    | _ => false
    end in
  let adapter := mp_material plan in
  await classification :=
    (if invalidEmission then rt_return class_non_retryable
     else if sma_classifyError (mm_adapter adapter)
     then safeBoundaryClassification (rt_call (rc_classifyAdapterError (mm_registrationDigest adapter) e))
     else rt_return class_uncertain) in
  markCallUncertain (mi_workOrder i) services reserved_call ;;;
  let details reason := [("reason", DStr reason); ("retryClassification", DStr (class_name classification))] in
  rt_throw (if invalidEmission
            then KafError KAF_MODEL_ADAPTER_MISMATCH (details "model_emission_schema_invalid")
            else KafError KAF_RUNTIME_CAPABILITY_MISSING (details "model_call_failed_after_dispatch")).

(** The dispatch: marked first, then made under the heartbeat. *)
Definition dispatch_model_call (services : RuntimeProductionModelServices) (i : ModelCallInput) (plan : ModelCallPlan)
    (projection : RunProjection) (reserved_call : ModelCallReservation) (context : RuntimeModelCallContext)
  : rt (option RuntimeModelEmission) :=
  transitionModelReservation (mi_workOrder i) ("dispatch:" +:+ mp_reservationId plan)
    (checked_reservation (pms_markDispatched services reserved_call) reserved_call call_dispatched) ;;;
  rt_try
    (await (once, next) := withLeaseHeartbeat config (invoke_adapter i plan projection context) in
     rt_lift (require once
       (KafReason KAF_MODEL_ADAPTER_MISMATCH "sealed_adapter_did_not_resolve_credential")) ;;;
     rt_return next)
    (fun o => match o with
              | Return next => rt_return next
              | Throw e => fail_production_call services i plan reserved_call e
              end).

Definition completed_checkpoint (i : ModelCallInput) (next : option RuntimeModelEmission) : RuntimeContextCheckpoint :=
  run_checkpoint match next with None => phase_model | Some _ => phase_emission end
    (Some (mi_modelInput i)) (Some (mi_stepId i)) (Some (mi_attempt i)) next None.

(** The completion of the call, which commits its settlement. *)
Definition complete_production_call (services : RuntimeProductionModelServices) (i : ModelCallInput)
    (plan : ModelCallPlan) (projection : RunProjection) (reserved_call : ModelCallReservation)
    (context : RuntimeModelCallContext) (next : option RuntimeModelEmission) : rt ModelCallOutcome :=
  let m := mp_material plan in
  let budget := wo_budget (wo_common (mi_workOrder i)) in
  await outputBytes := (match next with
                        | None => rt_return 0
                        | Some emission =>
                            await text := rt_lift (lift_json (canonicalJsonStringify (emission_json emission))) in
                            rt_lift (assertJsonLimit (emission_json emission)
                              (Some (budgeted (mrp_maxStreamedOutputBytesPerCall (mm_resource m))
                                       (wb_maxStreamedOutputBytesPerCall budget)))
                              "model_output_per_call") ;;;
                            rt_return (Z.of_nat (length (encode text)))
                        end) in
  await trusted := (if sma_trustedUsage (mm_adapter m)
                    then rt_call (rc_trustedUsage (mm_registrationDigest m) context) else rt_return None) in
  let settlement :=
    {| msi_inputBytes := mc_inputBytes (mc_identity (mp_reservation plan));
       msi_inputTokenLowerBound := mc_inputTokenUpperBound (mc_identity (mp_reservation plan));
       msi_outputBytes := outputBytes; msi_outputTokenLowerBound := if outputBytes =? 0 then 0 else 1;
       msi_trustedProviderUsage := trusted |} in
  await responseDigest := rt_lift (digestCanonicalJson match next with Some e => emission_json e | None => Jnull end) in
  await closed := rt_append config (mi_workOrder i) projection
    (ModelCallCompleted (mi_stepId i) (mp_reservationId plan) responseDigest
       match next with Some e => emission_type e | None => "empty" end)
    (tx_bind (checked_reservation (pms_settle services reserved_call settlement) reserved_call call_settled)
       (fun _ => tx_done tt))
    (Some (completed_checkpoint i next)) in
  rt_return {| mo_projection := closed; mo_reservationId := mp_reservationId plan; mo_next := next;
               mo_completedEventCommitted := true |}.

(** [#invokeProductionModelCall(input, services)] *)
Definition invokeProductionModelCall (services : RuntimeProductionModelServices) (i : ModelCallInput)
  : rt ModelCallOutcome :=
  await plan := plan_model_call services i in
  await (projection, reserved_call) := start_production_call services i plan in
  await context := issue_credential services i plan reserved_call in
  await next := dispatch_model_call services i plan projection reserved_call context in
  complete_production_call services i plan projection reserved_call context next.

(** [#invokeModelCall(input)] *)
Definition invokeModelCall (i : ModelCallInput) : rt ModelCallOutcome :=
  let d := mi_definition i in
  await killed := anyKilled [(target_model_adapter, agd_modelAdapterRegistrationDigest d);
                             (target_model_profile, agd_modelSecurityProfileDigest d);
                             (target_model_profile, agd_modelResourceProfileDigest d)] in
  if (killed : bool) then rt_throw (KafReason KAF_RUNTIME_NOT_READY "model_registration_killed")
  else
    rt_lift (assertJsonLimit (mi_modelInput i) (wb_maxModelInputBytesPerCall (wo_budget (wo_common (mi_workOrder i))))
               "model_input_per_call") ;;;
    match cfg_productionModelServices config with
    | None => invokeLocalModelCall i
    | Some services =>
        if negb productionModelBoundaryReady
        then rt_throw (KafReason KAF_RUNTIME_NOT_READY "durable_model_reservation_domain_unavailable")
        else invokeProductionModelCall services i
    end.
End ModelInvocation.
