(* ===== verification/RunCompletion.v ===== *)
(** * The end of a run (packages/runtime/src/runtime.ts)

    [#finalize]: the artifact of the output, its verifications, the evidence and
    the completion; [#fail] and the errors that end a run. *)

From S2P Require Import Prelude JsTime Errors Schema JsonValue JsNumber Unicode JsonText Contracts WorkOrder.
From S2P Require Import Authorization Authority Effects Run Events StoreInternal LeaseStore Digest.
From S2P Require Import JsArithmetic EffectLedger Admission WorkOrderStore RecordStores AcknowledgedResults.
From S2P Require Import UnitOfWork ActiveExecution EffectServices Checkpoints ModelRecords EvidenceRecords.
From S2P Require Import HostPorts RuntimeProgram WriteEffect RunChecks RunResume.

Local Open Scope Z_scope.
Local Open Scope rt_scope.

Inductive ExecutionStatus := execution_completed | execution_parked | execution_failed | execution_cancelled.

(** [RuntimeExecutionResult] *)
Record RuntimeExecutionResult := { rx_runId : string; rx_status : ExecutionStatus }.

#[export] Instance ExecutionStatus_eq_dec : EqDecision ExecutionStatus.
Proof. solve_decision. Defined.

(** What a run that ended answers. *)
Definition terminal_result (runId : string) (status : RunStatus) : RuntimeExecutionResult :=
  {| rx_runId := runId;
     rx_status := match status with
                  | completed => execution_completed
                  | cancelled => execution_cancelled
                  | _ => execution_failed
                  end |}.

(** ** The artifact of the output *)

(** [slice("sha256:".length, "sha256:".length + 32)] *)
Definition digest_suffix (digest : string) : string := String.substring 7 32 digest.

(** The artifact before its digest is known; the decoder gives back the text that
    was encoded. *)
Definition produced_artifact (w : AcceptedWorkOrder) (projection : RunProjection) (stepId suffix contentDigest : string)
    (text : jsstring) (byteSize : Z) (artifactDigest : string) : Artifact :=
  let common := wo_common w in
  {| art_artifactId := "artifact-" +:+ suffix; art_artifactDigest := artifactDigest;
     art_contentDigest := contentDigest; art_mediaType := "application/json"; art_byteSize := byteSize;
     art_location := location_inline encoding_utf8 text; art_tenantId := wo_tenantId w;
     art_producingRunId := run_runId (p_run projection); art_producingStepId := stepId;
     art_ownerType := owner_of_principal; art_ownerId := principal_id (wo_principal common);
     art_visibility := visible_private; art_dataClass := wo_dataClass common;
     art_purposeCode := purpose_code (wo_purpose common); art_retention := artifactRetention w;
     art_provenance :=
       {| apr_executionDefinition := wo_executionDefinition w;
          apr_executionDefinitionDigest := wo_executionDefinitionDigest w;
          apr_workOrderBindingDigest := wo_workOrderBindingDigest common;
          apr_producingEventId := "event-artifact-" +:+ suffix; apr_sourceArtifactDigests := [];
          apr_toolRegistrationDigests := []; apr_metadata := [] |};
     art_createdAt := run_updatedAt (p_run projection); art_expiresAt := None |}.

Definition artifact_identity_json (runId stepId contentDigest : string) : JsonValue :=
  Jobj [(js "runId", jstr runId); (js "stepId", jstr stepId); (js "contentDigest", jstr contentDigest)].

(** ** What verifiers and the evidence builder answer *)

Section Answers.
Context `{Zod}.

(** [#validateVerificationResult(input, verifierId, artifact)] *)
Definition validateVerificationResult (input : VerificationResult) (verifierId : string) (artifact : Artifact)
  : outcome js_error VerificationResult :=
  _ ← require (VerificationResultSchema input) (KafReason KAF_VERIFICATION_REQUIRED "verifier_result_invalid");
  let mismatch := KafReason KAF_VERIFICATION_REQUIRED "verifier_result_binding_mismatch" in
  _ ← require (bool_decide (vr_verifierId input = verifierId)
               && bool_decide (vr_verifierRegistrationDigest input = verifierId)
               && bool_decide (vr_artifactDigest input = art_artifactDigest artifact)) mismatch;
  digest ← digestCanonicalJson (Jobj (verification_fields input));
  _ ← require (bool_decide (vr_verificationDigest input = digest)) mismatch;
  Return input.

(** [values.map((value) => canonicalJsonStringify(value)).sort()] *)
Definition canonical_references (values : list JsonValue) : outcome js_error (list jsstring) :=
  texts ← sequence (map (fun v => lift_json (canonicalJsonStringify v)) values);
  Return (map fst (sort_fields (map (fun t => (t, tt)) texts))).

(** [sameReferences(actual, expected)] *)
Definition sameReferences (actual expected : list JsonValue) : outcome js_error bool :=
  a ← canonical_references actual;
  b ← canonical_references expected;
  Return (bool_decide (a = b)).

Definition artifact_ref_json (r : string * string) : JsonValue :=
  Jobj [(js "artifactId", jstr r.1); (js "artifactDigest", jstr r.2)].
Definition event_ref_json (r : string * Z) : JsonValue :=
  Jobj [(js "eventId", jstr r.1); (js "sequence", int_json r.2)].

Definition verification_ref (v : VerificationResult) : VerificationRef :=
  {| vref_verificationId := vr_verificationId v; vref_verificationDigest := vr_verificationDigest v;
     vref_status := vr_status v; vref_artifactDigest := vr_artifactDigest v; vref_verifierId := vr_verifierId v;
     vref_verifierVersion := vr_verifierVersion v;
     vref_verifierRegistrationDigest := vr_verifierRegistrationDigest v; vref_method := vr_method v;
     vref_rubricVersion := vr_rubricVersion v; vref_rubricDigest := vr_rubricDigest v |}.

(** [#validateEvidenceRecord(...)] *)
Definition validateEvidenceRecord (e : EvidenceRecord) (w : AcceptedWorkOrder) (projection : RunProjection)
    (artifacts : list Artifact) (events : list RunEvent) (verifications : list VerificationResult)
  : outcome js_error EvidenceRecord :=
  _ ← require (EvidenceRecordSchema e) (KafReason KAF_EVIDENCE_INVALID_REFERENCE "evidence_record_invalid");
  let mismatch := KafReason KAF_EVIDENCE_INVALID_REFERENCE "evidence_record_binding_mismatch" in
  digest ← digestCanonicalJson (evidence_material e);
  _ ← require (bool_decide (ev_evidenceDigest e = digest) && bool_decide (ev_tenantId e = wo_tenantId w)
               && bool_decide (ev_runId e = run_runId (p_run projection))
               && bool_decide (ev_executionDefinition e = wo_executionDefinition w)
               && bool_decide (ev_executionDefinitionDigest e = wo_executionDefinitionDigest w)
               && bool_decide (ev_workOrderBindingDigest e = wo_workOrderBindingDigest (wo_common w))) mismatch;
  same ← sameReferences (map artifact_ref_json (ev_artifactRefs e))
           (map (fun a => artifact_ref_json (art_artifactId a, art_artifactDigest a)) artifacts);
  _ ← require same mismatch;
  same ← sameReferences (map event_ref_json (ev_eventRefs e))
           (map (fun v => event_ref_json (e_eventId v, e_sequence v)) events);
  _ ← require same mismatch;
  same ← sameReferences (map verification_ref_json (ev_verificationRefs e))
           (map (fun v => verification_ref_json (verification_ref v)) verifications);
  _ ← require same mismatch;
  Return e.
End Answers.

(** ** Errors that end a run *)

(** [TERMINAL_RUN_ERROR_CODES] *)
Definition TERMINAL_RUN_ERROR_CODES : list KafErrorCode :=
  [KAF_RUNTIME_CAPABILITY_MISSING; KAF_RUNTIME_TERMINAL; KAF_POLICY_DENIED; KAF_EFFECT_ABANDONED_UNCERTAIN;
   KAF_MODEL_RESOURCE_LIMIT_EXCEEDED; KAF_TOOL_EXECUTION_FAILED; KAF_VERIFICATION_REQUIRED;
   KAF_EVIDENCE_INVALID_REFERENCE].

Definition TERMINAL_MODEL_ADAPTER_REASONS : list string :=
  ["model_emission_schema_invalid"; "model_call_failed_without_safe_result"].

Definition TERMINAL_EFFECT_AUTHORIZATION_REASONS : list string :=
  ["effect_approval_required"; "effect_authorization_reservation_mismatch"; "effect_operation_key_empty";
   "effect_preview_binding_or_determinism_failed"; "effect_secret_ref_claim_port_unavailable"].

Definition reason_among (reasons : list string) (details : list (string * detail)) : bool :=
  match string_detail "reason" details with Some reason => bool_decide (reason ∈ reasons) | None => false end.

(** [#terminalRunError(error)] *)
Definition terminalRunError (e : js_error) : option (KafErrorCode * list (string * detail)) :=
  match e with
  | KafError code details =>
      if bool_decide (code ∈ TERMINAL_RUN_ERROR_CODES)
         || bool_decide (code = KAF_MODEL_ADAPTER_MISMATCH) && reason_among TERMINAL_MODEL_ADAPTER_REASONS details
         || bool_decide (code = KAF_AUTHORIZATION_BINDING_MISMATCH)
            && reason_among TERMINAL_EFFECT_AUTHORIZATION_REASONS details
      then Some (code, details) else None
  | _ => None
  end.

Definition detail_json (d : detail) : JsonValue :=
  match d with DStr s => jstr s | DNum n => Jnum (number n) | DBool b => Jbool b | DNull => Jnull end.

(** The details of an error, as the members of a JSON object. *)
Definition safe_details (details : list (string * detail)) : list (jsstring * JsonValue) :=
  map (fun kd => (js kd.1, detail_json kd.2)) details.

Section Completion.
Context `{Zod} (config : RuntimeConfig).

(** [#fail(...)] *)
Definition fail_run (w : AcceptedWorkOrder) (projection : RunProjection) (stepId : string) (errorCode : KafErrorCode)
    (safeDetails : option (list (string * detail))) : rt RuntimeExecutionResult :=
  rt_append config w projection (RunFailed (Some stepId) errorCode (safe_details <$> safeDetails)) (tx_done tt) None ;;;
  rt_return {| rx_runId := run_runId (p_run projection); rx_status := execution_failed |}.

(** [#terminalizeExecutionFailure(...)] *)
Definition terminalizeExecutionFailure (w : AcceptedWorkOrder) (e : js_error) : rt (option RuntimeExecutionResult) :=
  match terminalRunError e with
  | None => rt_return None
  | Some (code, details) =>
      await lease := rt_call rc_lease in
      await latest := rt_call (rc_getProjection (wo_tenantId w) (lease_runId lease)) in
      match latest with
      | None => rt_return None
      | Some p =>
          let runId := run_runId (p_run p) in
          if TerminalRunStatus (p_status p) then rt_return (Some (terminal_result runId (p_status p)))
          else
            rt_append config w p (RunFailed (p_currentStepId p) code (Some (safe_details details))) (tx_done tt) None ;;;
            rt_return (Some {| rx_runId := runId; rx_status := execution_failed |})
      end
  end.

(** ** Verification and evidence *)

(** A checkpoint of the verification of the output. *)
Definition verification_checkpoint (stepId : string) (output : JsonValue) (artifact : Artifact) (started : bool)
    (verifications : list VerificationResult) : RuntimeContextCheckpoint :=
  {| cp_phase := phase_verification; cp_modelInput := None; cp_stepId := Some stepId; cp_attempt := None;
     cp_emission := Some (emission_final output); cp_toolCallId := None; cp_requestId := None;
     cp_inputSchemaDigest := None; cp_retryBoundary := None; cp_retryClassification := None; cp_nextAttempt := None;
     cp_notBefore := None; cp_delayMs := None; cp_resumePhase := None; cp_artifact := Some artifact;
     cp_verificationStarted := started; cp_verifications := verifications |}.

(** The artifact of the output, put before it is recorded. *)
Definition produce_artifact (w : AcceptedWorkOrder) (projection : RunProjection) (stepId : string) (output : JsonValue)
    (text : jsstring) (content : list Z) (contentDigest : string) (verifications : list VerificationResult)
  : rt (RunProjection * Artifact) :=
  await identityDigest := rt_lift (digestCanonicalJson
    (artifact_identity_json (run_runId (p_run projection)) stepId contentDigest)) in
  let suffix := digest_suffix identityDigest in
  let draft := produced_artifact w projection stepId suffix contentDigest text (Z.of_nat (length content)) in
  await artifactDigest := rt_lift (digestCanonicalJson (Jobj (artifact_material (draft EmptyString)))) in
  await artifact := rt_lift (parse ArtifactSchema (draft artifactDigest)) in
  withLeaseHeartbeat config (rt_call (rc_putArtifact artifact content)) ;;;
  await next := rt_append_as config w projection
    (ArtifactProduced stepId (art_artifactId artifact) (art_artifactDigest artifact))
    (Some ("event-artifact-" +:+ suffix)) (tx_done tt) (fun _ => None)
    (Some (verification_checkpoint stepId output artifact false verifications)) (fun p _ => p) in
  rt_return (next, artifact).

(** One verifier: its result is recorded whatever its status. *)
Definition run_verifier (w : AcceptedWorkOrder) (projection : RunProjection) (stepId : string) (output : JsonValue)
    (artifact : Artifact) (verifications : list VerificationResult) (verifierId : string)
  : rt (RunProjection * VerificationResult) :=
  await answer := withActiveExecution config w stepId boundary_verifier verifierId false
    (rt_call (rc_verifyArtifact verifierId artifact)) in
  await v := rt_lift (validateVerificationResult answer verifierId artifact) in
  await next := rt_append config w projection
    (VerificationRecorded stepId (vr_verificationId v) (vr_verifierId v) (vr_status v) (vr_verificationDigest v))
    (tx_done tt) (Some (verification_checkpoint stepId output artifact true (verifications ++ [v]))) in
  rt_return (next, v).

(** The verifiers the run requires: all pass, or the run has failed. *)
Fixpoint run_verifiers (w : AcceptedWorkOrder) (projection : RunProjection) (stepId : string) (output : JsonValue)
    (artifact : Artifact) (verifications : list VerificationResult) (required : list string)
  : rt (RuntimeExecutionResult + RunProjection * list VerificationResult) :=
  match required with
  | [] => rt_return (inr (projection, verifications))
  | verifierId :: rest =>
      if existsb (fun v => bool_decide (vr_verifierId v = verifierId)) verifications
      then run_verifiers w projection stepId output artifact verifications rest
      else if negb (cfg_verifierRegistry config verifierId)
      then await result := fail_run w projection stepId KAF_VERIFICATION_REQUIRED None in rt_return (inl result)
      else
        await (next, v) := run_verifier w projection stepId output artifact verifications verifierId in
        if bool_decide (vr_status v = verification_pass)
        then run_verifiers w next stepId output artifact (verifications ++ [v]) rest
        else await result := fail_run w next stepId KAF_VERIFICATION_REQUIRED None in rt_return (inl result)
  end.

(** The evidence of the run, and its completion. *)
Definition complete_run (w : AcceptedWorkOrder) (projection : RunProjection) (stepId contentDigest : string)
    (artifact : Artifact) (verifications : list VerificationResult) : rt RuntimeExecutionResult :=
  await events := rt_call (rc_readEvents (wo_tenantId w) (run_runId (p_run projection))) in
  await answer := withActiveExecution config w stepId boundary_runtime_internal ("evidence:" +:+ contentDigest) false
    (rt_call (rc_buildEvidence projection events [artifact] verifications)) in
  await evidence := rt_lift (validateEvidenceRecord answer w projection [artifact] events verifications) in
  rt_append config w projection (RunCompleted stepId (ev_evidenceRecordId evidence) contentDigest) (tx_done tt) None ;;;
  rt_return {| rx_runId := run_runId (p_run projection); rx_status := execution_completed |}.

Definition start_verification (w : AcceptedWorkOrder) (projection : RunProjection) (stepId : string)
    (output : JsonValue) (artifact : Artifact) (verifications : list VerificationResult) : rt RunProjection :=
  rt_append config w projection (VerificationStarted stepId (art_artifactDigest artifact)) (tx_done tt)
    (Some (verification_checkpoint stepId output artifact true verifications)).

Definition parse_checkpoint (c : option RuntimeContextCheckpoint) : outcome js_error (option RuntimeContextCheckpoint) :=
  match c with
  | None => Return None
  | Some c => Some <$> orThrow (RuntimeContextCheckpointSchema c) ZodError
  end.

(** [#finalize(...)] *)
Definition finalize (w : AcceptedWorkOrder) (projectionInput : RunProjection) (stepId : string) (output : JsonValue)
    (checkpointInput : option RuntimeContextCheckpoint) : rt RuntimeExecutionResult :=
  if bool_decide (wo_dataClass (wo_common w) = data_highly_restricted)
  then rt_throw (KafError KAF_STORAGE_SECURITY_PROFILE [])
  else
    await checkpoint := rt_lift (parse_checkpoint checkpointInput) in
    await text := rt_lift (lift_json (canonicalJsonStringify output)) in
    let content := encode text in
    await contentDigest := rt_lift (digestBytes content) in
    let verifications := match checkpoint with Some c => cp_verifications c | None => [] end in
    await (projection, made) :=
      (match c ← checkpoint; cp_artifact c with
       | Some artifact => rt_return (projectionInput, artifact)
       | None => produce_artifact w projectionInput stepId output text content contentDigest verifications
       end) in
    await artifact := rt_lift (parse ArtifactSchema made) in
    await started := (if match checkpoint with Some c => cp_verificationStarted c | None => false end
                      then rt_return projection
                      else start_verification w projection stepId output artifact verifications) in
    await verified := run_verifiers w started stepId output artifact verifications (p_requiredVerifierIds started) in
    match verified with
    | inl result => rt_return result
    | inr (checked_, results) => complete_run w checked_ stepId contentDigest artifact results
    end.
End Completion.
