(* ===== verification/ExecuteRun.v ===== *)
(** * The execution of a run (packages/runtime/src/runtime.ts)

    [execute]: a loop of turns.  A turn asks the model for an emission, runs the
    tool call it proposes under the host's policy, waits for an input, or ends
    the run with its final value.  A turn that failed is retried from its
    checkpoint. *)

From stdpp Require Import pretty.
From S2P Require Import Prelude JsTime Errors Schema JsonValue JsNumber Unicode JsonText Contracts WorkOrder.
From S2P Require Import Authorization Authority Policy Effects Run Events StoreInternal LeaseStore Digest.
From S2P Require Import JsArithmetic EffectLedger Admission ModelCalls Decisions WorkOrderStore RecordStores.
From S2P Require Import AcknowledgedResults UnitOfWork ActiveExecution EffectServices Checkpoints ModelRecords.
From S2P Require Import HostPorts RuntimeProgram WriteEffect RunChecks RunResume ModelInvocation RunCompletion.

Local Open Scope Z_scope.
Local Open Scope rt_scope.

(** ** The loop *)

(** What stays the same while the run executes. *)
Record ExecutionContext := {
  xc_runId : string;
  xc_actorId : string;
  xc_workOrder : AcceptedWorkOrder;
  xc_definition : AgentDefinition;
  xc_history : list RunEvent;
  xc_persistedActiveExecutionMs : option Z;
  xc_invocationStartedAt : Z;
}.

(** The variables of the loop. *)
Record LoopState := {
  ls_projection : RunProjection;
  ls_checkpoint : option RuntimeContextCheckpoint;
  ls_modelInput : JsonValue;
  ls_turns : Z;
  ls_modelCalls : Z;
  ls_toolCalls : Z;
  ls_toolCallsByRegistration : gmap string Z;
}.

(** A part of an iteration returns, continues the loop, or goes on. *)
Inductive Progress (A : Type) :=
| finished (result : RuntimeExecutionResult)
| again (state : LoopState)
| proceed (a : A).
Arguments finished {A} result.
Arguments again {A} state.
Arguments proceed {A} a.

Definition progress {A B} (p : rt (Progress A)) (k : A -> rt (Progress B)) : rt (Progress B) :=
  await step := p in
  match step with
  | finished result => rt_return (finished result)
  | again state => rt_return (again state)
  | proceed a => k a
  end.

Definition with_projection (p : RunProjection) (s : LoopState) : LoopState :=
  {| ls_projection := p; ls_checkpoint := ls_checkpoint s; ls_modelInput := ls_modelInput s; ls_turns := ls_turns s;
     ls_modelCalls := ls_modelCalls s; ls_toolCalls := ls_toolCalls s;
     ls_toolCallsByRegistration := ls_toolCallsByRegistration s |}.

Definition with_checkpoint (c : option RuntimeContextCheckpoint) (s : LoopState) : LoopState :=
  {| ls_projection := ls_projection s; ls_checkpoint := c; ls_modelInput := ls_modelInput s; ls_turns := ls_turns s;
     ls_modelCalls := ls_modelCalls s; ls_toolCalls := ls_toolCalls s;
     ls_toolCallsByRegistration := ls_toolCallsByRegistration s |}.

Definition with_input (input : JsonValue) (s : LoopState) : LoopState :=
  {| ls_projection := ls_projection s; ls_checkpoint := ls_checkpoint s; ls_modelInput := input;
     ls_turns := ls_turns s; ls_modelCalls := ls_modelCalls s; ls_toolCalls := ls_toolCalls s;
     ls_toolCallsByRegistration := ls_toolCallsByRegistration s |}.

Definition with_turns (turns : Z) (s : LoopState) : LoopState :=
  {| ls_projection := ls_projection s; ls_checkpoint := ls_checkpoint s; ls_modelInput := ls_modelInput s;
     ls_turns := turns; ls_modelCalls := ls_modelCalls s; ls_toolCalls := ls_toolCalls s;
     ls_toolCallsByRegistration := ls_toolCallsByRegistration s |}.

Definition with_modelCalls (calls : Z) (s : LoopState) : LoopState :=
  {| ls_projection := ls_projection s; ls_checkpoint := ls_checkpoint s; ls_modelInput := ls_modelInput s;
     ls_turns := ls_turns s; ls_modelCalls := calls; ls_toolCalls := ls_toolCalls s;
     ls_toolCallsByRegistration := ls_toolCallsByRegistration s |}.

(** One more call of the tool. *)
Definition count_call (registrationDigest : string) (s : LoopState) : LoopState :=
  {| ls_projection := ls_projection s; ls_checkpoint := ls_checkpoint s; ls_modelInput := ls_modelInput s;
     ls_turns := ls_turns s; ls_modelCalls := ls_modelCalls s; ls_toolCalls := ls_toolCalls s + 1;
     ls_toolCallsByRegistration :=
       <[registrationDigest := default 0 (ls_toolCallsByRegistration s !! registrationDigest) + 1]>
         (ls_toolCallsByRegistration s) |}.

Definition in_phase (phase : CheckpointPhase) (c : option RuntimeContextCheckpoint) : bool :=
  match c with Some c => bool_decide (cp_phase c = phase) | None => false end.

(** The work order of a run as the input of its first turn. *)
Definition initial_input (w : AcceptedWorkOrder) : JsonValue := work_order_input w [].

(** [resolveHostToolCall] in a [try]: a failure is [None]. *)
Definition try_resolve `{Zod} (w : AcceptedWorkOrder) (registration : ToolRegistrationContract) (input : JsonValue)
  : rt (option ResolvedHostToolCall) :=
  rt_try (resolveHostToolCall w registration input)
    (fun o => rt_return match o with Return call => Some call | Throw _ => None end).

Section Execute.
Context `{Zod} (config : RuntimeConfig) (x : ExecutionContext).

Let w := xc_workOrder x.
Let runId := xc_runId x.
Let park {A} : rt (Progress A) := rt_return (finished {| rx_runId := runId; rx_status := execution_parked |}).

(** [this.#assertBoundary(workOrder, signal, {...})] with what was used so far. *)
Definition check_boundary (dispatch : BoundaryDispatch) (s : LoopState) : rt unit :=
  await monotonic := rt_call rc_monotonic in
  assertBoundary w dispatch
    {| ru_turns := ls_turns s; ru_modelCalls := ls_modelCalls s; ru_toolCalls := ls_toolCalls s;
       ru_activeExecutionMs :=
         (fun ms => ms + Z.max 0 (monotonic - xc_invocationStartedAt x)) <$> xc_persistedActiveExecutionMs x |}.

Definition fail_step {A} (s : LoopState) (stepId : string) (code : KafErrorCode)
    (details : option (list (string * detail))) : rt (Progress A) :=
  await result := fail_run config w (ls_projection s) stepId code details in
  rt_return (finished result).

Definition suspend_step {A} (s : LoopState) (stepId : string) (target : ResumeTarget) (reason : string)
  : rt (Progress A) :=
  rt_append config w (ls_projection s) (RunSuspended stepId target reason None) (tx_done tt) None ;;; park.

(** ** Resuming *)

(** A run that waited for an input goes on with the input submitted. *)
Definition resume_input (s : LoopState) : rt LoopState :=
  match ls_checkpoint s with
  | Some c =>
      if in_phase phase_input (Some c) then
        await modelInput := loadSubmittedInput config w (ls_projection s) c (xc_history x) in
        await next := rt_lift (orThrow (RuntimeContextCheckpointSchema
          (run_checkpoint phase_model (Some modelInput) (cp_stepId c) (Some (ls_modelCalls s + 1)) None None)) ZodError) in
        rt_return (with_checkpoint (Some next) (with_input modelInput s))
      else rt_return s
  | None => rt_return s
  end.

(** [Math.max(0, Date.parse(notBefore) - Date.parse(now))]; not a number is not positive. *)
Definition remaining_delay (notBefore now : string) : Z :=
  match Date_parse notBefore, Date_parse now with
  | Some a, Some b => Z.max 0 (a - b)
  | _, _ => 0
  end.

Definition retry_key (boundary : RetryBoundary) (stepId : string) (toolCallId : option string) : string :=
  match boundary with
  | Events.boundary_model => "model:" +:+ stepId
  | Events.boundary_tool => default ("tool:" +:+ stepId) toolCallId
  end.

Definition wait_until (stepId notBefore key : string) : rt unit :=
  await now := rt_call rc_now in
  let remaining := remaining_delay notBefore now in
  if 0 <? remaining
  then withActiveExecution config w stepId boundary_scheduled_backoff key true (rt_call (rc_sleep remaining))
  else rt_return tt.

(** A scheduled retry waits for its time and goes on where the failure was. *)
Definition resume_backoff (s : LoopState) : rt LoopState :=
  match ls_checkpoint s with
  | Some c =>
      if in_phase phase_scheduled_backoff (Some c) then
        match cp_stepId c, cp_retryBoundary c, cp_nextAttempt c, cp_notBefore c, cp_resumePhase c with
        | Some stepId, Some boundary, Some nextAttempt, Some notBefore, Some resumePhase =>
            wait_until stepId notBefore
              (retry_boundary_name boundary +:+ ":" +:+ attempt_name nextAttempt +:+ ":" +:+ notBefore) ;;;
            check_boundary dispatch_internal s ;;;
            await resumed := rt_lift (orThrow (RuntimeContextCheckpointSchema
              (resumed_checkpoint c resumePhase nextAttempt)) ZodError) in
            await next := rt_append config w (ls_projection s)
              (RetryResumed stepId boundary (retry_key boundary stepId (cp_toolCallId c)) nextAttempt)
              (tx_done tt) (Some resumed) in
            rt_return (with_checkpoint (Some resumed) (with_projection next s))
        | _, _, _, _, _ => rt_throw (KafReason KAF_STORAGE_CONCURRENCY_CONFLICT "retry_checkpoint_invalid")
        end
      else rt_return s
  | None => rt_return s
  end.

(** A run that produced its final value ends. *)
Definition resume_final (s : LoopState) : rt (Progress unit) :=
  match ls_checkpoint s with
  | Some c =>
      if in_phase phase_final (Some c) || in_phase phase_verification (Some c) then
        match cp_stepId c, cp_emission c with
        | Some stepId, Some (emission_final value) =>
            await result := finalize config w (ls_projection s) stepId value (Some c) in
            rt_return (finished result)
        | _, _ => rt_throw (KafReason KAF_STORAGE_CONCURRENCY_CONFLICT "final_context_checkpoint_invalid")
        end
      else rt_return (proceed tt)
  | None => rt_return (proceed tt)
  end.

(** ** The model *)

Definition step_name (turns : Z) : string := "step-" +:+ pretty (turns + 1).

(** The step of the turn: the one of the checkpoint, or a new one. *)
Definition plan_step (s : LoopState) : rt (string * LoopState) :=
  if in_phase phase_model (ls_checkpoint s) || in_phase phase_model_inflight (ls_checkpoint s) then
    match c ← ls_checkpoint s; cp_stepId c with
    | Some stepId => rt_return (stepId, s)
    | None => rt_throw (KafReason KAF_STORAGE_CONCURRENCY_CONFLICT "model_context_step_missing")
    end
  else
    let stepId := step_name (ls_turns s) in
    await next := rt_append config w (ls_projection s) (PlanningStarted stepId) (tx_done tt)
      (Some (run_checkpoint phase_model (Some (ls_modelInput s)) (Some stepId) (Some (ls_modelCalls s + 1))
               None None)) in
    rt_return (stepId, with_turns (ls_turns s + 1) (with_projection next s)).

(** The checkpoint a failed model call is retried from. *)
Definition model_retry_checkpoint (s : LoopState) (stepId : string) (attempt : Z) : RuntimeContextCheckpoint :=
  run_checkpoint phase_model (Some (ls_modelInput s)) (Some stepId) (Some (attempt + 1)) None None.

Definition schedule_model_retry (s : LoopState) (stepId : string) (attempt : Z)
    (classification : RuntimeBoundaryErrorClassification) : rt (option LoopState) :=
  await scheduled := scheduleRetry config w (ls_projection s) stepId Events.boundary_model ("model:" +:+ stepId) attempt
                       classification (model_retry_checkpoint s stepId attempt) in
  rt_return ((fun sc => with_checkpoint (Some sc.2) (with_projection sc.1 s)) <$> scheduled).

Definition call_status_name (status : ModelCallStatus) : string :=
  match status with
  | call_accepted => "accepted" | call_dispatched => "dispatched" | call_settled => "settled"
  | call_uncertain => "uncertain" | call_expired => "expired"
  end.

(** A production call in flight when the run stopped: only one still accepted may
    be made. *)
Definition resume_inflight_call (s : LoopState) (stepId : string) (attempt : Z) : rt (Progress unit) :=
  match cfg_productionModelServices config with
  | None => rt_return (proceed tt)
  | Some services =>
      await found := rt_call (rc_getModelReservation (wo_tenantId w) (run_runId (p_run (ls_projection s))) stepId attempt) in
      match found with
      | None => suspend_step s stepId resume_planning "model_call_reservation_missing_after_start"
      | Some reservation =>
          await status := (if bool_decide (mc_status reservation = call_dispatched) then
                             await answer := markCallUncertain config w services reservation in
                             rt_return match answer.2 with
                                       | Some (assigned_call r) => mc_status r
                                       | _ => call_dispatched
                                       end
                           else rt_return (mc_status reservation)) in
          match status with
          | call_uncertain | call_dispatched =>
              await scheduled := schedule_model_retry s stepId attempt class_uncertain in
              match scheduled with
              | Some next => rt_return (again next)
              | None => suspend_step s stepId resume_planning "model_call_dispatched_outcome_uncertain"
              end
          | call_settled | call_expired =>
              suspend_step s stepId resume_planning ("model_call_" +:+ call_status_name status +:+ "_without_result")
          | call_accepted => rt_return (proceed tt)
          end
      end
  end.

(** A local call in flight whose outcome is unknown is not repeated. *)
Definition check_uncertain_call (s : LoopState) (stepId : string) : rt (Progress unit) :=
  await uncertain := rt_call (rc_hasUncertainModelCall (wo_tenantId w) (run_runId (p_run (ls_projection s))) stepId) in
  if (uncertain : bool) then suspend_step s stepId resume_planning "model_call_outcome_unknown"
  else rt_return (proceed tt).

(** A model call that threw: retried, suspended, or thrown. *)
Definition failed_model_call (s : LoopState) (stepId : string) (attempt : Z) (e : js_error)
  : rt (Progress (string * RuntimeModelEmission * LoopState)) :=
  await latest := rt_call (rc_getProjection (wo_tenantId w) (run_runId (p_run (ls_projection s)))) in
  let s := with_modelCalls (Z.max (ls_modelCalls s) attempt)
             (with_projection (default (ls_projection s) latest) s) in
  match capturedBoundaryError e with
  | None => rt_throw e
  | Some boundaryError =>
      await classification := classifyBoundaryError config Events.boundary_model boundaryError None in
      if bool_decide (classification = class_aborted) then rt_throw boundaryError
      else
        await scheduled := schedule_model_retry s stepId attempt classification in
        match scheduled with
        | Some next => rt_return (again next)
        | None =>
            if bool_decide (classification = class_uncertain)
            then suspend_step s stepId resume_planning "model_call_outcome_uncertain"
            else rt_throw (normalizeBoundaryFailure Events.boundary_model boundaryError classification)
        end
  end.

Definition emission_checkpoint (s : LoopState) (phase : CheckpointPhase) (stepId : string) (attempt : option Z)
    (next : RuntimeModelEmission) (toolCallId : option string) : RuntimeContextCheckpoint :=
  run_checkpoint phase (Some (ls_modelInput s)) (Some stepId) attempt (Some next) toolCallId.

(** The emission of a call that returned. *)
Definition complete_model_call (s : LoopState) (stepId : string) (inflight : bool) (call : ModelCallOutcome)
  : rt (Progress (string * RuntimeModelEmission * LoopState)) :=
  let s := with_modelCalls (if inflight then ls_modelCalls s else ls_modelCalls s + 1)
             (with_projection (mo_projection call) s) in
  match mo_next call with
  | None => fail_step s stepId KAF_RUNTIME_MODEL_EMPTY None
  | Some next =>
      rt_lift (assertJsonLimit (emission_json next) (wb_maxStreamedOutputBytesPerCall (wo_budget (wo_common w)))
                 "model_output_per_call") ;;;
      if mo_completedEventCommitted call then rt_return (proceed (stepId, next, s))
      else
        await responseDigest := rt_lift (digestCanonicalJson (emission_json next)) in
        await projection := rt_append config w (ls_projection s)
          (ModelCallCompleted stepId (mo_reservationId call) responseDigest (emission_type next)) (tx_done tt)
          (Some (emission_checkpoint s phase_emission stepId None next None)) in
        rt_return (proceed (stepId, next, with_projection projection s))
  end.

Definition model_call_input (s : LoopState) (stepId : string) (attempt : Z) (inflight : bool) : ModelCallInput :=
  {| mi_actorId := xc_actorId x; mi_workOrder := w; mi_definition := xc_definition x;
     mi_projection := ls_projection s; mi_stepId := stepId; mi_attempt := attempt;
     mi_modelInput := ls_modelInput s; mi_started := inflight |}.

(** The model call of the turn. *)
Definition call_model (s : LoopState) : rt (Progress (string * RuntimeModelEmission * LoopState)) :=
  let inflight := in_phase phase_model_inflight (ls_checkpoint s) in
  await (stepId, s) := plan_step s in
  check_boundary dispatch_model s ;;;
  let attempt := default (ls_modelCalls s + 1) (c ← ls_checkpoint s; cp_attempt c) in
  progress (if inflight then resume_inflight_call s stepId attempt else rt_return (proceed tt)) (fun _ =>
  progress (if inflight then check_uncertain_call s stepId else rt_return (proceed tt)) (fun _ =>
  rt_try
    (withActiveExecution config w stepId boundary_model ("model:" +:+ stepId +:+ ":" +:+ attempt_name attempt) false
       (invokeModelCall config (model_call_input s stepId attempt inflight)))
    (fun o => match o with
              | Throw e => failed_model_call s stepId attempt e
              | Return call => complete_model_call s stepId inflight call
              end))).

(** The emission of the turn: the one of the checkpoint, or of a call. *)
Definition next_emission (s : LoopState) : rt (Progress (string * RuntimeModelEmission * LoopState)) :=
  let c := ls_checkpoint s in
  if in_phase phase_emission c || in_phase phase_tool_request c || in_phase phase_tool c then
    match c ← c; cp_stepId c, c ← c; cp_emission c with
    | Some stepId, Some next => rt_return (proceed (stepId, next, s))
    | _, _ => rt_throw (KafReason KAF_STORAGE_CONCURRENCY_CONFLICT "model_context_checkpoint_invalid")
    end
  else call_model s.

(** ** Tool calls *)

(** A proposed call, and what it was resolved and permitted to be. *)
Record ProposedCall := {
  pc_stepId : string;
  pc_toolCallId : string;
  pc_emission : RuntimeModelEmission;
  pc_registration : ToolRegistrationContract;
  pc_resolved : ResolvedHostToolCall;
  pc_callsAlreadyUsed : Z;
  pc_resumedTool : bool;
}.

Definition pc_registrationDigest (call : ProposedCall) : string :=
  tool_toolRegistrationDigest (pc_registration call).
Definition pc_argumentsDigest (call : ProposedCall) : string := rt_argumentsDigest (pc_resolved call).

(** A tool of the definition whose scopes the work order requested. *)
Definition permitted_registration (digest : string) : option ToolRegistrationContract :=
  registration ← cfg_toolRegistry config digest;
  if bool_decide (digest ∈ agd_toolRegistrationDigests (xc_definition x))
     && forallb (fun scope => bool_decide (scope ∈ wo_requestedCapabilities (wo_common w)))
          (ts_requiredScopes (tool_security registration))
  then Some registration else None.

Definition resolve_call (s : LoopState) (stepId digest : string) (input : JsonValue) (next : RuntimeModelEmission)
  : rt (Progress ProposedCall) :=
  match permitted_registration digest with
  | None => fail_step s stepId KAF_AUTHORIZATION_BINDING_MISMATCH None
  | Some registration =>
      rt_lift (require (ToolRegistrationContractSchema registration) ZodError) ;;;
      let persisted := default 0 (ls_toolCallsByRegistration s !! tool_toolRegistrationDigest registration) in
      let resumedTool := in_phase phase_tool (ls_checkpoint s) in
      await resolved := try_resolve w registration input in
      match resolved with
      | None => fail_step s stepId KAF_POLICY_DENIED (Some [("reason", DStr "tool_input_or_resource_resolution_failed")])
      | Some call =>
          rt_return (proceed
            {| pc_stepId := stepId;
               pc_toolCallId := default ("tool-call-" +:+ stepId) (c ← ls_checkpoint s; cp_toolCallId c);
               pc_emission := next; pc_registration := registration; pc_resolved := call;
               pc_callsAlreadyUsed := if resumedTool && (0 <? persisted) then persisted - 1 else persisted;
               pc_resumedTool := resumedTool |})
      end
  end.

(** The start of the execution of a call that was not requested before. *)
Definition start_tool_call (s : LoopState) (call : ProposedCall) : rt (Progress LoopState) :=
  check_boundary dispatch_tool s ;;;
  if ts_maxCallsPerRun (tool_security (pc_registration call)) <=? pc_callsAlreadyUsed call
  then fail_step s (pc_stepId call) KAF_RUNTIME_CAPABILITY_MISSING (Some [("reason", DStr "per_tool_budget_exhausted")])
  else
    await next := rt_append config w (ls_projection s) (ExecutionStarted (pc_stepId call) (Some (pc_toolCallId call)))
      (tx_done tt)
      (Some (emission_checkpoint s phase_tool_request (pc_stepId call) None (pc_emission call)
               (Some (pc_toolCallId call)))) in
    rt_return (proceed (with_projection next s)).

Definition request_tool_call (s : LoopState) (call : ProposedCall) : rt (Progress LoopState) :=
  if pc_resumedTool call then rt_return (proceed s)
  else
    progress (if in_phase phase_tool_request (ls_checkpoint s) then rt_return (proceed s)
              else start_tool_call s call) (fun s =>
    await next := rt_append config w (ls_projection s)
      (ToolCallRequested (pc_stepId call) (pc_toolCallId call) (pc_registrationDigest call) (pc_argumentsDigest call))
      (tx_done tt)
      (Some (emission_checkpoint s phase_tool (pc_stepId call) (Some 1) (pc_emission call)
               (Some (pc_toolCallId call)))) in
    rt_return (proceed (count_call (pc_registrationDigest call) (with_projection next s)))).

(** *** Approvals *)

Definition decision_binding (owner : Principal) (call : ProposedCall) (decisionId targetDigest : string)
    (preview : DecisionPreviewReference) : ProposedEffectBinding :=
  {| pe_tenant := wo_tenant (wo_common w); pe_principal := owner; pe_runId := runId; pe_stepId := pc_stepId call;
     pe_decisionId := decisionId; pe_workOrderBindingDigest := wo_workOrderBindingDigest (wo_common w);
     pe_executionDefinition := wo_executionDefinition w;
     pe_executionDefinitionDigest := wo_executionDefinitionDigest w; pe_toolId := tool_id (pc_registration call);
     pe_toolVersion := tool_implementationVersion (pc_registration call);
     pe_toolRegistrationDigest := pc_registrationDigest call; pe_argumentsDigest := pc_argumentsDigest call;
     pe_targetDigest := targetDigest; pe_contentDigest := prv_contentDigest preview;
     pe_previewDigest := prv_previewDigest preview; pe_purpose := wo_purpose (wo_common w);
     pe_policyRegistrationDigest := agd_policyRegistrationDigest (xc_definition x) |}.

Definition required_strength (registration : ToolRegistrationContract) : AuthenticationStrength :=
  match ts_riskClass (tool_security registration) with
  | R5 => user_presence | R4 => phishing_resistant | _ => multi_factor
  end.

(** The gate of a decision on the call; its digest is computed before it is parsed. *)
Definition decision_gate (decisionId requestingEventId createdAt : string) (binding : ProposedEffectBinding)
    (strength : AuthenticationStrength) (digest : string) : DecisionGate :=
  {| dg_decisionId := decisionId; dg_tenantId := wo_tenantId w; dg_runId := runId;
     dg_requestingEventId := requestingEventId; dg_binding := binding; dg_decisionGateDigest := digest;
     dg_requiredAuthenticationStrength := strength; dg_createdAt := createdAt |}.

Definition preview_request (call : ProposedCall) (decisionId targetDigest : string) : DecisionPreviewRequest :=
  {| pq_tenantId := wo_tenantId w; pq_runId := runId; pq_stepId := pc_stepId call; pq_decisionId := decisionId;
     pq_toolRegistrationDigest := pc_registrationDigest call; pq_argumentsDigest := pc_argumentsDigest call;
     pq_targetDigest := targetDigest; pq_value := rt_validatedInput (pc_resolved call) |}.

(** The gate is committed with the event that asks for the approval. *)
Definition open_gate (s : LoopState) (call : ProposedCall) (owner : Principal) (targetDigest : string)
  : rt (Progress (option Approval)) :=
  await decisionId := rt_call (rc_generateId "decision") in
  await answer := rt_call (rc_previewDecision (preview_request call decisionId targetDigest)) in
  await preview := rt_lift (orThrow (DecisionPreviewReferenceSchema answer) ZodError) in
  let binding := decision_binding owner call decisionId targetDigest preview in
  let strength := required_strength (pc_registration call) in
  await requestingEventId := rt_call (rc_generateId "event") in
  await gateDigest := rt_lift (digestCanonicalJson
    (gate_json (decision_gate decisionId requestingEventId EmptyString binding strength EmptyString))) in
  await createdAt := rt_call rc_now in
  await gate := rt_lift (orThrow (DecisionGateSchema
    (decision_gate decisionId requestingEventId createdAt binding strength gateDigest)) ZodError) in
  await proposedDigest := rt_lift (digestCanonicalJson (proposed_effect_json binding)) in
  rt_append_as config w (ls_projection s)
    (ApprovalRequested (pc_stepId call) decisionId gateDigest proposedDigest (prv_approvalDisplay preview))
    (Some requestingEventId) (tx_call (tx_putDecisionGate gate)) (fun _ => None) None (fun _ _ => tt) ;;;
  park.

Definition request_approval (s : LoopState) (call : ProposedCall) (targetDigest : string)
  : rt (Progress (option Approval)) :=
  let missing reason := fail_step s (pc_stepId call) KAF_RUNTIME_CAPABILITY_MISSING (Some [("reason", DStr reason)]) in
  if negb (cfg_decisionPreviewer config && cfg_decisionStore config)
  then missing "decision_preview_or_store_missing"
  else
    match wo_decisionOwner (wo_common w) with
    | owner_registered_role _ => missing "registered_role_resolution_required"
    | owner_principal owner => open_gate s call owner targetDigest
    end.

(** The approval of the call, when the policy requires one. *)
Definition obtain_approval (s : LoopState) (call : ProposedCall) (approvalRequired : bool) (targetDigest : string)
  : rt (Progress (option Approval)) :=
  if negb approvalRequired then rt_return (proceed None)
  else
    await approval := approvedToolCall config w (ls_projection s) (agd_policyRegistrationDigest (xc_definition x))
      (pc_registration call) (pc_stepId call) (pc_argumentsDigest call) targetDigest in
    match approval with
    | Some a => rt_return (proceed (Some a))
    | None => request_approval s call targetDigest
    end.

(** *** Reads *)

Definition tool_attempt (s : LoopState) : Z := default 1 (c ← ls_checkpoint s; cp_attempt c).

Definition failed_read (s : LoopState) (call : ProposedCall) (e : js_error) : rt (Progress (JsonValue * LoopState)) :=
  let attempt := tool_attempt s in
  match capturedBoundaryError e with
  | None => rt_throw e
  | Some boundaryError =>
      await classification := classifyBoundaryError config Events.boundary_tool boundaryError
                                (Some (pc_registration call)) in
      if bool_decide (classification = class_aborted) then rt_throw boundaryError
      else
        await scheduled := scheduleRetry config w (ls_projection s) (pc_stepId call) Events.boundary_tool
          (pc_toolCallId call) attempt classification
          (emission_checkpoint s phase_tool (pc_stepId call) (Some (attempt + 1)) (pc_emission call)
             (Some (pc_toolCallId call))) in
        match scheduled with
        | Some (projection, checkpoint) =>
            rt_return (again (with_checkpoint (Some checkpoint) (with_projection projection s)))
        | None =>
            if bool_decide (classification = class_uncertain)
            then suspend_step s (pc_stepId call) resume_running "tool_call_outcome_uncertain"
            else rt_throw (normalizeBoundaryFailure Events.boundary_tool boundaryError classification)
        end
  end.

Definition low_risk (registration : ToolRegistrationContract) : bool :=
  match ts_riskClass (tool_security registration) with R0 | R1 => true | _ => false end.

(** A read: its approval is claimed, then the executor of the host runs it. *)
Definition read_tool (s : LoopState) (call : ProposedCall) (targetDigest : string) (approval : option Approval)
  : rt (Progress (JsonValue * LoopState)) :=
  await _ := (match approval with
              | None => rt_return tt
              | Some a => claimReadApproval config w a (pc_stepId call) (pc_toolCallId call) (pc_argumentsDigest call)
                            targetDigest
              end) in
  if negb (low_risk (pc_registration call))
  then fail_step s (pc_stepId call) KAF_RUNTIME_CAPABILITY_MISSING
         (Some [("reason", DStr "read_effect_strategy_risk_mismatch")])
  else
    rt_try
      (withActiveExecution config w (pc_stepId call) boundary_tool
         (pc_toolCallId call +:+ ":" +:+ attempt_name (tool_attempt s)) false
         (captureBoundaryInvocation
            (rt_call (rc_executeTool (pc_registration call) (rt_validatedInput (pc_resolved call))))))
      (fun o => match o with
                | Throw e => failed_read s call e
                | Return result => rt_return (proceed (result, s))
                end).

(** *** Writes *)

Definition write_input (s : LoopState) (call : ProposedCall) (targetDigest : string) (approval : option Approval)
  : WriteEffectInput :=
  {| wi_workOrder := w; wi_policyRegistrationDigest := agd_policyRegistrationDigest (xc_definition x);
     wi_projection := ls_projection s; wi_registration := pc_registration call; wi_stepId := pc_stepId call;
     wi_toolCallId := pc_toolCallId call; wi_value := rt_validatedInput (pc_resolved call);
     wi_normalizedTargetDigest := targetDigest; wi_approval := approval;
     wi_checkpoint := Some (emission_checkpoint s phase_tool (pc_stepId call) (Some (tool_attempt s))
                              (pc_emission call) (Some (pc_toolCallId call))) |}.

Definition write_tool (s : LoopState) (call : ProposedCall) (targetDigest : string) (approval : option Approval)
  : rt (Progress (JsonValue * LoopState)) :=
  await outcome := executeWriteEffect config (write_input s call targetDigest approval) in
  match outcome with
  | write_parked _ => park
  | write_acknowledged projection result => rt_return (proceed (result, with_projection projection s))
  end.

(** The result goes into the input of the next turn. *)
Definition complete_tool_call {A} (s : LoopState) (call : ProposedCall) (result : JsonValue) : rt (Progress A) :=
  rt_lift (assertJsonLimit result (wb_maxToolResultContextBytesPerCall (wo_budget (wo_common w)))
             "tool_result_per_call") ;;;
  let nextInput := work_order_input w [(js "toolResult", result)] in
  await resultDigest := rt_lift (digestCanonicalJson result) in
  await next := rt_append config w (ls_projection s)
    (ToolCallCompleted (pc_stepId call) (pc_toolCallId call) resultDigest) (tx_done tt)
    (Some (run_checkpoint phase_turn (Some nextInput) (Some (pc_stepId call)) None None None)) in
  rt_return (again (with_checkpoint None (with_input nextInput (with_projection next s)))).

(** The branch of a permitted call. *)
Definition perform_tool_call {A} (s : LoopState) (call : ProposedCall) (approvalRequired : bool)
    (targetDigest : string) : rt (Progress A) :=
  progress (obtain_approval s call approvalRequired targetDigest) (fun approval =>
  check_boundary dispatch_internal s ;;;
  progress (if bool_decide (tool_effectStrategyKind (pc_registration call) = tool_read)
            then read_tool s call targetDigest approval
            else write_tool s call targetDigest approval) (fun result =>
  complete_tool_call result.2 call result.1)).

(** A tool call the model proposed. *)
Definition run_tool_call {A} (s : LoopState) (stepId digest : string) (input : JsonValue) (next : RuntimeModelEmission)
  : rt (Progress A) :=
  progress (resolve_call s stepId digest input next) (fun call =>
  progress (request_tool_call s call) (fun s =>
  await decision := evaluateHostToolCall w (pc_registration call) (pc_resolved call) (cfg_networkPolicy config)
                      (pc_callsAlreadyUsed call) in
  match decision with
  | host_denies _ => fail_step s stepId KAF_POLICY_DENIED None
  | host_permits approvalRequired _ _ targetDigest => perform_tool_call s call approvalRequired targetDigest
  end)).

(** ** Turns *)

Definition request_input (s : LoopState) (stepId schemaDigest prompt : string) (next : RuntimeModelEmission)
  : rt (Progress Empty_set) :=
  let requestId := "input-request-" +:+ stepId in
  rt_append config w (ls_projection s) (InputRequested stepId requestId schemaDigest prompt) (tx_done tt)
    (Some (input_checkpoint (ls_modelInput s) stepId requestId schemaDigest next)) ;;;
  rt_return (finished {| rx_runId := run_runId (p_run (ls_projection s)); rx_status := execution_parked |}).

Definition end_run (s : LoopState) (stepId : string) (value : JsonValue) (next : RuntimeModelEmission)
  : rt (Progress Empty_set) :=
  let checkpoint := emission_checkpoint s phase_final stepId None next None in
  await projection := rt_append config w (ls_projection s) (ExecutionStarted stepId None) (tx_done tt)
                        (Some checkpoint) in
  await result := finalize config w projection stepId value (Some checkpoint) in
  rt_return (finished result).

(** The body of the loop. *)
Definition turn (s : LoopState) : rt (Progress Empty_set) :=
  await s := resume_input s in
  await s := resume_backoff s in
  progress (resume_final s) (fun _ =>
  check_boundary dispatch_turn s ;;;
  progress (next_emission s) (fun '(stepId, next, s) =>
  match next with
  | emission_input_request schemaDigest prompt => request_input s stepId schemaDigest prompt next
  | emission_tool_call digest input _ => run_tool_call s stepId digest input next
  | emission_final value => end_run s stepId value next
  end)).

(** The loop, with fuel for its iterations. *)
Fixpoint turns (fuel : nat) (s : LoopState) : rt (option RuntimeExecutionResult) :=
  match fuel with
  | O => rt_return None
  | S fuel =>
      await step := turn s in
      match step with
      | finished result => rt_return (Some result)
      | again next => turns fuel next
      | proceed nothing => match nothing with end
      end
  end.
End Execute.
