(* ===== verification/Execution.v ===== *)
(** * [execute] (packages/runtime/src/runtime.ts)

    A run is loaded, leased and executed: the loop of turns for an agent, one
    write effect for a compensation.  Whatever happens, the lease is released;
    an abort cancels the run, a terminal error fails it. *)

From S2P Require Import Prelude JsTime Errors Schema JsonValue JsNumber Unicode JsonText Contracts WorkOrder.
From S2P Require Import Authorization Authority Policy Effects Run Events StoreInternal LeaseStore Digest.
From S2P Require Import JsArithmetic EffectLedger WorkOrderStore RecordStores AcknowledgedResults UnitOfWork.
From S2P Require Import EffectServices Checkpoints ModelRecords HostPorts RuntimeProgram WriteEffect RunChecks.
From S2P Require Import RunResume ModelInvocation RunCompletion ExecuteRun.

Local Open Scope Z_scope.
Local Open Scope rt_scope.

(** ** The number of turns

    Every turn starts a new one of the budget or is a retry; an attempt is retried
    at most a hundred times, for the model and for the tool. *)

Definition retries_per_turn : Z := 302.

Definition turn_fuel (b : WorkBudget) : nat := Z.to_nat ((Z.max 0 (wb_maxTurns b) + 1) * retries_per_turn).

Section Execution.
Context `{Zod} (config : RuntimeConfig).

Definition parked_result (runId : string) : RuntimeExecutionResult :=
  {| rx_runId := runId; rx_status := execution_parked |}.

(** ** The frame of an execution *)

Definition acquire_lease (tenantId runId : string) : rt RunLease :=
  await found := rt_call (rc_acquireLease tenantId runId (cfg_leaseHolderId config) (leaseTtlMs config)) in
  rt_lift (orThrow found (KafError KAF_STORAGE_CONCURRENCY_CONFLICT [])).

(** The [catch] of an execution. *)
Definition execution_failure (w : AcceptedWorkOrder) (actorId runId : string) (e : js_error) : rt RuntimeExecutionResult :=
  await aborted := rt_call rc_aborted in
  if (aborted : bool) then
    await latest := rt_call (rc_getProjection (wo_tenantId w) runId) in
    await _ := (match latest with
                | Some p =>
                    if TerminalRunStatus (p_status p) then rt_return tt
                    else
                      rt_append config w p (RunCancelled (p_currentStepId p) "abort_signal" actorId) (tx_done tt) None ;;;
                      rt_return tt
                | None => rt_return tt
                end) in
    rt_return {| rx_runId := runId; rx_status := execution_cancelled |}
  else
    await terminal := terminalizeExecutionFailure config w e in
    match terminal with
    | Some result => rt_return result
    | None => rt_throw e
    end.

(** [try { body } catch { ... } finally { release }] *)
Definition execution_frame (w : AcceptedWorkOrder) (actorId runId : string) (body : rt RuntimeExecutionResult)
  : rt RuntimeExecutionResult :=
  rt_try
    (rt_try body (fun o => match o with
                           | Return result => rt_return result
                           | Throw e => execution_failure w actorId runId e
                           end))
    (fun o =>
       await lease := rt_call rc_lease in
       rt_call (rc_releaseLease lease) ;;;
       rt_lift o).

(** ** Compensations *)

Definition compensation_registration_killed (d : CompensationExecutionDefinitionRef) : rt bool :=
  anyKilled config [(target_compensation_definition, cd_compensationRunDefinitionDigest d);
                    (target_compensation_strategy, cd_compensationStrategyRegistrationDigest d)].

Definition compensation_bound (d : CompensationExecutionDefinitionRef) (originalEffectDigest : string)
    (definition : CompensationRunDefinition) : bool :=
  bool_decide (crd_compensationRunDefinitionDigest definition = cd_compensationRunDefinitionDigest d)
  && bool_decide (crd_originalAgentDefinitionDigest definition = cd_originalAgentDefinitionDigest d)
  && bool_decide (crd_compensationStrategyRegistrationDigest definition = cd_compensationStrategyRegistrationDigest d)
  && bool_decide (crd_compensationToolRegistrationDigest definition = cd_compensationToolRegistrationDigest d)
  && bool_decide (originalEffectDigest = cd_originalEffectDigest d).

Definition compensation_tool (definition : CompensationRunDefinition) : option ToolRegistrationContract :=
  registration ← cfg_toolRegistry config (crd_compensationToolRegistrationDigest definition);
  if bool_decide (tool_id registration = crd_compensationToolId definition)
     && bool_decide (tool_implementationVersion registration = crd_compensationToolVersion definition)
     && bool_decide (tool_toolRegistrationDigest registration = crd_compensationToolRegistrationDigest definition)
     && negb (bool_decide (tool_effectStrategyKind registration = tool_read))
  then Some registration else None.

(** What the execution of a compensation is given. *)
Record CompensationCall := {
  cc_workOrder : AcceptedWorkOrder;
  cc_policyRegistrationDigest : string;
  cc_originalRunId : string;
  cc_originalEffectDigest : string;
  cc_registration : ToolRegistrationContract;
}.

(** The compensating effect and the end of its run. *)
Definition compensate (c : CompensationCall) (projection : RunProjection) (stepId toolCallId : string)
    (call : ResolvedHostToolCall) (targetDigest : string) : rt RuntimeExecutionResult :=
  let w := cc_workOrder c in
  await outcome := executeWriteEffect config
    {| wi_workOrder := w; wi_policyRegistrationDigest := cc_policyRegistrationDigest c; wi_projection := projection;
       wi_registration := cc_registration c; wi_stepId := stepId; wi_toolCallId := toolCallId;
       wi_value := rt_validatedInput call; wi_normalizedTargetDigest := targetDigest; wi_approval := None;
       wi_checkpoint := None |} in
  match outcome with
  | write_parked p => rt_return (parked_result (run_runId (p_run p)))
  | write_acknowledged p result =>
      rt_lift (assertJsonLimit result (wb_maxToolResultContextBytesPerCall (wo_budget (wo_common w)))
                 "tool_result_per_call") ;;;
      await resultDigest := rt_lift (digestCanonicalJson result) in
      await next := rt_append config w p (ToolCallCompleted stepId toolCallId resultDigest) (tx_done tt) None in
      finalize config w next stepId result None
  end.

(** The start of the execution, up to the call resolved. *)
Definition start_compensation (c : CompensationCall) (projection : RunProjection) (stepId toolCallId : string)
  : rt (RunProjection * option ResolvedHostToolCall) :=
  let w := cc_workOrder c in
  assertBoundary w dispatch_tool
    {| ru_turns := 0; ru_modelCalls := 0; ru_toolCalls := 0; ru_activeExecutionMs := Some 0 |} ;;;
  await started := rt_append config w projection (ExecutionStarted stepId (Some toolCallId)) (tx_done tt) None in
  await requested := rt_append config w started
    (CompensationRequested stepId (cc_originalRunId c) (cc_originalEffectDigest c) (run_runId (p_run started)))
    (tx_done tt) None in
  await resolved := try_resolve w (cc_registration c) (wo_input (wo_common w)) in
  rt_return (requested, resolved).

Definition run_compensation (c : CompensationCall) (projection : RunProjection) : rt RuntimeExecutionResult :=
  let w := cc_workOrder c in
  match p_status projection with
  | suspended => rt_return (parked_result (run_runId (p_run projection)))
  | accepted =>
      await stepId := rt_call (rc_generateId "compensation_step") in
      await toolCallId := rt_call (rc_generateId "compensation_tool_call") in
      await (requested, resolved) := start_compensation c projection stepId toolCallId in
      match resolved with
      | None =>
          fail_run config w requested stepId KAF_POLICY_DENIED
            (Some [("reason", DStr "compensation_input_or_resource_resolution_failed")])
      | Some call =>
          let registration := cc_registration c in
          await called := rt_append config w requested
            (ToolCallRequested stepId toolCallId (tool_toolRegistrationDigest registration) (rt_argumentsDigest call))
            (tx_done tt) None in
          await decision := evaluateHostToolCall w registration call (cfg_networkPolicy config) 0 in
          let refuse code :=
            fail_run config w called stepId code
              (Some [("reason", DStr "compensation_approval_gate_not_materialized")]) in
          match decision with
          | host_denies _ => refuse KAF_POLICY_DENIED
          | host_permits true _ _ _ => refuse KAF_RUNTIME_CAPABILITY_MISSING
          | host_permits false _ _ targetDigest => compensate c called stepId toolCallId call targetDigest
          end
      end
  | _ => rt_throw (KafReason KAF_RUNTIME_INVALID_TRANSITION "compensation_requires_accepted_checkpoint")
  end.

Definition compensation_ready : bool := bool_decide (cfg_compensationDomain config = Some (cfg_unitOfWorkDomain config)).

(** [#executeCompensation(...)], for a compensation work order with definition [d]. *)
Definition executeCompensation (actorId tenantId : string) (w : AcceptedWorkOrder) (projection : RunProjection)
    (d : CompensationExecutionDefinitionRef) (originalRunId originalEffectDigest : string)
  : rt RuntimeExecutionResult :=
  if negb compensation_ready
  then rt_throw (KafReason KAF_RUNTIME_NOT_READY "compensation_transaction_domain_unavailable")
  else
    await found := rt_call (rc_resolveCompensation (cd_id d) (cd_version d) (cd_compensationRunDefinitionDigest d)) in
    await killed := compensation_registration_killed d in
    if (killed : bool) then rt_throw (KafReason KAF_RUNTIME_NOT_READY "compensation_registration_killed")
    else
      let mismatch := KafReason KAF_AUTHORIZATION_BINDING_MISMATCH "compensation_execution_definition_mismatch" in
      await definition := rt_lift (orThrow found mismatch) in
      rt_lift (require (compensation_bound d originalEffectDigest definition) mismatch) ;;;
      await registration := rt_lift (orThrow (compensation_tool definition)
        (KafReason KAF_AUTHORIZATION_BINDING_MISMATCH "compensation_tool_registration_mismatch")) in
      acquire_lease tenantId (run_runId (p_run projection)) ;;;
      execution_frame w actorId (run_runId (p_run projection))
        (run_compensation
           {| cc_workOrder := w; cc_policyRegistrationDigest := crd_policyRegistrationDigest definition;
              cc_originalRunId := originalRunId; cc_originalEffectDigest := originalEffectDigest;
              cc_registration := registration |} projection).

(** ** Agents *)

(** The first state of the loop: what the history used. *)
Definition initial_state (w : AcceptedWorkOrder) (projection : RunProjection) (history : list RunEvent)
    (checkpoint : option RuntimeContextCheckpoint) : LoopState :=
  {| ls_projection := projection; ls_checkpoint := checkpoint;
     ls_modelInput := default (initial_input w) (c ← checkpoint; cp_modelInput c);
     ls_turns := count_events TPlanningStarted history; ls_modelCalls := count_events TModelCallStarted history;
     ls_toolCalls := count_events TToolCallRequested history;
     ls_toolCallsByRegistration := toolCallCounts history |}.

(** Where a run without a checkpoint is to resume. *)
Definition checkpoint_target (status : RunStatus) : ResumeTarget :=
  match status with verifying => resume_verifying | running => resume_running | _ => resume_planning end.

Definition suspend_without_checkpoint (w : AcceptedWorkOrder) (projection : RunProjection) (history : list RunEvent)
  : rt unit :=
  await stepId := (match p_currentStepId projection with
                   | Some step => rt_return step
                   | None => rt_call (rc_generateId "step")
                   end) in
  let last := match list.last history with Some e => event_type_name (eventType e) | None => "unknown" end in
  rt_append config w projection
    (RunSuspended stepId (checkpoint_target (p_status projection)) ("checkpoint_required_after_" +:+ last) None)
    (tx_done tt) None ;;;
  rt_return tt.

(** A run that may not go on yet. *)
Definition waits (status : RunStatus) : bool :=
  match status with waiting_for_input | waiting_for_approval | suspended => true | _ => false end.

Definition run_agent (w : AcceptedWorkOrder) (actorId runId : string) (projection : RunProjection)
    (definition : AgentDefinition) : rt RuntimeExecutionResult :=
  await history := rt_call (rc_readEvents (wo_tenantId w) runId) in
  if waits (p_status projection) then rt_return (parked_result runId)
  else
    await recovered := (if bool_decide (p_status projection = running)
                        then recoverInterruptedEffect config w projection history else rt_return None) in
    match recovered with
    | Some _ => rt_return (parked_result runId)
    | None =>
        await checkpoint := (if bool_decide (p_status projection = accepted) then rt_return None
                             else loadContextCheckpoint config w projection) in
        if negb (bool_decide (p_status projection = accepted)) && match checkpoint with None => true | Some _ => false end
        then suspend_without_checkpoint w projection history ;;; rt_return (parked_result runId)
        else
          await startedAt := rt_call rc_monotonic in
          await result := turns config
            {| xc_runId := runId; xc_actorId := actorId; xc_workOrder := w; xc_definition := definition;
               xc_history := history; xc_persistedActiveExecutionMs := persistedActiveExecutionMs history;
               xc_invocationStartedAt := startedAt |}
            (turn_fuel (wo_budget (wo_common w))) (initial_state w projection history checkpoint) in
          (** the fuel is enough: [ExecutionTermination.turns_end] *)
          match result with
          | Some r => rt_return r
          | None => rt_throw (RangeError "fuel")
          end
    end.

(** [execute(authority, runId)] *)
Definition execute (authority : js_value) (runId : string) : rt RuntimeExecutionResult :=
  await claims := verifyAuthority authority (require_run "run.execute" runId) in
  await projection := getRun authority runId in
  if TerminalRunStatus (p_status projection) then rt_return (terminal_result runId (p_status projection))
  else
    let tenantId := claims_tenant claims in
    let actorId := principal_id (cl_actor claims) in
    await w := loadAcceptedWorkOrder tenantId (run_workOrderId (p_run projection)) in
    match wo_kind w with
    | compensation_work_order d originalRunId _ originalEffectDigest _ _ _ _ _ _ =>
        executeCompensation actorId tenantId w projection d originalRunId originalEffectDigest
    | agent_work_order d _ _ _ =>
        await found := rt_call (rc_resolveAgent (ad_id d) (ad_version d) (ad_agentDefinitionDigest d)) in
        await definition := rt_lift (orThrow found (KafError KAF_RUNTIME_AGENT_DEFINITION_MISMATCH [])) in
        acquire_lease tenantId runId ;;;
        execution_frame w actorId runId (run_agent w actorId runId projection definition)
    end.
End Execution.
