(* ===== verification/RuntimeSessions.v ===== *)
(** * Sessions of the runtime

    Whatever callbacks do, the ledger of a unit of work only goes through calls of
    the ledger, and a recorded dispatch stays recorded.  A session runs a program
    of the runtime on a world: transactions run in the unit of work, the ledger is
    read, and every other port answers as it likes. *)

From S2P Require Import Prelude JsTime Errors Schema JsonValue Unicode JsonText Contracts WorkOrder.
From S2P Require Import Authorization Effects Run Events StoreInternal EventStore Digest JsMap JsArithmetic.
From S2P Require Import EffectLedger EffectLedgerFacts Commands Admission ModelCalls Quota ActiveExecution.
From S2P Require Import Decisions AuthorityStores WorkOrderStore RecordStores AcknowledgedResults UnitOfWork.
From S2P Require Import UnitOfWorkFacts TenantIsolation EffectServices Checkpoints RuntimeProgram.

Local Open Scope Z_scope.

(** ** Dispatches on record *)

(** The ledger has an effect under this key, past its preparation. *)
Definition dispatch_recorded (tenantId runId effectKey : string) (s : EffectLedger) : Prop :=
  exists r, getByEffectKey tenantId runId effectKey s = Some r /\ eff_state r <> prepared.

Lemma never_prepared_again s t strategy : isEffectTransitionAllowed s t strategy = true -> t <> prepared.
Proof. by destruct strategy, s, t. Qed.

Section Ledger.
Context `{Zod}.

Lemma ledger_step_recorded t r k s s' :
  ledger_step s s' -> dispatch_recorded t r k s -> dispatch_recorded t r k s'.
Proof.
  intros Hs (e & Hg & He). unfold getByEffectKey in Hg. destruct (el_effectKeys s !! (t, r, k)) as [id |] eqn:Hk; [| done].
  cbn in Hg. unfold dispatch_recorded, getByEffectKey.
  destruct (ledger_step_effects _ _ Hs) as [_ [(Heq & Hkeys & _) | (record & -> & Had & Hrep)]].
  { exists e. by rewrite Hkeys, Hk, <- Heq in *. }
  cbn [store_effect el_effectKeys el_effects].
  assert (<[effect_key_key (eff_identity record) := effect_id_key (eff_identity record)]> (el_effectKeys s) !! (t, r, k)
          = Some id) as ->.
  { destruct (decide ((t, r, k) = effect_key_key (eff_identity record))) as [Heq | Hne];
      [| by rewrite lookup_insert_ne by congruence]. rewrite <- Heq, lookup_insert_eq. f_equal.
    symmetry. apply Had. by rewrite <- Heq. }
  cbn. destruct (decide (id = effect_id_key (eff_identity record))) as [-> | Hne].
  - exists record. rewrite lookup_insert_eq. split; [done |].
    destruct (replaces_spec _ _ (Hrep e Hg)) as [_ Ht]. by eapply never_prepared_again.
  - exists e. by rewrite lookup_insert_ne.
Qed.

Lemma ledger_steps_recorded t r k s s' :
  steps ledger_step s s' -> dispatch_recorded t r k s -> dispatch_recorded t r k s'.
Proof. induction 1; eauto using ledger_step_recorded. Qed.

Lemma ledger_steps_wf s s' : steps ledger_step s s' -> ledger_wf s -> ledger_wf s'.
Proof. induction 1; eauto using ledger_step_wf. Qed.

(** A record that was put is found by its key. *)
Lemma put_is_recorded record s s' :
  ledger_wf s -> putEffectRecord record s = (Return tt, s') -> eff_state record <> prepared ->
  dispatch_recorded (eff_tenantId (eff_identity record)) (eff_runId (eff_identity record))
    (eff_effectKey (eff_identity record)) s'.
Proof.
  intros Hwf Hput Hst. unfold dispatch_recorded, getByEffectKey.
  apply putEffectRecord_cases in Hput as [[-> Hret] | (_ & -> & _)].
  - destruct (Hret tt eq_refl) as [_ (e & He & Hsame)]. unfold sameEffect in Hsame. bools.
    exists e. pose proof (so_effectKey _ _ _ (Hwf _ _ He)) as Hk. unfold effect_key_key in Hk.
    replace (eff_identity e) with (eff_identity record) in Hk by done. rewrite Hk. cbn. split; [done |].
    revert Hst. unfold eff_state. destruct (eff_variant e), (eff_variant record); cbn in *; congruence.
  - exists record. cbn [store_effect el_effectKeys el_effects].
    change (eff_tenantId ?i, eff_runId ?i, eff_effectKey ?i) with (effect_key_key i).
    rewrite lookup_insert_eq. cbn. by rewrite lookup_insert_eq.
Qed.
End Ledger.

(** ** Transactions *)

Section Transactions.
Context `{Zod} (profile : StorageSecurityProfile) (workOrderProtector : option WorkOrderProtector)
  (limits : list QuotaLimit) (generateId : string -> string).

Definition tx_ledger (x : TxState) : EffectLedger := st_effects (tx_stores x).

Definition ledger_kept (x x' : TxState) : Prop := steps ledger_step (tx_ledger x) (tx_ledger x').

#[local] Instance ledger_kept_preorder : PreOrder ledger_kept.
Proof. split; [intros x; apply steps_refl |]. intros x1 x2 x3. apply steps_trans. Qed.

(** A method of another store. *)
Lemma other_store_keeps {X A} (get : Stores -> X) (set : X -> Stores -> Stores) (m : method X js_error A) x :
  (forall y s, st_effects (set y s) = st_effects s) -> keeps ledger_kept x (in_store get set m).
Proof.
  intros Hset o x'. unfold in_store, focus. destruct (m (get (tx_stores x))) as [o' y].
  intros [= <- <-]. unfold ledger_kept, tx_ledger. cbn. rewrite Hset. apply steps_refl.
Qed.

Lemma ledger_call_keeps {A} (m : method EffectLedger js_error A) x :
  (forall s, ledger_step s (m s).2) -> keeps ledger_kept x (in_store st_effects set_effects m).
Proof.
  intros Hm o x'. unfold in_store, focus. specialize (Hm (st_effects (tx_stores x))).
  destruct (m (st_effects (tx_stores x))) as [o' y]. intros [= <- <-]. unfold ledger_kept, tx_ledger. cbn.
  destruct (tx_stores x). cbn in *. by eapply steps_cons, steps_refl.
Qed.

Lemma run_call_ledger t bound {A} (call : TransactionCall A) x :
  keeps ledger_kept x (run_call profile workOrderProtector limits generateId t bound call).
Proof.
  assert (forall id now y, keeps ledger_kept y (stored_work_order workOrderProtector t id now)) as Hstored
    by (intros; apply other_store_keeps; by intros ? []).
  destruct call; cbn [run_call]; keep;
    try (by intros ? ? [= <- <-]);
    try lazymatch goal with
    | |- keeps _ _ (mthen (in_store _ _ _) _) => apply keeps_then; [apply _ | | intros ? ? _; keep]
    | |- keeps _ _ (mthen (stored_work_order _ _ _ _) _) =>
        apply keeps_then; [apply _ | apply Hstored | intros ? ? _; keep]
    end; try apply Hstored;
    try (apply ledger_call_keeps; intros; by constructor);
    try (apply other_store_keeps; by intros ? []).
  all: try (intros; apply steps_refl).
Qed.

Lemma run_program_ledger {V} t bound (p : tx_program V) x :
  keeps ledger_kept x (run_program profile workOrderProtector limits generateId t bound p).
Proof.
  revert x. induction p as [v | e | A call continue IH]; intros x; cbn [run_program]; [keep | keep |].
  intros o x'. destruct (run_call _ _ _ _ t bound call x) as [o1 x1] eqn:He. intros Ho.
  etrans; [by eapply run_call_ledger | by eapply IH].
Qed.

Lemma run_program_bind {A B} t bound (p : tx_program A) (k : A -> tx_program B) x :
  run_program profile workOrderProtector limits generateId t bound (tx_bind p k) x
  = match run_program profile workOrderProtector limits generateId t bound p x with
    | (Return a, x') => run_program profile workOrderProtector limits generateId t bound (k a) x'
    | (Throw e, x') => (Throw e, x')
    end.
Proof.
  revert x. induction p as [v | e | R call continue IH]; intros x; cbn; [done | done |].
  destruct (run_call _ _ _ _ t bound call x) as [o x1]. apply IH.
Qed.

(** A callback that starts by putting a record past its preparation leaves it on record. *)
Lemma put_first_recorded {V} t bound record (k : unit -> tx_program V) x v x' :
  ledger_wf (tx_ledger x) -> eff_state record <> prepared ->
  run_program profile workOrderProtector limits generateId t bound
    (tx_bind (tx_call (tx_putEffectRecord record)) k) x = (Return v, x') ->
  dispatch_recorded (eff_tenantId (eff_identity record)) (eff_runId (eff_identity record))
    (eff_effectKey (eff_identity record)) (tx_ledger x').
Proof.
  intros Hwf Hst. rewrite run_program_bind.
  destruct (run_program _ _ _ _ t bound (tx_call _) x) as [[[] | e] x1] eqn:He; [| done]. intros Hk.
  eapply ledger_steps_recorded; [by eapply run_program_ledger |]. revert He.
  cbn [tx_call tx_await run_program].
  destruct (run_call _ _ _ _ t bound _ x) as [[[] | e] x2] eqn:Hc; cbn; [| done]. intros [= <-]. revert Hc.
  cbn [run_call]. unfold parse. destruct (EffectRecordSchema record); rewrite mthen_mlift; cbn [negb]; [| done].
  rewrite mthen_mlift. destruct (same_tenant t _ _); [| done]. unfold in_store, focus.
  destruct (putEffectRecord record (st_effects (tx_stores x))) as [o y] eqn:Hp. intros [= -> <-].
  assert (tx_ledger (with_stores (set_effects y (tx_stores x)) x) = y) as -> by by destruct x as [[]].
  by eapply put_is_recorded.
Qed.
End Transactions.

(** ** Units of work *)

Section Units.
Context `{Zod} (profile : StorageSecurityProfile) (workOrderProtector : option WorkOrderProtector)
  (limits : list QuotaLimit) (generateId : string -> string) {V : Type}.

Definition unit_ledger (u : UnitOfWork V) : EffectLedger := st_effects (uow_stores u).

Lemma transition_ledger key callback u o u' :
  transactTransition (V := V) profile workOrderProtector limits generateId key callback u = (o, u') ->
  steps ledger_step (unit_ledger u) (unit_ledger u').
Proof.
  intros [[-> _] | [(? & ? & -> & _) | (d & t & v & _ & _ & Hrun & -> & _)]]%transactTransition_effect;
    try apply steps_refl. by apply run_program_ledger in Hrun.
Qed.

Lemma uow_step_ledger u u' :
  uow_step (V := V) profile workOrderProtector limits generateId u u' -> steps ledger_step (unit_ledger u) (unit_ledger u').
Proof.
  intros [s d c o [[-> _] | [(? & ? & ? & -> & _) | (? & key & t & v & r & _ & _ & [Hrun _] & -> & _)]]%transactCommand_effect
    | k c o He]; [apply steps_refl | apply steps_refl | by apply run_program_ledger in Hrun | by eapply transition_ledger].
Qed.

Lemma uow_steps_ledger u u' :
  steps (uow_step (V := V) profile workOrderProtector limits generateId) u u' ->
  steps ledger_step (unit_ledger u) (unit_ledger u').
Proof. induction 1; [apply steps_refl |]. eapply steps_trans; [by eapply uow_step_ledger | done]. Qed.
End Units.

(** ** Sessions of the runtime

    What happens when a method of the runtime is run against the transactional
    stores: it may stop between any two calls, other transactions may be committed
    in between, the answer of a transaction may be lost, and every port outside
    the stores may answer anything.  Dispatches and lookups are written down in a
    log.  The second half is a logic of such executions. *)

Local Open Scope rt_scope.

(** ** Executions *)

Inductive Observation :=
| obs_dispatch (context : RuntimeEffectDispatchContext) (ledger : EffectLedger)
| obs_lookup (context : RuntimeEffectDispatchContext) (answer : outcome js_error RuntimeEffectLookupResult)
(** a transition of this kind was answered from its record *)
| obs_replayed (kind : string).

(** The stores, and the log of what was done outside, the latest first. *)
Record World := {
  w_unit : UnitOfWork TransitionAnswer;
  w_log : list Observation;
}.

Definition with_unit (u : UnitOfWork TransitionAnswer) (w : World) : World := {| w_unit := u; w_log := w_log w |}.
Definition observe (o : Observation) (w : World) : World := {| w_unit := w_unit w; w_log := o :: w_log w |}.
Definition w_ledger (w : World) : EffectLedger := unit_ledger (w_unit w).

Section Sessions.
Context `{Zod} (profile : StorageSecurityProfile) (workOrderProtector : option WorkOrderProtector)
  (limits : list QuotaLimit) (generateId : string -> string).

Notation transition_tx := (transactTransition (V := TransitionAnswer) profile workOrderProtector limits generateId).
Notation unit_step := (uow_step (V := TransitionAnswer) profile workOrderProtector limits generateId).

Definition recorded_before (key : RunTransitionKey) (u : UnitOfWork TransitionAnswer) : bool :=
  match transition_key key with
  | Some d => bool_decide (is_Some (uow_transitions u !! d))
  | None => false
  end.

(** A replayed transition did not run the callback, and assigned nothing. *)
Definition transition_outcome (replayed : bool) (o : outcome js_error TransitionAnswer)
  : outcome js_error TransitionAnswer :=
  answer ← o; Return (if replayed then (answer.1, None) else answer).

(** The answer of a transaction, or an error in its stead: the transaction may have
    been committed all the same. *)
Definition transition_answer (key : RunTransitionKey) (callback : tx_program TransitionAnswer) (w : World)
    (o : outcome js_error TransitionAnswer) (w' : World) : Prop :=
  let '(answer, u') := transition_tx key callback (w_unit w) in
  let replayed := recorded_before key (w_unit w) in
  w_log w' = (if replayed then [obs_replayed (tk_transitionKind key)] else []) ++ w_log w
  /\ ((o = transition_outcome replayed answer /\ w_unit w' = u')
      \/ (isReturn o = false /\ (w_unit w' = w_unit w \/ w_unit w' = u'))).

(** The answer of a read of the stores. *)
Definition read_answer {A} (value : A) (o : outcome js_error A) : Prop := o = Return value \/ isReturn o = false.

Definition call_answers {R} (call : RuntimeCall R) : World -> outcome js_error R -> World -> Prop :=
  match call in RuntimeCall R' return World -> outcome js_error R' -> World -> Prop with
  | rc_transactTransition key callback => transition_answer key callback
  | rc_readEvents tenantId runId => fun w o w' =>
      w' = w /\ (o = EventStore.read tenantId runId 0 (st_events (uow_stores (w_unit w))) \/ isReturn o = false)
  | rc_getProjection tenantId runId => fun w o w' =>
      w' = w /\ read_answer (getProjection tenantId runId (st_events (uow_stores (w_unit w)))) o
  | rc_getByEffectId tenantId runId effectId => fun w o w' =>
      w' = w /\ read_answer (getByEffectId tenantId runId effectId (w_ledger w)) o
  | rc_getByEffectKey tenantId runId effectKey => fun w o w' =>
      w' = w /\ read_answer (getByEffectKey tenantId runId effectKey (w_ledger w)) o
  | rc_dispatch context _ _ => fun w _ w' => w' = observe (obs_dispatch context (w_ledger w)) w
  | rc_lookup context _ => fun w o w' => w' = observe (obs_lookup context o) w
  | _ => fun w _ w' => w' = w
  end.

(** A step of a session: another transaction, or the next call of the program. *)
Inductive session_step {A} : rt A * World -> rt A * World -> Prop :=
| session_other p w u : unit_step (w_unit w) u -> session_step (p, w) (p, with_unit u w)
| session_call {R} (call : RuntimeCall R) continue w o w' :
    call_answers call w o w' -> session_step (rt_vis call continue, w) (continue o, w').

(** The states a session of [p] goes through: it may be stopped at any of them. *)
Definition session {A} (p : rt A) (w w' : World) : Prop := exists p', steps session_step (p, w) (p', w').

(** ** Simulation

    The session in which nothing interferes, with a function that call_answers for the
    ports outside the stores. *)

Definition perform (oracle : forall R, RuntimeCall R -> outcome js_error R) {R} (call : RuntimeCall R)
  : World -> outcome js_error R * World :=
  match call in RuntimeCall R' return World -> outcome js_error R' * World with
  | rc_transactTransition key callback => fun w =>
      let '(answer, u') := transition_tx key callback (w_unit w) in
      let replayed := recorded_before key (w_unit w) in
      (transition_outcome replayed answer,
       {| w_unit := u';
          w_log := (if replayed then [obs_replayed (tk_transitionKind key)] else []) ++ w_log w |})
  | rc_readEvents tenantId runId => fun w => (EventStore.read tenantId runId 0 (st_events (uow_stores (w_unit w))), w)
  | rc_getProjection tenantId runId => fun w =>
      (Return (getProjection tenantId runId (st_events (uow_stores (w_unit w)))), w)
  | rc_getByEffectId tenantId runId effectId => fun w => (Return (getByEffectId tenantId runId effectId (w_ledger w)), w)
  | rc_getByEffectKey tenantId runId effectKey => fun w =>
      (Return (getByEffectKey tenantId runId effectKey (w_ledger w)), w)
  | rc_dispatch context value key => fun w =>
      (oracle _ (rc_dispatch context value key), observe (obs_dispatch context (w_ledger w)) w)
  | rc_lookup context key => fun w =>
      let answer := oracle _ (rc_lookup context key) in (answer, observe (obs_lookup context answer) w)
  | call' => fun w => (oracle _ call', w)
  end.

Lemma perform_answers oracle {R} (call : RuntimeCall R) w :
  call_answers call w (perform oracle call w).1 (perform oracle call w).2.
Proof.
  destruct call; cbn [call_answers perform]; try done; try (by split; [| left]).
  unfold transition_answer. destruct (transition_tx key callback (w_unit w)) as [answer u']. cbn. auto.
Qed.

Fixpoint simulate (oracle : forall R, RuntimeCall R -> outcome js_error R) {A} (p : rt A) (w : World)
  : outcome js_error A * World :=
  match p with
  | rt_done o => (o, w)
  | rt_vis call continue => let '(o, w') := perform oracle call w in simulate oracle (continue o) w'
  end.

Lemma simulate_session oracle {A} (p : rt A) w : session p w (simulate oracle p w).2.
Proof.
  revert w. induction p as [o | R call continue IH]; intros w; [exists (rt_done o); apply steps_refl |].
  cbn. pose proof (perform_answers oracle call w) as Ha. destruct (perform oracle call w) as [o w1]. cbn in Ha.
  destruct (IH o w1) as [p' Hp']. exists p'. eapply steps_cons, Hp'. by constructor.
Qed.

(** ** A logic of executions *)

Definition interfered (w w' : World) : Prop :=
  w_log w' = w_log w /\ steps unit_step (w_unit w) (w_unit w').

Lemma interfered_refl w : interfered w w.
Proof. split; [done | apply steps_refl]. Qed.

Lemma interfered_trans w1 w2 w3 : interfered w1 w2 -> interfered w2 w3 -> interfered w1 w3.
Proof. intros [Hl Hs] [Hl' Hs']. split; [congruence | by eapply steps_trans]. Qed.

(** The log has no replay of a transition of this kind. *)
Definition never_replayed (kind : string) (w : World) : Prop := obs_replayed kind ∉ w_log w.

Lemma answers_log {R} (call : RuntimeCall R) w o w' :
  call_answers call w o w' -> exists new, w_log w' = new ++ w_log w.
Proof.
  destruct call; cbn [call_answers]; try (intros ->; by exists []); try (intros [-> _]; by exists []);
    try (intros ->; eexists [_]; reflexivity).
  unfold transition_answer. destruct (transition_tx key callback (w_unit w)) as [answer u']. intros [-> _]. eauto.
Qed.

(** Logs grow. *)
Lemma steps_log {A} (x y : rt A * World) : steps session_step x y -> exists new, w_log y.2 = new ++ w_log x.2.
Proof.
  induction 1 as [x | x y z Hxy _ [new Hnew]]; [by exists [] |]. destruct Hxy as [q v u _ | R call k v o v' Ha].
  - by exists new.
  - destruct (answers_log _ _ _ _ Ha) as [new' Hnew']. exists (new ++ new'). cbn in *. by rewrite Hnew, Hnew', app_assoc.
Qed.

Lemma session_log {A} (p : rt A) w w' : session p w w' -> exists new, w_log w' = new ++ w_log w.
Proof. intros [p' Hs]. apply (steps_log _ _ Hs). Qed.

Lemma never_replayed_before kind w w' :
  (exists new, w_log w' = new ++ w_log w) -> never_replayed kind w' -> never_replayed kind w.
Proof. intros [new Hl] Hn Hin. apply Hn. rewrite Hl. apply elem_of_app. by right. Qed.

Section Logic.
Context (kind : string) (Inv : World -> Prop).

(** Every state of an execution of [p] from [w] satisfies the invariant as long as
    no transition of the kind is replayed, and the outcome satisfies [Q]. *)
Fixpoint safe {A} (Q : outcome js_error A -> World -> Prop) (p : rt A) (w : World) : Prop :=
  forall w0, interfered w w0 ->
    match p with
    | rt_done o => Q o w0
    | rt_vis call continue => forall o w1, call_answers call w0 o w1 -> never_replayed kind w1 ->
        Inv w1 /\ safe Q (continue o) w1
    end.

Lemma safe_interfered {A} (Q : outcome js_error A -> World -> Prop) p w w0 :
  safe Q p w -> interfered w w0 -> safe Q p w0.
Proof. destruct p; cbn; intros Hs H0 w1 H1; apply Hs; by eapply interfered_trans. Qed.

Lemma safe_try {A B} (p : rt A) (k : outcome js_error A -> rt B) (Q : outcome js_error B -> World -> Prop) w :
  safe (fun o w' => safe Q (k o) w') p w -> safe Q (rt_try p k) w.
Proof.
  revert w. induction p as [o | R call continue IH]; intros w Hs.
  - apply Hs, interfered_refl.
  - cbn. intros w0 H0 o w1 Ha Hn. destruct (Hs w0 H0 o w1 Ha Hn) as [? ?]. split; [done |]. by apply IH.
Qed.

Lemma safe_bind {A B} (p : rt A) (k : A -> rt B) (Q : outcome js_error B -> World -> Prop) w :
  safe (fun o w' => match o with Return a => safe Q (k a) w' | Throw e => safe Q (rt_throw e) w' end) p w ->
  safe Q (await x := p in k x) w.
Proof. intros Hs. apply safe_try. revert Hs. revert w. induction p as [[a | e] | R call continue IH]; intros w Hs;
  cbn in *; [by eauto.. |]. intros w0 H0 o w1 Ha Hn. destruct (Hs w0 H0 o w1 Ha Hn). split; [done |]. by apply IH.
Qed.

Lemma safe_weaken {A} (Q Q' : outcome js_error A -> World -> Prop) p w :
  safe Q p w -> (forall o w', Q o w' -> Q' o w') -> safe Q' p w.
Proof.
  intros Hs HQ. revert w Hs. induction p as [o | R call continue IH]; intros w Hs; cbn in *; [by eauto |].
  intros w0 H0 o w1 Ha Hn. destruct (Hs w0 H0 o w1 Ha Hn). split; [done |]. by apply IH.
Qed.

Lemma safe_call {R} (call : RuntimeCall R) (Q : outcome js_error R -> World -> Prop) w :
  (forall w0 o w1, interfered w w0 -> call_answers call w0 o w1 -> never_replayed kind w1 ->
     Inv w1 /\ forall w2, interfered w1 w2 -> Q o w2) ->
  safe Q (rt_call call) w.
Proof. intros Hc w0 H0 o w1 Ha Hn. destruct (Hc w0 o w1 H0 Ha Hn). by split. Qed.

(** The states of a session satisfy the invariant. *)
Lemma safe_session {A} (p : rt A) (Q : outcome js_error A -> World -> Prop) w w' :
  (forall w1 w2, Inv w1 -> interfered w1 w2 -> Inv w2) ->
  safe Q p w -> Inv w -> session p w w' -> never_replayed kind w' -> Inv w'.
Proof.
  intros Hstable Hsafe HI [p' Hs] Hn.
  remember (p, w) as x eqn:Hx. remember (p', w') as y eqn:Hy.
  revert p w Hx Hsafe HI. induction Hs as [x | x y z Hxy Hyz IH]; intros p w -> Hsafe HI.
  { by injection Hy as _ <-. }
  specialize (IH Hy). inversion Hxy as [q v u Hu | R call k v o v' Ha]; subst.
  - assert (interfered w (with_unit u w)) as Hi by (split; [done | by eapply steps_cons, steps_refl]).
    eapply IH; [done | by eapply safe_interfered | by eapply Hstable].
  - destruct (Hsafe w (interfered_refl w) o v' Ha) as [HI' Hs']; [| by eapply IH].
    by eapply never_replayed_before, Hn; apply (steps_log _ _ Hyz).
Qed.
End Logic.

(** ** Programs whose calls are of an allowed kind *)

(** Every call [p] may make is allowed, and its outcomes satisfy [Q]. *)
Fixpoint sure {A} (allowed : forall R, RuntimeCall R -> bool) (Q : outcome js_error A -> Prop) (p : rt A) : Prop :=
  match p with
  | rt_done o => Q o
  | rt_vis call continue => allowed _ call = true /\ forall o, sure allowed Q (continue o)
  end.

Lemma sure_try {A B} allowed (p : rt A) (k : outcome js_error A -> rt B) (Q : outcome js_error B -> Prop) :
  sure allowed (fun o => sure allowed Q (k o)) p -> sure allowed Q (rt_try p k).
Proof. induction p as [o | R call continue IH]; cbn; [done |]. intros [? ?]. split; [done |]. intros o. by apply IH. Qed.

Lemma sure_bind {A B} allowed (p : rt A) (k : A -> rt B) (Q : outcome js_error B -> Prop) :
  sure allowed (fun o => match o with Return a => sure allowed Q (k a) | Throw e => Q (Throw e) end) p ->
  sure allowed Q (await x := p in k x).
Proof.
  intros Hs. apply sure_try. revert Hs. induction p as [[a | e] | R call continue IH]; cbn; [done | done |].
  intros [? ?]. split; [done |]. intros o. by apply IH.
Qed.

Lemma sure_weaken {A} allowed (Q Q' : outcome js_error A -> Prop) p :
  sure allowed Q p -> (forall o, Q o -> Q' o) -> sure allowed Q' p.
Proof. intros Hs HQ. induction p as [o | R call continue IH]; cbn in *; [by apply HQ |]. destruct Hs. eauto. Qed.

Lemma sure_call {R} (allowed : forall R, RuntimeCall R -> bool) (call : RuntimeCall R) (Q : outcome js_error R -> Prop) :
  allowed _ call = true -> (forall o, Q o) -> sure allowed Q (rt_call call).
Proof. by split. Qed.

(** An assertion the allowed calls keep holds throughout. *)
Lemma sure_safe {A} kind (Inv P : World -> Prop) allowed (Q : outcome js_error A -> Prop) p w :
  (forall w1 w2, P w1 -> interfered w1 w2 -> P w2) ->
  (forall R (call : RuntimeCall R) w1 o w2, allowed R call = true -> P w1 -> call_answers call w1 o w2 ->
     never_replayed kind w2 -> P w2) ->
  (forall w1, P w1 -> Inv w1) ->
  sure allowed Q p -> P w -> safe kind Inv (fun o w' => Q o /\ P w') p w.
Proof.
  intros Hi Ha HI. revert w. induction p as [o | R call continue IH]; intros w Hs HP w0 H0; [by split; eauto |].
  intros o w1 Hans Hn. destruct Hs as [Hc Hs]. assert (P w1) as HP1 by eauto. split; [by apply HI |]. by apply IH.
Qed.
End Sessions.
