(* ===== verification/WriteEffectFacts.v ===== *)
(** * Write effects: theorems

    However often a write effect is executed, stopped and executed again, its
    dispatch is on record before it is made, and it is dispatched again only after
    a lookup answered that it was not applied. *)

From S2P Require Import Prelude JsTime Errors Schema JsonValue Unicode JsonText Contracts WorkOrder.
From S2P Require Import Authorization Effects Run Events StoreInternal EventStore Digest JsMap JsArithmetic.
From S2P Require Import EffectLedger EffectLedgerFacts Commands Admission ModelCalls Quota ActiveExecution.
From S2P Require Import Decisions AuthorityStores WorkOrderStore RecordStores AcknowledgedResults UnitOfWork.
From S2P Require Import UnitOfWorkFacts EffectServices Checkpoints RuntimeProgram WriteEffect RuntimeSessions.

Local Open Scope Z_scope.
Local Open Scope rt_scope.

(** ** Programs that neither dispatch nor look up *)

Definition quiet_call {R} (call : RuntimeCall R) : bool :=
  match call with rc_dispatch _ _ _ | rc_lookup _ _ => false | _ => true end.

(** Nor are tools executed. *)
Definition still_call {R} (call : RuntimeCall R) : bool :=
  match call with rc_dispatch _ _ _ | rc_lookup _ _ | rc_executeTool _ _ => false | _ => true end.

(** Every call [p] may make is allowed. *)
Definition only (allowed : forall R, RuntimeCall R -> bool) {A} (p : rt A) : Prop := sure allowed (fun _ => True) p.

Definition covers (allowed : forall R, RuntimeCall R -> bool) : Prop :=
  forall R (call : RuntimeCall R), still_call call = true -> allowed R call = true.

Lemma covers_quiet : covers (@quiet_call).
Proof. by intros R []. Qed.

Lemma covers_still : covers (@still_call).
Proof. by intros R call. Qed.

Lemma sure_allowed {A} (allowed allowed' : forall R, RuntimeCall R -> bool) (Q : outcome js_error A -> Prop) p :
  (forall R (call : RuntimeCall R), allowed R call = true -> allowed' R call = true) ->
  sure allowed Q p -> sure allowed' Q p.
Proof. intros Ha. induction p as [o | R call continue IH]; cbn; [done |]. intros [? ?]. auto. Qed.

Lemma only_try {A B} allowed (p : rt A) (k : outcome js_error A -> rt B) :
  only allowed p -> (forall o, only allowed (k o)) -> only allowed (rt_try p k).
Proof. intros Hp Hk. apply sure_try. eapply sure_weaken; [exact Hp |]. intros o _. apply Hk. Qed.

Lemma only_bind {A B} allowed (p : rt A) (k : A -> rt B) :
  only allowed p -> (forall a, only allowed (k a)) -> only allowed (rt_bind p k).
Proof. intros Hp Hk. apply only_try; [done |]. intros [a | e]; [apply Hk | done]. Qed.

Create HintDb quiet_programs.
#[export] Hint Constants Opaque : quiet_programs.
#[export] Hint Resolve covers_quiet covers_still : quiet_programs.

(** Walks through a program. *)
Ltac quiet_step :=
  lazymatch goal with
  | |- forall _, _ => intros
  | |- only _ (rt_bind _ _) => apply only_bind
  | |- only _ (rt_try _ _) => apply only_try
  | |- only _ (rt_call _) =>
      split; [first [reflexivity | match goal with H : covers _ |- _ => apply H; reflexivity end] | done]
  | |- only _ (rt_lift _) => exact I
  | |- only _ (rt_return _) => exact I
  | |- only _ (rt_throw _) => exact I
  | |- only _ (match ?x with _ => _ end) => destruct x
  | |- only _ (let _ := _ in _) => cbv zeta
  | |- only _ _ => solve [eauto with quiet_programs]
  end.
Ltac quiet := repeat quiet_step.

Section Quiet.
Context `{Zod} (config : RuntimeConfig) (allowed : forall R, RuntimeCall R -> bool).
Hypothesis allowed_quiet : covers allowed.

Lemma createContextSnapshot_quiet w event c : only allowed (createContextSnapshot config w event c).
Proof. unfold createContextSnapshot. quiet. Qed.
#[local] Hint Resolve createContextSnapshot_quiet : quiet_programs.

Lemma rt_append_quiet w p payload commit c : only allowed (rt_append config w p payload commit c).
Proof. unfold rt_append, rt_append_as. quiet. Qed.
#[local] Hint Resolve rt_append_quiet : quiet_programs.

Lemma put_closed_quiet w key r : only allowed (put_closed config w key r).
Proof. unfold put_closed, transitionActiveExecution. quiet. Qed.
#[local] Hint Resolve put_closed_quiet : quiet_programs.

Lemma settle_quiet w r : only allowed (settleActiveExecution config w r).
Proof. unfold settleActiveExecution. quiet. Qed.

Lemma heartbeat_quiet {A} (p : rt A) : only allowed p -> only allowed (withLeaseHeartbeat config p).
Proof. intros Hp. unfold withLeaseHeartbeat. quiet. Qed.
#[local] Hint Resolve settle_quiet heartbeat_quiet : quiet_programs.

Lemma withActiveExecution_quiet {A} w step boundary key again (p : rt A) :
  only allowed p -> only allowed (withActiveExecution config w step boundary key again p).
Proof.
  intros Hp. unfold withActiveExecution, resume_execution, start_execution_of, transitionActiveExecution. quiet.
Qed.

Lemma park_quiet w p record step code : only allowed (parkEffectForReconciliation config w p record step code).
Proof.
  unfold parkEffectForReconciliation, record_uncertainty, suspend_running, request_reconciliation. quiet.
Qed.

Lemma acknowledge_quiet w p record step result a c : only allowed (acknowledgeEffect config w p record step result a c).
Proof. unfold acknowledgeEffect, protectEffectResult. quiet. Qed.
#[local] Hint Resolve park_quiet acknowledge_quiet : quiet_programs.

Lemma prepare_quiet i plan : only allowed (prepare_effect config i plan).
Proof. unfold prepare_effect. quiet. Qed.

Lemma replay_quiet i plan record d : only allowed (replay_acknowledged config i plan record d).
Proof. unfold replay_acknowledged, suspend_unavailable. quiet. Qed.

Lemma recover_quiet w p history : only allowed (recoverInterruptedEffect config w p history).
Proof.
  unfold recoverInterruptedEffect, park_interrupted, result_available, suspend_unavailable. quiet.
Qed.

Lemma approved_quiet w p policy registration step a n :
  only allowed (approvedToolCall config w p policy registration step a n).
Proof. unfold approvedToolCall. quiet. Qed.

Lemma claim_quiet w approval step call a n : only allowed (claimReadApproval config w approval step call a n).
Proof. unfold claimReadApproval. quiet. Qed.
End Quiet.
#[export] Hint Resolve createContextSnapshot_quiet rt_append_quiet put_closed_quiet settle_quiet heartbeat_quiet
  withActiveExecution_quiet park_quiet acknowledge_quiet prepare_quiet replay_quiet : quiet_programs.

Notation quiet := (only (@quiet_call)).

(** ** Logs *)

(** An effect: its tenant, its run and its key. *)
Definition effect_of (c : RuntimeEffectDispatchContext) : string * string * string :=
  (dc_tenantId c, dc_runId c, dc_effectKey c).

Definition is_dispatch (e : string * string * string) (o : Observation) : bool :=
  match o with obs_dispatch c _ => bool_decide (effect_of c = e) | _ => false end.

(** A lookup of the effect that answered it was not applied. *)
Definition is_refutation (e : string * string * string) (o : Observation) : bool :=
  match o with obs_lookup c (Return lookup_not_applied) => bool_decide (effect_of c = e) | _ => false end.

(** The last thing known of the effect is that it was dispatched. *)
Fixpoint standing (e : string * string * string) (log : list Observation) : bool :=
  match log with
  | [] => false
  | o :: older => is_dispatch e o || (negb (is_refutation e o) && standing e older)
  end.

(** Every dispatch of the effect is the first or follows a refutation. *)
Fixpoint spaced (e : string * string * string) (log : list Observation) : bool :=
  match log with
  | [] => true
  | o :: older => negb (is_dispatch e o && standing e older) && spaced e older
  end.

Lemma standing_after e newer o older :
  is_dispatch e o = true -> standing e (newer ++ o :: older) = false -> exists x, x ∈ newer /\ is_refutation e x = true.
Proof.
  intros Ho. induction newer as [| x newer IH]; cbn; [by rewrite Ho |].
  destruct (is_refutation e x) eqn:Hx; [by exists x; split; [left |] |]. cbn. intros [_ Hs]%orb_false_iff.
  destruct (IH Hs) as (y & Hy & ?). exists y. split; [by right | done].
Qed.

Lemma spaced_between e newer d' between d older :
  spaced e (newer ++ d' :: between ++ d :: older) = true -> is_dispatch e d = true -> is_dispatch e d' = true ->
  exists x, x ∈ between /\ is_refutation e x = true.
Proof.
  induction newer as [| x newer IH]; cbn; intros [Hs Hspaced]%andb_true_iff Hd Hd'; [| by apply IH].
  rewrite Hd' in Hs. cbn in Hs. apply negb_true_iff in Hs. exact (standing_after _ _ _ _ Hd Hs).
Qed.

Definition count (P : Observation -> bool) (log : list Observation) : nat := length (filter (fun o => P o = true) log).

Lemma count_cons P o log : count P (o :: log) = ((if P o then 1 else 0) + count P log)%nat.
Proof.
  unfold count. rewrite filter_cons. by destruct (P o); case_decide.
Qed.

Lemma dispatch_is_no_refutation e o : is_dispatch e o = true -> is_refutation e o = false.
Proof. by destruct o. Qed.

(** There is at most one dispatch more than there are refutations. *)
Lemma spaced_count e log :
  spaced e log = true ->
  (count (is_dispatch e) log <= count (is_refutation e) log + (if standing e log then 1 else 0))%nat.
Proof.
  induction log as [| o log IH]; cbn [standing spaced]; [done |]. rewrite !count_cons. intros [Hs Hlog]%andb_true_iff.
  specialize (IH Hlog). destruct (is_dispatch e o) eqn:Ho.
  - rewrite (dispatch_is_no_refutation _ _ Ho). cbn in *. destruct (standing e log); [done | lia].
  - destruct (is_refutation e o); cbn; destruct (standing e log); lia.
Qed.

Lemma standing_app e new log :
  Forall (fun o => is_dispatch e o = false) new -> standing e (new ++ log) = true -> standing e log = true.
Proof.
  induction 1 as [| o new Ho _ IH]; [done |]. cbn. rewrite Ho. cbn. intros ?. bools. auto.
Qed.

Lemma spaced_app e new log :
  Forall (fun o => is_dispatch e o = false) new -> spaced e (new ++ log) = spaced e log.
Proof. induction 1 as [| o new Ho _ IH]; [done |]. cbn. by rewrite Ho. Qed.

(** ** The invariant of sessions *)

Section Sessions.
Context `{Zod} (profile : StorageSecurityProfile) (workOrderProtector : option WorkOrderProtector)
  (limits : list QuotaLimit) (generateId : string -> string).

Notation calls := (call_answers profile workOrderProtector limits generateId).
Notation others := (interfered profile workOrderProtector limits generateId).
Notation unit_step := (uow_step (V := TransitionAnswer) profile workOrderProtector limits generateId).

(** What happens between dispatches: the ledger goes on, and no dispatch is logged. *)
Definition calm (w w' : World) : Prop :=
  steps ledger_step (w_ledger w) (w_ledger w')
  /\ exists new, w_log w' = new ++ w_log w /\ Forall (fun o => forall e, is_dispatch e o = false) new.

Lemma calm_trans w1 w2 w3 : calm w1 w2 -> calm w2 w3 -> calm w1 w3.
Proof.
  intros [Hs (new & Hl & Hn)] [Hs' (new' & Hl' & Hn')]. split; [by eapply steps_trans |].
  exists (new' ++ new). rewrite Hl', Hl, app_assoc. split; [done |]. by apply Forall_app_2.
Qed.

Lemma others_calm w w' : others w w' -> calm w w'.
Proof. intros [Hl Hs]. split; [by apply uow_steps_ledger in Hs | by exists []]. Qed.

Lemma quiet_calm {R} (call : RuntimeCall R) w o w' : quiet_call call = true -> calls call w o w' -> calm w w'.
Proof.
  assert (calm w w) as Hrefl by (split; [apply steps_refl | by exists []]).
  destruct call; cbn [call_answers quiet_call]; intros Hq; try done; try (by intros ->); try (by intros [-> _]).
  unfold transition_answer. destruct (transactTransition _ _ _ _ key callback (w_unit w)) as [answer u'] eqn:He.
  intros [Hl Hu]. split.
  - apply transition_ledger in He. unfold w_ledger. destruct Hu as [[_ ->] | [_ [-> | ->]]]; [done | apply steps_refl | done].
  - rewrite Hl. eexists. split; [done |]. destruct (recorded_before _ _); repeat constructor.
Qed.

Lemma lookup_calm c key w o w' : calls (rc_lookup c key) w o w' -> calm w w'.
Proof.
  cbn [call_answers]. intros ->. split; [apply steps_refl |]. eexists [_]. split; [done |]. repeat constructor.
Qed.

Definition on_record (e : string * string * string) (w : World) : Prop :=
  dispatch_recorded e.1.1 e.1.2 e.2 (w_ledger w).

Record effect_inv (e : string * string * string) (w : World) : Prop := {
  ei_ledger : ledger_wf (w_ledger w);
  ei_spaced : spaced e (w_log w) = true;
  ei_standing : standing e (w_log w) = true -> on_record e w;
  (** a dispatch was on record when it was made *)
  ei_ahead : forall c s, obs_dispatch c s ∈ w_log w ->
    dispatch_recorded (dc_tenantId c) (dc_runId c) (dc_effectKey c) s;
}.

Lemma on_record_calm e w w' : calm w w' -> on_record e w -> on_record e w'.
Proof. intros [Hs _]. by apply ledger_steps_recorded. Qed.

Lemma standing_calm e w w' : calm w w' -> standing e (w_log w') = true -> standing e (w_log w) = true.
Proof.
  intros (_ & new & -> & Hnew). apply standing_app. eapply list.Forall_impl; [exact Hnew |]. intros o Ho. apply Ho.
Qed.

Lemma effect_inv_calm e w w' : calm w w' -> effect_inv e w -> effect_inv e w'.
Proof.
  intros Hc [Hwf Hs Hst Ha]. split.
  - by eapply ledger_steps_wf; [apply Hc |].
  - destruct Hc as (_ & new & -> & Hnew). rewrite spaced_app; [done |]. eapply list.Forall_impl; [exact Hnew |]. intros o Ho.
    apply Ho.
  - intros Hst'. eapply on_record_calm; [done |]. eapply Hst, standing_calm; done.
  - intros c s. destruct Hc as (_ & new & -> & Hnew). intros [Hin | Hin]%elem_of_app; [| by apply Ha].
    eapply list.Forall_forall in Hnew; [| exact Hin]. specialize (Hnew (effect_of c)). cbn in Hnew. bools. done.
Qed.

(** An assertion that calm steps keep. *)
Definition lasting (P : World -> Prop) : Prop := forall w w', calm w w' -> P w -> P w'.

Section Effect.
Context (e : string * string * string).

Notation safely := (safe profile workOrderProtector limits generateId "EffectDispatched" (effect_inv e)).

(** Quiet programs keep what lasts. *)
Lemma sure_safely {A} (P : World -> Prop) (Q : outcome js_error A -> Prop) (p : rt A) w :
  lasting P -> (forall w', P w' -> effect_inv e w') -> sure (@quiet_call) Q p -> P w ->
  safely (fun o w' => Q o /\ P w') p w.
Proof.
  intros HP HI Hs Hw. eapply sure_safe; try done.
  - intros w1 w2 ? ?%others_calm. by eapply HP.
  - intros R call w1 o w2 Hq ? Ha _. eapply HP; [by eapply quiet_calm | done].
Qed.

Lemma sure_then {A B} (P : World -> Prop) (Q : outcome js_error A -> Prop) (R : outcome js_error B -> World -> Prop)
    (p : rt A) (k : A -> rt B) w :
  lasting P -> (forall w', P w' -> effect_inv e w') -> (forall x w', P w' -> R (Throw x) w') ->
  sure (@quiet_call) Q p -> P w -> (forall a w', Q (Return a) -> P w' -> safely R (k a) w') ->
  safely R (await x := p in k x) w.
Proof.
  intros HP HI HT Hs Hw Hk. apply safe_bind. eapply safe_weaken; [by apply (sure_safely P Q) |].
  intros [a | x] w' [HQ HPw]; [by apply Hk |]. intros w0 H0. apply HT. by eapply HP, HPw; apply others_calm.
Qed.

Lemma quiet_then {A B} (P : World -> Prop) (R : outcome js_error B -> World -> Prop) (p : rt A) (k : A -> rt B) w :
  lasting P -> (forall w', P w' -> effect_inv e w') -> (forall x w', P w' -> R (Throw x) w') ->
  quiet p -> P w -> (forall a w', P w' -> safely R (k a) w') -> safely R (await x := p in k x) w.
Proof. intros. eapply (sure_then P (fun _ => True)); eauto. Qed.

Lemma lift_then {A B} (P : World -> Prop) (R : outcome js_error B -> World -> Prop) (o : outcome js_error A)
    (k : A -> rt B) w :
  lasting P -> (forall w', P w' -> effect_inv e w') -> (forall x w', P w' -> R (Throw x) w') ->
  P w -> (forall a w', o = Return a -> P w' -> safely R (k a) w') -> safely R (await x := rt_lift o in k x) w.
Proof. intros. eapply (sure_then P (fun o' => o = o')); eauto. done. Qed.

(** The end of a program. *)
Lemma done_safely {A} (P : World -> Prop) (R : outcome js_error A -> World -> Prop) o w :
  lasting P -> (forall w', P w' -> R o w') -> P w -> safely R (rt_done o) w.
Proof. intros HP HR Hw w0 H0. apply HR. by eapply HP, Hw; apply others_calm. Qed.

(** ** The heartbeat and the accounting of executions around an operation *)

Section Wrapped.
Context {A : Type} (config : RuntimeConfig) (S : World -> Prop) (R : outcome js_error A -> World -> Prop) (p : rt A).
Hypothesis S_lasts : lasting S.
Hypothesis R_lasts : forall o, lasting (R o).
Hypothesis S_inv : forall w, S w -> effect_inv e w.
Hypothesis R_inv : forall o w, R o w -> effect_inv e w.
Hypothesis S_throw : forall x w, S w -> R (Throw x) w.
Hypothesis R_throw : forall o x w, R o w -> R (Throw x) w.

(** What follows the operation is quiet and answers its outcome, or throws. *)
Lemma followed o (q : rt A) w :
  sure (@quiet_call) (fun o' => o' = o \/ isReturn o' = false) q -> R o w -> safely R q w.
Proof.
  intros Hq Hw. eapply safe_weaken; [eapply (sure_safely (R o)); try done; by apply R_inv |].
  intros o' w' [[-> | Ho'] HR]; [done |]. destruct o'; [done |]. by eapply R_throw.
Qed.

Hypothesis p_safe : forall w, S w -> safely R p w.

Lemma heartbeat_safely w : S w -> safely R (withLeaseHeartbeat config p) w.
Proof.
  intros Hw. unfold withLeaseHeartbeat. apply safe_try. eapply safe_weaken; [by apply p_safe |].
  intros o w' HR. apply (followed o); [| done]. apply sure_bind, sure_call; [done |].
  intros [[x |] | x]; [by right | | by right]. destruct o as [a | x]; [| by left].
  apply sure_bind, sure_call; [done |]. intros [[] | y]; [by left | by right].
Qed.

Lemma settle_sure w r (o : outcome js_error A) :
  sure (@quiet_call) (fun o' => o' = o \/ isReturn o' = false) (settleActiveExecution config w r ;;; rt_lift o).
Proof.
  apply sure_bind. eapply sure_weaken; [apply settle_quiet, covers_quiet |]. intros [[] | x] _; [by left | by right].
Qed.

Lemma withActiveExecution_safely wo step boundary key again w :
  S w -> safely R (withActiveExecution config wo step boundary key again p) w.
Proof.
  intros Hw. unfold withActiveExecution. destruct (cfg_activeExecutionDomain config) as [domain |];
    [| by apply heartbeat_safely].
  destruct (negb _); [by eapply (done_safely S); auto |].
  eapply (quiet_then S); auto; [by split; [reflexivity | done] |]. intros lease w1 H1.
  eapply (quiet_then S); auto; [by split; [reflexivity | done] |]. intros [prior |] w2 H2.
  - unfold resume_execution. eapply (quiet_then S); auto; [destruct (bool_decide _); quiet |]. intros [] w3 H3.
    destruct (negb again); [by eapply (done_safely S); auto | by apply heartbeat_safely].
  - unfold start_execution_of. do 3 (eapply (quiet_then S); auto; [by split; [reflexivity | done] |]; intros ? ? ?).
    eapply (quiet_then S); auto; [exact I |]. intros r w6 H6.
    do 2 (eapply (quiet_then S); auto; [by split; [reflexivity | done] |]; intros ? ? ?).
    eapply (quiet_then S); auto; [unfold transitionActiveExecution; quiet |]. intros [v [[authoritative | c] |]] w9 H9;
      cbn [snd]; [| by eapply (done_safely S); auto..].
    apply safe_try. eapply safe_weaken; [by apply heartbeat_safely |]. intros o wx HR.
    apply (followed o); [apply settle_sure | done].
Qed.
End Wrapped.

(** ** Recording a dispatch *)

(** The key under which the ledger files an identity. *)
Definition filed_as (i : EffectIdentity) : string * string * string := (eff_tenantId i, eff_runId i, eff_effectKey i).

Definition inv_on_record (e' : string * string * string) (w : World) : Prop := effect_inv e w /\ on_record e' w.

Lemma effect_inv_lasting : lasting (effect_inv e).
Proof. intros w w' Hc. by apply effect_inv_calm. Qed.

Lemma on_record_lasting e' : lasting (on_record e').
Proof. intros w w' Hc. by apply on_record_calm. Qed.

Lemma lasting_and P Q : lasting P -> lasting Q -> lasting (fun w => P w /\ Q w).
Proof. intros HP HQ w w' Hc [? ?]. split; [by eapply HP | by eapply HQ]. Qed.

Lemma lasting_if (X : Prop) P : (X -> lasting P) -> lasting (fun w => X -> P w).
Proof. intros HP w w' Hc Hw HX. eapply HP; eauto. Qed.

Lemma not_standing_lasting : lasting (fun w => standing e (w_log w) = false).
Proof.
  intros w w' Hc Hw. destruct (standing e (w_log w')) eqn:Hs; [| done]. by rewrite (standing_calm e w w' Hc Hs) in Hw.
Qed.

Lemma transition_recorded wo runId key lease record snapshot event next w answer w' :
  ledger_wf (w_ledger w) -> eff_state record <> prepared ->
  calls (rc_transactTransition (transition_key_of wo runId "EffectDispatched" key lease)
           (append_transaction (put_effect record) (fun _ => None) snapshot event next)) w (Return answer) w' ->
  never_replayed "EffectDispatched" w' -> on_record (filed_as (eff_identity record)) w'.
Proof.
  intros Hwf Hst. cbn [call_answers]. unfold transition_answer.
  destruct (transactTransition _ _ _ _ _ _ (w_unit w)) as [o u'] eqn:He. intros [Hl [[Hans Hu] | [? _]]] Hn; [| done].
  destruct (recorded_before _ (w_unit w)) eqn:Hr.
  { exfalso. apply Hn. rewrite Hl. by left. }
  destruct o as [v | x]; [| done]. apply transactTransition_effect in He as
    [[_ ?] | [(d & ? & _ & Hd & Hlookup & _) | (d & t & ? & _ & _ & Hrun & -> & _)]]; [done | |].
  { unfold recorded_before in Hr. rewrite Hd, Hlookup in Hr. by rewrite bool_decide_eq_true_2 in Hr by eauto. }
  unfold on_record, w_ledger. rewrite Hu. by eapply put_first_recorded in Hrun.
Qed.

(** An appended event whose transaction puts a dispatched record leaves it on record. *)
Lemma append_recorded {B} (P : World -> Prop) (R : outcome js_error B -> World -> Prop) config wo p step effectId
    attempt record checkpoint (k : RunProjection -> rt B) w :
  lasting P -> (forall w', P w' -> effect_inv e w') -> (forall x w', P w' -> R (Throw x) w') ->
  eff_state record <> prepared -> P w ->
  (forall next w', P w' -> on_record (filed_as (eff_identity record)) w' -> safely R (k next) w') ->
  safely R (await next := rt_append config wo p (EffectDispatched step effectId attempt) (put_effect record) checkpoint
            in k next) w.
Proof.
  intros HP HI HT Hst Hw Hk. apply safe_bind.
  assert (forall x w', P w' -> safely R (rt_throw x) w') as HT' by (intros; by eapply (done_safely P); eauto).
  unfold rt_append, rt_append_as.
  do 3 (eapply (quiet_then P); auto; [by split; [reflexivity | done] |]; intros ? ? ?).
  do 2 (eapply (quiet_then P); auto; [exact I |]; intros ? ? ?).
  eapply (quiet_then P); auto; [destruct checkpoint; quiet |]. intros snapshot w6 H6.
  apply safe_bind, safe_call. intros w7 o w8 H7%others_calm Ha Hn.
  assert (calm w7 w8) as Hc by exact (quiet_calm (rc_transactTransition _ _) _ _ _ eq_refl Ha).
  assert (H8 := HP _ _ Hc (HP _ _ H7 H6)).
  split; [by apply HI |]. intros w9 H9%others_calm.
  assert (forall x, safely R (rt_throw x) w9) as HT9 by (intros; apply HT'; by eapply HP).
  destruct o as [[[next |] assigned] | x]; cbn [fst]; intros w10 H10; try by eapply safe_interfered; [apply HT9 |].
  apply others_calm in H10. assert (H9' := calm_trans _ _ _ H9 H10).
  apply Hk; [by eapply HP |]. apply (on_record_calm _ w8); [done |].
  eapply transition_recorded; [| | exact Ha | exact Hn]; [by apply HI; eapply HP | done].
Qed.

(** ** Dispatching *)

(** The dispatch of this context is on record, and no dispatch of it stands. *)
Definition dispatchable (c : RuntimeEffectDispatchContext) (w : World) : Prop :=
  effect_inv e w /\ on_record (effect_of c) w /\ (effect_of c = e -> standing e (w_log w) = false).

Lemma dispatchable_lasting c : lasting (dispatchable c).
Proof.
  apply (lasting_and (effect_inv e)), (lasting_and (on_record (effect_of c)));
    [apply effect_inv_lasting | apply on_record_lasting |]. apply lasting_if. intros _. apply not_standing_lasting.
Qed.

Notation kept := (fun _ w => effect_inv e w).

Lemma quiet_kept {A} (p : rt A) w : quiet p -> effect_inv e w -> safely kept p w.
Proof.
  intros Hp Hw. eapply safe_weaken; [apply (sure_safely (effect_inv e) (fun _ => True)); try done;
    apply effect_inv_lasting |]. by intros o w' [_ HI].
Qed.

(** The call of a dispatch. *)
Lemma dispatch_call_safely c value key w :
  dispatchable c w -> safely kept (rt_call (rc_dispatch c value key)) w.
Proof.
  intros Hd. apply safe_call. intros w0 o w1 H0%others_calm Ha _. apply (dispatchable_lasting c _ _ H0) in Hd.
  cbn [call_answers] in Ha. subst w1. destruct Hd as ([Hwf Hs Hst Ha] & Hrec & Hfree).
  assert (effect_inv e (observe (obs_dispatch c (w_ledger w0)) w0)) as HI.
  { split; [done | | |]; cbn [observe w_log spaced standing is_dispatch is_refutation].
    - case_bool_decide as Hc; cbn; [by rewrite Hfree | done].
    - case_bool_decide as Hc; cbn; [by subst e | done].
    - intros c' s [[= -> ->] | Hin]%elem_of_cons; [done | by apply Ha]. }
  split; [done |]. intros w2 H2%others_calm. by eapply effect_inv_calm.
Qed.

Lemma dispatch_effect_safely config i plan p record attempt w :
  dispatchable (wp_context plan) w -> safely kept (dispatch_effect config i plan p record attempt) w.
Proof.
  intros Hd. unfold dispatch_effect. apply safe_try. eapply safe_weaken.
  - apply (safe_bind _ _ _ _ _ _ _ _ kept). eapply safe_weaken;
      [eapply (withActiveExecution_safely config (dispatchable (wp_context plan)) kept); [.. | exact Hd] |].
    + apply dispatchable_lasting.
    + intros _. apply effect_inv_lasting.
    + by intros ? [? _].
    + done.
    + by intros ? ? [? _].
    + done.
    + intros. by apply dispatch_call_safely.
    + intros [x | x] w' HI; by apply quiet_kept.
  - intros o w' HI. apply quiet_kept; [| done]. unfold acknowledge_write_effect, park_write_effect. quiet.
Qed.

(** What is needed of the record a continuation starts from. *)
Definition continuable (plan : WriteEffectPlan) (record : EffectRecord) (w : World) : Prop :=
  effect_inv e w
  /\ (eff_state record = prepared -> effect_of (wp_context plan) = e -> standing e (w_log w) = false)
  /\ (eff_state record <> prepared -> on_record (effect_of (wp_context plan)) w).

Lemma continuable_lasting plan record : lasting (continuable plan record).
Proof.
  apply (lasting_and (effect_inv e)); [apply effect_inv_lasting |]. apply lasting_and.
  - apply lasting_if. intros _. apply lasting_if. intros _. apply not_standing_lasting.
  - apply lasting_if. intros _. apply on_record_lasting.
Qed.

Lemma dispatch_prepared_safely config i plan p record w :
  filed_as (eff_identity record) = effect_of (wp_context plan) -> eff_state record = prepared ->
  continuable plan record w -> safely kept (dispatch_prepared config i plan p record) w.
Proof.
  intros Hfiled Hst Hw. unfold dispatch_prepared. set (P := continuable plan record).
  assert (forall w', P w' -> effect_inv e w') as HI by by intros w' [? _].
  assert (lasting P) as HP by apply continuable_lasting.
  eapply (quiet_then P); auto; [by split; [reflexivity | done] |]. intros dispatchedAt w1 H1.
  eapply (lift_then P); auto. intros r w2 [_ ->]%parse_Return H2.
  eapply (append_recorded P); auto. cbn [effectRecordBase eff_identity]. intros next w3 (HI3 & Hfree & _) Hrec.
  apply dispatch_effect_safely. rewrite Hfiled in Hrec. split_and!; auto.
Qed.

Lemma dispatch_again_safely config i plan p record w :
  dispatchable (wp_context plan) w -> safely kept (dispatch_again config i plan p record) w.
Proof.
  intros Hw. unfold dispatch_again. set (P := dispatchable (wp_context plan)).
  assert (forall w', P w' -> effect_inv e w') as HI by by intros w' [? _].
  do 2 (eapply (quiet_then P); auto; [apply dispatchable_lasting | quiet |]; intros ? ? ?).
  by apply dispatch_effect_safely.
Qed.

(** What is known after a lookup. *)
Definition looked_up (c : RuntimeEffectDispatchContext) (o : outcome js_error RuntimeEffectLookupResult) (w : World)
  : Prop :=
  inv_on_record (effect_of c) w
  /\ (o = Return lookup_not_applied -> effect_of c = e -> standing e (w_log w) = false).

Lemma inv_on_record_lasting e' : lasting (inv_on_record e').
Proof. apply lasting_and; [apply effect_inv_lasting | apply on_record_lasting]. Qed.

Lemma looked_up_lasting c o : lasting (looked_up c o).
Proof.
  apply lasting_and; [apply inv_on_record_lasting |]. apply lasting_if. intros _. apply lasting_if. intros _.
  apply not_standing_lasting.
Qed.

Lemma lookup_call_safely c key w :
  inv_on_record (effect_of c) w -> safely (looked_up c) (rt_call (rc_lookup c key)) w.
Proof.
  intros Hw. apply safe_call. intros w0 o w1 H0%others_calm Ha _.
  assert (inv_on_record (effect_of c) w1) as H1.
  { apply (inv_on_record_lasting _ w0); [by eapply lookup_calm |].
    by eapply inv_on_record_lasting. }
  split; [apply H1 |]. intros w2 H2%others_calm. eapply looked_up_lasting; [exact H2 |]. split; [done |].
  intros -> He. cbn [call_answers] in Ha. subst w1. cbn. by rewrite bool_decide_eq_true_2.
Qed.

Lemma validated_lookup l l' : validateEffectLookupResult l = Return l' -> l' = l.
Proof. unfold validateEffectLookupResult, binding_mismatch. destruct (RuntimeEffectLookupResultSchema l); by intros [=]. Qed.

Lemma resolve_dispatched_safely config i plan p record w :
  inv_on_record (effect_of (wp_context plan)) w -> safely kept (resolve_dispatched config i plan p record) w.
Proof.
  intros Hw. assert (effect_inv e w) as HI by apply Hw. unfold resolve_dispatched. set (c := wp_context plan) in *.
  destruct (st_kind (wp_strategy plan)); [by apply quiet_kept; [unfold park_write_effect; quiet |] | |
    by apply quiet_kept; [unfold park_write_effect; quiet |]].
  destruct (wp_operationKey plan) as [key |]; [| by apply quiet_kept; [quiet |]].
  apply safe_bind. eapply safe_weaken;
    [eapply (withActiveExecution_safely config (inv_on_record (effect_of c)) (looked_up c)); [.. | exact Hw] |].
  - apply inv_on_record_lasting.
  - apply looked_up_lasting.
  - by intros ? [? _].
  - by intros ? ? [[? _] _].
  - intros x w' HS. by split.
  - intros o x w' [HS _]. by split.
  - intros. by apply lookup_call_safely.
  - intros [answer | x] w' HR; [| by apply quiet_kept; [| apply HR]].
    eapply (lift_then (looked_up c (Return answer))).
    + apply looked_up_lasting.
    + by intros ? [[? _] _].
    + by intros ? ? [[? _] _].
    + done.
    + intros l w1 ->%validated_lookup [[HI1 Hrec] Hfree]. destruct answer as [execution | |].
      * apply quiet_kept; [unfold acknowledge_write_effect; quiet | done].
      * apply dispatch_again_safely. split_and!; auto.
      * apply quiet_kept; [unfold park_write_effect; quiet | done].
Qed.

Lemma continue_effect_safely config i plan p record w :
  filed_as (eff_identity record) = effect_of (wp_context plan) -> continuable plan record w ->
  safely kept (continue_effect config i plan p record) w.
Proof.
  intros Hfiled Hw. unfold continue_effect. assert (effect_inv e w) as HI by apply Hw.
  destruct (eff_variant record) as [| at_ | | | | |] eqn:Hv;
    try by apply quiet_kept; [unfold park_write_effect; quiet |].
  - apply dispatch_prepared_safely; [done | | done]. unfold eff_state. by rewrite Hv.
  - apply resolve_dispatched_safely. split; [done |]. apply Hw. unfold eff_state. by rewrite Hv.
Qed.

(** ** Planning *)

Definition sought_effect (i : WriteEffectInput) (effectKey : string) : string * string * string :=
  (wo_tenantId (wi_workOrder i), run_runId (p_run (wi_projection i)), effectKey).

(** What a read of the ledger found, as far as the dispatch goes. *)
Definition found_effect (e' : string * string * string) (found : option EffectRecord) (w : World) : Prop :=
  effect_inv e w
  /\ (e' = e -> (forall r, found = Some r -> eff_state r = prepared) -> standing e (w_log w) = false)
  /\ (forall r, found = Some r -> eff_state r <> prepared -> on_record e' w).

Lemma found_effect_lasting e' found : lasting (found_effect e' found).
Proof.
  apply (lasting_and (effect_inv e)); [apply effect_inv_lasting |]. apply lasting_and.
  - apply lasting_if. intros _. apply lasting_if. intros _. apply not_standing_lasting.
  - intros w w' Hc Hw r Hr Hst. eapply on_record_lasting; eauto.
Qed.

Lemma read_effect_safely i effectKey (R : outcome js_error (option EffectRecord) -> World -> Prop) w :
  effect_inv e w -> (forall x w', effect_inv e w' -> R (Throw x) w') ->
  (forall found w', found_effect (sought_effect i effectKey) found w' -> R (Return found) w') ->
  safely R (rt_call (rc_getByEffectKey (wo_tenantId (wi_workOrder i)) (run_runId (p_run (wi_projection i))) effectKey)) w.
Proof.
  intros Hw HT HR. apply safe_call. intros w0 o w1 H0%others_calm [-> Ho] _.
  assert (effect_inv e w0) as HI by by eapply effect_inv_lasting.
  split; [done |]. intros w2 H2%others_calm. destruct Ho as [-> | Ho];
    [| destruct o; [done |]; apply HT; by eapply effect_inv_lasting].
  apply HR. eapply found_effect_lasting; [exact H2 |]. split; [done |]. split.
  - intros Heq Hprep. destruct (standing e (w_log w0)) eqn:Hst; [| done].
    destruct (ei_standing _ _ HI Hst) as (r & Hr & Hne). rewrite <- Heq in Hr. cbn in Hr. by destruct (Hne (Hprep r Hr)).
  - intros r Hr Hne. by exists r.
Qed.

(** The members of a plan agree. *)
Record plan_agrees (i : WriteEffectInput) (plan : WriteEffectPlan) : Prop := {
  pa_context : effect_of (wp_context plan) = sought_effect i (wp_effectKey plan);
  pa_record : forall r, wp_record plan = Some r -> filed_as (eff_identity r) = effect_of (wp_context plan);
}.

Lemma sure_seq {A B} allowed (Q1 : outcome js_error A -> Prop) (Q : outcome js_error B -> Prop) (p : rt A) (k : A -> rt B) :
  sure allowed Q1 p -> (forall a, Q1 (Return a) -> sure allowed Q (k a)) -> (forall x, Q (Throw x)) ->
  sure allowed Q (await x := p in k x).
Proof. intros Hp Hk HT. apply sure_bind. eapply sure_weaken; [exact Hp |]. intros [a | x] HQ; auto. Qed.

Lemma only_seq {A B} allowed (Q : outcome js_error B -> Prop) (p : rt A) (k : A -> rt B) :
  only allowed p -> (forall a, sure allowed Q (k a)) -> (forall x, Q (Throw x)) -> sure allowed Q (await x := p in k x).
Proof. intros. by eapply (sure_seq _ (fun _ => True)). Qed.

Lemma quiet_seq {A B} (Q : outcome js_error B -> Prop) (p : rt A) (k : A -> rt B) :
  quiet p -> (forall a, sure (@quiet_call) Q (k a)) -> (forall x, Q (Throw x)) ->
  sure (@quiet_call) Q (await x := p in k x).
Proof. intros. by eapply (sure_seq _ (fun _ => True)). Qed.

Lemma bound_record i strategy effectKey argumentsDigest r r' :
  assertEffectRecordBinding r (expected_ledger_binding i strategy effectKey argumentsDigest) = Return r' ->
  r' = r /\ filed_as (eff_identity r) = sought_effect i effectKey.
Proof.
  unfold assertEffectRecordBinding, binding_mismatch, parse. destruct (EffectRecordSchema r); [| done].
  cbn [mbind outcome_bind]. case_bool_decide as Hb; [| done]. intros [= <-]. split; [done |].
  unfold ledger_binding, expected_ledger_binding in Hb. injection Hb as Ht Hr Hk _ _ _ _ _.
  unfold filed_as, sought_effect. congruence.
Qed.

Lemma plan_safely config i w :
  effect_inv e w ->
  safely (fun o w' => match o with
                      | Return plan => plan_agrees i plan /\ found_effect (effect_of (wp_context plan)) (wp_record plan) w'
                      | Throw _ => effect_inv e w'
                      end) (plan_write_effect config i) w.
Proof.
  intros Hw. unfold plan_write_effect. assert (lasting (effect_inv e)) as Hl by apply effect_inv_lasting.
  do 3 (eapply (lift_then (effect_inv e)); auto; intros ? ? _ ?).
  rename a into strategy, a0 into argumentsDigest, a1 into effectKey.
  apply safe_bind. apply read_effect_safely; [done | by intros; eapply (done_safely (effect_inv e)) |].
  intros found w4 Hf. eapply safe_weaken.
  - eapply (sure_safely (found_effect (sought_effect i effectKey) found) (fun o => forall plan, o = Return plan ->
      plan_agrees i plan /\ wp_record plan = found /\ effect_of (wp_context plan) = sought_effect i effectKey));
      [apply found_effect_lasting | by intros ? [? _] | | exact Hf].
    apply (sure_seq _ (fun o => forall record, o = Return record ->
      record = found /\ forall r, found = Some r -> filed_as (eff_identity r) = sought_effect i effectKey)).
    { destruct found as [r |]; [| by intros ? [= <-]]. apply sure_bind. cbn [sure rt_lift].
      destruct (assertEffectRecordBinding _ _) as [r' |] eqn:Hb; [| done].
      apply bound_record in Hb as [-> Hb]. intros record [= <-]. by split; [| intros ? [= <-]]. }
    2: done. intros record Hrec. destruct (Hrec record eq_refl) as [-> Hfiled].
    apply quiet_seq; [destruct found; quiet | | done]. intros effectId.
    apply quiet_seq; [unfold preview_effect; quiet | | done]. intros effectPreview.
    do 3 (apply quiet_seq; [quiet | | done]; intros ?). intros plan [= <-].
    split; [| done]. split; [done |]. intros r Hr. by rewrite (Hfiled r Hr).
  - intros [plan | x] w5 [HQ HP]; [| apply HP]. destruct (HQ plan eq_refl) as (Hagrees & -> & ->). done.
Qed.

(** The record a preparation leaves is of the plan's effect. *)
Lemma prepared_record config i plan :
  plan_agrees i plan ->
  sure (@quiet_call) (fun o => forall next record, o = Return (next, record) ->
    filed_as (eff_identity record) = effect_of (wp_context plan) /\ eff_state record = prepared)
    (prepare_effect config i plan).
Proof.
  intros [Hc _]. unfold prepare_effect. do 6 (apply quiet_seq; [quiet | | done]; intros ?).
  apply quiet_seq; [quiet | | done]. intros d.
  apply (sure_seq _ (fun o => forall r, o = Return r -> filed_as (eff_identity r) = effect_of (wp_context plan)
                               /\ eff_state r = prepared)); [| | done].
  { cbn [sure rt_lift]. intros r [_ ->]%parse_Return. by rewrite Hc. }
  intros r Hr. apply quiet_seq; [quiet | | done]. intros next next' r' [= <- <-]. by apply Hr.
Qed.

(** ** Sessions keep the invariant *)

Lemma executeWriteEffect_safely config i w : effect_inv e w -> safely kept (executeWriteEffect config i) w.
Proof.
  intros Hw. unfold executeWriteEffect. apply safe_bind. eapply safe_weaken; [by apply plan_safely |].
  intros [plan | x] w1 Hp; [| by apply quiet_kept]. destruct Hp as [Hagrees (HI & Hfree & Hrec)].
  destruct (wp_record plan) as [record |] eqn:Hr.
  - apply continue_effect_safely; [by apply Hagrees |]. split_and!; [done | | by apply Hrec].
    intros Hst He. apply Hfree; [done |]. by intros r [= <-].
  - apply (sure_then (found_effect (effect_of (wp_context plan)) None) (fun o => forall next record,
      o = Return (next, record) -> filed_as (eff_identity record) = effect_of (wp_context plan)
        /\ eff_state record = prepared)).
    + apply found_effect_lasting.
    + by intros ? [? _].
    + by intros ? ? [? _].
    + by apply prepared_record.
    + done.
    + intros [next record] w2 Hrecord (HI2 & Hfree2 & _). destruct (Hrecord next record eq_refl) as [Hfiled Hst].
      apply continue_effect_safely; [done |]. split_and!; [done | | by intros ?].
      intros _ He. by apply Hfree2.
Qed.
End Effect.
End Sessions.
