(* ===== verification/ExecutionParts.v ===== *)
(** * The parts of an execution

    Which programs of an execution never dispatch nor look up an effect, and that
    a whole execution is composed of such programs and of write effects. *)

From S2P Require Import Prelude JsTime Errors Schema JsonValue Unicode JsonText Contracts WorkOrder.
From S2P Require Import Authorization Authority Policy Effects Run Events StoreInternal EventStore Digest.
From S2P Require Import JsMap JsArithmetic EffectLedger Commands Admission ModelCalls Quota ActiveExecution.
From S2P Require Import Decisions AuthorityStores WorkOrderStore RecordStores AcknowledgedResults UnitOfWork.
From S2P Require Import EffectServices Checkpoints ModelRecords EvidenceRecords HostPorts RuntimeProgram.
From S2P Require Import WriteEffect RunChecks RunResume ModelInvocation RunCompletion ExecuteRun Execution.
From S2P Require Import RuntimeSessions WriteEffectFacts.

Local Open Scope Z_scope.
Local Open Scope rt_scope.

(** ** Programs that neither dispatch nor look up *)

(** Walks into the operation of a combinator. *)
Ltac quiet_around :=
  first [apply heartbeat_quiet | apply withActiveExecution_quiet]; [solve [eauto with quiet_programs] |].

Section Quiet.
Context `{Zod} (config : RuntimeConfig) (allowed : forall R, RuntimeCall R -> bool).
Hypothesis allowed_quiet : covers allowed.

Lemma rt_append_as_quiet {C A} w p payload id (commit : tx_program C) assigned c
    (result : RunProjection -> option CallbackAssignment -> A) :
  only allowed (rt_append_as config w p payload id commit assigned c result).
Proof. unfold rt_append_as. quiet. Qed.
#[local] Hint Resolve rt_append_as_quiet recover_quiet approved_quiet claim_quiet : quiet_programs.

Lemma only_progress {A B} (p : rt (Progress A)) (k : A -> rt (Progress B)) :
  only allowed p -> (forall a, only allowed (k a)) -> only allowed (progress p k).
Proof. intros Hp Hk. unfold progress. apply only_bind; [done |]. intros [r | s | a]; [exact I | exact I | apply Hk]. Qed.

Lemma verifyAuthority_quiet a r : only allowed (verifyAuthority a r).
Proof. unfold verifyAuthority. quiet. Qed.
#[local] Hint Resolve verifyAuthority_quiet : quiet_programs.

Lemma getRun_quiet a r : only allowed (getRun a r).
Proof. unfold getRun. quiet. Qed.

Lemma assertBoundary_quiet w d u : only allowed (assertBoundary w d u).
Proof. unfold assertBoundary, assertDeadline. quiet. Qed.

Lemma resolve_quiet w r i : only allowed (try_resolve w r i).
Proof. unfold try_resolve, resolveHostToolCall. quiet. Qed.

Lemma evaluate_quiet w r c n k : only allowed (evaluateHostToolCall w r c n k).
Proof. unfold evaluateHostToolCall. quiet. Qed.

Lemma capture_quiet {A} (p : rt A) : only allowed p -> only allowed (captureBoundaryInvocation p).
Proof. intros. unfold captureBoundaryInvocation. quiet. Qed.

Lemma safeBoundary_quiet p : only allowed p -> only allowed (safeBoundaryClassification p).
Proof. intros. unfold safeBoundaryClassification. quiet. Qed.

Ltac parts := repeat first [quiet_step | quiet_around | apply capture_quiet | apply safeBoundary_quiet | apply only_progress].
#[local] Hint Resolve getRun_quiet assertBoundary_quiet resolve_quiet evaluate_quiet capture_quiet safeBoundary_quiet
  : quiet_programs.

Lemma scheduleRetry_quiet w p step b key n c checkpoint :
  only allowed (scheduleRetry config w p step b key n c checkpoint).
Proof. unfold scheduleRetry, retry_delay. parts. Qed.

Lemma classify_quiet b e r : only allowed (classifyBoundaryError config b e r).
Proof.
  unfold classifyBoundaryError, safeBoundaryClassification.
  destruct e; parts.
Qed.

Lemma loadSubmittedInput_quiet w p c h : only allowed (loadSubmittedInput config w p c h).
Proof. unfold loadSubmittedInput. parts. Qed.

Lemma loadContextCheckpoint_quiet w p : only allowed (loadContextCheckpoint config w p).
Proof. unfold loadContextCheckpoint, assertContextCheckpointSuffix. parts. Qed.
#[local] Hint Resolve scheduleRetry_quiet classify_quiet loadSubmittedInput_quiet loadContextCheckpoint_quiet
  : quiet_programs.

Lemma anyKilled_quiet targets : only allowed (anyKilled config targets).
Proof. induction targets as [| [kind digest] targets IH]; cbn [anyKilled]; unfold askKilled; quiet. Qed.

Lemma transitionModel_quiet w key t : only allowed (transitionModelReservation config w key t).
Proof. unfold transitionModelReservation. parts. Qed.

Lemma markCallUncertain_quiet w services r : only allowed (markCallUncertain config w services r).
Proof. apply transitionModel_quiet. Qed.
#[local] Hint Resolve anyKilled_quiet transitionModel_quiet markCallUncertain_quiet : quiet_programs.

Lemma production_quiet services i : only allowed (invokeProductionModelCall config services i).
Proof.
  unfold invokeProductionModelCall, plan_model_call, start_production_call, issue_credential, dispatch_model_call,
    fail_production_call, complete_production_call, invoke_adapter, resolve_credential. parts.
Qed.
#[local] Hint Resolve production_quiet : quiet_programs.

Lemma invokeModelCall_quiet i : only allowed (invokeModelCall config i).
Proof. unfold invokeModelCall, invokeLocalModelCall, start_local_call. parts. Qed.
#[local] Hint Resolve invokeModelCall_quiet : quiet_programs.

Lemma fail_run_quiet w p step code d : only allowed (fail_run config w p step code d).
Proof. unfold fail_run. parts. Qed.

Lemma terminalize_quiet w e : only allowed (terminalizeExecutionFailure config w e).
Proof. unfold terminalizeExecutionFailure. parts. Qed.
#[local] Hint Resolve fail_run_quiet terminalize_quiet : quiet_programs.

Lemma run_verifiers_quiet w p step output artifact results required :
  only allowed (run_verifiers config w p step output artifact results required).
Proof.
  revert p results. induction required as [| v required IH]; intros p results; cbn [run_verifiers]; [exact I |].
  unfold run_verifier. parts.
Qed.
#[local] Hint Resolve run_verifiers_quiet : quiet_programs.

Lemma finalize_quiet w p step output c : only allowed (finalize config w p step output c).
Proof. unfold finalize, produce_artifact, start_verification, complete_run. parts. Qed.
End Quiet.
#[export] Hint Resolve rt_append_as_quiet recover_quiet approved_quiet claim_quiet only_progress verifyAuthority_quiet
  getRun_quiet assertBoundary_quiet resolve_quiet evaluate_quiet capture_quiet safeBoundary_quiet scheduleRetry_quiet
  classify_quiet loadSubmittedInput_quiet loadContextCheckpoint_quiet anyKilled_quiet transitionModel_quiet
  markCallUncertain_quiet invokeModelCall_quiet fail_run_quiet terminalize_quiet finalize_quiet : quiet_programs.

Ltac parts :=
  repeat first [quiet_step | quiet_around | apply capture_quiet | apply safeBoundary_quiet | apply only_progress].

(** ** Compositions of quiet programs and write effects *)

Inductive composed (config : RuntimeConfig) (writes : WriteEffectInput -> Prop) `{Zod} : forall {A}, rt A -> Prop :=
| composed_quiet {A} (p : rt A) : quiet p -> composed config writes p
| composed_write i : writes i -> composed config writes (executeWriteEffect config i)
| composed_try {A B} (p : rt A) (k : outcome js_error A -> rt B) :
    composed config writes p -> (forall o, composed config writes (k o)) -> composed config writes (rt_try p k).

Section Composed.
Context `{Zod} (config : RuntimeConfig) (writes : WriteEffectInput -> Prop).
Notation composed := (composed config writes).

Lemma composed_bind {A B} (p : rt A) (k : A -> rt B) :
  composed p -> (forall a, composed (k a)) -> composed (rt_bind p k).
Proof. intros Hp Hk. apply composed_try; [done |]. intros [a | e]; [apply Hk | by apply composed_quiet]. Qed.

Lemma composed_progress {A B} (p : rt (Progress A)) (k : A -> rt (Progress B)) :
  composed p -> (forall a, composed (k a)) -> composed (progress p k).
Proof. intros Hp Hk. apply composed_bind; [done |]. intros [r | s | a]; [by apply composed_quiet.. | apply Hk]. Qed.
End Composed.

(** Splits a program into its parts. *)
Ltac split_parts :=
  repeat lazymatch goal with
  | |- forall _, _ => intros
  | |- composed _ _ (rt_bind _ _) => apply composed_bind
  | |- composed _ _ (progress _ _) => apply composed_progress
  | |- composed _ _ (rt_try _ _) => apply composed_try
  | |- composed _ _ (let _ := _ in _) => cbv zeta
  | |- composed _ _ (match ?x with _ => _ end) => destruct x
  | |- composed _ _ (executeWriteEffect _ _) => apply composed_write; solve [auto]
  | |- composed _ _ _ => apply composed_quiet; solve [eauto with quiet_programs | parts]
  end.

(** *** The turns of a run *)

Section Turns.
Context `{Zod} (config : RuntimeConfig) (x : ExecutionContext) (allowed : forall R, RuntimeCall R -> bool).
Hypothesis allowed_quiet : covers allowed.

Lemma check_boundary_quiet d s : only allowed (check_boundary x d s).
Proof. unfold check_boundary. parts. Qed.

Lemma fail_step_quiet {A} s step code d : only allowed (fail_step config x (A := A) s step code d).
Proof. unfold fail_step. parts. Qed.

Lemma suspend_step_quiet {A} s step target reason : only allowed (suspend_step config x (A := A) s step target reason).
Proof. unfold suspend_step. parts. Qed.

Lemma resume_input_quiet s : only allowed (resume_input config x s).
Proof. unfold resume_input. parts. Qed.
#[local] Hint Resolve check_boundary_quiet fail_step_quiet suspend_step_quiet resume_input_quiet : quiet_programs.

Lemma resume_backoff_quiet s : only allowed (resume_backoff config x s).
Proof. unfold resume_backoff, wait_until. parts. Qed.

Lemma resume_final_quiet s : only allowed (resume_final config x s).
Proof. unfold resume_final. parts. Qed.
#[local] Hint Resolve resume_backoff_quiet resume_final_quiet : quiet_programs.

Lemma schedule_model_retry_quiet s step n c : only allowed (schedule_model_retry config x s step n c).
Proof. unfold schedule_model_retry. parts. Qed.
#[local] Hint Resolve schedule_model_retry_quiet : quiet_programs.

Lemma next_emission_quiet s : only allowed (next_emission config x s).
Proof.
  unfold next_emission, call_model, plan_step, resume_inflight_call, check_uncertain_call, failed_model_call,
    complete_model_call. parts.
Qed.

Lemma resolve_call_quiet s step d i n : only allowed (resolve_call config x s step d i n).
Proof. unfold resolve_call. parts. Qed.

Lemma request_tool_call_quiet s c : only allowed (request_tool_call config x s c).
Proof. unfold request_tool_call, start_tool_call. parts. Qed.

Lemma obtain_approval_quiet s c a t : only allowed (obtain_approval config x s c a t).
Proof. unfold obtain_approval, request_approval, open_gate. parts. Qed.

Lemma read_tool_quiet s c t a :
  allowed _ (rc_executeTool (pc_registration c) (rt_validatedInput (pc_resolved c))) = true ->
  only allowed (read_tool config x s c t a).
Proof. intros Hexec. unfold read_tool, failed_read. parts; by split. Qed.

Lemma complete_tool_call_quiet {A} s c r : only allowed (complete_tool_call config x (A := A) s c r).
Proof. unfold complete_tool_call. parts. Qed.

Lemma request_input_quiet s step d p n : only allowed (request_input config x s step d p n).
Proof. unfold request_input. parts. Qed.

Lemma end_run_quiet s step v n : only allowed (end_run config x s step v n).
Proof. unfold end_run. parts. Qed.
End Turns.
#[export] Hint Resolve check_boundary_quiet fail_step_quiet suspend_step_quiet resume_input_quiet resume_backoff_quiet
  resume_final_quiet next_emission_quiet resolve_call_quiet request_tool_call_quiet obtain_approval_quiet
  read_tool_quiet complete_tool_call_quiet request_input_quiet end_run_quiet : quiet_programs.

Section Executions.
Context `{Zod} (config : RuntimeConfig) (writes : WriteEffectInput -> Prop).
Hypothesis all_writes : forall i, writes i.
Notation composed := (composed config writes).

Lemma turn_composed x s : composed (turn config x s).
Proof.
  unfold turn, run_tool_call, perform_tool_call, write_tool. split_parts.
Qed.

Lemma turns_composed x fuel s : composed (turns config x fuel s).
Proof.
  revert s. induction fuel as [| fuel IH]; intros s; cbn [turns]; [by apply composed_quiet |].
  apply composed_bind; [apply turn_composed |]. intros [r | next | []]; [by apply composed_quiet | apply IH].
Qed.

Lemma execution_frame_composed w actorId runId p : composed p -> composed (execution_frame config w actorId runId p).
Proof. intros Hp. unfold execution_frame, execution_failure. split_parts. done. Qed.

Lemma executeCompensation_composed actorId tenantId w p d run effect :
  composed (executeCompensation config actorId tenantId w p d run effect).
Proof.
  unfold executeCompensation, compensation_registration_killed, acquire_lease.
  split_parts. apply execution_frame_composed.
  unfold run_compensation, start_compensation, compensate. split_parts.
Qed.

(** An execution is made of quiet programs and write effects. *)
Lemma execute_composed authority runId : composed (execute config authority runId).
Proof.
  unfold execute, loadAcceptedWorkOrder, acquire_lease. split_parts; [| apply executeCompensation_composed].
  apply execution_frame_composed. unfold run_agent, suspend_without_checkpoint. split_parts. apply turns_composed.
Qed.
End Executions.
