(* ===== verification/ExecutionTermination.v ===== *)
(** * The loop of turns ends

    Whatever the ports answer, the loop of an execution makes a bounded number of
    iterations: a new turn uses one of the budget's, a retry one of a hundred
    attempts of the model or of the tool. *)

From S2P Require Import Prelude JsTime Errors Schema JsonValue Unicode JsonText Contracts WorkOrder Authorization.
From S2P Require Import Effects Run Events StoreInternal Digest JsArithmetic EffectLedger Admission ModelCalls Decisions.
From S2P Require Import WorkOrderStore RecordStores AcknowledgedResults UnitOfWork ActiveExecution EffectServices.
From S2P Require Import Checkpoints HostPorts RuntimeProgram WriteEffect RunChecks RunResume ModelInvocation.
From S2P Require Import RunCompletion ExecuteRun Execution RuntimeSessions WriteEffectFacts.

Local Open Scope Z_scope.
Local Open Scope rt_scope.

(** Whatever the ports answer, [p] ends with an outcome that satisfies [Q]. *)
Notation ensures Q p := (sure (fun _ _ => true) Q p).

(** What a program returns, if it returns. *)
Notation returns Q p := (ensures (fun o => forall a, o = Return a -> Q a) p).

Lemma ensures_true {A} (p : rt A) : ensures (fun _ => True) p.
Proof. induction p as [o | R call k IH]; cbn; auto. Qed.

Lemma returns_any {A} (Q : A -> Prop) (p : rt A) : (forall a, Q a) -> returns Q p.
Proof. intros HQ. eapply sure_weaken; [apply ensures_true |]. auto. Qed.

Lemma ensured_bind {A B} (Q : A -> Prop) (R : B -> Prop) (p : rt A) (k : A -> rt B) :
  returns Q p -> (forall a, Q a -> returns R (k a)) -> returns R (await x := p in k x).
Proof. intros Hp Hk. apply sure_bind. eapply sure_weaken; [exact Hp |]. intros [a | e] HQ; [by apply Hk, HQ | done]. Qed.

(** Nothing is known of the answer. *)
Lemma returns_then {A B} (R : B -> Prop) (p : rt A) (k : A -> rt B) :
  (forall a, returns R (k a)) -> returns R (await x := p in k x).
Proof. intros Hk. eapply (ensured_bind (fun _ => True)); [by apply returns_any | auto]. Qed.

Lemma returns_try {A B} (R : B -> Prop) (p : rt A) (k : outcome js_error A -> rt B) :
  (forall o, returns R (k o)) -> returns R (rt_try p k).
Proof. intros Hk. apply sure_try. eapply sure_weaken; [apply ensures_true |]. auto. Qed.

Lemma returns_value {A} (Q : A -> Prop) (a : A) : Q a -> returns Q (rt_return a).
Proof. intros HQ. cbn. by intros ? [= <-]. Qed.

Lemma returns_lift {A} (Q : A -> Prop) (o : outcome js_error A) : (forall a, o = Return a -> Q a) -> returns Q (rt_lift o).
Proof. done. Qed.

Lemma returns_lift_then {A B} (R : B -> Prop) (o : outcome js_error A) (k : A -> rt B) :
  (forall a, o = Return a -> returns R (k a)) -> returns R (await x := rt_lift o in k x).
Proof. intros Hk. apply (ensured_bind (fun a => o = Return a)); [by apply returns_lift | done]. Qed.

Lemma returns_weaken {A} (Q Q' : A -> Prop) (p : rt A) : returns Q p -> (forall a, Q a -> Q' a) -> returns Q' p.
Proof. intros Hp HQ. eapply sure_weaken; [exact Hp |]. intros o Ho a ->. by apply HQ, Ho. Qed.

Lemma returns_progress {A B} (Q : Progress A -> Prop) (R : Progress B -> Prop) (p : rt (Progress A))
    (k : A -> rt (Progress B)) :
  returns Q p -> (forall r, R (finished r)) -> (forall s, Q (again s) -> R (again s)) ->
  (forall a, Q (proceed a) -> returns R (k a)) -> returns R (progress p k).
Proof.
  intros Hp Hf Ha Hk. eapply ensured_bind; [exact Hp |].
  intros [r | s | a] HQ; [apply returns_value, Hf | by apply returns_value, Ha | by apply Hk].
Qed.

(** ** The measure *)

(** The attempts left. *)
Definition left_attempts (n : Z) : Z := 100 - Z.min 100 (Z.max 0 n).

Definition checkpoint_rank (c : option RuntimeContextCheckpoint) : Z :=
  match c with
  | None => 0
  | Some c =>
      match cp_phase c with
      | phase_turn | phase_final | phase_verification => 0
      | phase_input => 301
      | phase_model | phase_model_inflight => 201 + left_attempts (default 0 (cp_attempt c))
      | phase_emission | phase_tool_request | phase_tool => 1 + left_attempts (default 1 (cp_attempt c))
      | phase_scheduled_backoff =>
          match cp_resumePhase c with
          | Some resume_model => 201 + left_attempts (default 0 (cp_nextAttempt c))
          | Some resume_tool => 1 + left_attempts (default 1 (cp_nextAttempt c))
          | None => 0
          end
      end
  end.

Lemma left_attempts_bounds n : 0 <= left_attempts n <= 100.
Proof. unfold left_attempts. lia. Qed.

Lemma checkpoint_rank_bounds c : 0 <= checkpoint_rank c <= 301.
Proof.
  unfold checkpoint_rank.
  destruct c as [c |]; [| lia]. destruct (cp_phase c); try lia;
    try destruct (cp_resumePhase c) as [[] |]; try lia;
    match goal with |- context [left_attempts ?n] => pose proof (left_attempts_bounds n); lia end.
Qed.

Section Measure.
Context (maxTurns : Z).

Definition turns_left (s : LoopState) : Z := Z.max 0 (maxTurns - ls_turns s) * 302.
Definition loop_measure (s : LoopState) : Z := turns_left s + checkpoint_rank (ls_checkpoint s).

(** The state is at the same turn and checkpoint. *)
Definition same_place (s s' : LoopState) : Prop := ls_turns s' = ls_turns s /\ ls_checkpoint s' = ls_checkpoint s.

Lemma loop_measure_nonneg s : 0 <= loop_measure s.
Proof. unfold loop_measure, turns_left. pose proof (checkpoint_rank_bounds (ls_checkpoint s)). lia. Qed.

Lemma loop_measure_bounds s : 0 <= ls_turns s -> 0 <= loop_measure s < (Z.max 0 maxTurns + 1) * 302.
Proof.
  intros Ht. unfold loop_measure, turns_left. pose proof (checkpoint_rank_bounds (ls_checkpoint s)). nia.
Qed.
End Measure.

(** ** Scheduled retries *)

Lemma checkpoint_fields `{Zod} c c' :
  RuntimeContextCheckpointSchema c = Some c' ->
  cp_phase c' = cp_phase c /\ cp_attempt c' = cp_attempt c /\ cp_nextAttempt c' = cp_nextAttempt c
  /\ cp_resumePhase c' = cp_resumePhase c /\ (forall n, cp_attempt c = Some n -> 0 < n).
Proof.
  unfold RuntimeContextCheckpointSchema. destruct (match cp_emission c with None => _ | Some _ => _ end) as [e |]; [| done].
  cbn [mbind option_bind]. unfold checked. destruct (_ && _) eqn:Hc; [| done]. intros [= <-]. cbn.
  split_and!; [done .. |]. intros n Hn. rewrite Hn in Hc. bools. cbn in *. unfold int_positive in *. bools. lia.
Qed.

(** A retry of an attempt: it is scheduled for the next one, at most the hundredth. *)
Definition retry_of (boundary : RetryBoundary) (attempt : Z) (c : RuntimeContextCheckpoint) : Prop :=
  cp_phase c = phase_scheduled_backoff
  /\ cp_resumePhase c = Some match boundary with
                             | Events.boundary_model => resume_model | Events.boundary_tool => resume_tool
                             end
  /\ cp_nextAttempt c = Some (attempt + 1) /\ 0 < attempt < 100.

Lemma retry_rank_model n c : retry_of Events.boundary_model n c -> checkpoint_rank (Some c) = 201 + left_attempts (n + 1).
Proof. intros (Hp & Hr & Hn & _). cbn. by rewrite Hp, Hr, Hn. Qed.

Lemma retry_rank_tool n c : retry_of Events.boundary_tool n c -> checkpoint_rank (Some c) = 1 + left_attempts (n + 1).
Proof. intros (Hp & Hr & Hn & _). cbn. by rewrite Hp, Hr, Hn. Qed.

Lemma retry_delay_bounded `{Zod} config boundary attempt class :
  returns (fun d => is_Some d -> attempt < 100) (retry_delay config boundary attempt class).
Proof.
  unfold retry_delay. apply returns_then. intros maximum. apply returns_lift_then. intros m Hm.
  assert (m <= 100) as Hle.
  { unfold orThrow, within in Hm. destruct maximum as [n |]; [| done].
    destruct (is_safe_integer n && (1 <=? n) && (n <=? 100)) eqn:Hn; [| done]. injection Hm as <-. bools. lia. }
  destruct (m <=? attempt) eqn:Ha; [apply returns_value; by intros [? ?] |].
  apply returns_any. intros _ _. bools. lia.
Qed.

Lemma scheduleRetry_retry `{Zod} config w p step boundary key attempt class c :
  returns (fun r => forall p' c', r = Some (p', c') -> retry_of boundary attempt c')
    (scheduleRetry config w p step boundary key attempt class c).
Proof.
  unfold scheduleRetry. destruct (retry_class class) as [cl |]; [| by apply returns_value].
  destruct (negb _); [by apply returns_value |].
  eapply ensured_bind; [apply retry_delay_bounded |]. intros [delay |] Hd; [| by apply returns_value].
  specialize (Hd ltac:(eauto)). do 3 (apply returns_then; intros ?).
  destruct (match wo_deadline (wo_common w) with Some _ => _ | None => _ end); [by apply returns_value |].
  apply returns_lift_then. intros parsed Hp. apply returns_then. intros next. apply returns_value.
  intros p' c' [= _ <-]. unfold orThrow in Hp.
  destruct (RuntimeContextCheckpointSchema _) as [q |] eqn:Hq; [| done]. injection Hp as <-.
  apply checkpoint_fields in Hq as (H1 & H2 & H3 & H4 & H5). cbn in *. unfold retry_of.
  rewrite H1, H3, H4. split_and!; try done. by apply (H5 _ eq_refl).
Qed.

(** ** A turn *)

Section Turn.
Context `{Zod} (config : RuntimeConfig) (x : ExecutionContext).

Let T := wb_maxTurns (wo_budget (wo_common (xc_workOrder x))).
Notation measure := (loop_measure T).
Notation left_turns := (turns_left T).

(** A part that continues the loop does so below [m]. *)
Definition again_below {A} (m : Z) (r : Progress A) : Prop :=
  match r with again s => measure s < m | _ => True end.

Definition ends {A} (r : Progress A) : Prop := match r with finished _ => True | _ => False end.

(** After [s'], a tool call that completes or is retried goes below [m]. *)
Definition spent (m : Z) (s' : LoopState) : Prop :=
  left_turns s' < m
  /\ (0 < tool_attempt s' < 100 -> left_turns s' + 1 + left_attempts (tool_attempt s' + 1) < m).

Lemma spent_same m s s' : same_place s s' -> spent m s -> spent m s'.
Proof. intros [Ht Hc]. unfold spent, turns_left, tool_attempt. by rewrite Ht, Hc. Qed.

Lemma fail_step_ends {A} s step code d : returns ends (fail_step config x (A := A) s step code d).
Proof. unfold fail_step. apply returns_then. intros r. by apply returns_value. Qed.

Lemma suspend_step_ends {A} s step target reason : returns ends (suspend_step config x (A := A) s step target reason).
Proof. unfold suspend_step. apply returns_then. intros r. by apply returns_value. Qed.

Lemma ends_below {A} m (r : Progress A) : ends r -> again_below m r.
Proof. by destruct r. Qed.

Lemma check_boundary_turn s : returns (fun _ => ls_turns s < T) (check_boundary x dispatch_turn s).
Proof.
  unfold check_boundary, assertBoundary. do 2 (apply returns_then; intros ?). destruct a0; [done |].
  apply returns_then. intros _. apply returns_lift. intros [] Hr. unfold require in Hr.
  destruct (negb (budget_exhausted _ _ _)) eqn:Hb; [| done]. unfold budget_exhausted in Hb. bools. cbn in *. unfold T. lia.
Qed.

Lemma resume_input_measure s : returns (fun s' => measure s' <= measure s) (resume_input config x s).
Proof.
  unfold resume_input. destruct (ls_checkpoint s) as [c |] eqn:Hc; [| by apply returns_value].
  unfold in_phase. case_bool_decide as Hp; [| by apply returns_value].
  apply returns_then. intros input. apply returns_lift_then. intros next _. apply returns_value.
  unfold loop_measure, turns_left. cbn [ls_turns ls_checkpoint with_checkpoint with_input]. rewrite Hc.
  pose proof (checkpoint_rank_bounds (Some next)) as ?.
  assert (checkpoint_rank (Some c) = 301) as -> by (cbn; by rewrite Hp). lia.
Qed.

Lemma resume_backoff_measure s : returns (fun s' => measure s' <= measure s) (resume_backoff config x s).
Proof.
  unfold resume_backoff. destruct (ls_checkpoint s) as [c |] eqn:Hc; [| by apply returns_value].
  unfold in_phase. case_bool_decide as Hp; [| by apply returns_value].
  destruct (cp_stepId c), (cp_retryBoundary c), (cp_nextAttempt c) as [n |] eqn:Hn, (cp_notBefore c),
    (cp_resumePhase c) as [target |] eqn:Hr; try done.
  do 2 (apply returns_then; intros _). apply returns_lift_then. intros resumed Hres. apply returns_then. intros next.
  apply returns_value. unfold loop_measure, turns_left.
  cbn [ls_turns ls_checkpoint with_checkpoint with_projection]. rewrite Hc.
  unfold orThrow in Hres. destruct (RuntimeContextCheckpointSchema _) as [q |] eqn:Hq; [| done]. injection Hres as <-.
  apply checkpoint_fields in Hq as (H1 & H2 & _). cbn in H1, H2.
  cbn [checkpoint_rank]. rewrite Hp, Hr, Hn, H1, H2. destruct target; cbn; lia.
Qed.

Lemma resume_final_below m s : returns (again_below m) (resume_final config x s).
Proof.
  unfold resume_final. destruct (ls_checkpoint s) as [c |]; [| by apply returns_value].
  destruct (_ || _); [| by apply returns_value]. destruct (cp_stepId c), (cp_emission c) as [[] |]; try done.
  apply returns_then. intros r. by apply returns_value.
Qed.

(** *** The model *)

(** The place of a step: the one of the checkpoint, or a new turn. *)
Definition planned (s s' : LoopState) : Prop :=
  (s' = s /\ exists c, ls_checkpoint s = Some c /\ (cp_phase c = phase_model \/ cp_phase c = phase_model_inflight))
  \/ (ls_turns s' = ls_turns s + 1 /\ ls_checkpoint s' = ls_checkpoint s).

Lemma plan_step_planned s : returns (fun r => planned s r.2) (plan_step config x s).
Proof.
  unfold plan_step, in_phase. destruct (ls_checkpoint s) as [c |] eqn:Hc; cbn [mbind option_bind].
  - destruct (_ || _) eqn:Hp.
    + destruct (cp_stepId c); [| done]. apply returns_value. left. split; [done |]. exists c. split; [done |].
      apply orb_prop in Hp as [Hp | Hp]; bools; auto.
    + apply returns_then. intros next. apply returns_value. right. by rewrite Hc.
  - apply returns_then. intros next. apply returns_value. right. by rewrite Hc.
Qed.

Lemma left_attempts_next n : 0 < n < 100 -> left_attempts (n + 1) < left_attempts n.
Proof. unfold left_attempts. lia. Qed.

Definition model_attempt (s : LoopState) : Z := default (ls_modelCalls s + 1) (c ← ls_checkpoint s; cp_attempt c).

Lemma turns_left_step s s' :
  ls_turns s < T -> ls_turns s' = ls_turns s + 1 -> left_turns s' + 302 <= left_turns s.
Proof. unfold turns_left. lia. Qed.

Lemma planned_spent s s' : ls_turns s < T -> planned s s' -> spent (measure s) s'.
Proof.
  intros Ht [[-> (c & Hc & Hp)] | [Hs Hc]]; unfold spent, loop_measure.
  - assert (201 <= checkpoint_rank (ls_checkpoint s)) as Hr.
    { rewrite Hc. cbn. pose proof (left_attempts_bounds (default 0 (cp_attempt c))). destruct Hp as [-> | ->]; lia. }
    pose proof (left_attempts_bounds (tool_attempt s + 1)). lia.
  - pose proof (turns_left_step _ _ Ht Hs). pose proof (checkpoint_rank_bounds (ls_checkpoint s)).
    pose proof (left_attempts_bounds (tool_attempt s' + 1)). lia.
Qed.

(** A retry of the model's attempt goes below. *)
Lemma planned_retry s s' s'' c :
  ls_turns s < T -> planned s s' -> retry_of Events.boundary_model (model_attempt s') c ->
  ls_turns s'' = ls_turns s' -> ls_checkpoint s'' = Some c -> measure s'' < measure s.
Proof.
  intros Ht Hp Hc Hs Hs''. unfold loop_measure. rewrite Hs'', (retry_rank_model _ _ Hc).
  destruct Hc as (_ & _ & _ & Hn). pose proof (left_attempts_next _ Hn) as Hl.
  pose proof (left_attempts_bounds (model_attempt s')) as Hb.
  destruct Hp as [[-> (c' & Hc' & Hp)] | [Hs' Hc']].
  - replace (left_turns s'') with (left_turns s) by (unfold turns_left; by rewrite Hs).
    enough (201 + left_attempts (model_attempt s) <= checkpoint_rank (ls_checkpoint s)) by lia.
    unfold model_attempt. rewrite Hc'. cbn. destruct (cp_attempt c') as [n |]; cbn; [destruct Hp as [-> | ->]; lia |].
    pose proof (left_attempts_bounds (ls_modelCalls s + 1)). destruct Hp as [-> | ->]; unfold left_attempts in *; lia.
  - assert (left_turns s'' + 302 <= left_turns s) by (apply turns_left_step; lia).
    pose proof (checkpoint_rank_bounds (ls_checkpoint s)). lia.
Qed.

Lemma schedule_model_retry_place s step n class :
  returns (fun r => forall s', r = Some s' -> ls_turns s' = ls_turns s /\
             exists c, ls_checkpoint s' = Some c /\ retry_of Events.boundary_model n c)
    (schedule_model_retry config x s step n class).
Proof.
  unfold schedule_model_retry. eapply ensured_bind; [apply scheduleRetry_retry |].
  intros [[p c] |] Hr; apply returns_value; [| done]. intros s' [= <-]. cbn. eauto.
Qed.

(** What the model's part of a turn, begun in [s], leaves. *)
Definition model_post (s : LoopState) (r : Progress (string * RuntimeModelEmission * LoopState)) : Prop :=
  match r with
  | finished _ => True
  | again s' => measure s' < measure s
  | proceed (_, _, s') => spent (measure s) s'
  end.

Section Planned.
Context (s s1 : LoopState).
Hypothesis in_budget : ls_turns s < T.
Hypothesis Hplanned : planned s s1.

Lemma retry_below s2 next :
  ls_turns s2 = ls_turns s1 ->
  (forall s', Some next = Some s' -> ls_turns s' = ls_turns s2 /\
     exists c, ls_checkpoint s' = Some c /\ retry_of Events.boundary_model (model_attempt s1) c) ->
  measure next < measure s.
Proof. intros Hs2 Hnext. destruct (Hnext next eq_refl) as (Hs & c & Hc & Hr). eapply planned_retry; eauto. congruence. Qed.

Lemma resume_inflight_call_below step :
  returns (again_below (measure s)) (resume_inflight_call config x s1 step (model_attempt s1)).
Proof.
  unfold resume_inflight_call. destruct (cfg_productionModelServices config) as [services |]; [| by apply returns_value].
  apply returns_then. intros [r |]; [| eapply returns_weaken; [apply suspend_step_ends | apply ends_below]].
  apply returns_then. intros [];
    try (by apply returns_value); try (eapply returns_weaken; [apply suspend_step_ends | apply ends_below]);
    (eapply ensured_bind; [apply schedule_model_retry_place |]; intros [next |] Hnext;
     [apply returns_value; by eapply retry_below
     | eapply returns_weaken; [apply suspend_step_ends | apply ends_below]]).
Qed.

Lemma failed_model_call_post step e :
  returns (model_post s) (failed_model_call config x s1 step (model_attempt s1) e).
Proof.
  unfold failed_model_call. apply returns_then. intros latest. cbv zeta.
  destruct (capturedBoundaryError e) as [e' |]; [| done]. apply returns_then. intros class.
  destruct (bool_decide _); [done |]. eapply ensured_bind; [apply schedule_model_retry_place |].
  intros [next |] Hnext; [apply returns_value; by eapply (retry_below _ next _ Hnext) |].
  destruct (bool_decide _); [| done]. eapply returns_weaken; [apply suspend_step_ends |]. by intros [].
  Unshelve. done.
Qed.

Lemma complete_model_call_post step inflight call :
  returns (model_post s) (complete_model_call config x s1 step inflight call).
Proof.
  unfold complete_model_call. cbv zeta.
  destruct (mo_next call) as [next |];
    [| eapply returns_weaken; [apply fail_step_ends |]; by intros []].
  apply returns_then. intros _. pose proof (planned_spent _ _ in_budget Hplanned) as Hsp.
  destruct (mo_completedEventCommitted call).
  - apply returns_value. by eapply spent_same, Hsp.
  - do 2 (apply returns_then; intros ?). apply returns_value. by eapply spent_same, Hsp.
Qed.
End Planned.

Lemma call_model_post s : ls_turns s < T -> returns (model_post s) (call_model config x s).
Proof.
  intros Ht. unfold call_model. cbv zeta. eapply ensured_bind; [apply plan_step_planned |].
  intros [step s1] Hp. cbn in Hp. apply returns_then. intros _. fold (model_attempt s1).
  eapply (returns_progress (again_below (measure s))); [| done | done |].
  { destruct (in_phase _ _); [by apply resume_inflight_call_below | by apply returns_value]. }
  intros _ _. eapply (returns_progress (again_below (measure s))); [| done | done |].
  { destruct (in_phase _ _); [| by apply returns_value]. unfold check_uncertain_call. apply returns_then. intros [].
    - eapply returns_weaken; [apply suspend_step_ends | apply ends_below].
    - by apply returns_value. }
  intros _ _. apply returns_try. intros [call | e]; [by apply complete_model_call_post | by apply failed_model_call_post].
Qed.

Lemma next_emission_post s : ls_turns s < T -> returns (model_post s) (next_emission config x s).
Proof.
  intros Ht. unfold next_emission. cbv zeta. destruct (_ || _ || _) eqn:Hphase; [| by apply call_model_post].
  destruct (ls_checkpoint s) as [c |] eqn:Hc; [| done]. cbn [mbind option_bind].
  destruct (cp_stepId c), (cp_emission c); try done. apply returns_value. cbn [model_post].
  unfold spent, loop_measure, tool_attempt. rewrite Hc. cbn [mbind option_bind].
  assert (checkpoint_rank (Some c) = 1 + left_attempts (default 1 (cp_attempt c))) as ->.
  { cbn. unfold in_phase in Hphase. apply orb_prop in Hphase as [Hphase | Hphase];
      [apply orb_prop in Hphase as [Hphase | Hphase] |]; bools; by rewrite Hphase. }
  pose proof (left_attempts_bounds (default 1 (cp_attempt c))).
  split; [lia |]. intros Hn%left_attempts_next. lia.
Qed.

(** *** Tool calls *)

Lemma resolve_call_below m s step d input next : returns (again_below m) (resolve_call config x s step d input next).
Proof.
  unfold resolve_call. destruct (permitted_registration _ _ _) as [registration |];
    [| eapply returns_weaken; [apply fail_step_ends | apply ends_below]].
  apply returns_then. intros _. cbv zeta. apply returns_then. intros [call |]; [by apply returns_value |].
  eapply returns_weaken; [apply fail_step_ends | apply ends_below].
Qed.

(** A part that goes on does so at the same place. *)
Definition goes_on_at (s : LoopState) (r : Progress LoopState) : Prop :=
  match r with finished _ => True | again _ => False | proceed s' => same_place s s' end.

Lemma start_tool_call_place s call : returns (goes_on_at s) (start_tool_call config x s call).
Proof.
  unfold start_tool_call. apply returns_then. intros _. destruct (_ <=? _).
  - eapply returns_weaken; [apply fail_step_ends |]. by intros [].
  - apply returns_then. intros next. by apply returns_value.
Qed.

Lemma request_tool_call_place s call : returns (goes_on_at s) (request_tool_call config x s call).
Proof.
  unfold request_tool_call. destruct (pc_resumedTool call); [by apply returns_value |].
  eapply (returns_progress (goes_on_at s)); [| done | done |].
  { destruct (in_phase _ _); [by apply returns_value | apply start_tool_call_place]. }
  intros s1 Hs1. apply returns_then. intros next. apply returns_value. cbn. exact Hs1.
Qed.

Lemma obtain_approval_below m s call required target :
  returns (again_below m) (obtain_approval config x s call required target).
Proof.
  unfold obtain_approval. destruct (negb required); [by apply returns_value |]. apply returns_then.
  intros [a |]; [by apply returns_value |]. unfold request_approval. cbv zeta.
  destruct (negb _); [eapply returns_weaken; [apply fail_step_ends | apply ends_below] |].
  destruct (wo_decisionOwner _); [| eapply returns_weaken; [apply fail_step_ends | apply ends_below]].
  unfold open_gate. do 3 (apply returns_then; intros ?). cbv zeta. do 6 (apply returns_then; intros ?).
  by apply returns_value.
Qed.

(** What carrying out a call begun in [s] leaves. *)
Definition tool_post (m : Z) (s : LoopState) (r : Progress (JsonValue * LoopState)) : Prop :=
  match r with finished _ => True | again s' => measure s' < m | proceed (_, s') => same_place s s' end.

Lemma read_tool_post m s call target approval :
  spent m s -> returns (tool_post m s) (read_tool config x s call target approval).
Proof.
  intros [_ Hretry]. unfold read_tool. apply returns_then. intros _.
  destruct (negb _); [eapply returns_weaken; [apply fail_step_ends |]; by intros [] |].
  apply returns_try. intros [result | e]; [by apply returns_value |]. unfold failed_read. cbv zeta.
  destruct (capturedBoundaryError e) as [e' |]; [| done]. apply returns_then. intros class.
  destruct (bool_decide _); [done |]. eapply ensured_bind; [apply scheduleRetry_retry |].
  intros [[p c] |] Hr.
  - apply returns_value. specialize (Hr p c eq_refl). pose proof Hr as (_ & _ & _ & Hn). specialize (Hretry Hn).
    cbn. unfold loop_measure. cbn [ls_checkpoint with_checkpoint]. rewrite (retry_rank_tool _ _ Hr).
    unfold turns_left in *. cbn [ls_turns with_checkpoint with_projection]. lia.
  - destruct (bool_decide _); [| done]. eapply returns_weaken; [apply suspend_step_ends |]. by intros [].
Qed.

Lemma write_tool_post m s call target approval : returns (tool_post m s) (write_tool config x s call target approval).
Proof. unfold write_tool. apply returns_then. intros [p result | p]; by apply returns_value. Qed.

Lemma complete_tool_call_below {A} m s call result :
  spent m s -> returns (again_below (A := A) m) (complete_tool_call config x s call result).
Proof.
  intros [Hm _]. unfold complete_tool_call. apply returns_then. intros _. cbv zeta. do 2 (apply returns_then; intros ?).
  apply returns_value. cbn. unfold loop_measure, turns_left in *. cbn. lia.
Qed.

Lemma run_tool_call_below {A} m s step d input next :
  spent m s -> returns (again_below (A := A) m) (run_tool_call config x s step d input next).
Proof.
  intros Hm. unfold run_tool_call. eapply returns_progress; [apply (resolve_call_below m) | done | done |].
  intros call _. eapply returns_progress; [apply request_tool_call_place | done | done |].
  intros s1 Hs1. assert (spent m s1) as Hm1 by (by eapply spent_same). apply returns_then.
  intros [reason | required reason resources target];
    [eapply returns_weaken; [apply fail_step_ends | apply ends_below] |].
  unfold perform_tool_call. eapply returns_progress; [apply (obtain_approval_below m) | done | done |].
  intros approval _. apply returns_then. intros _. eapply (returns_progress (tool_post m s1)); [| done | done |].
  { destruct (bool_decide _); [by apply read_tool_post | apply write_tool_post]. }
  intros [result s2] Hs2. apply complete_tool_call_below. by eapply spent_same.
Qed.

(** A turn that goes on leaves less to do. *)
Lemma turn_below s : returns (again_below (measure s)) (turn config x s).
Proof.
  unfold turn. eapply ensured_bind; [apply resume_input_measure |]. intros s1 H1.
  eapply ensured_bind; [apply resume_backoff_measure |]. intros s2 H2.
  eapply returns_weaken with (Q := again_below (measure s2)); [| intros [r | s' | a]; unfold again_below; cbn in H1, H2; [done | lia | done]].
  eapply returns_progress; [apply (resume_final_below (measure s2)) | done | done |].
  intros _ _. eapply ensured_bind; [apply check_boundary_turn |]. intros u Ht.
  eapply returns_progress; [by apply next_emission_post | done | done |].
  intros [[step next] s3] Hs3. cbn [model_post] in Hs3. destruct next.
  - by apply run_tool_call_below.
  - unfold end_run. cbv zeta. do 2 (apply returns_then; intros ?). by apply returns_value.
  - unfold request_input. cbv zeta. apply returns_then. intros ?. by apply returns_value.
Qed.

Lemma turns_enough fuel s :
  measure s < Z.of_nat fuel -> ensures (fun o => o <> Return None) (turns config x fuel s).
Proof.
  revert s. induction fuel as [| fuel IH]; intros s Hf.
  { pose proof (loop_measure_nonneg T s). lia. }
  cbn [turns]. apply sure_bind. eapply sure_weaken; [apply (turn_below s) |].
  intros [[r | s' | []] | e] Hpost; try done. specialize (Hpost _ eq_refl). cbn in Hpost. apply IH. lia.
Qed.
End Turn.

(** C5: the loop of turns ends.  Whatever the ports answer and whichever of their
    calls throw, and whatever the history and the checkpoint the execution starts
    from, the loop leaves after at most 302 iterations for each turn of the budget
    and as many more: it never runs out of the fuel [execute] gives it. *)
Theorem turns_end `{Zod} config x projection history checkpoint :
  ensures (fun o => o <> Return None)
    (turns config x (turn_fuel (wo_budget (wo_common (xc_workOrder x))))
       (initial_state (xc_workOrder x) projection history checkpoint)).
Proof.
  apply turns_enough. set (s := initial_state _ _ _ _).
  pose proof (loop_measure_bounds (wb_maxTurns (wo_budget (wo_common (xc_workOrder x)))) s) as Hb.
  assert (0 <= ls_turns s) as Ht by (cbn; unfold count_events; lia). specialize (Hb Ht).
  unfold turn_fuel, retries_per_turn. lia.
Qed.
