(* ===== verification/ExecutionSafety.v ===== *)
(** * What an execution does is permitted

    Every execution of a tool and every dispatch of an effect, in any execution of
    a run however it is stopped, comes after a decision of the policy engine that
    permits it, and after an approval by the owner where the decision requires one. *)

From S2P Require Import Prelude JsTime Errors Schema JsonValue Unicode JsonText Contracts WorkOrder Authorization.
From S2P Require Import Authority Policy Effects Run Events StoreInternal Digest JsArithmetic EffectLedger Admission.
From S2P Require Import ModelCalls Decisions WorkOrderStore RecordStores AcknowledgedResults UnitOfWork.
From S2P Require Import ActiveExecution EffectServices Checkpoints HostPorts RuntimeProgram WriteEffect RunChecks.
From S2P Require Import RunResume ModelInvocation RunCompletion ExecuteRun Execution RuntimeSessions WriteEffectFacts.
From S2P Require Import ExecutionParts.

Local Open Scope Z_scope.
Local Open Scope rt_scope.

(** ** Executions and their logs *)

(** A call that was made, and its answer. *)
Inductive Performed :=
| performed {R : Type} (call : RuntimeCall R) (answer : outcome js_error R).

(** The calls of an execution of [p] that may be stopped at any of them, whatever
    the ports answer. *)
Inductive execution : forall {A}, rt A -> list Performed -> Prop :=
| execution_stopped {A} (p : rt A) : execution p []
| execution_call {A R} (call : RuntimeCall R) (k : outcome js_error R -> rt A) answer log :
    execution (k answer) log -> execution (rt_vis call k) (performed call answer :: log).

Section Permission.
Context `{Zod}.

(** The owner of the work order's decisions approved exactly this call. *)
Definition approved (log : list Performed) (request : HostPolicyRequest) (target : string) : Prop :=
  exists approvalId stored approval owner runId stepId decisionId policy,
    performed (rc_getApproval (wo_tenantId (hp_workOrder request)) approvalId) (Return (Some stored)) ∈ log
    /\ ApprovalSchema stored = Some approval
    /\ wo_decisionOwner (wo_common (hp_workOrder request)) = owner_principal owner
    /\ ap_binding approval
       = expected_approval_binding (hp_workOrder request) owner runId stepId decisionId (hp_tool request)
           (hp_argumentsDigest request) target policy (ap_binding approval).

(** The policy engine permitted the call of this tool on this input and target. *)
Definition permitted (log : list Performed) (registration : ToolRegistrationContract) (input : JsonValue)
    (target : string) : Prop :=
  exists request required reason resources,
    performed (rc_evaluatePolicy request) (Return (host_permits required reason resources target)) ∈ log
    /\ hp_tool request = registration /\ digestCanonicalJson input = Return (hp_argumentsDigest request)
    /\ (required = true -> approved log request target).

(** What a call outside needs to have been logged before it. *)
Definition sanctioned (log : list Performed) {R} (call : RuntimeCall R) : Prop :=
  match call with
  | rc_executeTool registration input => exists target, permitted log registration input target
  | rc_dispatch context value _ => exists registration, permitted log registration value (dc_normalizedTargetDigest context)
  | _ => True
  end.

Lemma approved_more log log' request target : log ⊆ log' -> approved log request target -> approved log' request target.
Proof.
  intros Hl (id & stored & a & owner & run & step & d & policy & Hin & Hrest).
  exists id, stored, a, owner, run, step, d, policy. split; [by apply Hl | done].
Qed.

Lemma permitted_more log log' r i t : log ⊆ log' -> permitted log r i t -> permitted log' r i t.
Proof.
  intros Hl (request & required & reason & resources & Hin & Hr & Hi & Ha).
  exists request, required, reason, resources. split_and!; [by apply Hl | done | done |].
  intros Hreq. by eapply approved_more, Ha.
Qed.

(** ** Guarded programs *)

(** After the calls of [log], every call of [p] is sanctioned, and [Q] holds of the
    log and the outcome at the end. *)
Fixpoint guarded {A} (Q : list Performed -> outcome js_error A -> Prop) (p : rt A) (log : list Performed) : Prop :=
  match p with
  | rt_done o => Q log o
  | rt_vis call k => sanctioned log call /\ forall answer, guarded Q (k answer) (log ++ [performed call answer])
  end.

Lemma guarded_try {A B} (p : rt A) (k : outcome js_error A -> rt B) Q log :
  guarded (fun log' o => guarded Q (k o) log') p log -> guarded Q (rt_try p k) log.
Proof.
  revert log. induction p as [o | R call c IH]; intros log; cbn; [done |]. intros [Hs Hc]. split; [done |].
  intros answer. by apply IH.
Qed.

Lemma guarded_weaken {A} (Q Q' : list Performed -> outcome js_error A -> Prop) p log :
  guarded Q p log -> (forall log' o, Q log' o -> Q' log' o) -> guarded Q' p log.
Proof.
  intros Hg HQ. revert log Hg. induction p as [o | R call c IH]; intros log; cbn; [auto |]. intros [Hs Hc].
  split; [done |]. intros answer. by apply IH.
Qed.

Lemma guarded_bind {A B} (p : rt A) (k : A -> rt B) Q log :
  guarded (fun log' o => match o with Return a => guarded Q (k a) log' | Throw e => Q log' (Throw e) end) p log ->
  guarded Q (await x := p in k x) log.
Proof. intros Hg. apply guarded_try. eapply guarded_weaken; [exact Hg |]. by intros log' [a | e]. Qed.

(** Every call outside is of one tool's input and target. *)
Definition acts_on (registration : ToolRegistrationContract) (input : JsonValue) (target : string)
    {R} (call : RuntimeCall R) : bool :=
  match call with
  | rc_executeTool r i => bool_decide (r = registration) && bool_decide (i = input)
  | rc_dispatch c v _ => bool_decide (v = input) && bool_decide (dc_normalizedTargetDigest c = target)
  | _ => true
  end.

Lemma covers_acts_on r i t : covers (@acts_on r i t).
Proof. by intros R []. Qed.

(** The log only grows, and what is sure of the outcomes holds. *)
Lemma sure_guarded {A} allowed (Q : outcome js_error A -> Prop) (p : rt A) log :
  (forall log' R (call : RuntimeCall R), log ⊆ log' -> allowed R call = true -> sanctioned log' call) ->
  sure allowed Q p -> guarded (fun log' o => log ⊆ log' /\ Q o) p log.
Proof.
  intros Hall Hp. assert (forall log0, log ⊆ log0 -> guarded (fun log' o => log ⊆ log' /\ Q o) p log0) as Hg; [| by apply Hg].
  revert Hp. induction p as [o | R call c IH]; cbn; [by split |]. intros [Hc Hk] log0 Hl.
  split; [by apply Hall |]. intros answer. apply IH; [done |]. set_solver.
Qed.

Lemma only_guarded {A} allowed (p : rt A) log :
  (forall log' R (call : RuntimeCall R), log ⊆ log' -> allowed R call = true -> sanctioned log' call) ->
  only allowed p -> guarded (fun log' _ => log ⊆ log') p log.
Proof. intros Hall Hp. eapply guarded_weaken; [by eapply sure_guarded |]. by intros log' o [Hl _]. Qed.

Lemma sure_still {A} (Q : outcome js_error A -> Prop) (p : rt A) log :
  sure (@still_call) Q p -> guarded (fun log' o => log ⊆ log' /\ Q o) p log.
Proof. apply sure_guarded. by intros log' R []. Qed.

Lemma still_guarded {A} (p : rt A) log : only (@still_call) p -> guarded (fun log' _ => log ⊆ log') p log.
Proof. apply only_guarded. by intros log' R []. Qed.

Lemma acting_guarded {A} r i t (p : rt A) log :
  permitted log r i t -> only (@acts_on r i t) p -> guarded (fun log' _ => log ⊆ log') p log.
Proof.
  intros Hp. apply only_guarded. intros log' R [] Hl Hc; cbn [acts_on sanctioned] in *; try done; bools; subst.
  - exists r. by eapply permitted_more.
  - exists t. by eapply permitted_more.
Qed.

(** A guarded program whose outcome does not matter. *)
Definition guards {A} (p : rt A) (log : list Performed) : Prop := guarded (fun _ _ => True) p log.

Lemma still_guards {A} (p : rt A) log : only (@still_call) p -> guards p log.
Proof. intros Hp. eapply guarded_weaken; [by apply still_guarded | done]. Qed.

Lemma guards_then {A B} (p : rt A) (k : A -> rt B) log :
  guarded (fun log' _ => log ⊆ log') p log -> (forall a log', log ⊆ log' -> guards (k a) log') ->
  guards (await x := p in k x) log.
Proof. intros Hp Hk. apply guarded_bind. eapply guarded_weaken; [exact Hp |]. intros log' [a | e] Hl; [by apply Hk | done]. Qed.

Lemma guards_progress {A B} (p : rt (Progress A)) (k : A -> rt (Progress B)) log :
  guarded (fun log' _ => log ⊆ log') p log -> (forall a log', log ⊆ log' -> guards (k a) log') ->
  guards (progress p k) log.
Proof. intros Hp Hk. apply guards_then; [done |]. intros [r | s | a] log' Hl; [done | done | by apply Hk]. Qed.

Definition sanctioned_entry (log : list Performed) (o : Performed) : Prop :=
  match o with performed call _ => sanctioned log call end.

(** The calls of an execution of a guarded program are sanctioned. *)
Lemma guarded_execution {A} (p : rt A) log0 log before o after :
  guards p log0 -> execution p log -> log = before ++ o :: after -> sanctioned_entry (log0 ++ before) o.
Proof.
  intros Hg He. revert log0 before Hg. induction He as [A p | A R' call' k answer' log He IH]; intros log0 before Hg Hl.
  - by destruct before.
  - destruct Hg as [Hs Hk]. destruct before as [| o0 before]; injection Hl as Ho Hl.
    + by rewrite app_nil_r, <- Ho.
    + subst o0. specialize (IH (log0 ++ [performed call' answer']) before (Hk answer') Hl).
      by rewrite <- app_assoc in IH.
Qed.

(** ** What the host answers *)

Lemma evaluate_guarded w registration call policy used log :
  guarded (fun log' o => log ⊆ log' /\ forall required reason resources target,
      o = Return (host_permits required reason resources target) ->
      exists request resources', hp_workOrder request = w /\ hp_tool request = registration
        /\ hp_argumentsDigest request = rt_argumentsDigest call
        /\ performed (rc_evaluatePolicy request) (Return (host_permits required reason resources' target)) ∈ log')
    (evaluateHostToolCall w registration call policy used) log.
Proof.
  unfold evaluateHostToolCall. split; [done |]. intros [d | e]; cbn; (split; [set_solver |]); [| done].
  intros required reason resources target Hd. unfold check_decision, orThrow in Hd.
  destruct (HostPolicyDecisionSchema d) as [d' |] eqn:Hs; [| done]. injection Hd as ->.
  destruct d as [r0 | q r0 res0 t0]; cbn [HostPolicyDecisionSchema] in Hs.
  - unfold checked in Hs. by destruct (min1 r0).
  - destruct (ResolvedResourcesSchema res0) as [parsed |]; [| done]. cbn [mbind option_bind] in Hs. unfold checked in Hs.
    destruct (_ && _); [| done]. injection Hs as -> -> _ ->. exists (policy_request w registration call policy used), res0. split_and!; [| | | set_solver]; done.
Qed.

(** The arguments digest of a resolved call is the digest of its input. *)
Lemma resolved_digest w registration input log :
  guarded (fun log' o => log ⊆ log' /\ forall call, o = Return (Some call) ->
      digestCanonicalJson (rt_validatedInput call) = Return (rt_argumentsDigest call))
    (try_resolve w registration input) log.
Proof.
  unfold try_resolve, resolveHostToolCall. split; [done |]. intros [d | e]; cbn; [| by split; [set_solver |]].
  destruct (check_resolution d) as [call' | e] eqn:Hc; cbn; (split; [set_solver |]); [| done].
  intros call [= <-]. unfold check_resolution, parse in Hc.
  destruct (JsonValueSchema (tr_validatedInput d)); [| done]. cbn [mbind outcome_bind] in Hc.
  destruct (orThrow (ResolvedResourcesSchema _) _); [| done]. cbn [mbind outcome_bind] in Hc.
  destruct (require _ _); [| done]. cbn [mbind outcome_bind] in Hc.
  destruct (digestCanonicalJson (tr_validatedInput d)) as [digest |] eqn:Hd; [| done]. by injection Hc as <-.
Qed.

Lemma guarded_call_bind {A B} (call : RuntimeCall A) (k : A -> rt B) Q log :
  sanctioned log call -> (forall a, guarded Q (k a) (log ++ [performed call (Return a)])) ->
  (forall e, Q (log ++ [performed call (Throw e)]) (Throw e)) -> guarded Q (await x := rt_call call in k x) log.
Proof. intros Hs Hk HT. split; [done |]. intros [a | e]; [apply Hk | apply HT]. Qed.

Lemma guarded_lift_bind {A B} (o : outcome js_error A) (k : A -> rt B) Q log :
  (forall a, o = Return a -> guarded Q (k a) log) -> (forall e, Q log (Throw e)) ->
  guarded Q (await x := rt_lift o in k x) log.
Proof. intros Hk HT. destruct o; [by apply Hk | apply HT]. Qed.

Lemma exact_binding {A} `{EqDecision A} (a b : A) reason u : assertExactBinding a b reason = Return u -> a = b.
Proof. unfold assertExactBinding, require. by case_bool_decide. Qed.

Lemma approved_guarded config request p policy step target log :
  guarded (fun log' o => log ⊆ log' /\ forall a, o = Return (Some a) -> approved log' request target)
    (approvedToolCall config (hp_workOrder request) p policy (hp_tool request) step (hp_argumentsDigest request) target)
    log.
Proof.
  unfold approvedToolCall. destruct (negb _); [by split |]. cbv zeta.
  apply guarded_call_bind; [done | | by split; [set_solver |]]. intros events.
  destruct (latest_approval step (rev events)) as [[[decisionId approvalId] requested] |]; [| by split; [set_solver |]].
  destruct (e_payload requested); try by (split; [set_solver |]).
  destruct (negb _); [by split; [set_solver |] |].
  do 2 (apply guarded_call_bind; [done | | by split; [set_solver |]]; intros ?).
  destruct a as [gateInput |], a0 as [stored |]; try by (split; [set_solver |]).
  apply guarded_lift_bind; [| by split; [set_solver |]]. intros gate _.
  apply guarded_lift_bind; [| by split; [set_solver |]]. intros approval Happroval.
  destruct (wo_decisionOwner (wo_common (hp_workOrder request))) as [owner | role] eqn:Howner; [| by split; [set_solver |]].
  do 3 (apply guarded_lift_bind; [| by split; [set_solver |]]; intros ? ?Hb).
  split; [set_solver |]. intros a' _. apply exact_binding in Hb0. apply exact_binding in Hb1. injection Hb1 as _ Hap.
  unfold orThrow in Happroval. destruct (ApprovalSchema stored) as [parsed |] eqn:Hs; [| done]. injection Happroval as <-.
  eexists approvalId, stored, parsed, owner, _, _, _, _. split_and!; [set_solver | done | done |].
  rewrite Hap. exact Hb0.
Qed.

(** ** Write effects *)

Section Acts.
Context (config : RuntimeConfig) (i : WriteEffectInput).
Notation acting := (only (@acts_on (wi_registration i) (wi_value i) (wi_normalizedTargetDigest i))).

Lemma dispatch_effect_acts plan p record attempt :
  dc_normalizedTargetDigest (wp_context plan) = wi_normalizedTargetDigest i ->
  acting (dispatch_effect config i plan p record attempt).
Proof.
  intros Ht. unfold dispatch_effect, acknowledge_write_effect, park_write_effect.
  pose proof (covers_acts_on (wi_registration i) (wi_value i) (wi_normalizedTargetDigest i)).
  apply only_try; [apply only_bind; [apply withActiveExecution_quiet; [done |] |] |]; parts.
  split; [| done]. cbn. by rewrite !bool_decide_eq_true_2.
Qed.

Lemma executeWriteEffect_acts : acting (executeWriteEffect config i).
Proof.
  pose proof (covers_acts_on (wi_registration i) (wi_value i) (wi_normalizedTargetDigest i)) as Hcovers.
  unfold executeWriteEffect.
  assert (forall plan p record, dc_normalizedTargetDigest (wp_context plan) = wi_normalizedTargetDigest i ->
    acting (continue_effect config i plan p record)) as Hcontinue.
  { intros plan p record Ht. pose proof (dispatch_effect_acts plan).
    unfold continue_effect, dispatch_prepared, resolve_dispatched, dispatch_again, acknowledge_write_effect,
      park_write_effect. parts; auto. }
  apply (sure_seq _ (fun o => forall plan, o = Return plan ->
    dc_normalizedTargetDigest (wp_context plan) = wi_normalizedTargetDigest i)); [| | done].
  - unfold plan_write_effect, preview_effect. repeat (apply only_seq; [parts | intros ? | done]). by intros plan [= <-].
  - intros plan Hplan. specialize (Hplan plan eq_refl). destruct (wp_record plan); [by apply Hcontinue |].
    apply only_bind; [parts |]. intros [next record]. by apply Hcontinue.
Qed.
End Acts.

(** ** Turns *)

Section Turn.
Context (config : RuntimeConfig) (x : ExecutionContext).

(** A part that does not go on. *)
Notation stops p := (sure (@still_call) (fun o => forall a, o <> Return (proceed a)) p).

Lemma fail_step_stops {A} s step code details : stops (fail_step config x (A := A) s step code details).
Proof. unfold fail_step. apply only_seq; [parts | | done]. by intros r a. Qed.

Lemma stops_guarded {A} (Q : list Performed -> A -> Prop) (p : rt (Progress A)) log log0 :
  stops p -> log0 ⊆ log ->
  guarded (fun log' o => log0 ⊆ log' /\ forall a, o = Return (proceed a) -> Q log' a) p log.
Proof.
  intros Hp Hl. eapply guarded_weaken; [by apply sure_still |]. intros log' o [Hl' Ho]. split; [set_solver |].
  intros a ->. by destruct (Ho a).
Qed.

Lemma resolve_call_guarded s step d input next log :
  guarded (fun log' o => log ⊆ log' /\ forall call, o = Return (proceed call) ->
      digestCanonicalJson (rt_validatedInput (pc_resolved call)) = Return (pc_argumentsDigest call))
    (resolve_call config x s step d input next) log.
Proof.
  unfold resolve_call. destruct (permitted_registration config x d) as [registration |];
    [| apply stops_guarded; [apply fail_step_stops | done]].
  apply guarded_lift_bind; [| by split]. intros _ _. cbv zeta. apply guarded_bind.
  eapply guarded_weaken; [apply resolved_digest |].
  intros log1 [[call |] | e] [Hl Hd]; [| apply stops_guarded; [apply fail_step_stops | done] | by split].
  split; [done |]. intros c [= <-]. by apply Hd.
Qed.

Lemma request_approval_stops s call target : stops (request_approval config x s call target).
Proof.
  unfold request_approval. cbv zeta. destruct (negb _); [apply fail_step_stops |].
  destruct (wo_decisionOwner _); [| apply fail_step_stops]. unfold open_gate. cbv zeta.
  repeat (apply only_seq; [parts | intros ? | done]). by intros ?.
Qed.

Lemma obtain_approval_guarded s call required target request log :
  hp_workOrder request = xc_workOrder x -> hp_tool request = pc_registration call ->
  hp_argumentsDigest request = pc_argumentsDigest call ->
  guarded (fun log' o => log ⊆ log' /\ forall a, o = Return (proceed a) -> required = true -> approved log' request target)
    (obtain_approval config x s call required target) log.
Proof.
  intros Hw Ht Ha. unfold obtain_approval. destruct required; cbn [negb]; [| by split].
  apply guarded_bind. rewrite <- Hw, <- Ht, <- Ha. eapply guarded_weaken; [apply approved_guarded |].
  intros log1 [[a |] | e] [Hl Hap]; [| apply stops_guarded; [apply request_approval_stops | done] | by split].
  split; [done |]. intros _ _ _. by eapply Hap.
Qed.

(** Carrying out a permitted call. *)
Lemma act_guards s call target approval log :
  permitted log (pc_registration call) (rt_validatedInput (pc_resolved call)) target ->
  guarded (fun log' _ => log ⊆ log')
    (if bool_decide (tool_effectStrategyKind (pc_registration call) = tool_read)
     then read_tool config x s call target approval
     else write_tool config x s call target approval) log.
Proof.
  intros Hp. eapply acting_guarded; [exact Hp |]. case_bool_decide.
  - apply read_tool_quiet; [apply covers_acts_on |]. cbn. by rewrite !bool_decide_eq_true_2.
  - unfold write_tool. apply only_bind; [exact (executeWriteEffect_acts config (write_input x s call target approval)) |].
    intros []; parts.
Qed.

Lemma run_tool_call_guards {A} s step d input next log : guards (run_tool_call config x (A := A) s step d input next) log.
Proof.
  unfold run_tool_call, guards, progress. apply guarded_bind. eapply guarded_weaken; [apply resolve_call_guarded |].
  intros log1 [[r | s' | call] | e] [Hl1 Hd]; try done. specialize (Hd call eq_refl).
  apply guards_progress; [apply still_guarded, request_tool_call_quiet, covers_still |]. intros s1 log2 Hl2.
  apply guarded_bind. eapply guarded_weaken; [apply evaluate_guarded |].
  intros log3 [[reason | required reason resources target] | e] [Hl3 Hpol]; [| | done].
  { apply still_guards, fail_step_quiet, covers_still. }
  destruct (Hpol _ _ _ _ eq_refl) as (request & resources' & Hw & Ht & Ha & Hin).
  unfold perform_tool_call, progress. apply guarded_bind.
  eapply guarded_weaken; [by apply (obtain_approval_guarded _ _ _ _ request) |].
  intros log4 [[r | s' | approval] | e] [Hl4 Hap]; try done.
  apply guards_then; [apply still_guarded, check_boundary_quiet, covers_still |]. intros _ log5 Hl5.
  apply guards_progress; [| intros result log6 _; apply still_guards, complete_tool_call_quiet, covers_still].
  apply act_guards. exists request, required, reason, resources'. split_and!; [set_solver | done | by rewrite Hd, Ha |].
  intros Hreq. eapply approved_more; [exact Hl5 |]. by eapply Hap.
Qed.

Lemma turn_guards s log : guards (turn config x s) log.
Proof.
  unfold turn. apply guards_then; [apply still_guarded; parts |]. intros s1 log1 _.
  apply guards_then; [apply still_guarded; parts |]. intros s2 log2 _.
  apply guards_progress; [apply still_guarded; parts |]. intros _ log3 _.
  apply guards_then; [apply still_guarded; parts |]. intros _ log4 _.
  apply guards_progress; [apply still_guarded; parts |]. intros [[step next] s3] log5 _.
  destruct next; [apply run_tool_call_guards | apply still_guards; parts ..].
Qed.

Lemma turns_guards fuel s log : guards (turns config x fuel s) log.
Proof.
  revert s log. induction fuel as [| fuel IH]; intros s log; cbn [turns]; [done |].
  apply guarded_bind. eapply guarded_weaken; [apply turn_guards |]. intros log' [[r | s' | []] | e] _; try done. apply IH.
Qed.
End Turn.

(** ** Executions of runs *)

Section Execution.
Context (config : RuntimeConfig).

Lemma execution_frame_guards w actorId runId body log :
  (forall log', guards body log') -> guards (execution_frame config w actorId runId body) log.
Proof.
  intros Hbody. unfold execution_frame, guards. apply guarded_try, guarded_try.
  eapply guarded_weaken; [apply Hbody |]. intros log1 o _.
  eapply guarded_weaken with (Q := fun _ _ => True).
  - destruct o; [done |]. apply still_guards. unfold execution_failure. parts.
  - intros log2 o2 _. apply still_guards. parts.
Qed.

Lemma run_compensation_guards c p log : guards (run_compensation config c p) log.
Proof.
  unfold run_compensation. destruct (p_status p); try done.
  do 2 (apply guards_then; [apply still_guarded; parts |]; intros ? ? _). unfold start_compensation, guards.
  apply guarded_bind.
  eapply guarded_weaken with (Q := fun log' o => forall next call, o = Return (next, Some call) ->
    digestCanonicalJson (rt_validatedInput call) = Return (rt_argumentsDigest call)).
  { apply guarded_bind. eapply guarded_weaken; [apply still_guarded; parts |]. intros log1 [a1 | e] _; [| done].
    do 2 (apply guarded_bind; eapply guarded_weaken; [apply still_guarded; parts |]; intros ? [? | ?] _; [| done]).
    apply guarded_bind. eapply guarded_weaken; [apply resolved_digest |]. intros log4 [[call |] | e] [_ Hd]; [| done | done].
    intros next c' [= _ <-]. by apply Hd. }
  intros log5 [[next [call |]] | e] Hd; [| apply still_guards; parts | done]. specialize (Hd _ _ eq_refl).
  cbv zeta. apply guards_then; [apply still_guarded; parts |]. intros called log6 _.
  apply guarded_bind. eapply guarded_weaken; [apply evaluate_guarded |].
  intros log7 [[reason | required reason resources target] | e] [_ Hpol]; [apply still_guards; parts | | done].
  destruct required; [apply still_guards; parts |].
  destruct (Hpol _ _ _ _ eq_refl) as (request & resources' & Hw & Ht & Ha & Hin).
  unfold compensate. cbv zeta. apply guards_then.
  - eapply acting_guarded; [| apply executeWriteEffect_acts]. cbn. exists request, false, reason, resources'.
    split_and!; [done | done | by rewrite Hd, Ha | done].
  - intros [p2 result | p2] log8 _; apply still_guards; parts.
Qed.

Lemma execute_guards authority runId log : guards (execute config authority runId) log.
Proof.
  unfold execute, loadAcceptedWorkOrder.
  do 2 (apply guards_then; [apply still_guarded; parts |]; intros ? ? _).
  destruct (TerminalRunStatus _); [done |]. cbv zeta.
  apply guards_then; [apply still_guarded; parts |]. intros w log3 _. destruct (wo_kind w).
  - do 3 (apply guards_then; [apply still_guarded; unfold acquire_lease; parts |]; intros ? ? _).
    apply execution_frame_guards. intros log7. unfold run_agent, suspend_without_checkpoint.
    apply guards_then; [apply still_guarded; parts |]. intros history log8 _. destruct (waits _); [done |].
    apply guards_then; [apply still_guarded; parts |]. intros [r |] log9 _; [done |].
    apply guards_then; [apply still_guarded; parts |]. intros checkpoint log10 _.
    destruct (_ && _); [apply still_guards; parts |].
    apply guards_then; [apply still_guarded; parts |]. intros startedAt log11 _.
    apply guarded_bind. eapply guarded_weaken; [apply turns_guards |]. intros log12 [[r |] | e] _; done.
  - unfold executeCompensation, compensation_registration_killed. destruct (negb _); [done |].
    do 2 (apply guards_then; [apply still_guarded; parts |]; intros ? ? _). destruct a2; [done |]. cbv zeta.
    do 4 (apply guards_then; [apply still_guarded; unfold acquire_lease; parts |]; intros ? ? _).
    apply execution_frame_guards. intros. apply run_compensation_guards.
Qed.

(** C4: nothing is done that the host's policy did not permit.  In any execution of
    a run, stopped anywhere and whatever the ports answer, a tool is executed and an
    effect is dispatched only after the policy engine, asked about this tool, this
    work order and the digest of exactly this input, answered that it permits the
    call; for an effect, with the very target it is dispatched to.  Where the answer
    requires an approval, one was read before whose binding is that of the call and
    whose principal is the owner of the work order's decisions. *)
Theorem executed_calls_are_permitted authority runId before o after :
  execution (execute config authority runId) (before ++ o :: after) -> sanctioned_entry before o.
Proof. intros He. exact (guarded_execution _ [] _ _ _ _ (execute_guards authority runId []) He eq_refl). Qed.
End Execution.
End Permission.
