(* ===== verification/Histories.v ===== *)
(** * Histories of executions: theorems

    Runs are executed any number of times, each execution stopped anywhere, with
    other transactions in between: what then holds of the dispatches of write
    effects. *)

From S2P Require Import Prelude JsTime Errors Schema JsonValue Unicode JsonText Contracts WorkOrder Authorization.
From S2P Require Import Authority Effects Run Events StoreInternal EventStore Digest JsMap JsArithmetic EffectLedger.
From S2P Require Import EffectLedgerFacts Commands Admission ModelCalls Quota ActiveExecution Decisions.
From S2P Require Import AuthorityStores WorkOrderStore RecordStores AcknowledgedResults UnitOfWork UnitOfWorkFacts.
From S2P Require Import EffectServices Checkpoints RuntimeProgram WriteEffect Execution RuntimeSessions WriteEffectFacts.
From S2P Require Import ExecutionParts.

Local Open Scope Z_scope.
Local Open Scope rt_scope.

Section Sessions.
Context `{Zod} (profile : StorageSecurityProfile) (workOrderProtector : option WorkOrderProtector)
  (limits : list QuotaLimit) (generateId : string -> string).

Notation others := (interfered profile workOrderProtector limits generateId).
Notation unit_step := (uow_step (V := TransitionAnswer) profile workOrderProtector limits generateId).
Notation session := (session profile workOrderProtector limits generateId).
Notation safely Inv := (safe profile workOrderProtector limits generateId "EffectDispatched" Inv (fun _ w => Inv w)).

(** ** Compositions keep what their parts keep *)

Lemma composed_safely {A} config writes (Inv : World -> Prop) (p : rt A) :
  (forall A (q : rt A) w, quiet q -> Inv w -> safely Inv q w) ->
  (forall i w, writes i -> Inv w -> safely Inv (executeWriteEffect config i) w) ->
  composed config writes p -> forall w, Inv w -> safely Inv p w.
Proof.
  intros Hquiet Hwrite. induction 1 as [A p Hp | i Hi | A B p k _ IHp _ IHk]; intros w Hw; [by apply Hquiet | by apply Hwrite |].
  apply safe_try. eapply safe_weaken; [by apply IHp |]. intros o w' Hw'. by apply IHk.
Qed.

(** ** Histories *)

(** Executions of runs, and of the write effects and recoveries they consist of, in
    any number and order, each stopped anywhere, with other transactions before,
    between and during them. *)
Inductive history_step (admissible : RuntimeConfig -> WriteEffectInput -> Prop) (w w' : World) : Prop :=
| history_transaction u : unit_step (w_unit w) u -> w' = with_unit u w -> history_step admissible w w'
| history_execution config authority runId :
    (forall i, admissible config i) -> session (execute config authority runId) w w' -> history_step admissible w w'
| history_write config i :
    admissible config i -> session (executeWriteEffect config i) w w' ->
    history_step admissible w w'
| history_recovery config wo projection history :
    session (recoverInterruptedEffect config wo projection history) w w' ->
    history_step admissible w w'
| history_approval config wo projection policy registration stepId argumentsDigest targetDigest :
    session
      (approvedToolCall config wo projection policy registration stepId argumentsDigest targetDigest) w w' ->
    history_step admissible w w'
| history_claim config wo approval stepId toolCallId argumentsDigest targetDigest :
    session
      (claimReadApproval config wo approval stepId toolCallId argumentsDigest targetDigest) w w' ->
    history_step admissible w w'.

Lemma history_step_log admissible w w' : history_step admissible w w' -> exists new, w_log w' = new ++ w_log w.
Proof. intros [u _ -> | | | | |]; [by exists [] | by eapply session_log ..]. Qed.

(** What every session keeps holds along a history. *)
Lemma history_invariant admissible (Inv : World -> Prop) w w' :
  (forall w1 w2, Inv w1 -> others w1 w2 -> Inv w2) ->
  (forall config i w1, admissible config i -> Inv w1 -> safely Inv (executeWriteEffect config i) w1) ->
  (forall A (p : rt A) w1, quiet p -> Inv w1 -> safely Inv p w1) ->
  steps (history_step admissible) w w' -> never_replayed "EffectDispatched" w' -> Inv w -> Inv w'.
Proof.
  intros Hothers Hwrite Hquiet. induction 1 as [w | w w1 w2 H01 H12 IH]; [done |]. intros Hn HI.
  apply IH; [done |]. assert (never_replayed "EffectDispatched" w1) as Hn1.
  { eapply never_replayed_before, Hn. clear -H12. induction H12 as [w | w w1 w2 H01%history_step_log _ [new Hnew]]; [by exists [] |].
    destruct H01 as [new' Hnew']. exists (new ++ new'). by rewrite Hnew, Hnew', app_assoc. }
  assert (forall A (p : rt A), safely Inv p w -> session p w w1 -> Inv w1) as Hsession.
  { intros A p Hp Hs. exact (safe_session _ _ _ _ _ Inv _ _ _ _ Hothers Hp HI Hs Hn1). }
  destruct H01 as [u Hu -> | config authority runId Had Hs | config i Had Hs | | |].
  - eapply Hothers; [done |]. split; [done |]. by eapply steps_cons, steps_refl.
  - eapply Hsession; [| exact Hs]. eapply composed_safely; [done | | by apply execute_composed | done].
    intros i w' Hi. by apply Hwrite.
  - eapply Hsession; [| exact Hs]. by apply Hwrite.
  - eapply Hsession; [apply Hquiet; [apply recover_quiet, covers_quiet | done] | done].
  - eapply Hsession; [apply Hquiet; [apply approved_quiet, covers_quiet | done] | done].
  - eapply Hsession; [apply Hquiet; [apply claim_quiet, covers_quiet | done] | done].
Qed.

(** A world before any session. *)
Definition starting (w : World) : Prop := w_log w = [] /\ ledger_reachable (w_ledger w).

Lemma history_effect_inv admissible e w w' :
  starting w -> steps (history_step admissible) w w' -> never_replayed "EffectDispatched" w' -> effect_inv e w'.
Proof.
  intros [Hl Hr] Hs Hn. eapply history_invariant; [| | | exact Hs | exact Hn |].
  - intros w1 w2 HI H12%others_calm. by eapply effect_inv_calm.
  - intros config i w1 _ HI. by apply executeWriteEffect_safely.
  - intros A p w1 Hp HI. by apply quiet_kept.
  - split; rewrite ?Hl; try done; [by apply ledger_reachable_wf | by intros c s Hin%elem_of_nil].
Qed.

(** C2: a write effect is dispatched again only once it is known not to have been
    applied.  However often the run is executed, stopped anywhere and executed
    again, whatever the host's ports answer, whichever transactions of others are
    committed in between and whether or not the answers of its own transactions
    are lost: between any two dispatches of an effect there is a lookup of that
    effect which answered that it was not applied.  (No session may have its
    dispatch event answered from an earlier transition's record; the key of a
    transition names the lease and the place in the stream, which a session that
    reads its projection does not reuse.) *)
Theorem redispatch_needs_refutation admissible w w' newer d' between d older e :
  starting w -> steps (history_step admissible) w w' -> never_replayed "EffectDispatched" w' ->
  w_log w' = newer ++ d' :: between ++ d :: older ->
  is_dispatch e d = true -> is_dispatch e d' = true ->
  exists c, obs_lookup c (Return lookup_not_applied) ∈ between /\ effect_of c = e.
Proof.
  intros Hw Hs Hn Hl Hd Hd'. pose proof (ei_spaced _ _ (history_effect_inv _ e _ _ Hw Hs Hn)) as Hsp. rewrite Hl in Hsp.
  destruct (spaced_between _ _ _ _ _ _ Hsp Hd Hd') as (x & Hx & Href). destruct x as [| c [[] |] |]; try done.
  exists c. cbn in Href. bools. done.
Qed.

(** C3: write ahead.  Whenever the host's code that carries out a write effect is
    called, the ledger already says that the effect has been dispatched, so that a
    session that finds the effect only prepared can be sure it was never made. *)
Theorem dispatch_is_on_record admissible w w' c s :
  starting w -> steps (history_step admissible) w w' -> never_replayed "EffectDispatched" w' ->
  obs_dispatch c s ∈ w_log w' ->
  exists r, getByEffectKey (dc_tenantId c) (dc_runId c) (dc_effectKey c) s = Some r /\ eff_state r <> prepared.
Proof. intros Hw Hs Hn Hin. exact (ei_ahead _ _ (history_effect_inv _ (effect_of c) _ _ Hw Hs Hn) c s Hin). Qed.

(** ** Strategies without lookup *)

Definition no_lookup_call {R} (call : RuntimeCall R) : bool :=
  match call with rc_lookup _ _ => false | _ => true end.

Lemma covers_no_lookup : covers (@no_lookup_call).
Proof. by intros R []. Qed.
#[local] Hint Resolve covers_no_lookup : quiet_programs.


Lemma dispatch_effect_no_lookup config i plan p record attempt :
  only (@no_lookup_call) (dispatch_effect config i plan p record attempt).
Proof.
  unfold dispatch_effect, acknowledge_write_effect, park_write_effect.
  apply only_try; [apply only_bind; [apply withActiveExecution_quiet; [apply covers_no_lookup |] |] |]; quiet.
Qed.
#[local] Hint Resolve dispatch_effect_no_lookup : quiet_programs.





End Sessions.
