(* ===== verification/WriteEffectExamples.v ===== *)
(** * Write effects on a concrete run

    A run whose effect is prepared: a session is stopped in the middle of the
    dispatch and another one resumes the effect. *)

From S2P Require Import Prelude JsTime Errors Schema JsonValue Unicode JsonText Contracts WorkOrder.
From S2P Require Import Authorization Effects Run Events StoreInternal LeaseStore EventStore Digest JsMap.
From S2P Require Import JsArithmetic EffectLedger EffectLedgerFacts Commands Admission ModelCalls Quota.
From S2P Require Import ActiveExecution Decisions AuthorityStores WorkOrderStore RecordStores.
From S2P Require Import AcknowledgedResults UnitOfWork UnitOfWorkFacts EffectServices Checkpoints.
From S2P Require Import RuntimeProgram WriteEffect RuntimeSessions WriteEffectFacts.
From S2P Require Import Histories PolicyExamples TenantIsolation.

Local Open Scope Z_scope.

#[local] Existing Instance zod_reference.

Definition value_of {A} (d : A) (o : outcome js_error A) : A := match o with Return a => a | Throw _ => d end.

(** ** The run *)

Definition write_at : string := "2026-09-04T10:00:01.000Z".

Definition write_order : AcceptedWorkOrder :=
  {| wo_common := {|
       wo_id := "wo-1"; wo_createdAt := write_at; wo_goal := "Reply"; wo_input := Jnull;
       wo_context := {| wc_roleFamily := "support"; wc_workflowId := "w"; wc_riskClass := risk_high |};
       wo_workMode := mode_assist; wo_autonomyMode := autonomy_delegate_review;
       wo_decisionOwner := owner_registered_role "lead"; wo_purpose := example_purpose;
       wo_dataClass := data_internal; wo_retention := retain_session;
       wo_principal := example_principal; wo_tenant := {| tenant_id := "tenant-1" |};
       wo_requestedCapabilities := ["mail.send"]; wo_resourceScopeCeiling := [path_scope "outbox"];
       wo_budget := some_budget; wo_workflowContext := None; wo_correlationId := Some "corr-1";
       wo_deadline := None; wo_region := None; wo_jurisdiction := None;
       wo_workOrderBindingDigest := example_digest |};
     wo_executionDefinitionDigest := example_digest;
     wo_kind := agent_work_order {| ad_id := "agent"; ad_version := "1.0.0";
                                    ad_agentDefinitionDigest := example_digest |}
                  example_digest example_digest example_digest |}.

Definition run_event (n : Z) (id : string) (p : RunEventPayload) : RunEvent :=
  {| e_eventId := id; e_runId := "run-1"; e_sequence := n; e_occurredAt := write_at;
     e_correlationId := "corr-1"; e_causationId := None; e_tenantId := "tenant-1"; e_dataClass := data_internal;
     e_executionDefinition := wo_executionDefinition write_order;
     e_executionDefinitionDigest := example_digest; e_prevHash := None; e_payload := p |}.

(** The events of the run up to the preparation of its effect. *)
Definition write_events (effectKey effectDigest : string) (strategy : EffectStrategyKind) : EventStore :=
  let put n id p s := (append suite_profile (run_event n id p) (n - 1) s).2 in
  put 3 "event-3" (EffectPrepared "step-1" "effect-1" effectDigest effectKey strategy)
    (put 2 "event-2" (ExecutionStarted "step-1" None)
       (put 1 "event-1" (RunAccepted "wo-1" example_digest []) empty_event_store)).

Definition projection_of (s : EventStore) : RunProjection :=
  default (createRunProjection
    {| run_runId := ""; run_tenantId := ""; run_workOrderId := ""; run_workOrderBindingDigest := "";
       run_executionDefinition := example_agent; run_executionDefinitionDigest := ""; run_status := created;
       run_createdAt := ""; run_updatedAt := ""; run_dataClass := data_internal; run_correlationId := "" |})
    (getProjection "tenant-1" "run-1" s).

Definition projection_in (w : World) : RunProjection := projection_of (st_events (uow_stores (w_unit w))).

(** ** The tool *)

Definition write_tool (kind : RuntimeStrategyKind) : ToolRegistrationContract := {|
  tool_id := "mail.send@1"; tool_implementationVersion := "1"; tool_description := "Sends mail";
  tool_inputSchemaDigest := example_digest; tool_outputSchemaDigest := example_digest;
  tool_security := {| ts_riskClass := R2; ts_dataClasses := [data_internal];
    ts_reversibility := irreversible; ts_requiredScopes := ["mail.send"]; ts_egress := egress_none;
    ts_networkEnforcement := network_declared_ok; ts_maxCallsPerRun := 1; ts_timeoutMs := 1000;
    ts_costCeiling := None |};
  tool_previewStrategyRegistrationDigest := Some example_digest;
  tool_effectStrategyKind := tool_strategy kind; tool_effectStrategyRegistrationDigest := example_digest;
  tool_compensationStrategyRegistrationDigest := None; tool_executorKind := "in_process";
  tool_executorVersion := "1"; tool_toolRegistrationDigest := example_digest |}.

Definition write_strategy (kind : RuntimeStrategyKind) : RuntimeExecutableEffectStrategy :=
  {| st_kind := kind; st_registrationDigest := example_digest; st_previewRegistrationDigest := example_digest;
     st_validateOutput := Return; st_operationKey := fun _ _ => Return "operation-1" |}.

Definition write_config (kind : RuntimeStrategyKind) : RuntimeConfig :=
  {| cfg_unitOfWorkDomain := "memory"; cfg_leaseTtlMs := None; cfg_decisionStore := false;
     cfg_effectStrategies := Some (fun _ => Some (write_strategy kind)); cfg_effectResultProtector := true;
     cfg_contextStore := false; cfg_contextProtector := false; cfg_contextCheckpointTransactionDomain := None;
     cfg_activeExecutionDomain := None; cfg_leaseHolderId := "worker"; cfg_toolRegistry := fun _ => None;
     cfg_networkPolicy := Policy.network_none; cfg_verifierRegistry := fun _ => false; cfg_killSwitches := false;
     cfg_decisionPreviewer := false; cfg_inputSubmissionStore := false; cfg_inputProtector := false;
     cfg_typedInputRegistry := false; cfg_retryPolicy := false; cfg_retryJitterSource := false;
     cfg_modelClassifiesErrors := false; cfg_toolClassifiesErrors := false;
     cfg_requireProductionModelBoundary := false; cfg_durableStores := []; cfg_productionModelServices := None;
     cfg_compensationDomain := None |}.

Definition target_digest : string := Eval vm_compute in value_of EmptyString (digestCanonicalJson (jstr "outbox/today")).

Definition write_input (kind : RuntimeStrategyKind) (projection : RunProjection) : WriteEffectInput :=
  {| wi_workOrder := write_order; wi_policyRegistrationDigest := example_digest; wi_projection := projection;
     wi_registration := write_tool kind; wi_stepId := "step-1"; wi_toolCallId := "call-1"; wi_value := Jnull;
     wi_normalizedTargetDigest := target_digest; wi_approval := None; wi_checkpoint := None |}.

Definition write_effect_key : string := Eval vm_compute in
  value_of EmptyString (createEffectKey (effect_key_input
    (write_input runtime_none (projection_of (write_events EmptyString EmptyString strategy_none)))
    (value_of EmptyString (digestCanonicalJson Jnull)))).

(** ** The ledger: the effect is authorized and prepared *)

Definition write_authorization (kind : RuntimeStrategyKind) : AuthorizationReservation :=
  {| res_authorizationReservationId := "reservation-1"; res_authorizationKey := write_effect_key;
     res_tenantId := "tenant-1"; res_runId := "run-1"; res_stepId := "step-1";
     res_toolCallId := "call-1"; res_effectKey := Some write_effect_key;
     res_workOrderBindingDigest := example_digest;
     res_executionDefinition := wo_executionDefinition write_order;
     res_executionDefinitionDigest := example_digest; res_toolId := tool_id (write_tool kind);
     res_toolVersion := tool_implementationVersion (write_tool kind); res_toolRegistrationDigest := example_digest;
     res_policyRegistrationDigest := example_digest;
     res_argumentsDigest := value_of EmptyString (digestCanonicalJson Jnull);
     res_normalizedTargetDigest := target_digest; res_grantId := "grant-1"; res_approvalId := None;
     res_secretRefIds := []; res_purposeCode := "support"; res_purposeRegistryVersion := "1";
     res_state := reservation_consumed; res_createdAt := write_at;
     res_expiresAt := "2026-09-04T11:00:00.000Z"; res_consumedAt := Some write_at |}.

Definition write_identity (kind : RuntimeStrategyKind) : EffectIdentity :=
  {| eff_effectId := "effect-1"; eff_tenantId := "tenant-1"; eff_runId := "run-1"; eff_stepId := "step-1";
     eff_toolCallId := "call-1"; eff_effectKey := write_effect_key; eff_operationKey := Some "operation-1";
     eff_executionDefinition := wo_executionDefinition write_order;
     eff_executionDefinitionDigest := example_digest; eff_workOrderBindingDigest := example_digest;
     eff_toolId := tool_id (write_tool kind); eff_toolVersion := "1"; eff_toolRegistrationDigest := example_digest;
     eff_strategy := ledger_strategy kind; eff_strategyRegistrationDigest := example_digest;
     eff_authorizationReservationId := "reservation-1";
     eff_argumentsDigest := value_of EmptyString (digestCanonicalJson Jnull);
     eff_normalizedTargetDigest := target_digest; eff_createdAt := write_at |}.

Definition write_digests : string * string := Eval vm_compute in
  let digest kind := value_of EmptyString (digestCanonicalJson (effectIdentity (write_identity kind))) in
  (digest runtime_native, digest runtime_reconcilable).

Definition write_digest (kind : RuntimeStrategyKind) : string :=
  if bool_decide (kind = runtime_native) then write_digests.1 else write_digests.2.

Definition write_ledger (kind : RuntimeStrategyKind) : EffectLedger :=
  (putEffectRecord {| eff_identity := write_identity kind; eff_effectDigest := write_digest kind;
                      eff_updatedAt := write_at; eff_variant := effect_prepared |}
     (putAuthorizationReservation (write_authorization kind) empty_ledger).2).2.

Definition world0 (kind : RuntimeStrategyKind) : World :=
  {| w_unit := new_unit_of_work
       (set_events (write_events write_effect_key (write_digest kind) (ledger_strategy kind))
          (set_effects (write_ledger kind) empty_stores));
     w_log := [] |}.

Lemma world0_starting kind : starting (world0 kind).
Proof.
  split; [done |]. eapply steps_cons; [apply (step_reservation (write_authorization kind)) |].
  eapply steps_cons, steps_refl. apply (step_effect {| eff_identity := write_identity kind |}).
Qed.

(** ** The host *)

Definition write_preview : EffectPreview := Eval vm_compute in
  let preview digest :=
    {| ep_normalizedTarget := "outbox/today"; ep_operationClass := "send"; ep_contentDigest := example_digest;
       ep_reversibility := preview_irreversible; ep_materialConsequence := "A mail is sent";
       ep_approvalDisplay := None; ep_diffDigest := None; ep_previewDigest := digest |} in
  preview (value_of EmptyString (digestCanonicalJson (preview_material (preview EmptyString)))).

Definition write_lease (id : string) : RunLease :=
  {| lease_leaseId := id; lease_tenantId := "tenant-1"; lease_runId := "run-1"; lease_holderId := "worker";
     lease_fencingToken := 1; lease_acquiredAt := write_at; lease_expiresAt := "2026-09-04T10:01:00.000Z";
     lease_state := lease_active |}.

(** The host answers the runtime; the session is aborted in the middle of its
    dispatch. *)
Definition write_host (leaseId : string) (R : Type) (call : RuntimeCall R) : outcome js_error R :=
  match call in RuntimeCall R' return outcome js_error R' with
  | rc_now | rc_store_clock => Return write_at
  | rc_lease => Return (write_lease leaseId)
  | rc_renewLease _ => Return tt
  | rc_heartbeat => Return None
  | rc_aborted => Return true
  | rc_preview _ _ => Return write_preview
  | rc_lookup _ _ => Return lookup_not_applied
  | _ => Throw (RangeError "aborted")
  end.

Definition attempt (kind : RuntimeStrategyKind) (leaseId : string) (w : World) : World :=
  (simulate suite_profile None [] default_receipt_id (write_host leaseId)
    (executeWriteEffect (write_config kind) (write_input kind (projection_in w))) w).2.

Definition written : string * string * string := ("tenant-1", "run-1", write_effect_key).

(** ** Logs *)

Definition is_replay (o : Observation) : bool := match o with obs_replayed _ => true | _ => false end.

Lemma no_replay w kind : existsb is_replay (w_log w) = false -> never_replayed kind w.
Proof.
  intros Hn Hin. apply Is_true_false in Hn. apply Hn. apply Is_true_eq_left, existsb_exists.
  exists (obs_replayed kind). split; [by apply list_elem_of_In | done].
Qed.

Lemma is_dispatch_shape e o : is_dispatch e o = true -> exists c s, o = obs_dispatch c s.
Proof. destruct o as [c s | |]; [by exists c, s | done ..]. Qed.

(** What is observed of a world: its log with the latest entry first, whether a
    transition was replayed, the state of the effect and the length of the stream. *)
Inductive Entry := dispatched_entry | refuted_entry | other_entry.

Definition entry_of (o : Observation) : Entry :=
  if is_dispatch written o then dispatched_entry else if is_refutation written o then refuted_entry else other_entry.

Definition summary (w : World) : list Entry * bool * option EffectState * Z :=
  (entry_of <$> w_log w, existsb is_replay (w_log w),
   eff_state <$> getByEffectKey "tenant-1" "run-1" write_effect_key (w_ledger w), p_lastSequence (projection_in w)).

(** ** Sessions *)

(** A session that is stopped in its dispatch, and the one that resumes it: a
    reconcilable effect is looked up, and dispatched again. *)
Definition stopped (kind : RuntimeStrategyKind) : World := attempt kind "lease-1" (world0 kind).
Definition resumed (kind : RuntimeStrategyKind) : World := attempt kind "lease-2" (stopped kind).


Lemma reconcilable_resumed :
  summary (resumed runtime_reconcilable)
  = ([dispatched_entry; refuted_entry; dispatched_entry], false, Some dispatched, 5).
Proof. vm_compute. reflexivity. Qed.

(** ** The theorems at these sessions *)

Lemma entry_dispatched o : entry_of o = dispatched_entry -> is_dispatch written o = true.
Proof. unfold entry_of. by destruct (is_dispatch written o), (is_refutation written o). Qed.

Lemma summary_log w l replay st n : summary w = (l, replay, st, n) -> entry_of <$> w_log w = l.
Proof. by intros [=]. Qed.

Lemma summary_replay w l replay st n : summary w = (l, replay, st, n) -> existsb is_replay (w_log w) = replay.
Proof. by intros [=]. Qed.

Notation example_history := (history_step suite_profile None [] default_receipt_id).

Lemma attempt_step (admissible : RuntimeConfig -> WriteEffectInput -> Prop) kind leaseId w :
  (forall p, admissible (write_config kind) (write_input kind p)) -> example_history admissible w (attempt kind leaseId w).
Proof. intros Ha. eapply history_write; [apply Ha |]. unfold attempt. apply simulate_session. Qed.

Lemma one_session (admissible : RuntimeConfig -> WriteEffectInput -> Prop) kind :
  (forall p, admissible (write_config kind) (write_input kind p)) ->
  steps (example_history admissible) (world0 kind) (stopped kind).
Proof. intros Ha. exact (steps_cons _ _ _ _ (attempt_step _ kind "lease-1" _ Ha) (steps_refl _ _)). Qed.

Lemma two_sessions :
  steps (example_history (fun _ _ => True)) (world0 runtime_reconcilable) (resumed runtime_reconcilable).
Proof.
  exact (steps_trans _ _ _ _ (one_session (fun _ _ => True) runtime_reconcilable (fun _ => I))
    (steps_cons _ _ _ _ (attempt_step (fun _ _ => True) _ "lease-2" _ (fun _ => I)) (steps_refl _ _))).
Qed.



(** The three entries of the reconcilable effect. *)
Lemma reconcilable_log :
  exists d' l d, w_log (resumed runtime_reconcilable) = [d'; l; d]
    /\ is_dispatch written d' = true /\ is_dispatch written d = true.
Proof.
  pose proof (summary_log _ _ _ _ _ reconcilable_resumed) as Hl.
  destruct (w_log (resumed runtime_reconcilable)) as [| d' [| l [| d [|]]]]; try discriminate Hl.
  injection Hl as Hd' _ Hd. exists d', l, d. auto using entry_dispatched.
Qed.

Lemma redispatch_needs_refutation_witness :
  exists d' l d c, w_log (resumed runtime_reconcilable) = [] ++ d' :: [l] ++ [d]
    /\ obs_lookup c (Return lookup_not_applied) ∈ [l] /\ effect_of c = written.
Proof.
  destruct reconcilable_log as (d' & l & d & Hl & Hd' & Hd). exists d', l, d.
  destruct (redispatch_needs_refutation suite_profile None [] default_receipt_id _ _ _ [] d' [l] d [] written
    (world0_starting runtime_reconcilable) two_sessions (no_replay _ _ (summary_replay _ _ _ _ _ reconcilable_resumed))
    Hl Hd Hd') as (c & Hc & He).
  exists c. exact (conj Hl (conj Hc He)).
Defined.

Lemma dispatch_is_on_record_witness :
  exists c s r, obs_dispatch c s ∈ w_log (resumed runtime_reconcilable)
    /\ getByEffectKey (dc_tenantId c) (dc_runId c) (dc_effectKey c) s = Some r /\ eff_state r <> prepared.
Proof.
  destruct reconcilable_log as (d' & l & d & Hl & Hd' & _). destruct (is_dispatch_shape _ _ Hd') as (c & s & ->).
  assert (obs_dispatch c s ∈ w_log (resumed runtime_reconcilable)) as Hin by (rewrite Hl; by left).
  destruct (dispatch_is_on_record suite_profile None [] default_receipt_id _ _ _ c s
    (world0_starting runtime_reconcilable) two_sessions
    (no_replay _ _ (summary_replay _ _ _ _ _ reconcilable_resumed)) Hin) as (r & Hr & Hst).
  exists c, s, r. exact (conj Hin (conj Hr Hst)).
Defined.
