(* ===== verification/ExecutionExamples.v ===== *)
(** * An execution that reads

    A run resumed from the checkpoint of a tool call: the policy permits the call
    and the host's executor is asked to run it. *)

From S2P Require Import Prelude JsTime Errors Schema JsonValue Unicode JsonText Contracts WorkOrder Authorization.
From S2P Require Import Authority Policy Effects Run Events StoreInternal LeaseStore Digest JsMap JsArithmetic.
From S2P Require Import EffectLedger Decisions WorkOrderStore RecordStores AcknowledgedResults UnitOfWork EffectServices.
From S2P Require Import Checkpoints ModelRecords HostPorts RuntimeProgram WriteEffect RunChecks RunResume RunCompletion.
From S2P Require Import ExecuteRun Execution ExecutionSafety PolicyExamples ReservationFacts WriteEffectExamples.

Local Open Scope Z_scope.

#[local] Existing Instance zod_reference.

(** ** The run *)

Definition read_tool_contract : ToolRegistrationContract := {|
  tool_id := "mail.read@1"; tool_implementationVersion := "1"; tool_description := "Reads mail";
  tool_inputSchemaDigest := example_digest; tool_outputSchemaDigest := example_digest;
  tool_security := {| ts_riskClass := R1; ts_dataClasses := [data_internal];
    ts_reversibility := irreversible; ts_requiredScopes := ["mail.send"]; ts_egress := egress_none;
    ts_networkEnforcement := network_declared_ok; ts_maxCallsPerRun := 1; ts_timeoutMs := 1000;
    ts_costCeiling := None |};
  tool_previewStrategyRegistrationDigest := Some example_digest;
  tool_effectStrategyKind := tool_read; tool_effectStrategyRegistrationDigest := example_digest;
  tool_compensationStrategyRegistrationDigest := None; tool_executorKind := "in_process";
  tool_executorVersion := "1"; tool_toolRegistrationDigest := example_digest |}.

Definition read_agent : AgentDefinition := {|
  agd_id := "agent"; agd_version := "1.0.0"; agd_description := "Reads";
  agd_instructions := {| ib_entries := []; ib_bundleDigest := example_digest |};
  agd_skillManifestDigests := []; agd_inputSchemaDigest := example_digest; agd_outputSchemaDigest := example_digest;
  agd_toolRegistrationDigests := [example_digest]; agd_policyRegistrationDigest := example_digest;
  agd_verifierRegistrationDigests := []; agd_modelSecurityProfileDigest := example_digest;
  agd_modelResourceProfileDigest := example_digest; agd_modelAdapterRegistrationDigest := example_digest;
  agd_modelConfig := Jnull; agd_requiredRuntimeCapabilities := []; agd_agentDefinitionDigest := example_digest |}.

(** The host of the write effects, with a store of contexts and this tool. *)
Definition read_config : RuntimeConfig :=
  {| cfg_unitOfWorkDomain := "memory"; cfg_leaseTtlMs := None; cfg_decisionStore := false;
     cfg_effectStrategies := None; cfg_effectResultProtector := false;
     cfg_contextStore := true; cfg_contextProtector := true;
     cfg_contextCheckpointTransactionDomain := Some "memory";
     cfg_activeExecutionDomain := None; cfg_leaseHolderId := "worker";
     cfg_toolRegistry := fun _ => Some read_tool_contract;
     cfg_networkPolicy := Policy.network_none; cfg_verifierRegistry := fun _ => false; cfg_killSwitches := false;
     cfg_decisionPreviewer := false; cfg_inputSubmissionStore := false; cfg_inputProtector := false;
     cfg_typedInputRegistry := false; cfg_retryPolicy := false; cfg_retryJitterSource := false;
     cfg_modelClassifiesErrors := false; cfg_toolClassifiesErrors := false;
     cfg_requireProductionModelBoundary := false; cfg_durableStores := []; cfg_productionModelServices := None;
     cfg_compensationDomain := None |}.

Definition read_projection : RunProjection :=
  {| p_run := {| run_runId := "run-1"; run_tenantId := "tenant-1"; run_workOrderId := "wo-1";
                 run_workOrderBindingDigest := example_digest;
                 run_executionDefinition := wo_executionDefinition write_order;
                 run_executionDefinitionDigest := example_digest; run_status := running;
                 run_createdAt := write_at; run_updatedAt := write_at; run_dataClass := data_internal;
                 run_correlationId := "corr-1" |};
     p_lastSequence := 6; p_lastEventId := Some "event-6"; p_currentStepId := Some "step-1"; p_resumeTarget := None;
     p_waitingRequestId := None; p_waitingDecisionId := None; p_activeEffectId := None; p_artifactIds := [];
     p_verificationIds := []; p_requiredVerifierIds := []; p_passedVerifierIds := [];
     p_verificationExceptionIds := []; p_terminalErrorCode := None |}.

Definition read_checkpoint : RuntimeContextCheckpoint :=
  run_checkpoint phase_tool (Some Jnull) (Some "step-1") (Some 1) (Some (emission_tool_call example_digest Jnull None))
    (Some "call-1").

(** The digests of the schema and of the payload, and the snapshot of the checkpoint. *)
Definition read_digests : string * string := Eval vm_compute in
  (value_of EmptyString runtime_context_schema_digest, value_of EmptyString (digestBytes [123; 125])).

Definition read_snapshot_of (aadDigest : string) : ContextSnapshot :=
  snapshot_material write_order (run_event 6 "event-6" (ToolCallRequested "step-1" "call-1" example_digest example_digest))
    "step-1" read_digests.1 read_digests.2 2
    {| pv_protectorId := "p"; pv_keyId := "k"; pv_ciphertextRef := "c"; pv_ciphertextDigest := example_digest;
       pv_aadDigest := aadDigest; pv_algorithm := "aes" |}.

Definition read_aad : string := Eval vm_compute in
  value_of EmptyString (digestCanonicalJson (binding_json (contextBinding (read_snapshot_of example_digest)))).

(** ** The host *)

Definition read_host (R : Type) (call : RuntimeCall R) : outcome js_error R :=
  match call in RuntimeCall R' return outcome js_error R' with
  | rc_now | rc_store_clock => Return write_at
  | rc_verifyAuthority _ _ => Return (verification_valid example_claims)
  | rc_getProjection _ _ => Return (Some read_projection)
  | rc_getWorkOrder _ _ => Return (Some write_order)
  | rc_resolveAgent _ _ _ => Return (Some read_agent)
  | rc_acquireLease _ _ _ _ => Return (Some (write_lease "lease-1"))
  | rc_lease => Return (write_lease "lease-1")
  | rc_readEvents _ _ => Return []
  | rc_getLatestContext _ _ => Return (Some (read_snapshot_of read_aad))
  | rc_unprotectContext _ _ => Return {| pt_bytes := [123; 125]; pt_value := text_value read_checkpoint |}
  | rc_monotonic => Return 0
  | rc_aborted => Return false
  | rc_resolveToolCall _ _ input =>
      Return {| tr_validatedInput := input; tr_resources := [path_scope "outbox"]; tr_requestedCost := None |}
  | rc_evaluatePolicy _ => Return (host_permits false "allowed" [path_scope "outbox"] target_digest)
  | _ => Throw (RangeError "stopped")
  end.

Definition is_execution (o : Performed) : bool :=
  match o with performed (rc_executeTool _ _) _ => true | _ => false end.

(** The log up to the first execution of a tool. *)
Fixpoint log_until (oracle : forall R, RuntimeCall R -> outcome js_error R) (fuel : nat) {A} (p : rt A)
  : list Performed :=
  match fuel, p with
  | S fuel, rt_vis call k =>
      let o := performed call (oracle _ call) in
      o :: if is_execution o then [] else log_until oracle fuel (k (oracle _ call))
  | _, _ => []
  end.

Lemma log_until_execution oracle fuel {A} (p : rt A) : execution p (log_until oracle fuel p).
Proof.
  revert p. induction fuel as [| fuel IH]; intros [o | R call k]; try constructor.
  destruct (is_execution _); [constructor | apply IH].
Qed.

Definition ends_in_execution (log : list Performed) : bool :=
  match list.last log with Some o => is_execution o | None => false end.

Lemma ends_in_execution_split log :
  ends_in_execution log = true ->
  exists before registration input answer, log = before ++ [performed (rc_executeTool registration input) answer].
Proof.
  unfold ends_in_execution. destruct (list.last log) as [o |] eqn:Hl; [| done]. intros Ho.
  apply list.last_Some in Hl as [before ->]. destruct o as [R call answer]. destruct call; try done. eauto.
Qed.

Definition read_log : list Performed := log_until read_host 40 (execute read_config (js_object 0%nat) "run-1").

Lemma read_log_executes : ends_in_execution read_log = true.
Proof. vm_compute. reflexivity. Qed.

(** The tool was executed, and its call had been permitted. *)
Lemma executed_calls_are_permitted_witness :
  exists before registration input answer,
    execution (execute read_config (js_object 0%nat) "run-1")
      (before ++ [performed (rc_executeTool registration input) answer])
    /\ exists target, permitted before registration input target.
Proof.
  destruct (ends_in_execution_split _ read_log_executes) as (before & registration & input & answer & Hl).
  pose proof (log_until_execution read_host 40 (execute read_config (js_object 0%nat) "run-1")) as He.
  fold read_log in He. rewrite Hl in He.
  exists before, registration, input, answer. split; [exact He |].
  exact (executed_calls_are_permitted _ _ _ _ _ _ He).
Defined.
